(** * AdvantageScope assets: [src/main/assetsUtil.ts]

    A shallow embedding of [loadAssets] and [encodePath], of
    [createAssetFolders] and of [convertLegacyAssets], and the properties
    of the asset collection and of the folders they build.

    Conventions of the embedding.
    - A JavaScript string is a [string] of the Standard Library, read as the
      bytes of its UTF-8 form (what the file system and [config.json] hold;
      a string with an unpaired surrogate has no such form and is outside
      the model).  The path separator, the four kind prefixes, the percent
      sign and the hexadecimal digits are ASCII, so [split], [startsWith],
      [endsWith] and percent-encoding act on the bytes as they act on the
      code units.  The comparisons [<] and [>] on strings go by the UTF-16
      code units, which [Str.utf16] gives for the UTF-8 form: a character
      above U+FFFF, whose code units are surrogates, comes before one from
      U+E000 to U+FFFF, although its bytes come after.
    - A number read from JSON is a rational [Q]: the loader only compares
      numbers with zero.
    - A JavaScript exception is the [Throw] case of [result]; nothing in
      [loadAssets] catches one except the [try] around the read of
      [config.json], which the file system model answers with [None].  The
      read of the preferences and the listing of a root are outside any
      [try]: what they throw ends the load.
    - For [loadAssets], which only reads, the file system, Node's
      [path.join], the preferences, the folders and the driver stations of
      [Constants.ts] and [AdvantageScopeAssets.ts], and the locale
      comparison are parameters, gathered in the record [Env].
    - For [createAssetFolders] and [convertLegacyAssets], which write, the
      disk is a tree ([Fs.node]) that the calls of [fs] and [jsonfile]
      take from one state to the next; a call that throws ends the
      computation with the disk as it is then.  The answer of the user to
      the message box is an argument, and so is the number of tests that the
      [while (true)] of the conversion may make. *)

From Stdlib Require Import String Ascii List Bool Arith NArith ZArith QArith Lia.
From Stdlib Require Import Permutation Sorted DecimalString DecimalNat.
Import ListNotations.
Local Open Scope string_scope.
Local Open Scope list_scope.
Local Open Scope nat_scope.

(* ================================================================== *)
(** * Exceptions *)

(** [SystemError] is an error of [fs] with a code ([ENOENT], [ENOTDIR],
    ...), [SyntaxError] the error of [JSON.parse]. *)
Inductive exn : Set := TypeError | URIError | SystemError | SyntaxError.

Inductive result (A : Type) : Type :=
| Ok (a : A)
| Throw (e : exn).

Arguments Ok {A} a.
Arguments Throw {A} e.

Definition bind {A B : Type} (c : result A) (k : A -> result B) : result B :=
  match c with
  | Ok a => k a
  | Throw e => Throw e
  end.

Notation "x <- c ;; k" := (bind c (fun x => k))
  (at level 61, c at next level, right associativity).

(** [Array.prototype.forEach] whose callback pushes at most one element onto
    an array that starts empty. *)
Fixpoint forEachPush {A B : Type} (f : A -> result (option B)) (l : list A)
  : result (list B) :=
  match l with
  | [] => Ok []
  | x :: r =>
      o <- f x ;;
      rest <- forEachPush f r ;;
      Ok (match o with Some b => b :: rest | None => rest end)
  end.

(* ================================================================== *)
(** * Strings *)

Module Str.

(** [s.startsWith(p)] *)
Definition startsWith (s p : string) : bool := String.prefix p s.

(** [s.endsWith(suffix)]: some tail of [s] is [suffix]. *)
Fixpoint endsWith (s suffix : string) : bool :=
  String.eqb s suffix ||
  match s with
  | EmptyString => false
  | String _ r => endsWith r suffix
  end.

(** [s.includes(sub)] *)
Fixpoint includes (s sub : string) : bool :=
  String.prefix sub s ||
  match s with
  | EmptyString => false
  | String _ r => includes r sub
  end.

(** [s.split(sep)] for a separator of one character. *)
Fixpoint split (sep : ascii) (s : string) : list string :=
  match s with
  | EmptyString => [EmptyString]
  | String c r =>
      if (c =? sep)%char then EmptyString :: split sep r
      else match split sep r with
           | [] => [String c EmptyString]
           | h :: t => String c h :: t
           end
  end.

(** [segments.join(sep)] *)
Definition join (sep : ascii) (segments : list string) : string :=
  String.concat (String sep EmptyString) segments.

(** [s.slice(0, -4)]; the loader applies it to a path that ends in
    ["model.glb"], whose last four code units are four bytes. *)
Definition dropLast4 (s : string) : string :=
  substring 0 (String.length s - 4) s.

(** [index.toString()] *)
Definition ofIndex (index : nat) : string :=
  NilZero.string_of_uint (Nat.to_uint index).

(** Every character of [s] satisfies [p]. *)
Fixpoint all (p : ascii -> bool) (s : string) : bool :=
  match s with
  | EmptyString => true
  | String c r => p c && all p r
  end.

(** ** The code units of a string and the order of [<] and [>] *)

Definition byte (c : ascii) : N := N_of_ascii c.

(** A continuation byte: [10xxxxxx]. *)
Definition continuation (b : N) : bool := ((128 <=? b) && (b <=? 191))%N.

(** The code point of a well-formed UTF-8 sequence of two bytes (U+0080 to
    U+07FF), of three bytes (U+0800 to U+FFFF without the surrogates) and of
    four bytes (U+10000 to U+10FFFF). *)
Definition scalar2 (b0 b1 : N) : option N :=
  if ((194 <=? b0) && (b0 <=? 223))%N && continuation b1
  then Some (64 * (b0 - 192) + (b1 - 128))%N
  else None.

Definition scalar3 (b0 b1 b2 : N) : option N :=
  let cp := (4096 * (b0 - 224) + 64 * (b1 - 128) + (b2 - 128))%N in
  if ((224 <=? b0) && (b0 <=? 239))%N && continuation b1 && continuation b2
     && (2048 <=? cp)%N && negb ((55296 <=? cp) && (cp <=? 57343))%N
  then Some cp
  else None.

Definition scalar4 (b0 b1 b2 b3 : N) : option N :=
  let cp := (262144 * (b0 - 240) + 4096 * (b1 - 128) + 64 * (b2 - 128)
             + (b3 - 128))%N in
  if ((240 <=? b0) && (b0 <=? 244))%N
     && continuation b1 && continuation b2 && continuation b3
     && (65536 <=? cp)%N && (cp <=? 1114111)%N
  then Some cp
  else None.

(** The two code units of a code point above U+FFFF: a high surrogate
    (D800 to DBFF) and a low surrogate (DC00 to DFFF). *)
Definition surrogates (cp : N) : list N :=
  [55296 + (cp - 65536) / 1024; 56320 + (cp - 65536) mod 1024]%N.

(** The UTF-16 code units of the string whose UTF-8 form is [s]: one unit
    for a character up to U+FFFF, two for a character above.  A byte that
    belongs to no well-formed sequence, which the UTF-8 form of a string
    does not hold, is given a number above every code unit, so that two
    sequences of bytes that differ are never taken for the same string. *)
Fixpoint utf16 (s : string) : list N :=
  match s with
  | EmptyString => []
  | String c0 r0 =>
      let b0 := byte c0 in
      let stray := (65536 + b0)%N :: utf16 r0 in
      if (b0 <? 128)%N then b0 :: utf16 r0
      else
        match r0 with
        | String c1 r1 =>
            match scalar2 b0 (byte c1) with
            | Some cp => cp :: utf16 r1
            | None =>
                match r1 with
                | String c2 r2 =>
                    match scalar3 b0 (byte c1) (byte c2) with
                    | Some cp => cp :: utf16 r2
                    | None =>
                        match r2 with
                        | String c3 r3 =>
                            match scalar4 b0 (byte c1) (byte c2) (byte c3) with
                            | Some cp => surrogates cp ++ utf16 r3
                            | None => stray
                            end
                        | EmptyString => stray
                        end
                    end
                | EmptyString => stray
                end
            end
        | EmptyString => stray
        end
  end.

(** The comparison of two sequences of code units, unit by unit: a proper
    prefix comes first. *)
Fixpoint compareUnits (a b : list N) : comparison :=
  match a, b with
  | [], [] => Eq
  | [], _ :: _ => Lt
  | _ :: _, [] => Gt
  | x :: a, y :: b =>
      match (x ?= y)%N with
      | Eq => compareUnits a b
      | c => c
      end
  end.

(** [a < b] on strings; [a > b] is [lt b a]. *)
Definition lt (a b : string) : bool :=
  match compareUnits (utf16 a) (utf16 b) with
  | Lt => true
  | _ => false
  end.

End Str.

(** [array.map((x, index) => f(index, x))], counting from [index]. *)
Fixpoint mapiFrom {A B : Type} (index : nat) (f : nat -> A -> B) (l : list A)
  : list B :=
  match l with
  | [] => []
  | x :: r => f index x :: mapiFrom (S index) f r
  end.

Definition mapi {A B : Type} (f : nat -> A -> B) (l : list A) : list B :=
  mapiFrom 0 f l.

(* ================================================================== *)
(** * Percent-encoding: [encodeURIComponent], [decodeURIComponent] *)

Module Uri.

Definition isDigit (c : ascii) : bool :=
  let n := nat_of_ascii c in (48 <=? n) && (n <=? 57).
Definition isUpper (c : ascii) : bool :=
  let n := nat_of_ascii c in (65 <=? n) && (n <=? 90).
Definition isLower (c : ascii) : bool :=
  let n := nat_of_ascii c in (97 <=? n) && (n <=? 122).

(** The characters [encodeURIComponent] leaves alone:
    letters, digits and [- _ . ! ~ * ' ( )]. *)
Definition unreserved (c : ascii) : bool :=
  isUpper c || isLower c || isDigit c ||
  existsb (Ascii.eqb c) (list_ascii_of_string "-_.!~*'()").

Definition hexDigit (n : nat) : ascii :=
  nth n (list_ascii_of_string "0123456789ABCDEF") "0"%char.

(** ["%XX"] for the byte [c], in upper-case hexadecimal. *)
Definition escape (c : ascii) : string :=
  let n := nat_of_ascii c in
  String "%" (String (hexDigit (n / 16)) (String (hexDigit (n mod 16)) EmptyString)).

(** On the UTF-8 bytes of a string [encodeURIComponent] escapes every byte
    that is not an unreserved character. *)
Fixpoint encodeURIComponent (s : string) : string :=
  match s with
  | EmptyString => EmptyString
  | String c r =>
      (if unreserved c then String c EmptyString else escape c)
      ++ encodeURIComponent r
  end.

Definition hexValue (c : ascii) : option nat :=
  let n := nat_of_ascii c in
  if isDigit c then Some (n - 48)
  else if (65 <=? n) && (n <=? 70) then Some (n - 55)
  else if (97 <=? n) && (n <=? 102) then Some (n - 87)
  else None.

(** [decodeURIComponent]: every ["%XX"] becomes the byte it names; a percent
    sign that is not followed by two hexadecimal digits raises [URIError].
    The bytes an escape run decodes to are taken as they are.  JavaScript
    raises [URIError] as well on a run that is not the UTF-8 form of
    characters; [encodeURIComponent] writes no such run, so that the two
    differ only on a path whose first segment, left unencoded because it
    ends in a colon, holds such escapes itself. *)
Fixpoint decodeURIComponent (s : string) : result string :=
  match s with
  | EmptyString => Ok EmptyString
  | String c r =>
      if (c =? "%")%char then
        match r with
        | String h (String l rest) =>
            match hexValue h, hexValue l with
            | Some a, Some b =>
                decoded <- decodeURIComponent rest ;;
                Ok (String (ascii_of_nat (16 * a + b)) decoded)
            | _, _ => Throw URIError
            end
        | _ => Throw URIError
        end
      else
        decoded <- decodeURIComponent r ;;
        Ok (String c decoded)
  end.

End Uri.

(* ================================================================== *)
(** * [encodePath] *)

(** [path.sep] is ["/"] on POSIX and a backslash on Windows. *)
Inductive platform : Set := posix | win32.

Definition sep (os : platform) : ascii :=
  match os with
  | posix => "/"%char
  | win32 => "\"%char
  end.

(** Encodes a path with special characters (lines 663-675). *)
Definition encodePath (os : platform) (pathStr : string) : string :=
  Str.join (sep os)
    (mapi (fun index component =>
             if (index =? 0) && Str.endsWith component ":"
             then component (* Windows drive letter *)
             else Uri.encodeURIComponent component)
          (Str.split (sep os) pathStr)).

(** The spec's wording of [encodePath]: every segment is percent-encoded on
    its own, except a leading segment that ends in a colon. *)
Definition encodePath_spec (os : platform) (pathStr : string) : string :=
  Str.join (sep os)
    (match Str.split (sep os) pathStr with
     | [] => []
     | first :: rest =>
         (if Str.endsWith first ":" then first
          else Uri.encodeURIComponent first)
         :: map Uri.encodeURIComponent rest
     end).

(** The results of a list of computations, up to the first exception. *)
Fixpoint sequence {A : Type} (l : list (result A)) : result (list A) :=
  match l with
  | [] => Ok []
  | c :: r => a <- c ;; rest <- sequence r ;; Ok (a :: rest)
  end.

(** Percent-decoding of every segment of an encoded path except a leading
    drive letter. *)
Definition decodeSegments (os : platform) (encoded : string) : result string :=
  segments <-
    sequence
      (mapi (fun index segment =>
               if (index =? 0) && Str.endsWith segment ":"
               then Ok segment
               else Uri.decodeURIComponent segment)
            (Str.split (sep os) encoded)) ;;
  Ok (Str.join (sep os) segments).

(** The segment-wise functions inside [encodePath] and [decodeSegments]. *)
Definition encodeSegment (index : nat) (component : string) : string :=
  if (index =? 0) && Str.endsWith component ":"
  then component
  else Uri.encodeURIComponent component.

Definition decodeSegment (index : nat) (segment : string) : result string :=
  if (index =? 0) && Str.endsWith segment ":"
  then Ok segment
  else Uri.decodeURIComponent segment.

(** [s] does not hold the separator [c]. *)
Definition noSep (c : ascii) (s : string) : bool :=
  Str.all (fun x => negb (x =? c)%char) s.

(** The alphabet of an encoded component. *)
Definition encoded (c : ascii) : bool := Uri.unreserved c || (c =? "%")%char.

(* ================================================================== *)
(** * Values read from [config.json] *)

#[warnings="-register-all"]
Inductive json : Type :=
| JNull
| JBool (b : bool)
| JNum (n : Q)
| JStr (s : string)
| JArr (items : list json)
| JObj (props : list (string * json)).

(** [typeof v] *)
Definition typeof (v : json) : string :=
  match v with
  | JBool _ => "boolean"
  | JNum _ => "number"
  | JStr _ => "string"
  | JNull | JArr _ | JObj _ => "object"
  end.

(** The own properties of a parsed object, by key. *)
Fixpoint assoc (key : string) (props : list (string * json)) : option json :=
  match props with
  | [] => None
  | (k, v) :: rest => if String.eqb k key then Some v else assoc key rest
  end.

(** [key in v], followed by the read [v.key] when it holds.  The operator
    [in] raises [TypeError] on [null] and on primitives.  An array has none
    of the properties the loader asks for (no key below is an index,
    ["length"] or a method name). *)
Definition field (key : string) (v : json) : result (option json) :=
  match v with
  | JObj props => Ok (assoc key props)
  | JArr _ => Ok None
  | JNull | JBool _ | JNum _ | JStr _ => Throw TypeError
  end.

(** Modelled from the spec: [checkArrayType] of [src/shared/util.ts], which
    is not among the sources.  The spec asks of an overlaid tuple the
    "correct primitive type, correct tuple arity": the value is an array
    whose elements all have the given [typeof]. *)
Definition checkArrayType (value : json) (type : string) : bool :=
  match value with
  | JArr items => forallb (fun item => String.eqb (typeof item) type) items
  | _ => false
  end.

Definition numbersOf (v : json) : list Q :=
  match v with
  | JArr items =>
      flat_map (fun item => match item with JNum n => [n] | _ => [] end) items
  | _ => []
  end.

Definition stringsOf (v : json) : list string :=
  match v with
  | JArr items =>
      flat_map (fun item => match item with JStr s => [s] | _ => [] end) items
  | _ => []
  end.

(** [checkArrayType(v, "number") && v.length === 2], then the cast
    [v as [number, number]]. *)
Definition asPair (v : json) : option (Q * Q) :=
  if checkArrayType v "number" then
    match numbersOf v with
    | [a; b] => Some (a, b)
    | _ => None
    end
  else None.

(** [checkArrayType(v, "number") && v.length === 3] *)
Definition asTriple (v : json) : option (Q * Q * Q) :=
  if checkArrayType v "number" then
    match numbersOf v with
    | [a; b; c] => Some (a, b, c)
    | _ => None
    end
  else None.

(** [configRaw === null || typeof configRaw !== "object"] *)
Definition notAnObject (configRaw : json) : bool :=
  match configRaw with JNull => true | _ => false end
  || negb (String.eqb (typeof configRaw) "object").

(** ** Overlay of one field over its default *)

(** ["key" in raw && typeof raw.key === "string"] *)
Definition stringField (key : string) (raw : json) (default : string)
  : result string :=
  f <- field key raw ;;
  Ok (match f with Some (JStr s) => s | _ => default end).

Definition optionalStringField (key : string) (raw : json)
  : result (option string) :=
  f <- field key raw ;;
  Ok (match f with Some (JStr s) => Some s | _ => None end).

(** ["key" in raw && typeof raw.key === "number"] *)
Definition numberField (key : string) (raw : json) (default : Q) : result Q :=
  f <- field key raw ;;
  Ok (match f with Some (JNum n) => n | _ => default end).

Definition optionalNumberField (key : string) (raw : json)
  : result (option Q) :=
  f <- field key raw ;;
  Ok (match f with Some (JNum n) => Some n | _ => None end).

(** ["key" in raw && typeof raw.key === "boolean"] *)
Definition booleanField (key : string) (raw : json) (default : bool)
  : result bool :=
  f <- field key raw ;;
  Ok (match f with Some (JBool b) => b | _ => default end).

Definition pairField (key : string) (raw : json) (default : Q * Q)
  : result (Q * Q) :=
  f <- field key raw ;;
  Ok (match f with
      | Some v => match asPair v with Some p => p | None => default end
      | None => default
      end).

Definition tripleField (key : string) (raw : json) (default : Q * Q * Q)
  : result (Q * Q * Q) :=
  f <- field key raw ;;
  Ok (match f with
      | Some v => match asTriple v with Some p => p | None => default end
      | None => default
      end).

(** ** Rotations *)

Inductive Axis : Set := AxisX | AxisY | AxisZ.

Record Rotation : Type := { axis : Axis; degrees : Q }.

(** The test applied to each element of a rotation list:
    [typeof rotation === "object" && "axis" in rotation &&
     (rotation.axis === "x" || ... "y" || ... "z") &&
     "degrees" in rotation && typeof rotation.degrees === "number"].
    [typeof null] is ["object"], so [null] reaches the [in]. *)
Definition asRotation (rotation : json) : result (option Rotation) :=
  if String.eqb (typeof rotation) "object" then
    a <- field "axis" rotation ;;
    match a with
    | Some (JStr s) =>
        let ax := if String.eqb s "x" then Some AxisX
                  else if String.eqb s "y" then Some AxisY
                  else if String.eqb s "z" then Some AxisZ
                  else None in
        match ax with
        | Some ax =>
            d <- field "degrees" rotation ;;
            Ok (match d with
                | Some (JNum n) => Some {| axis := ax; degrees := n |}
                | _ => None
                end)
        | None => Ok None
        end
    | _ => Ok None
    end
  else Ok None.

(** [items.every(rotation => ...)]: [None] as soon as one element fails. *)
Fixpoint asRotations (items : list json) : result (option (list Rotation)) :=
  match items with
  | [] => Ok (Some [])
  | rotation :: rest =>
      r <- asRotation rotation ;;
      match r with
      | None => Ok None
      | Some r =>
          rs <- asRotations rest ;;
          Ok (option_map (cons r) rs)
      end
  end.

(** ["key" in raw && Array.isArray(raw.key) && raw.key.every(...)] *)
Definition rotationsField (key : string) (raw : json) : result (list Rotation) :=
  f <- field key raw ;;
  match f with
  | Some (JArr items) =>
      rs <- asRotations items ;;
      Ok (match rs with Some rs => rs | None => [] end)
  | _ => Ok []
  end.

(** ** Origins *)

Inductive Origin : Set := OriginAuto | OriginRed | OriginBlue.

Definition originField (raw : json) : result Origin :=
  f <- field "defaultOrigin" raw ;;
  Ok (match f with
      | Some (JStr s) =>
          if String.eqb s "auto" then OriginAuto
          else if String.eqb s "red" then OriginRed
          else if String.eqb s "blue" then OriginBlue
          else OriginAuto
      | _ => OriginAuto
      end).

(** ** Comparisons of a number with zero *)

Definition ge0 (x : Q) : bool := Qle_bool 0 x.
Definition gt0 (x : Q) : bool := negb (Qle_bool x 0).

(* ================================================================== *)
(** * The four kinds of asset ([src/shared/AdvantageScopeAssets.ts]) *)

Module Config2d.
Record t : Type := {
  name : string;
  path : string;
  sourceUrl : option string;
  topLeft : Q * Q;
  bottomRight : Q * Q;
  widthInches : Q;
  heightInches : Q;
  defaultOrigin : Origin
}.
End Config2d.

Module Config3dField_GamePiece.
Record t : Type := {
  name : string;
  rotations : list Rotation;
  position : Q * Q * Q;
  stagedObjects : list string
}.
End Config3dField_GamePiece.

Module Config3dField.
Record t : Type := {
  name : string;
  path : string;
  sourceUrl : option string;
  rotations : list Rotation;
  widthInches : Q;
  heightInches : Q;
  defaultOrigin : Origin;
  driverStations : list (Q * Q);
  gamePieces : list Config3dField_GamePiece.t
}.
End Config3dField.

Module Config3dRobot_Camera.
Record t : Type := {
  name : string;
  rotations : list Rotation;
  position : Q * Q * Q;
  resolution : Q * Q;
  fov : Q
}.
End Config3dRobot_Camera.

Module Config3dRobot_Component.
Record t : Type := {
  zeroedRotations : list Rotation;
  zeroedPosition : Q * Q * Q
}.
End Config3dRobot_Component.

Module Config3dRobot.
Record t : Type := {
  name : string;
  path : string;
  sourceUrl : option string;
  rotations : list Rotation;
  position : Q * Q * Q;
  cameras : list Config3dRobot_Camera.t;
  components : list Config3dRobot_Component.t;
  disableSimplification : bool
}.
End Config3dRobot.

Inductive Pov : Set := PovUp | PovRight | PovDown | PovLeft.

Module ConfigJoystick_Button.
Record t : Type := {
  isYellow : bool;
  isEllipse : bool;
  centerPx : Q * Q;
  sizePx : Q * Q;
  sourceIndex : Q;
  sourcePov : option Pov
}.
End ConfigJoystick_Button.

Module ConfigJoystick_Joystick.
Record t : Type := {
  isYellow : bool;
  centerPx : Q * Q;
  radiusPx : Q;
  xSourceIndex : Q;
  xSourceInverted : bool;
  ySourceIndex : Q;
  ySourceInverted : bool;
  buttonSourceIndex : option Q
}.
End ConfigJoystick_Joystick.

Module ConfigJoystick_Axis.
Record t : Type := {
  isYellow : bool;
  centerPx : Q * Q;
  sizePx : Q * Q;
  sourceIndex : Q;
  sourceRange : Q * Q
}.
End ConfigJoystick_Axis.

(** The union discriminated by [type]. *)
Inductive JoystickComponent : Type :=
| button (b : ConfigJoystick_Button.t)
| joystick (j : ConfigJoystick_Joystick.t)
| axis_ (a : ConfigJoystick_Axis.t).

Module ConfigJoystick.
Record t : Type := {
  name : string;
  path : string;
  components : list JoystickComponent
}.
End ConfigJoystick.

Record AdvantageScopeAssets : Type := {
  field2ds : list Config2d.t;
  field3ds : list Config3dField.t;
  robots : list Config3dRobot.t;
  joysticks : list ConfigJoystick.t;
  loadFailures : list string
}.

(* ================================================================== *)
(** * Arrays *)

(** [array.indexOf(x)], [-1] when [x] is no element. *)
Fixpoint indexOf (x : string) (array : list string) : Z :=
  match array with
  | [] => (-1)%Z
  | y :: rest =>
      if String.eqb y x then 0%Z
      else let i := indexOf x rest in
           if (i <? 0)%Z then (-1)%Z else (i + 1)%Z
  end.

Definition removeAt {A : Type} (index : nat) (array : list A) : list A :=
  firstn index array ++ skipn (S index) array.

(** [array.splice(start, 1)]: a negative [start] counts from the end. *)
Definition splice1 {A : Type} (array : list A) (start : Z) : list A :=
  let len := Z.of_nat (List.length array) in
  let actualStart :=
    if (start <? 0)%Z then Z.max (len + start) 0 else Z.min start len in
  removeAt (Z.to_nat actualStart) array.

(** [array.sort(compare)].  The sort is stable; it is modelled by insertion
    from the right, each element going before the first one it does not
    compare greater than. *)
Fixpoint insertBy {A : Type} (compare : A -> A -> Z) (x : A) (sorted : list A)
  : list A :=
  match sorted with
  | [] => [x]
  | y :: rest =>
      if (compare x y <=? 0)%Z then x :: sorted
      else y :: insertBy compare x rest
  end.

Fixpoint sortBy {A : Type} (compare : A -> A -> Z) (array : list A) : list A :=
  match array with
  | [] => []
  | x :: rest => insertBy compare x (sortBy compare rest)
  end.

(** [array.forEach(x => ...)] over a state the callback updates. *)
Fixpoint forEach {A S : Type} (f : S -> A -> result S) (array : list A) (s : S)
  : result S :=
  match array with
  | [] => Ok s
  | x :: rest => s' <- f s x ;; forEach f rest s'
  end.

(** [array.every((value, index) => f(index))], counting from [index]. *)
Fixpoint everyIndexFrom {A : Type} (index : nat) (f : nat -> result bool)
  (array : list A) : result bool :=
  match array with
  | [] => Ok true
  | _ :: rest =>
      b <- f index ;;
      if b then everyIndexFrom (S index) f rest else Ok false
  end.

(* ================================================================== *)
(** * The environment of a load *)

Module Dirent.
Record t : Type := {
  name : string;
  isDirectory : bool
}.
End Dirent.

Record Env : Type := {
  os : platform;
  (** [path.join(a, b, c)] *)
  pathJoin : string -> string -> string -> string;
  (** [fs.readdirSync(folder, { withFileTypes: true })]: the entries it
      returns, when it returns *)
  readdirSync : string -> list Dirent.t;
  (** what [fs.readdirSync(folder, { withFileTypes: true })] throws, when it
      throws: there is no [folder], or it is no directory *)
  readdirThrows : string -> option exn;
  (** [fs.existsSync(file)] *)
  existsSync : string -> bool;
  (** [jsonfile.readFileSync(file)]; [None] when it throws *)
  readFileSync : string -> option json;
  (** [jsonfile.readFileSync(PREFS_FILENAME)] *)
  PREFS : result json;
  DEFAULT_USER_ASSETS : string;
  AUTO_ASSETS : string;
  BUNDLED_ASSETS : string;
  DEFAULT_DRIVER_STATIONS : list (Q * Q);
  (** [a.localeCompare(b, undefined, { numeric: true })] *)
  localeCompareNumeric : string -> string -> Z
}.

(** The read [v.key] of a property: it raises [TypeError] on [null], and
    gives [undefined] ([None]) when [v] has no such property. *)
Definition property (key : string) (v : json) : result (option json) :=
  match v with
  | JNull => Throw TypeError
  | JObj props => Ok (assoc key props)
  | JBool _ | JNum _ | JStr _ | JArr _ => Ok None
  end.

(** Returns the path to the user assets folder (lines 35-42): the value
    that the function returns, [None] for [undefined].  The preferences are
    read outside any [try], and a [userAssetsFolder] that is not [null] is
    returned as it is, whatever it is. *)
Definition userAssetsPath (env : Env) : result (option json) :=
  prefs <- PREFS env ;;
  userAssetsFolder <- property "userAssetsFolder" prefs ;;
  match userAssetsFolder with
  | Some JNull => Ok (Some (JStr (DEFAULT_USER_ASSETS env)))
  | _ => Ok userAssetsFolder
  end.

(** The path that [getUserAssetsPath] returns, when it returns a string.
    When it throws or returns another value the load ends before a folder
    is read (see [scan]), and the folder given here is not used. *)
Definition getUserAssetsPath (env : Env) : string :=
  match userAssetsPath env with
  | Ok (Some (JStr folder)) => folder
  | _ => DEFAULT_USER_ASSETS env
  end.

(* ================================================================== *)
(** * [loadAssets] *)

Section Loader.

Variable env : Env.

Definition exists_ (file : string) : bool := existsSync env file.

(** ** 2D field *)

(** The defaults of a 2D field and the overlay of each field of
    [configRaw] (lines 166-209). *)
Definition buildField2d (parentFolder objectName : string) (configRaw : json)
  : result Config2d.t :=
  name <- stringField "name" configRaw "" ;;
  sourceUrl <- optionalStringField "sourceUrl" configRaw ;;
  topLeft <- pairField "topLeft" configRaw (-1 # 1, -1 # 1)%Q ;;
  bottomRight <- pairField "bottomRight" configRaw (-1 # 1, -1 # 1)%Q ;;
  widthInches <- numberField "widthInches" configRaw 0%Q ;;
  heightInches <- numberField "heightInches" configRaw 0%Q ;;
  defaultOrigin <- originField configRaw ;;
  Ok {| Config2d.name := name;
        Config2d.path :=
          encodePath (os env) (pathJoin env parentFolder objectName "image.png");
        Config2d.sourceUrl := sourceUrl;
        Config2d.topLeft := topLeft;
        Config2d.bottomRight := bottomRight;
        Config2d.widthInches := widthInches;
        Config2d.heightInches := heightInches;
        Config2d.defaultOrigin := defaultOrigin |}.

(** The condition under which a 2D field is pushed (lines 210-219). *)
Definition admitField2d (config : Config2d.t) : result bool :=
  if negb (String.eqb (Config2d.name config) "")
     && ge0 (fst (Config2d.topLeft config))
     && ge0 (snd (Config2d.topLeft config))
     && ge0 (fst (Config2d.bottomRight config))
     && ge0 (snd (Config2d.bottomRight config))
     && gt0 (Config2d.widthInches config)
     && gt0 (Config2d.heightInches config)
  then
    file <- Uri.decodeURIComponent (Config2d.path config) ;;
    Ok (exists_ file)
  else Ok false.

(** ** 3D field *)

(** Lines 270-277: six positions, each a pair of numbers. *)
Definition driverStationsField (raw : json) : result (list (Q * Q)) :=
  f <- field "driverStations" raw ;;
  Ok (match f with
      | Some (JArr items) =>
          if (List.length items =? 6)
             && forallb (fun position =>
                           match asPair position with
                           | Some _ => true
                           | None => false
                           end) items
          then flat_map (fun position =>
                           match asPair position with
                           | Some p => [p]
                           | None => []
                           end) items
          else DEFAULT_DRIVER_STATIONS env
      | _ => DEFAULT_DRIVER_STATIONS env
      end).

(** Line 311. *)
Definition stagedObjectsField (raw : json) : result (list string) :=
  f <- field "stagedObjects" raw ;;
  Ok (match f with
      | Some v => if checkArrayType v "string" then stringsOf v else []
      | None => []
      end).

(** The callback over [gamePieces] (lines 279-314). *)
Definition buildGamePiece (gamePieceRaw : json)
  : result (option Config3dField_GamePiece.t) :=
  name <- stringField "name" gamePieceRaw "" ;;
  rotations <- rotationsField "rotations" gamePieceRaw ;;
  position <- tripleField "position" gamePieceRaw (0, 0, 0)%Q ;;
  stagedObjects <- stagedObjectsField gamePieceRaw ;;
  Ok (Some {| Config3dField_GamePiece.name := name;
              Config3dField_GamePiece.rotations := rotations;
              Config3dField_GamePiece.position := position;
              Config3dField_GamePiece.stagedObjects := stagedObjects |}).

(** ["key" in configRaw && Array.isArray(configRaw.key)], then
    [configRaw.key.forEach(build)]. *)
Definition arrayField {B : Type} (key : string) (configRaw : json)
  (build : json -> result (option B)) : result (list B) :=
  f <- field key configRaw ;;
  match f with
  | Some (JArr items) => forEachPush build items
  | _ => Ok []
  end.

(** Lines 225-315. *)
Definition buildField3d (parentFolder objectName : string) (configRaw : json)
  : result Config3dField.t :=
  name <- stringField "name" configRaw "" ;;
  sourceUrl <- optionalStringField "sourceUrl" configRaw ;;
  rotations <- rotationsField "rotations" configRaw ;;
  widthInches <- numberField "widthInches" configRaw 0%Q ;;
  heightInches <- numberField "heightInches" configRaw 0%Q ;;
  defaultOrigin <- originField configRaw ;;
  driverStations <- driverStationsField configRaw ;;
  gamePieces <- arrayField "gamePieces" configRaw buildGamePiece ;;
  Ok {| Config3dField.name := name;
        Config3dField.path :=
          encodePath (os env) (pathJoin env parentFolder objectName "model.glb");
        Config3dField.sourceUrl := sourceUrl;
        Config3dField.rotations := rotations;
        Config3dField.widthInches := widthInches;
        Config3dField.heightInches := heightInches;
        Config3dField.defaultOrigin := defaultOrigin;
        Config3dField.driverStations := driverStations;
        Config3dField.gamePieces := gamePieces |}.

(** [decodeURIComponent(path).slice(0, -4) + "_" + index.toString() + ".glb"] *)
Definition auxiliaryFile (model : string) (index : nat) : string :=
  Str.dropLast4 model ++ "_" ++ Str.ofIndex index ++ ".glb".

(** [fs.existsSync(decodeURIComponent(config.path)) &&
     parts.every((value, index) => fs.existsSync(... + index + ".glb"))] *)
Definition modelFilesExist {A : Type} (path : string) (parts : list A)
  : result bool :=
  file <- Uri.decodeURIComponent path ;;
  if exists_ file then
    everyIndexFrom 0
      (fun index =>
         model <- Uri.decodeURIComponent path ;;
         Ok (exists_ (auxiliaryFile model index)))
      parts
  else Ok false.

(** The condition under which a 3D field is pushed (lines 316-324). *)
Definition admitField3d (config : Config3dField.t) : result bool :=
  if negb (String.eqb (Config3dField.name config) "")
     && gt0 (Config3dField.widthInches config)
     && gt0 (Config3dField.heightInches config)
  then modelFilesExist (Config3dField.path config) (Config3dField.gamePieces config)
  else Ok false.

(** ** 3D robot *)

(** The callback over [cameras] (lines 373-416). *)
Definition buildCamera (cameraRaw : json) : result (option Config3dRobot_Camera.t) :=
  name <- stringField "name" cameraRaw "" ;;
  rotations <- rotationsField "rotations" cameraRaw ;;
  position <- tripleField "position" cameraRaw (0, 0, 0)%Q ;;
  resolution <- pairField "resolution" cameraRaw (200, 100)%Q ;;
  fov <- numberField "fov" cameraRaw 90%Q ;;
  Ok (Some {| Config3dRobot_Camera.name := name;
              Config3dRobot_Camera.rotations := rotations;
              Config3dRobot_Camera.position := position;
              Config3dRobot_Camera.resolution := resolution;
              Config3dRobot_Camera.fov := fov |}).

(** The callback over the [components] of a robot (lines 419-446). *)
Definition buildComponent (componentRaw : json)
  : result (option Config3dRobot_Component.t) :=
  zeroedRotations <- rotationsField "zeroedRotations" componentRaw ;;
  zeroedPosition <- tripleField "zeroedPosition" componentRaw (0, 0, 0)%Q ;;
  Ok (Some {| Config3dRobot_Component.zeroedRotations := zeroedRotations;
              Config3dRobot_Component.zeroedPosition := zeroedPosition |}).

(** Lines 330-447.  The [console.log] for a robot named "Preseto" leaves
    no trace in the result and is left out. *)
Definition buildRobot (parentFolder objectName : string) (configRaw : json)
  : result Config3dRobot.t :=
  name <- stringField "name" configRaw "" ;;
  sourceUrl <- optionalStringField "sourceUrl" configRaw ;;
  disableSimplification <- booleanField "disableSimplification" configRaw false ;;
  rotations <- rotationsField "rotations" configRaw ;;
  position <- tripleField "position" configRaw (0, 0, 0)%Q ;;
  cameras <- arrayField "cameras" configRaw buildCamera ;;
  components <- arrayField "components" configRaw buildComponent ;;
  Ok {| Config3dRobot.name := name;
        Config3dRobot.path :=
          encodePath (os env) (pathJoin env parentFolder objectName "model.glb");
        Config3dRobot.sourceUrl := sourceUrl;
        Config3dRobot.rotations := rotations;
        Config3dRobot.position := position;
        Config3dRobot.cameras := cameras;
        Config3dRobot.components := components;
        Config3dRobot.disableSimplification := disableSimplification |}.

(** The condition under which a robot is pushed (lines 448-455). *)
Definition admitRobot (config : Config3dRobot.t) : result bool :=
  if negb (String.eqb (Config3dRobot.name config) "")
     && forallb (fun camera => negb (String.eqb (Config3dRobot_Camera.name camera) ""))
          (Config3dRobot.cameras config)
  then modelFilesExist (Config3dRobot.path config) (Config3dRobot.components config)
  else Ok false.

(** ** Joystick *)

(** Lines 508-517. *)
Definition sourcePovField (raw : json) : result (option Pov) :=
  f <- field "sourcePov" raw ;;
  Ok (match f with
      | Some (JStr s) =>
          if String.eqb s "up" then Some PovUp
          else if String.eqb s "right" then Some PovRight
          else if String.eqb s "down" then Some PovDown
          else if String.eqb s "left" then Some PovLeft
          else None
      | _ => None
      end).

(** [case "button"] (lines 487-519). *)
Definition buildButton (isYellow : bool) (centerPx : Q * Q) (componentRaw : json)
  : result ConfigJoystick_Button.t :=
  isEllipse <- booleanField "isEllipse" componentRaw false ;;
  sizePx <- pairField "sizePx" componentRaw (0, 0)%Q ;;
  sourceIndex <- numberField "sourceIndex" componentRaw (-1 # 1)%Q ;;
  sourcePov <- sourcePovField componentRaw ;;
  Ok {| ConfigJoystick_Button.isYellow := isYellow;
        ConfigJoystick_Button.isEllipse := isEllipse;
        ConfigJoystick_Button.centerPx := centerPx;
        ConfigJoystick_Button.sizePx := sizePx;
        ConfigJoystick_Button.sourceIndex := sourceIndex;
        ConfigJoystick_Button.sourcePov := sourcePov |}.

(** [case "joystick"] (lines 522-551). *)
Definition buildStick (isYellow : bool) (centerPx : Q * Q) (componentRaw : json)
  : result ConfigJoystick_Joystick.t :=
  radiusPx <- numberField "radiusPx" componentRaw 0%Q ;;
  xSourceIndex <- numberField "xSourceIndex" componentRaw (-1 # 1)%Q ;;
  xSourceInverted <- booleanField "xSourceInverted" componentRaw false ;;
  ySourceIndex <- numberField "ySourceIndex" componentRaw (-1 # 1)%Q ;;
  ySourceInverted <- booleanField "ySourceInverted" componentRaw false ;;
  buttonSourceIndex <- optionalNumberField "buttonSourceIndex" componentRaw ;;
  Ok {| ConfigJoystick_Joystick.isYellow := isYellow;
        ConfigJoystick_Joystick.centerPx := centerPx;
        ConfigJoystick_Joystick.radiusPx := radiusPx;
        ConfigJoystick_Joystick.xSourceIndex := xSourceIndex;
        ConfigJoystick_Joystick.xSourceInverted := xSourceInverted;
        ConfigJoystick_Joystick.ySourceIndex := ySourceIndex;
        ConfigJoystick_Joystick.ySourceInverted := ySourceInverted;
        ConfigJoystick_Joystick.buttonSourceIndex := buttonSourceIndex |}.

(** [case "axis"] (lines 554-580). *)
Definition buildAxis (isYellow : bool) (centerPx : Q * Q) (componentRaw : json)
  : result ConfigJoystick_Axis.t :=
  sizePx <- pairField "sizePx" componentRaw (0, 0)%Q ;;
  sourceIndex <- numberField "sourceIndex" componentRaw (-1 # 1)%Q ;;
  sourceRange <- pairField "sourceRange" componentRaw (-1 # 1, 1)%Q ;;
  Ok {| ConfigJoystick_Axis.isYellow := isYellow;
        ConfigJoystick_Axis.centerPx := centerPx;
        ConfigJoystick_Axis.sizePx := sizePx;
        ConfigJoystick_Axis.sourceIndex := sourceIndex;
        ConfigJoystick_Axis.sourceRange := sourceRange |}.

(** The callback over the [components] of a joystick (lines 470-583):
    nothing is pushed when [type] is absent, is no string or names none of
    the three shapes. *)
Definition buildJoystickComponent (componentRaw : json)
  : result (option JoystickComponent) :=
  isYellow <- booleanField "isYellow" componentRaw false ;;
  centerPx <- pairField "centerPx" componentRaw (0, 0)%Q ;;
  type <- field "type" componentRaw ;;
  match type with
  | Some (JStr type) =>
      if String.eqb type "button" then
        b <- buildButton isYellow centerPx componentRaw ;; Ok (Some (button b))
      else if String.eqb type "joystick" then
        j <- buildStick isYellow centerPx componentRaw ;; Ok (Some (joystick j))
      else if String.eqb type "axis" then
        a <- buildAxis isYellow centerPx componentRaw ;; Ok (Some (axis_ a))
      else Ok None
  | _ => Ok None
  end.

(** Lines 461-584. *)
Definition buildJoystick (parentFolder objectName : string) (configRaw : json)
  : result ConfigJoystick.t :=
  name <- stringField "name" configRaw "" ;;
  components <- arrayField "components" configRaw buildJoystickComponent ;;
  Ok {| ConfigJoystick.name := name;
        ConfigJoystick.path :=
          encodePath (os env) (pathJoin env parentFolder objectName "image.png");
        ConfigJoystick.components := components |}.

(** The [switch] inside [config.components.every] (lines 587-596). *)
Definition componentOk (component : JoystickComponent) : bool :=
  match component with
  | button b =>
      gt0 (fst (ConfigJoystick_Button.sizePx b))
      && gt0 (snd (ConfigJoystick_Button.sizePx b))
      && ge0 (ConfigJoystick_Button.sourceIndex b)
  | joystick j =>
      gt0 (ConfigJoystick_Joystick.radiusPx j)
      && ge0 (ConfigJoystick_Joystick.xSourceIndex j)
      && ge0 (ConfigJoystick_Joystick.ySourceIndex j)
  | axis_ a =>
      gt0 (fst (ConfigJoystick_Axis.sizePx a))
      && gt0 (snd (ConfigJoystick_Axis.sizePx a))
      && ge0 (ConfigJoystick_Axis.sourceIndex a)
  end.

(** The condition under which a joystick is pushed (lines 585-598). *)
Definition admitJoystick (config : ConfigJoystick.t) : result bool :=
  if negb (String.eqb (ConfigJoystick.name config) "")
     && forallb componentOk (ConfigJoystick.components config)
  then
    file <- Uri.decodeURIComponent (ConfigJoystick.path config) ;;
    Ok (exists_ file)
  else Ok false.

(** ** One directory entry *)

Definition pushFailure (assets : AdvantageScopeAssets) (objectName : string)
  : AdvantageScopeAssets :=
  {| field2ds := field2ds assets;
     field3ds := field3ds assets;
     robots := robots assets;
     joysticks := joysticks assets;
     loadFailures := loadFailures assets ++ [objectName] |}.

(** [assets.loadFailures.splice(assets.loadFailures.indexOf(object.name), 1)] *)
Definition removeFailure (failures : list string) (objectName : string)
  : list string :=
  splice1 failures (indexOf objectName failures).

Definition acceptField2d (assets : AdvantageScopeAssets) (config : Config2d.t)
  (objectName : string) : AdvantageScopeAssets :=
  {| field2ds := field2ds assets ++ [config];
     field3ds := field3ds assets;
     robots := robots assets;
     joysticks := joysticks assets;
     loadFailures := removeFailure (loadFailures assets) objectName |}.

Definition acceptField3d (assets : AdvantageScopeAssets) (config : Config3dField.t)
  (objectName : string) : AdvantageScopeAssets :=
  {| field2ds := field2ds assets;
     field3ds := field3ds assets ++ [config];
     robots := robots assets;
     joysticks := joysticks assets;
     loadFailures := removeFailure (loadFailures assets) objectName |}.

Definition acceptRobot (assets : AdvantageScopeAssets) (config : Config3dRobot.t)
  (objectName : string) : AdvantageScopeAssets :=
  {| field2ds := field2ds assets;
     field3ds := field3ds assets;
     robots := robots assets ++ [config];
     joysticks := joysticks assets;
     loadFailures := removeFailure (loadFailures assets) objectName |}.

Definition acceptJoystick (assets : AdvantageScopeAssets) (config : ConfigJoystick.t)
  (objectName : string) : AdvantageScopeAssets :=
  {| field2ds := field2ds assets;
     field3ds := field3ds assets;
     robots := robots assets;
     joysticks := joysticks assets ++ [config];
     loadFailures := removeFailure (loadFailures assets) objectName |}.

(** The callback of the inner [forEach] (lines 146-603). *)
Definition processEntry (parentFolder : string) (assets0 : AdvantageScopeAssets)
  (object : Dirent.t) : result AdvantageScopeAssets :=
  let objectName := Dirent.name object in
  if negb (Dirent.isDirectory object) || Str.startsWith objectName "."
  then Ok assets0
  else
    (* Assume failure, remove if successful *)
    let assets := pushFailure assets0 objectName in
    let isField2d := Str.startsWith objectName "Field2d_" in
    let isField3d := Str.startsWith objectName "Field3d_" in
    let isRobot := Str.startsWith objectName "Robot_" in
    let isJoystick := Str.startsWith objectName "Joystick_" in
    let configPath := pathJoin env parentFolder objectName "config.json" in
    if negb (exists_ configPath) then Ok assets
    else
      match readFileSync env configPath with
      | None => Ok assets
      | Some configRaw =>
          if notAnObject configRaw then Ok assets
          else if isField2d then
            config <- buildField2d parentFolder objectName configRaw ;;
            ok <- admitField2d config ;;
            Ok (if ok then acceptField2d assets config objectName else assets)
          else if isField3d then
            config <- buildField3d parentFolder objectName configRaw ;;
            ok <- admitField3d config ;;
            Ok (if ok then acceptField3d assets config objectName else assets)
          else if isRobot then
            config <- buildRobot parentFolder objectName configRaw ;;
            ok <- admitRobot config ;;
            Ok (if ok then acceptRobot assets config objectName else assets)
          else if isJoystick then
            config <- buildJoystick parentFolder objectName configRaw ;;
            ok <- admitJoystick config ;;
            Ok (if ok then acceptJoystick assets config objectName else assets)
          else Ok assets
      end.

(** ** The scan of the three roots *)

(** [(a, b) => (a.name < b.name ? 1 : a.name > b.name ? -1 : 0)] *)
Definition compareEntries (a b : Dirent.t) : Z :=
  if Str.lt (Dirent.name a) (Dirent.name b) then 1%Z
  else if Str.lt (Dirent.name b) (Dirent.name a) then (-1)%Z
  else 0%Z.

(** The callback of the outer [forEach] (lines 143-604).  Nothing catches
    what [fs.readdirSync] throws. *)
Definition scanFolder (assets : AdvantageScopeAssets) (parentFolder : string)
  : result AdvantageScopeAssets :=
  match readdirThrows env parentFolder with
  | Some e => Throw e
  | None =>
      forEach (processEntry parentFolder)
        (sortBy compareEntries (readdirSync env parentFolder)) assets
  end.

Definition emptyAssets : AdvantageScopeAssets :=
  {| field2ds := []; field3ds := []; robots := []; joysticks := [];
     loadFailures := [] |}.

(** Highest priority is first. *)
Definition roots : list string :=
  [getUserAssetsPath env; AUTO_ASSETS env; BUNDLED_ASSETS env].

(** Lines 134-604.  The first root is what [getUserAssetsPath()] returns:
    the call may throw, and on a value that is no string [fs.readdirSync]
    raises [TypeError] before anything is read. *)
Definition scan : result AdvantageScopeAssets :=
  folder <- userAssetsPath env ;;
  match folder with
  | Some (JStr _) => forEach scanFolder roots emptyAssets
  | _ => Throw TypeError
  end.

(** ** Remove duplicate names *)

Definition pushUnique {A : Type} (name : A -> string) (unique : list A) (asset : A)
  : list A :=
  match find (fun other => String.eqb (name other) (name asset)) unique with
  | None => unique ++ [asset]
  | Some _ => unique
  end.

(** One of the four loops of lines 614-633. *)
Definition removeDuplicates {A : Type} (name : A -> string) (assets : list A)
  : list A :=
  fold_left (pushUnique name) assets [].

(** Lines 606-634. *)
Definition uniqueAssets (assets : AdvantageScopeAssets) : AdvantageScopeAssets :=
  {| field2ds := removeDuplicates Config2d.name (field2ds assets);
     field3ds := removeDuplicates Config3dField.name (field3ds assets);
     robots := removeDuplicates Config3dRobot.name (robots assets);
     joysticks := removeDuplicates ConfigJoystick.name (joysticks assets);
     loadFailures := loadFailures assets |}.

(** ** Sort assets *)

(** [a.name > b.name ? -1 : b.name > a.name ? 1 : 0] *)
Definition compareNamesDescending (a b : string) : Z :=
  if Str.lt b a then (-1)%Z
  else if Str.lt a b then 1%Z
  else 0%Z.

(** Evergreen field in asset files, sort to end of list. *)
Definition compareField2d (a b : Config2d.t) : Z :=
  if String.eqb (Config2d.name a) "Evergreen" then 1%Z
  else if String.eqb (Config2d.name b) "Evergreen" then (-1)%Z
  else compareNamesDescending (Config2d.name a) (Config2d.name b).

(** Lines 636-656. *)
Definition sortAssets (assets : AdvantageScopeAssets) : AdvantageScopeAssets :=
  {| field2ds := sortBy compareField2d (field2ds assets);
     field3ds :=
       sortBy (fun a b => compareNamesDescending
                            (Config3dField.name a) (Config3dField.name b))
              (field3ds assets);
     robots :=
       sortBy (fun a b => localeCompareNumeric env
                            (Config3dRobot.name a) (Config3dRobot.name b))
              (robots assets);
     joysticks :=
       sortBy (fun a b => compareNamesDescending
                            (ConfigJoystick.name a) (ConfigJoystick.name b))
              (joysticks assets);
     loadFailures := sortBy (localeCompareNumeric env) (loadFailures assets) |}.

(** Loads all current FRC data (bundled and extra). *)
Definition loadAssets : result AdvantageScopeAssets :=
  assets <- scan ;;
  Ok (sortAssets (uniqueAssets assets)).

End Loader.

(* ================================================================== *)
(** * The admission invariants in the words of the spec *)

(** Every button and axis has positive width and height and a non-negative
    source index; every joystick has a positive radius and non-negative x
    and y source indices. *)
Definition componentValid (component : JoystickComponent) : Prop :=
  match component with
  | button b =>
      (0 < fst (ConfigJoystick_Button.sizePx b))%Q
      /\ (0 < snd (ConfigJoystick_Button.sizePx b))%Q
      /\ (0 <= ConfigJoystick_Button.sourceIndex b)%Q
  | joystick j =>
      (0 < ConfigJoystick_Joystick.radiusPx j)%Q
      /\ (0 <= ConfigJoystick_Joystick.xSourceIndex j)%Q
      /\ (0 <= ConfigJoystick_Joystick.ySourceIndex j)%Q
  | axis_ a =>
      (0 < fst (ConfigJoystick_Axis.sizePx a))%Q
      /\ (0 < snd (ConfigJoystick_Axis.sizePx a))%Q
      /\ (0 <= ConfigJoystick_Axis.sourceIndex a)%Q
  end.



(** A leading segment that ends in a colon is written without a percent
    escape (a drive letter is), so that decoding leaves it alone. *)
Definition plainDrive (os : platform) (pathStr : string) : Prop :=
  match Str.split (sep os) pathStr with
  | first :: _ =>
      Str.endsWith first ":" = true -> Uri.decodeURIComponent first = Ok first
  | [] => True
  end.

(* ================================================================== *)
(** * The outcome of one candidate *)

(** What becomes of a candidate: it stays a failure, or it is admitted with
    the record built for it. *)
Inductive Outcome : Type :=
| Failure
| Field2d (config : Config2d.t)
| Field3d (config : Config3dField.t)
| Robot (config : Config3dRobot.t)
| Joystick (config : ConfigJoystick.t).

Section Outcome.

Variable env : Env.

(** [processEntry] on a directory that is not hidden, without the state. *)
Definition candidateOutcome (parentFolder objectName : string) : result Outcome :=
  let configPath := pathJoin env parentFolder objectName "config.json" in
  if negb (existsSync env configPath) then Ok Failure
  else
    match readFileSync env configPath with
    | None => Ok Failure
    | Some configRaw =>
        if notAnObject configRaw then Ok Failure
        else if Str.startsWith objectName "Field2d_" then
          config <- buildField2d env parentFolder objectName configRaw ;;
          ok <- admitField2d env config ;;
          Ok (if ok then Field2d config else Failure)
        else if Str.startsWith objectName "Field3d_" then
          config <- buildField3d env parentFolder objectName configRaw ;;
          ok <- admitField3d env config ;;
          Ok (if ok then Field3d config else Failure)
        else if Str.startsWith objectName "Robot_" then
          config <- buildRobot env parentFolder objectName configRaw ;;
          ok <- admitRobot env config ;;
          Ok (if ok then Robot config else Failure)
        else if Str.startsWith objectName "Joystick_" then
          config <- buildJoystick env parentFolder objectName configRaw ;;
          ok <- admitJoystick env config ;;
          Ok (if ok then Joystick config else Failure)
        else Ok Failure
    end.

(** The state after a candidate of the given outcome. *)
Definition recordOutcome (assets0 : AdvantageScopeAssets) (objectName : string)
  (outcome : Outcome) : AdvantageScopeAssets :=
  let assets := pushFailure assets0 objectName in
  match outcome with
  | Failure => assets
  | Field2d config => acceptField2d assets config objectName
  | Field3d config => acceptField3d assets config objectName
  | Robot config => acceptRobot assets config objectName
  | Joystick config => acceptJoystick assets config objectName
  end.

(** A candidate: a directory entry that is not hidden. *)
Definition isCandidate (object : Dirent.t) : bool :=
  Dirent.isDirectory object && negb (Str.startsWith (Dirent.name object) ".").

(** The candidates of a root, in the order of the scan. *)
Definition candidates (parentFolder : string) : list Dirent.t :=
  filter isCandidate (sortBy compareEntries (readdirSync env parentFolder)).

End Outcome.

(* ================================================================== *)
(** * The candidates of a load and what becomes of them *)

Section Accounting.

Variable env : Env.

(** Every candidate of the three roots with its root, in scan order. *)
Definition allCandidates : list (string * Dirent.t) :=
  flat_map (fun parentFolder => map (pair parentFolder) (candidates env parentFolder))
    (roots env).

(** [outcomes] are the outcomes of the candidates [cs], one by one. *)
Definition outcomesOf (cs : list (string * Dirent.t)) (outcomes : list Outcome)
  : Prop :=
  Forall2 (fun c outcome =>
             candidateOutcome env (fst c) (Dirent.name (snd c)) = Ok outcome)
    cs outcomes.

End Accounting.

(** [processEntry] on a candidate of the root [fst c]. *)
Definition candidateStep (env : Env) (assets : AdvantageScopeAssets)
  (c : string * Dirent.t) : result AdvantageScopeAssets :=
  outcome <- candidateOutcome env (fst c) (Dirent.name (snd c)) ;;
  Ok (recordOutcome assets (Dirent.name (snd c)) outcome).

(** The names of the candidates whose outcome is [Failure]. *)
Fixpoint failedNames (cs : list (string * Dirent.t)) (outcomes : list Outcome)
  : list string :=
  match cs, outcomes with
  | c :: cs, Failure :: outcomes => Dirent.name (snd c) :: failedNames cs outcomes
  | _ :: cs, _ :: outcomes => failedNames cs outcomes
  | _, _ => []
  end.

(** The records of the admitted candidates, kind by kind. *)
Definition field2dOf (outcome : Outcome) : list Config2d.t :=
  match outcome with Field2d config => [config] | _ => [] end.
Definition field3dOf (outcome : Outcome) : list Config3dField.t :=
  match outcome with Field3d config => [config] | _ => [] end.
Definition robotOf (outcome : Outcome) : list Config3dRobot.t :=
  match outcome with Robot config => [config] | _ => [] end.
Definition joystickOf (outcome : Outcome) : list ConfigJoystick.t :=
  match outcome with Joystick config => [config] | _ => [] end.

(** The first record of [assets] with the display name [n]. *)
Definition firstNamed {A : Type} (name : A -> string) (n : string) (assets : list A)
  : option A :=
  find (fun other => String.eqb (name other) n) assets.

(** [final] keeps, for every display name, the first record of that name
    of the highest-priority root that has one. *)
Definition keepsFirstByPriority {A : Type} (name : A -> string)
  (user auto bundled final : list A) : Prop :=
  NoDup (map name final)
  /\ forall r, In r final <->
       firstNamed name (name r) user = Some r
       \/ (firstNamed name (name r) user = None
           /\ firstNamed name (name r) auto = Some r)
       \/ (firstNamed name (name r) user = None
           /\ firstNamed name (name r) auto = None
           /\ firstNamed name (name r) bundled = Some r).

(** The order of the final list of 2D fields: Evergreen after every other
    name, the other names descending. *)
Definition evergreenLast (a b : Config2d.t) : Prop :=
  Config2d.name a <> "Evergreen"%string
  /\ (Config2d.name b = "Evergreen"%string
      \/ Str.lt (Config2d.name b) (Config2d.name a) = true).

(** The record of an admitted candidate [c] points into the folder of [c]:
    its path is the path of the image or of the model of that folder. *)
Definition backedBy (env : Env) (c : string * Dirent.t) (outcome : Outcome) : Prop :=
  let image := encodePath (os env)
                 (pathJoin env (fst c) (Dirent.name (snd c)) "image.png") in
  let model := encodePath (os env)
                 (pathJoin env (fst c) (Dirent.name (snd c)) "model.glb") in
  match outcome with
  | Failure => True
  | Field2d config => Config2d.path config = image
  | Field3d config => Config3dField.path config = model
  | Robot config => Config3dRobot.path config = model
  | Joystick config => ConfigJoystick.path config = image
  end.

(** The candidate [object] of [parentFolder] backs a record of [assets]:
    the path of the record is the path of its image or model. *)
Definition backs (env : Env) (parentFolder : string) (object : Dirent.t)
  (assets : AdvantageScopeAssets) : Prop :=
  let image := encodePath (os env)
                 (pathJoin env parentFolder (Dirent.name object) "image.png") in
  let model := encodePath (os env)
                 (pathJoin env parentFolder (Dirent.name object) "model.glb") in
  (exists r, In r (field2ds assets) /\ Config2d.path r = image)
  \/ (exists r, In r (field3ds assets) /\ Config3dField.path r = model)
  \/ (exists r, In r (robots assets) /\ Config3dRobot.path r = model)
  \/ (exists r, In r (joysticks assets) /\ ConfigJoystick.path r = image).

(** The invariant of the spec on the returned collection: every candidate
    backs a record or has its name in [loadFailures], and not both. *)
Definition inExactlyOnePlace (env : Env) (assets : AdvantageScopeAssets) : Prop :=
  forall parentFolder object,
    In parentFolder (roots env) ->
    In object (readdirSync env parentFolder) ->
    isCandidate object = true ->
    (backs env parentFolder object assets
     /\ ~ In (Dirent.name object) (loadFailures assets))
    \/ (~ backs env parentFolder object assets
        /\ In (Dirent.name object) (loadFailures assets)).

(** A value that is no object: [null], a boolean, a number or a string. *)
Definition primitive (v : json) : bool :=
  match v with
  | JNull | JBool _ | JNum _ | JStr _ => true
  | JArr _ | JObj _ => false
  end.

(** No element is [null]: the rotation test raises on no other value. *)
Definition noNull (items : list json) : bool :=
  forallb (fun item => match item with JNull => false | _ => true end) items.

(** The rotation list under [key], when there is one, holds no [null]. *)
Definition rotationsTame (key : string) (raw : json) : bool :=
  match raw with
  | JObj props =>
      match assoc key props with
      | Some (JArr items) => noNull items
      | _ => true
      end
  | _ => true
  end.

(** The array under [key], when there is one, holds only objects and arrays,
    each of which satisfies [ok]. *)
Definition elementsTame (key : string) (ok : json -> bool) (raw : json) : bool :=
  match raw with
  | JObj props =>
      match assoc key props with
      | Some (JArr items) =>
          forallb (fun item => negb (primitive item) && ok item) items
      | _ => true
      end
  | _ => true
  end.

(** A descriptor on which no overlay raises: no rotation list holds [null],
    and the sub-records are objects whose rotation lists hold no [null]. *)
Definition tame (configRaw : json) : bool :=
  rotationsTame "rotations" configRaw
  && elementsTame "gamePieces" (rotationsTame "rotations") configRaw
  && elementsTame "cameras" (rotationsTame "rotations") configRaw
  && elementsTame "components" (rotationsTame "zeroedRotations") configRaw.

(** The order of the returned 3D fields and joysticks: names descending. *)
Definition descending (a b : string) : Prop := Str.lt b a = true.

(** A name with none of the four prefixes. *)
Definition unclassifiable (objectName : string) : bool :=
  negb (Str.startsWith objectName "Field2d_")
  && negb (Str.startsWith objectName "Field3d_")
  && negb (Str.startsWith objectName "Robot_")
  && negb (Str.startsWith objectName "Joystick_").

(* ================================================================== *)
(** * Sample asset folders *)

Module Sample.

(** [path.join] of a root and two plain names on POSIX. *)
Definition join (a b c : string) : string := a ++ "/" ++ b ++ "/" ++ c.

(** An ordinal comparison, standing for the locale comparison. *)
Definition compareOrdinal (a b : string) : Z :=
  match String.compare a b with
  | Lt => (-1)%Z
  | Eq => 0%Z
  | Gt => 1%Z
  end.

Definition dir (name : string) : Dirent.t :=
  {| Dirent.name := name; Dirent.isDirectory := true |}.

(** A file system given by the entries of each folder, the [config.json]
    files that parse, and the other files that exist.  Every folder can be
    listed (one that is not named is empty), and the preferences name no
    user folder. *)
Definition mkEnv (folders : list (string * list Dirent.t))
  (configs : list (string * json)) (files : list string) : Env :=
  {| os := posix;
     pathJoin := join;
     readdirSync := fun folder =>
       match find (fun f => String.eqb (fst f) folder) folders with
       | Some f => snd f
       | None => []
       end;
     readdirThrows := fun _ => None;
     existsSync := fun file =>
       existsb (String.eqb file) (map fst configs ++ files);
     readFileSync := fun file => assoc file configs;
     PREFS := Ok (JObj [("userAssetsFolder", JNull)]);
     DEFAULT_USER_ASSETS := "/user";
     AUTO_ASSETS := "/auto";
     BUNDLED_ASSETS := "/bundled";
     DEFAULT_DRIVER_STATIONS := repeat (0, 0)%Q 6;
     localeCompareNumeric := compareOrdinal |}.

Definition field2dJson (name : string) : json :=
  JObj [("name", JStr name);
        ("topLeft", JArr [JNum 0; JNum 0]);
        ("bottomRight", JArr [JNum 100; JNum 50]);
        ("widthInches", JNum 648);
        ("heightInches", JNum 324)].

(** The same display name admitted from the user root and from the bundled
    root. *)
Definition shadowed : Env :=
  mkEnv [("/user", [dir "Field2d_Mine"]); ("/bundled", [dir "Field2d_Stock"])]
        [("/user/Field2d_Mine/config.json", field2dJson "Crescendo");
         ("/bundled/Field2d_Stock/config.json", field2dJson "Crescendo")]
        ["/user/Field2d_Mine/image.png"; "/bundled/Field2d_Stock/image.png"].

(** What [loadAssets] returns for [shadowed]: the record of the user root. *)
Definition shadowedAssets : AdvantageScopeAssets :=
  {| field2ds :=
       [{| Config2d.name := "Crescendo";
           Config2d.path := "/user/Field2d_Mine/image.png";
           Config2d.sourceUrl := None;
           Config2d.topLeft := (0, 0)%Q;
           Config2d.bottomRight := (100, 50)%Q;
           Config2d.widthInches := 648;
           Config2d.heightInches := 324;
           Config2d.defaultOrigin := OriginAuto |}];
     field3ds := [];
     robots := [];
     joysticks := [];
     loadFailures := [] |}.

(** A folder whose name has none of the four prefixes. *)
Definition unclassified : Env :=
  mkEnv [("/user", [dir "Notes"])] [] [].

(** Three 2D fields named Alpha, Evergreen and Zeta. *)
Definition threeFields : Env :=
  mkEnv [("/bundled", [dir "Field2d_A"; dir "Field2d_E"; dir "Field2d_Z"])]
        [("/bundled/Field2d_A/config.json", field2dJson "Alpha");
         ("/bundled/Field2d_E/config.json", field2dJson "Evergreen");
         ("/bundled/Field2d_Z/config.json", field2dJson "Zeta")]
        ["/bundled/Field2d_A/image.png"; "/bundled/Field2d_E/image.png";
         "/bundled/Field2d_Z/image.png"].

(** The record built from [field2dJson name] in a folder of the bundled
    root. *)
Definition field2dRecord (name folder : string) : Config2d.t :=
  {| Config2d.name := name;
     Config2d.path := "/bundled/" ++ folder ++ "/image.png";
     Config2d.sourceUrl := None;
     Config2d.topLeft := (0, 0)%Q;
     Config2d.bottomRight := (100, 50)%Q;
     Config2d.widthInches := 648;
     Config2d.heightInches := 324;
     Config2d.defaultOrigin := OriginAuto |}.

(** What [loadAssets] returns for [threeFields]. *)
Definition threeFieldsAssets : AdvantageScopeAssets :=
  {| field2ds := [field2dRecord "Zeta" "Field2d_Z";
                  field2dRecord "Alpha" "Field2d_A";
                  field2dRecord "Evergreen" "Field2d_E"];
     field3ds := [];
     robots := [];
     joysticks := [];
     loadFailures := [] |}.

(** A robot of two components whose second auxiliary model is missing. *)
Definition robotJson : json :=
  JObj [("name", JStr "Arm");
        ("cameras", JArr [JObj [("name", JStr "Front")]]);
        ("components", JArr [JObj []; JObj []])].

Definition incompleteRobot : Env :=
  mkEnv [("/user", [dir "Robot_Arm"])]
        [("/user/Robot_Arm/config.json", robotJson)]
        ["/user/Robot_Arm/model.glb"; "/user/Robot_Arm/model_0.glb"].

Definition completeRobot : Env :=
  mkEnv [("/user", [dir "Robot_Arm"])]
        [("/user/Robot_Arm/config.json", robotJson)]
        ["/user/Robot_Arm/model.glb"; "/user/Robot_Arm/model_0.glb";
         "/user/Robot_Arm/model_1.glb"].

(** The record built from [robotJson]. *)
Definition armRobot : Config3dRobot.t :=
  {| Config3dRobot.name := "Arm";
     Config3dRobot.path := "/user/Robot_Arm/model.glb";
     Config3dRobot.sourceUrl := None;
     Config3dRobot.rotations := [];
     Config3dRobot.position := (0, 0, 0)%Q;
     Config3dRobot.cameras :=
       [{| Config3dRobot_Camera.name := "Front";
           Config3dRobot_Camera.rotations := [];
           Config3dRobot_Camera.position := (0, 0, 0)%Q;
           Config3dRobot_Camera.resolution := (200, 100)%Q;
           Config3dRobot_Camera.fov := 90 |}];
     Config3dRobot.components :=
       [{| Config3dRobot_Component.zeroedRotations := [];
           Config3dRobot_Component.zeroedPosition := (0, 0, 0)%Q |};
        {| Config3dRobot_Component.zeroedRotations := [];
           Config3dRobot_Component.zeroedPosition := (0, 0, 0)%Q |}];
     Config3dRobot.disableSimplification := false |}.

(** A joystick with one button of zero width. *)
Definition flatButtonJson : json :=
  JObj [("name", JStr "Pad");
        ("components",
         JArr [JObj [("type", JStr "button");
                     ("centerPx", JArr [JNum 10; JNum 10]);
                     ("sizePx", JArr [JNum 0; JNum 5]);
                     ("sourceIndex", JNum 1)]])].

Definition flatButton : Env :=
  mkEnv [("/user", [dir "Joystick_Pad"])]
        [("/user/Joystick_Pad/config.json", flatButtonJson)]
        ["/user/Joystick_Pad/image.png"].

(** A joystick whose only component has a [type] that names no shape. *)
Definition noComponentsJson : json :=
  JObj [("name", JStr "Bare");
        ("components", JArr [JObj [("type", JStr "slider")]])].

Definition noComponents : Env :=
  mkEnv [("/user", [dir "Joystick_Bare"])]
        [("/user/Joystick_Bare/config.json", noComponentsJson)]
        ["/user/Joystick_Bare/image.png"].

Definition bareJoystick : ConfigJoystick.t :=
  {| ConfigJoystick.name := "Bare";
     ConfigJoystick.path := "/user/Joystick_Bare/image.png";
     ConfigJoystick.components := [] |}.

(** Two joysticks without components. *)
Definition twoJoysticks : Env :=
  mkEnv [("/user", [dir "Joystick_A"; dir "Joystick_B"])]
        [("/user/Joystick_A/config.json", JObj [("name", JStr "Attack 3")]);
         ("/user/Joystick_B/config.json", JObj [("name", JStr "Xbox")])]
        ["/user/Joystick_A/image.png"; "/user/Joystick_B/image.png"].

Definition twoJoysticksAssets : AdvantageScopeAssets :=
  {| field2ds := [];
     field3ds := [];
     robots := [];
     joysticks :=
       [{| ConfigJoystick.name := "Xbox";
           ConfigJoystick.path := "/user/Joystick_B/image.png";
           ConfigJoystick.components := [] |};
        {| ConfigJoystick.name := "Attack 3";
           ConfigJoystick.path := "/user/Joystick_A/image.png";
           ConfigJoystick.components := [] |}];
     loadFailures := [] |}.

(** Two robot folders without [config.json]. *)
Definition twoFailures : Env :=
  mkEnv [("/user", [dir "Robot_A"; dir "Robot_B"])] [] [].

(** Two folders of one root that declare the same 2D field. *)
Definition twoVersions : Env :=
  mkEnv [("/user", [dir "Field2d_2024"; dir "Field2d_2025"])]
        [("/user/Field2d_2024/config.json", field2dJson "Crescendo");
         ("/user/Field2d_2025/config.json", field2dJson "Crescendo")]
        ["/user/Field2d_2024/image.png"; "/user/Field2d_2025/image.png"].

(** The record built from [field2dJson name] in a folder of the user root. *)
Definition userField2d (name folder : string) : Config2d.t :=
  {| Config2d.name := name;
     Config2d.path := "/user/" ++ folder ++ "/image.png";
     Config2d.sourceUrl := None;
     Config2d.topLeft := (0, 0)%Q;
     Config2d.bottomRight := (100, 50)%Q;
     Config2d.widthInches := 648;
     Config2d.heightInches := 324;
     Config2d.defaultOrigin := OriginAuto |}.

(** A robot folder without [config.json]. *)
Definition noDescriptor : Env :=
  mkEnv [("/user", [dir "Robot_Ghost"])] [] ["/user/Robot_Ghost/model.glb"].

(** A 2D field without [topLeft]. *)
Definition noTopLeftJson : json :=
  JObj [("name", JStr "Plain");
        ("bottomRight", JArr [JNum 100; JNum 50]);
        ("widthInches", JNum 648);
        ("heightInches", JNum 324)].

Definition noTopLeft : Env :=
  mkEnv [("/user", [dir "Field2d_Plain"])]
        [("/user/Field2d_Plain/config.json", noTopLeftJson)]
        ["/user/Field2d_Plain/image.png"].

(** The record built from [noTopLeftJson]. *)
Definition noTopLeftRecord : Config2d.t :=
  {| Config2d.name := "Plain";
     Config2d.path := "/user/Field2d_Plain/image.png";
     Config2d.sourceUrl := None;
     Config2d.topLeft := (-1 # 1, -1 # 1)%Q;
     Config2d.bottomRight := (100, 50)%Q;
     Config2d.widthInches := 648;
     Config2d.heightInches := 324;
     Config2d.defaultOrigin := OriginAuto |}.

(** A joystick with one button of twenty pixels by twenty. *)
Definition squareButtonJson : json :=
  JObj [("name", JStr "Pad");
        ("components",
         JArr [JObj [("type", JStr "button");
                     ("centerPx", JArr [JNum 10; JNum 10]);
                     ("sizePx", JArr [JNum 20; JNum 20]);
                     ("sourceIndex", JNum 1)]])].

Definition squareButton : Env :=
  mkEnv [("/user", [dir "Joystick_Pad"])]
        [("/user/Joystick_Pad/config.json", squareButtonJson)]
        ["/user/Joystick_Pad/image.png"].

Definition squareButtonRecord : ConfigJoystick.t :=
  {| ConfigJoystick.name := "Pad";
     ConfigJoystick.path := "/user/Joystick_Pad/image.png";
     ConfigJoystick.components :=
       [button {| ConfigJoystick_Button.isYellow := false;
                  ConfigJoystick_Button.isEllipse := false;
                  ConfigJoystick_Button.centerPx := (10, 10)%Q;
                  ConfigJoystick_Button.sizePx := (20, 20)%Q;
                  ConfigJoystick_Button.sourceIndex := 1;
                  ConfigJoystick_Button.sourcePov := None |}] |}.

(** The record built from [flatButtonJson]. *)
Definition flatButtonRecord : ConfigJoystick.t :=
  {| ConfigJoystick.name := "Pad";
     ConfigJoystick.path := "/user/Joystick_Pad/image.png";
     ConfigJoystick.components :=
       [button {| ConfigJoystick_Button.isYellow := false;
                  ConfigJoystick_Button.isEllipse := false;
                  ConfigJoystick_Button.centerPx := (10, 10)%Q;
                  ConfigJoystick_Button.sizePx := (0, 5)%Q;
                  ConfigJoystick_Button.sourceIndex := 1;
                  ConfigJoystick_Button.sourcePov := None |}] |}.

(** The UTF-8 forms of U+FB01 (one code unit, FB01) and of U+1F600 (two
    code units, D83D DE00). *)
Definition ligature : string := String "239" (String "172" (String "129" "")).
Definition grin : string :=
  String "240" (String "159" (String "152" (String "128" ""))).


(** A 3D field whose [gamePieces] holds a number, beside a valid 2D field. *)
Definition numberAsGamePiece : Env :=
  mkEnv [("/user", [dir "Field3d_Bad"; dir "Field2d_Good"])]
        [("/user/Field3d_Bad/config.json",
          JObj [("name", JStr "Bad"); ("widthInches", JNum 10);
                ("heightInches", JNum 10); ("gamePieces", JArr [JNum 5])]);
         ("/user/Field2d_Good/config.json", field2dJson "Good")]
        ["/user/Field3d_Bad/model.glb"; "/user/Field2d_Good/image.png"].

End Sample.


(* ================================================================== *)
(** * What the returned collection guarantees *)

(** The files a 3D record asks for: the model its path names and one
    auxiliary model for each of its parts. *)
Definition modelsExist (env : Env) (path : string) (parts : nat) : Prop :=
  exists model,
    Uri.decodeURIComponent path = Ok model
    /\ existsSync env model = true
    /\ forall index, index < parts ->
         existsSync env (auxiliaryFile model index) = true.

(** The image the path of a 2D record names exists. *)
Definition imageExists (env : Env) (path : string) : Prop :=
  exists file, Uri.decodeURIComponent path = Ok file /\ existsSync env file = true.

Definition validField2d (env : Env) (r : Config2d.t) : Prop :=
  Config2d.name r <> ""%string
  /\ (0 <= fst (Config2d.topLeft r))%Q
  /\ (0 <= snd (Config2d.topLeft r))%Q
  /\ (0 <= fst (Config2d.bottomRight r))%Q
  /\ (0 <= snd (Config2d.bottomRight r))%Q
  /\ (0 < Config2d.widthInches r)%Q
  /\ (0 < Config2d.heightInches r)%Q
  /\ imageExists env (Config2d.path r).

Definition validField3d (env : Env) (r : Config3dField.t) : Prop :=
  Config3dField.name r <> ""%string
  /\ (0 < Config3dField.widthInches r)%Q
  /\ (0 < Config3dField.heightInches r)%Q
  /\ modelsExist env (Config3dField.path r) (List.length (Config3dField.gamePieces r)).

Definition validRobot (env : Env) (r : Config3dRobot.t) : Prop :=
  Config3dRobot.name r <> ""%string
  /\ Forall (fun camera => Config3dRobot_Camera.name camera <> ""%string)
       (Config3dRobot.cameras r)
  /\ modelsExist env (Config3dRobot.path r) (List.length (Config3dRobot.components r)).

Definition validJoystick (env : Env) (r : ConfigJoystick.t) : Prop :=
  ConfigJoystick.name r <> ""%string
  /\ Forall componentValid (ConfigJoystick.components r)
  /\ imageExists env (ConfigJoystick.path r).

(** What [candidateOutcome] answers has passed the gate of its kind. *)
Definition passed (env : Env) (outcome : Outcome) : Prop :=
  match outcome with
  | Failure => True
  | Field2d config => validField2d env config
  | Field3d config => validField3d env config
  | Robot config => validRobot env config
  | Joystick config => validJoystick env config
  end.

(** A comparison function that orders the strings: it is transitive, and
    of two strings one is not greater than the other. *)
Definition consistent (compare : string -> string -> Z) : Prop :=
  (forall a b c, (compare a b <= 0)%Z -> (compare b c <= 0)%Z -> (compare a c <= 0)%Z)
  /\ (forall a b, (compare a b > 0)%Z -> (compare b a <= 0)%Z).

(** The record of a candidate admitted as the given kind. *)
Definition admittedAs {A : Type} (wrap : A -> Outcome) (env : Env)
  (parentFolder : string) (object : Dirent.t) (r : A) : Prop :=
  candidateOutcome env parentFolder (Dirent.name object) = Ok (wrap r).

(** Of the candidates of one root admitted as a kind under the display name
    of [r], the record [r] comes from a folder whose name is not less than
    the name of any other. *)
Definition fromGreatestFolder {A : Type} (wrap : A -> Outcome) (name : A -> string)
  (env : Env) (parentFolder : string) (r : A) : Prop :=
  exists winner,
    In winner (candidates env parentFolder)
    /\ admittedAs wrap env parentFolder winner r
    /\ forall other r',
         In other (candidates env parentFolder) ->
         admittedAs wrap env parentFolder other r' ->
         name r' = name r ->
         Str.lt (Dirent.name winner) (Dirent.name other) = false.

(** The environment [env] with another listing of the folders. *)
Definition withListing (env : Env) (listing : string -> list Dirent.t) : Env :=
  {| os := os env;
     pathJoin := pathJoin env;
     readdirSync := listing;
     readdirThrows := readdirThrows env;
     existsSync := existsSync env;
     readFileSync := readFileSync env;
     PREFS := PREFS env;
     DEFAULT_USER_ASSETS := DEFAULT_USER_ASSETS env;
     AUTO_ASSETS := AUTO_ASSETS env;
     BUNDLED_ASSETS := BUNDLED_ASSETS env;
     DEFAULT_DRIVER_STATIONS := DEFAULT_DRIVER_STATIONS env;
     localeCompareNumeric := localeCompareNumeric env |}.

(** ** What [processEntry] does with a candidate *)

(** The entry [object] of [parentFolder] is a directory whose name starts
    with [prefix] and whose [config.json] is there, is read, and holds
    [configRaw], which is an object (or an array). *)
Definition describedBy (env : Env) (prefix parentFolder : string) (object : Dirent.t)
  (configRaw : json) : Prop :=
  Dirent.isDirectory object = true
  /\ Str.startsWith (Dirent.name object) prefix = true
  /\ existsSync env (pathJoin env parentFolder (Dirent.name object) "config.json")
     = true
  /\ readFileSync env (pathJoin env parentFolder (Dirent.name object) "config.json")
     = Some configRaw
  /\ notAnObject configRaw = false.

(** The candidate is admitted with the record [config]: whatever the
    collection holds so far, [processEntry] returns it with [config] pushed
    last onto the list of its kind, the other three lists as they were, and
    [loadFailures] holding again the names it held (the name of the
    candidate is pushed and then taken out). *)
Definition admitsField2d (env : Env) (parentFolder : string) (object : Dirent.t)
  (config : Config2d.t) : Prop :=
  forall assets0, exists failures,
    processEntry env parentFolder assets0 object
    = Ok {| field2ds := field2ds assets0 ++ [config];
            field3ds := field3ds assets0;
            robots := robots assets0;
            joysticks := joysticks assets0;
            loadFailures := failures |}
    /\ Permutation failures (loadFailures assets0).



Definition admitsJoystick (env : Env) (parentFolder : string) (object : Dirent.t)
  (config : ConfigJoystick.t) : Prop :=
  forall assets0, exists failures,
    processEntry env parentFolder assets0 object
    = Ok {| field2ds := field2ds assets0;
            field3ds := field3ds assets0;
            robots := robots assets0;
            joysticks := joysticks assets0 ++ [config];
            loadFailures := failures |}
    /\ Permutation failures (loadFailures assets0).

(** The candidate stays a failure: [processEntry] returns the collection
    with the name of the candidate pushed last onto [loadFailures] and
    nothing else changed. *)
Definition leavesFailure (env : Env) (parentFolder : string) (object : Dirent.t)
  : Prop :=
  forall assets0,
    processEntry env parentFolder assets0 object
    = Ok {| field2ds := field2ds assets0;
            field3ds := field3ds assets0;
            robots := robots assets0;
            joysticks := joysticks assets0;
            loadFailures := loadFailures assets0 ++ [Dirent.name object] |}.

(** A character that [encodePath] leaves as it is: an unreserved character
    or the separator. *)
Definition plainChar (os : platform) (c : ascii) : bool :=
  Uri.unreserved c || (c =? sep os)%char.

(* ================================================================== *)
(** * Legacy assets: names and descriptors ([convertLegacyAssets]) *)

(** The characters kept in the name of a target folder.  The constant of
    the source is written with a lower-case x between W and Y and without
    m. *)
Definition CONVERT_LEGACY_ALLOWED_CHARS : list ascii :=
  list_ascii_of_string
    "ABCDEFGHIJKLMNOPQRSTUVWxYZabcdefghijklnopqrstuvwxyz0123456789".

(** [file.split("_").slice(1).join("_").split(".").slice(0, -1).join(".")] *)
Definition title (file : string) : string :=
  Str.join "."
    (removelast (Str.split "." (Str.join "_" (tl (Str.split "_" file))))).

(** [title.split("").filter((x) => CONVERT_LEGACY_ALLOWED_CHARS.includes(x))
     .join("")].  The allowed characters are ASCII: a byte of the UTF-8 form
    is kept exactly when the code unit it stands for is. *)
Definition allowedChars (title : string) : string :=
  string_of_list_ascii
    (filter (fun x => existsb (Ascii.eqb x) CONVERT_LEGACY_ALLOWED_CHARS)
       (list_ascii_of_string title)).

(** The last argument of the [path.join] that gives [targetPath]. *)
Definition targetName (file : string) : string :=
  hd "" (Str.split "_" file) ++ "_" ++ allowedChars (title file).

(** [config.name = value] on the own properties of an object: the value of
    an existing property is replaced, a new property comes last. *)
Fixpoint setProperty (key : string) (value : json) (props : list (string * json))
  : list (string * json) :=
  match props with
  | [] => [(key, value)]
  | (k, v) :: rest =>
      if String.eqb k key then (k, value) :: rest
      else (k, v) :: setProperty key value rest
  end.

(** [config.name = title], as [jsonfile.writeFileSync] then serializes
    [config].  The module is in strict mode: the assignment raises
    [TypeError] on [null] and on a primitive.  On an array it adds a
    property that [JSON.stringify] does not write. *)
Definition assignName (title : string) (config : json) : result json :=
  match config with
  | JObj props => Ok (JObj (setProperty "name" (JStr title) props))
  | JArr items => Ok (JArr items)
  | JNull | JBool _ | JNum _ | JStr _ => Throw TypeError
  end.

(** Update config (lines 117-124). *)
Definition updateConfig (isJoystick : bool) (title : string) (config : json)
  : result json :=
  assignName title
    (if isJoystick
     then JObj [("name", JStr title); ("components", config)]
     else config).

(** The letters and digits other than [X] and [m]. *)
Definition keptByConversion (c : ascii) : bool :=
  (Uri.isUpper c || Uri.isLower c || Uri.isDigit c)
  && negb (c =? "X")%char && negb (c =? "m")%char.

(* ================================================================== *)
(** * The file system as a tree *)

(** A model of the calls of Node's [fs] and of [jsonfile] that
    [createAssetFolders] and [convertLegacyAssets] make.  The disk is a
    tree of directories; a file holds a JSON value (its serialization, which
    [jsonfile.readFileSync] parses back) or bytes that are no JSON text.
    The entries of a directory are kept in the order in which
    [fs.readdirSync] lists them; a new entry comes last.  A path is
    resolved segment by segment from the root; it is taken without [.] and
    [..] segments, as [path.join] returns it.  Names are compared exactly,
    as on a case-sensitive file system, and there are no links.  A call that
    throws leaves the disk as it found it. *)
Module Fs.

Inductive content : Type :=
| Json (value : json)
| Bytes (data : string).

#[warnings="-register-all"]
Inductive node : Type :=
| File (data : content)
| Dir (entries : list (string * node)).

(** What there is at a path. *)
Inductive kind : Type :=
| IsFile (data : content)
| IsDir.

Inductive errno : Set := ENOENT | EEXIST | ENOTDIR | EISDIR.

Inductive thrown : Set :=
| Exception (e : exn)
| SystemError (code : errno)
| SyntaxError.

(** How a call ends: it returns, it throws, or ([Unfinished]) the steps
    allowed to the loop of [convertLegacyAssets] ran out. *)
Inductive completion (A : Type) : Type :=
| Normal (a : A)
| Abrupt (t : thrown)
| Unfinished.

Arguments Normal {A} a.
Arguments Abrupt {A} t.
Arguments Unfinished {A}.

(** A computation on the disk. *)
Definition io (A : Type) : Type := node -> node * completion A.

Definition ret {A : Type} (a : A) : io A := fun disk => (disk, Normal a).

Definition throw {A : Type} (t : thrown) : io A := fun disk => (disk, Abrupt t).

Definition bind {A B : Type} (c : io A) (k : A -> io B) : io B :=
  fun disk =>
    match c disk with
    | (disk', Normal a) => k a disk'
    | (disk', Abrupt t) => (disk', Abrupt t)
    | (disk', Unfinished) => (disk', Unfinished)
    end.

(** A computation that only throws, run on the disk. *)
Definition lift {A : Type} (c : result A) : io A :=
  match c with
  | Ok a => ret a
  | Throw e => throw (Exception e)
  end.

(** [array.forEach(f)] *)
Fixpoint forEach {A : Type} (f : A -> io unit) (array : list A) : io unit :=
  match array with
  | [] => ret tt
  | x :: rest => bind (f x) (fun _ => forEach f rest)
  end.

(** ** The tree *)

Fixpoint getEntry {A : Type} (name : string) (entries : list (string * A))
  : option A :=
  match entries with
  | [] => None
  | (k, v) :: rest => if String.eqb k name then Some v else getEntry name rest
  end.

Fixpoint setEntry {A : Type} (name : string) (value : A)
  (entries : list (string * A)) : list (string * A) :=
  match entries with
  | [] => [(name, value)]
  | (k, v) :: rest =>
      if String.eqb k name then (k, value) :: rest
      else (k, v) :: setEntry name value rest
  end.

Definition removeEntry {A : Type} (name : string) (entries : list (string * A))
  : list (string * A) :=
  filter (fun entry => negb (String.eqb (fst entry) name)) entries.

Fixpoint lookup (p : list string) (disk : node) : option node :=
  match p with
  | [] => Some disk
  | name :: rest =>
      match disk with
      | Dir entries =>
          match getEntry name entries with
          | Some child => lookup rest child
          | None => None
          end
      | File _ => None
      end
  end.

(** The node [value] put at [p], when the parent of [p] is a directory. *)
Fixpoint set (p : list string) (value : node) (disk : node) : node :=
  match p with
  | [] => value
  | name :: rest =>
      match disk with
      | Dir entries =>
          match rest with
          | [] => Dir (setEntry name value entries)
          | _ :: _ =>
              match getEntry name entries with
              | Some child => Dir (setEntry name (set rest value child) entries)
              | None => disk
              end
          end
      | File _ => disk
      end
  end.

(** The node at [p] taken away with all that is below it. *)
Fixpoint remove (p : list string) (disk : node) : node :=
  match p with
  | [] => disk
  | name :: rest =>
      match disk with
      | Dir entries =>
          match rest with
          | [] => Dir (removeEntry name entries)
          | _ :: _ =>
              match getEntry name entries with
              | Some child => Dir (setEntry name (remove rest child) entries)
              | None => disk
              end
          end
      | File _ => disk
      end
  end.

(** [q] is [p] or a path below [p]. *)
Fixpoint within (p q : list string) : bool :=
  match p, q with
  | [], _ => true
  | a :: p', b :: q' => String.eqb a b && within p' q'
  | _ :: _, [] => false
  end.

Definition stat (p : list string) (disk : node) : option kind :=
  match lookup p disk with
  | Some (File data) => Some (IsFile data)
  | Some (Dir _) => Some IsDir
  | None => None
  end.

(** ** Paths *)

(** The segments of a path: the empty ones (before a leading separator,
    between two separators) name nothing. *)
Definition resolve (os : platform) (file : string) : list string :=
  filter (fun segment => negb (String.eqb segment ""))
    (Str.split (sep os) file).

(** [path.join(a, b)] for a name [b]. *)
Definition join (os : platform) (a b : string) : string :=
  a ++ String (sep os) b.

(** ** The calls *)

Section Calls.

Variable os : platform.

(** [fs.existsSync(file)] *)
Definition existsSync (file : string) : io bool :=
  fun disk =>
    (disk, Normal (match lookup (resolve os file) disk with
                   | Some _ => true
                   | None => false
                   end)).

(** The check every call that creates an entry makes of the parent. *)
Definition parentOf (p : list string) (disk : node) : completion unit :=
  match lookup (removelast p) disk with
  | Some (Dir _) => Normal tt
  | Some (File _) => Abrupt (SystemError ENOTDIR)
  | None => Abrupt (SystemError ENOENT)
  end.

(** [fs.mkdirSync(folder)]: throws when there is something at [folder]
    already or when the parent is no directory. *)
Definition mkdirSync (folder : string) : io unit :=
  fun disk =>
    let p := resolve os folder in
    match lookup p disk with
    | Some _ => (disk, Abrupt (SystemError EEXIST))
    | None =>
        match parentOf p disk with
        | Normal _ => (set p (Dir []) disk, Normal tt)
        | failure => (disk, failure)
        end
    end.

(** The write of a file: its content is replaced when there is one; throws
    when [file] is a directory or when the parent is no directory. *)
Definition write (file : string) (data : content) : io unit :=
  fun disk =>
    let p := resolve os file in
    match lookup p disk with
    | Some (Dir _) => (disk, Abrupt (SystemError EISDIR))
    | _ =>
        match parentOf p disk with
        | Normal _ => (set p (File data) disk, Normal tt)
        | failure => (disk, failure)
        end
    end.

(** [fs.writeFileSync(file, text)] *)
Definition writeFileSync (file text : string) : io unit :=
  write file (Bytes text).

(** [jsonfile.writeFileSync(file, value, { spaces: 2 })] *)
Definition writeJsonSync (file : string) (value : json) : io unit :=
  write file (Json value).

(** [jsonfile.readFileSync(file)] *)
Definition readJsonSync (file : string) : io json :=
  fun disk =>
    match lookup (resolve os file) disk with
    | Some (File (Json value)) => (disk, Normal value)
    | Some (File (Bytes _)) => (disk, Abrupt SyntaxError)
    | Some (Dir _) => (disk, Abrupt (SystemError EISDIR))
    | None => (disk, Abrupt (SystemError ENOENT))
    end.

(** [fs.readdirSync(folder)] *)
Definition readdirSync (folder : string) : io (list string) :=
  fun disk =>
    match lookup (resolve os folder) disk with
    | Some (Dir entries) => (disk, Normal (map fst entries))
    | Some (File _) => (disk, Abrupt (SystemError ENOTDIR))
    | None => (disk, Abrupt (SystemError ENOENT))
    end.

(** [fs.copyFileSync(source, target)] *)
Definition copyFileSync (source target : string) : io unit :=
  fun disk =>
    match lookup (resolve os source) disk with
    | Some (File data) => write target data disk
    | Some (Dir _) => (disk, Abrupt (SystemError EISDIR))
    | None => (disk, Abrupt (SystemError ENOENT))
    end.

(** [fs.rmSync(folder, { recursive: true })] *)
Definition rmSync (folder : string) : io unit :=
  fun disk =>
    match lookup (resolve os folder) disk with
    | Some _ => (remove (resolve os folder) disk, Normal tt)
    | None => (disk, Abrupt (SystemError ENOENT))
    end.

End Calls.

End Fs.

(** A leaf: a file or an empty directory. *)
Definition leaf (n : Fs.node) : Prop :=
  match n with Fs.File _ | Fs.Dir [] => True | _ => False end.

(** Nothing but a file, if anything, at [p]. *)
Definition vacant (p : list string) (disk : Fs.node) : Prop :=
  match Fs.lookup p disk with Some (Fs.Dir _) => False | _ => True end.

(** A specification of a computation on the disk: from a disk that satisfies
    [P] it returns [a] on a disk that satisfies [Q a], or it ends otherwise
    on a disk that satisfies [E]. *)
Definition triple {A : Type} (P : Fs.node -> Prop) (m : Fs.io A)
  (Q : A -> Fs.node -> Prop) (E : Fs.node -> Prop) : Prop :=
  forall disk, P disk ->
    match m disk with
    | (disk', Fs.Normal a) => Q a disk'
    | (disk', _) => E disk'
    end.

(** What a disk keeps of the disk [before] when entries were only added,
    and only at or below [folder]: what there was is as it was, and what is
    new is within [folder]. *)
Definition onlyAddsWithin (folder : list string) (before disk : Fs.node) : Prop :=
  forall q,
    (Fs.stat q before <> None -> Fs.stat q disk = Fs.stat q before)
    /\ (Fs.stat q before = None -> Fs.stat q disk <> None ->
        Fs.within folder q = true).

(** The same of the paths that are not within [folder]. *)
Definition keptOutside (folder added : list string) (before disk : Fs.node) : Prop :=
  forall q,
    Fs.within folder q = false ->
    (Fs.stat q before <> None -> Fs.stat q disk = Fs.stat q before)
    /\ (Fs.stat q before = None -> Fs.stat q disk <> None ->
        Fs.within added q = true).

Notation "x <~ c ;; k" := (Fs.bind c (fun x => k))
  (at level 61, c at next level, right associativity).

(* ================================================================== *)
(** * [createAssetFolders] and [convertLegacyAssets] *)

(** The folders of [Constants.ts] and the platform. *)
Module Constants.
Record t : Type := {
  os : platform;
  LEGACY_ASSETS : string;
  DEFAULT_USER_ASSETS : string;
  AUTO_ASSETS : string
}.
End Constants.

Definition USER_ASSETS_README : string :=
  "This folder contains extra assets for the odometry, 3D field, and joystick views. For more details, see the "
  ++ String "034" "Custom Fields/Robots/Joysticks"
  ++ String "034" " page in the AdvantageScope documentation (available through the documentation tab in the app or the URL below)."
  ++ String "010" (String "010"
       "https://github.com/Mechanical-Advantage/AdvantageScope/blob/main/docs/CUSTOM-ASSETS.md").

Section Folders.

Variable c : Constants.t.

Let os := Constants.os c.
Let LEGACY_ASSETS := Constants.LEGACY_ASSETS c.
Let DEFAULT_USER_ASSETS := Constants.DEFAULT_USER_ASSETS c.
Let AUTO_ASSETS := Constants.AUTO_ASSETS c.

(** Creates folders for user and automatic assets (lines 44-53). *)
Definition createAssetFolders : Fs.io unit :=
  autoExists <~ Fs.existsSync os AUTO_ASSETS ;;
  _ <~ (if negb autoExists then Fs.mkdirSync os AUTO_ASSETS else Fs.ret tt) ;;
  userExists <~ Fs.existsSync os DEFAULT_USER_ASSETS ;;
  _ <~ (if negb userExists then Fs.mkdirSync os DEFAULT_USER_ASSETS else Fs.ret tt) ;;
  Fs.writeFileSync os (Fs.join os DEFAULT_USER_ASSETS "README.txt") USER_ASSETS_README.

(** The [while (true)] of lines 106-112, for at most [fuel] tests of
    [fs.existsSync(source)]. *)
Fixpoint copyParts (fuel index : nat) (title targetPath : string) : Fs.io unit :=
  match fuel with
  | 0 => fun disk => (disk, Fs.Unfinished)
  | S fuel =>
      let source :=
        Fs.join os LEGACY_ASSETS
          ("Robot_" ++ title ++ "_" ++ Str.ofIndex index ++ ".glb") in
      sourceExists <~ Fs.existsSync os source ;;
      if negb sourceExists then Fs.ret tt
      else
        _ <~ Fs.copyFileSync os source
               (Fs.join os targetPath ("model_" ++ Str.ofIndex index ++ ".glb")) ;;
        copyParts fuel (S index) title targetPath
  end.

(** Copy assets (lines 99-115). *)
Definition copyAssets (fuel : nat) (file title targetPath : string) : Fs.io unit :=
  let isField2d := Str.startsWith file "Field2d_" in
  let isField3d := Str.startsWith file "Field3d_" in
  let isRobot := Str.startsWith file "Robot_" in
  let isJoystick := Str.startsWith file "Joystick_" in
  if isField2d then
    Fs.copyFileSync os (Fs.join os LEGACY_ASSETS ("Field2d_" ++ title ++ ".png"))
      (Fs.join os targetPath "image.png")
  else if isField3d then
    Fs.copyFileSync os (Fs.join os LEGACY_ASSETS ("Field3d_" ++ title ++ ".glb"))
      (Fs.join os targetPath "model.glb")
  else if isRobot then
    _ <~ Fs.copyFileSync os (Fs.join os LEGACY_ASSETS ("Robot_" ++ title ++ ".glb"))
           (Fs.join os targetPath "model.glb") ;;
    copyParts fuel 0 title targetPath
  else if isJoystick then
    Fs.copyFileSync os (Fs.join os LEGACY_ASSETS ("Joystick_" ++ title ++ ".png"))
      (Fs.join os targetPath "image.png")
  else Fs.ret tt.

(** The callback of the [forEach] of lines 77-126. *)
Definition convertFile (fuel : nat) (file : string) : Fs.io unit :=
  if negb (Str.endsWith file ".json") then Fs.ret tt
  else
    let title := title file in
    config <~ Fs.readJsonSync os (Fs.join os LEGACY_ASSETS file) ;;
    let isJoystick := Str.startsWith file "Joystick_" in
    (* Create target folder *)
    let targetPath := Fs.join os DEFAULT_USER_ASSETS (targetName file) in
    targetExists <~ Fs.existsSync os targetPath ;;
    if targetExists then Fs.ret tt
    else
      _ <~ Fs.mkdirSync os targetPath ;;
      _ <~ copyAssets fuel file title targetPath ;;
      config <~ Fs.lift (updateConfig isJoystick title config) ;;
      Fs.writeJsonSync os (Fs.join os targetPath "config.json") config.

(** Converts any custom "FRC Data" assets to the current format (lines
    55-130).  [answer] is the index of the button the user clicks in the
    message box: [0] for Continue. *)
Definition convertLegacyAssets (fuel answer : nat) : Fs.io unit :=
  legacyExists <~ Fs.existsSync os LEGACY_ASSETS ;;
  if negb legacyExists then Fs.ret tt
  else
    files <~ Fs.readdirSync os LEGACY_ASSETS ;;
    if List.length (filter (fun x => negb (Str.startsWith x ".")) files) <=? 1
    then
      (* Delete unused FRC data folder *)
      Fs.rmSync os LEGACY_ASSETS
    else
      (* Prompt user to confirm *)
      if negb (answer =? 0) then Fs.ret tt
      else
        (* Convert assets *)
        files <~ Fs.readdirSync os LEGACY_ASSETS ;;
        _ <~ Fs.forEach (convertFile fuel) files ;;
        (* Delete FRC data folder *)
        Fs.rmSync os LEGACY_ASSETS.

End Folders.


(** The entries of the legacy folder that [convertLegacyAssets] counts:
    those whose name does not start with a dot. *)
Definition visibleLegacy (c : Constants.t) (disk : Fs.node) : list string :=
  match Fs.lookup (Fs.resolve (Constants.os c) (Constants.LEGACY_ASSETS c)) disk with
  | Some (Fs.Dir entries) =>
      filter (fun x => negb (Str.startsWith x ".")) (map fst entries)
  | _ => []
  end.

(** The kinds of legacy asset that come with one file. *)
Inductive SingleAsset : Set := Legacy2d | Legacy3d | LegacyJoystick.

Definition kindOf (kind : SingleAsset) : string :=
  match kind with
  | Legacy2d => "Field2d"
  | Legacy3d => "Field3d"
  | LegacyJoystick => "Joystick"
  end.

(** The extension of the asset in the legacy folder. *)
Definition legacyExtension (kind : SingleAsset) : string :=
  match kind with
  | Legacy2d | LegacyJoystick => ".png"
  | Legacy3d => ".glb"
  end.

(** The name of the asset in the target folder. *)
Definition assetName (kind : SingleAsset) : string :=
  match kind with
  | Legacy2d | LegacyJoystick => "image.png"
  | Legacy3d => "model.glb"
  end.

Definition isLegacyJoystick (kind : SingleAsset) : bool :=
  match kind with LegacyJoystick => true | _ => false end.

(** The legacy name of part [index] of the robot [title] and its name in
    the target folder. *)
Definition partSource (title : string) (index : nat) : string :=
  "Robot_" ++ title ++ "_" ++ Str.ofIndex index ++ ".glb".

Definition partTarget (index : nat) : string :=
  "model_" ++ Str.ofIndex index ++ ".glb".

(** The state of the loop that copies the parts of the robot [title] when
    the parts before [index] are copied: they are in the target folder with
    their content, and the rest of the disk is as it was at the entry. *)
Definition partsCopied (c : Constants.t) (title : string) (parts : list Fs.content)
  (entry : Fs.node) (index : nat) (disk : Fs.node) : Prop :=
  let target :=
    Fs.resolve (Constants.os c) (Constants.DEFAULT_USER_ASSETS c)
    ++ [("Robot_" ++ allowedChars title)%string] in
  (forall q, (forall j, j < index -> q <> target ++ [partTarget j]) ->
             Fs.stat q disk = Fs.stat q entry)
  /\ (forall j, j < index ->
        Fs.stat (target ++ [partTarget j]) disk
        = Some (Fs.IsFile (nth j parts (Fs.Bytes "")))).

(** ** The loader on a disk *)

(** The environment of [loadAssets] on a disk: [path.join] of a folder and
    two names, and the answers of [fs] and [jsonfile] read off the tree.
    The listing of a folder throws when there is no such folder or when it
    is a file.  The preferences name no user folder. *)
Definition diskEnv (c : Constants.t) (bundled : string) (stations : list (Q * Q))
  (compare : string -> string -> Z) (disk : Fs.node) : Env :=
  {| os := Constants.os c;
     pathJoin := fun folder name file =>
       Fs.join (Constants.os c) (Fs.join (Constants.os c) folder name) file;
     readdirSync := fun folder =>
       match Fs.lookup (Fs.resolve (Constants.os c) folder) disk with
       | Some (Fs.Dir entries) =>
           map (fun entry =>
                  {| Dirent.name := fst entry;
                     Dirent.isDirectory :=
                       match snd entry with
                       | Fs.Dir _ => true
                       | Fs.File _ => false
                       end |})
             entries
       | _ => []
       end;
     readdirThrows := fun folder =>
       match Fs.lookup (Fs.resolve (Constants.os c) folder) disk with
       | Some (Fs.Dir _) => None
       | _ => Some SystemError
       end;
     existsSync := fun file =>
       match Fs.stat (Fs.resolve (Constants.os c) file) disk with
       | Some _ => true
       | None => false
       end;
     readFileSync := fun file =>
       match Fs.stat (Fs.resolve (Constants.os c) file) disk with
       | Some (Fs.IsFile (Fs.Json value)) => Some value
       | _ => None
       end;
     PREFS := Ok (JObj [("userAssetsFolder", JNull)]);
     DEFAULT_USER_ASSETS := Constants.DEFAULT_USER_ASSETS c;
     AUTO_ASSETS := Constants.AUTO_ASSETS c;
     BUNDLED_ASSETS := bundled;
     DEFAULT_DRIVER_STATIONS := stations;
     localeCompareNumeric := compare |}.

(** What [loadAssets] does with a candidate of the given kind whose
    descriptor holds the object [configRaw]. *)
Definition loadAs (kind : SingleAsset) (env : Env) (parentFolder objectName : string)
  (configRaw : json) : result Outcome :=
  match kind with
  | Legacy2d =>
      config <- buildField2d env parentFolder objectName configRaw ;;
      ok <- admitField2d env config ;;
      Ok (if ok then Field2d config else Failure)
  | Legacy3d =>
      config <- buildField3d env parentFolder objectName configRaw ;;
      ok <- admitField3d env config ;;
      Ok (if ok then Field3d config else Failure)
  | LegacyJoystick =>
      config <- buildJoystick env parentFolder objectName configRaw ;;
      ok <- admitJoystick env config ;;
      Ok (if ok then Joystick config else Failure)
  end.

(** The number of entries of the legacy folder. *)
Definition legacyEntries (c : Constants.t) (disk : Fs.node) : nat :=
  match Fs.lookup (Fs.resolve (Constants.os c) (Constants.LEGACY_ASSETS c)) disk with
  | Some (Fs.Dir entries) => List.length entries
  | _ => 0
  end.

(* ================================================================== *)
(** * Sample disks *)

Module Disk.

Definition constants : Constants.t :=
  {| Constants.os := posix;
     Constants.LEGACY_ASSETS := "/data/frcData";
     Constants.DEFAULT_USER_ASSETS := "/data/userAssets";
     Constants.AUTO_ASSETS := "/data/autoAssets" |}.

(** The data folder of the application before its first start. *)
Definition fresh : Fs.node := Fs.Dir [("data", Fs.Dir [])].

(** The same once [createAssetFolders] has run. *)
Definition prepared : Fs.node :=
  Fs.Dir [("data",
           Fs.Dir [("autoAssets", Fs.Dir []);
                   ("userAssets",
                    Fs.Dir [("README.txt",
                             Fs.File (Fs.Bytes USER_ASSETS_README))])])].

Definition png (name : string) : Fs.node := Fs.File (Fs.Bytes ("PNG " ++ name)).
Definition glb (name : string) : Fs.node := Fs.File (Fs.Bytes ("glTF " ++ name)).

(** The asset of the user that is there before the conversion. *)
Definition mine : Fs.node :=
  Fs.Dir [("config.json", Fs.File (Fs.Json (Sample.field2dJson "Mine")));
          ("image.png", png "mine")].

(** A legacy folder with a 2D field and a robot of two components, beside
    the folders of the user, automatic and bundled assets. *)
Definition legacy : Fs.node :=
  Fs.Dir [("bundled", Fs.Dir []);
          ("data",
           Fs.Dir [("autoAssets", Fs.Dir []);
                   ("frcData",
                    Fs.Dir [("Field2d_2024 Field.json",
                             Fs.File (Fs.Json (Sample.field2dJson "Old name")));
                            ("Field2d_2024 Field.png", png "field");
                            ("Robot_Arm.json", Fs.File (Fs.Json Sample.robotJson));
                            ("Robot_Arm.glb", glb "arm");
                            ("Robot_Arm_0.glb", glb "arm 0");
                            ("Robot_Arm_1.glb", glb "arm 1")]);
                   ("userAssets", Fs.Dir [("Field2d_Mine", mine)])])].

(** The same once [convertLegacyAssets] has run and the user has clicked
    Continue.  The folder of the robot Arm has lost the m. *)
Definition converted : Fs.node :=
  Fs.Dir [("bundled", Fs.Dir []);
          ("data",
           Fs.Dir [("autoAssets", Fs.Dir []);
                   ("userAssets",
                    Fs.Dir [("Field2d_Mine", mine);
                            ("Field2d_2024Field",
                             Fs.Dir [("image.png", png "field");
                                     ("config.json",
                                      Fs.File (Fs.Json
                                                 (Sample.field2dJson "2024 Field")))]);
                            ("Robot_Ar",
                             Fs.Dir [("model.glb", glb "arm");
                                     ("model_0.glb", glb "arm 0");
                                     ("model_1.glb", glb "arm 1");
                                     ("config.json",
                                      Fs.File (Fs.Json Sample.robotJson))])])])].

(** A legacy folder with one entry. *)
Definition unused : Fs.node :=
  Fs.Dir [("data",
           Fs.Dir [("frcData", Fs.Dir [("Robot_Arm.json",
                                        Fs.File (Fs.Json Sample.robotJson))]);
                   ("userAssets", Fs.Dir [])])].

(** A legacy folder whose joystick has lost its image. *)
Definition orphan : Fs.node :=
  Fs.Dir [("data",
           Fs.Dir [("frcData",
                    Fs.Dir [("Joystick_Pad.json", Fs.File (Fs.Json (JArr [])));
                            ("Robot_Arm.json", Fs.File (Fs.Json Sample.robotJson))]);
                   ("userAssets", Fs.Dir [])])].

(** The folders and no locale: the loader on a sample disk. *)
Definition env (disk : Fs.node) : Env :=
  diskEnv constants "/bundled" (repeat (0, 0)%Q 6) Sample.compareOrdinal disk.

End Disk.

(* ================================================================== *)
(** * The order of the code units *)

Lemma byte_inj (c d : ascii) : Str.byte c = Str.byte d -> c = d.
Proof.
  unfold Str.byte. intros H.
  rewrite <- (ascii_N_embedding c), <- (ascii_N_embedding d). now rewrite H.
Qed.

Lemma byte_bound (c : ascii) : (Str.byte c < 256)%N.
Proof. apply N_ascii_bounded. Qed.

(** What one step of [Str.utf16] reads and gives. *)
Lemma utf16_cons (c0 : ascii) (r0 : string) :
  ((Str.byte c0 < 128)%N
   /\ Str.utf16 (String c0 r0) = Str.byte c0 :: Str.utf16 r0)
  \/ (exists c1 r1 cp,
        r0 = String c1 r1
        /\ Str.scalar2 (Str.byte c0) (Str.byte c1) = Some cp
        /\ Str.utf16 (String c0 r0) = cp :: Str.utf16 r1)
  \/ (exists c1 c2 r2 cp,
        r0 = String c1 (String c2 r2)
        /\ Str.scalar3 (Str.byte c0) (Str.byte c1) (Str.byte c2) = Some cp
        /\ Str.utf16 (String c0 r0) = cp :: Str.utf16 r2)
  \/ (exists c1 c2 c3 r3 cp,
        r0 = String c1 (String c2 (String c3 r3))
        /\ Str.scalar4 (Str.byte c0) (Str.byte c1) (Str.byte c2) (Str.byte c3)
           = Some cp
        /\ Str.utf16 (String c0 r0) = Str.surrogates cp ++ Str.utf16 r3)
  \/ ((128 <= Str.byte c0)%N
      /\ Str.utf16 (String c0 r0) = (65536 + Str.byte c0)%N :: Str.utf16 r0).
Proof.
  cbn [Str.utf16].
  destruct (N.ltb_spec (Str.byte c0) 128) as [Hlt|Hge]; [left; now split|].
  right.
  destruct r0 as [|c1 r1]; [do 3 right; now split|].
  destruct (Str.scalar2 (Str.byte c0) (Str.byte c1)) as [cp|] eqn:E2;
    [left; now exists c1, r1, cp|].
  right.
  destruct r1 as [|c2 r2]; [do 2 right; now split|].
  destruct (Str.scalar3 (Str.byte c0) (Str.byte c1) (Str.byte c2)) as [cp|] eqn:E3;
    [left; now exists c1, c2, r2, cp|].
  right.
  destruct r2 as [|c3 r3]; [right; now split|].
  destruct (Str.scalar4 (Str.byte c0) (Str.byte c1) (Str.byte c2) (Str.byte c3))
    as [cp|] eqn:E4;
    [left; now exists c1, c2, c3, r3, cp | right; now split].
Qed.

Lemma some_inj {A : Type} (a b : A) : Some a = Some b -> a = b.
Proof. now intros [=]. Qed.

Ltac open_scalar H :=
  match type of H with
  | (if ?c then _ else _) = Some _ =>
      let E := fresh "E" in
      destruct c eqn:E; [|discriminate];
      apply some_inj in H;
      unfold Str.continuation in E;
      repeat match goal with
             | X : (_ && _)%bool = true |- _ =>
                 apply andb_true_iff in X; destruct X
             | X : (_ <=? _)%N = true |- _ => apply N.leb_le in X
             | X : negb _ = true |- _ => apply negb_true_iff in X
             | X : (_ && _)%bool = false |- _ => apply andb_false_iff in X
             | X : _ \/ _ |- _ => destruct X
             | X : (_ <=? _)%N = false |- _ => apply N.leb_gt in X
             end
  end.

Lemma scalar2_spec (b0 b1 cp : N) :
  Str.scalar2 b0 b1 = Some cp ->
  (128 <= cp < 2048)%N /\ (194 <= b0 <= 223)%N /\ (128 <= b1 <= 191)%N
  /\ cp = (64 * (b0 - 192) + (b1 - 128))%N.
Proof. unfold Str.scalar2. intros H. open_scalar H; lia. Qed.

Lemma scalar3_spec (b0 b1 b2 cp : N) :
  Str.scalar3 b0 b1 b2 = Some cp ->
  (2048 <= cp < 65536)%N /\ (cp < 55296 \/ 57343 < cp)%N
  /\ (224 <= b0 <= 239)%N /\ (128 <= b1 <= 191)%N /\ (128 <= b2 <= 191)%N
  /\ cp = (4096 * (b0 - 224) + 64 * (b1 - 128) + (b2 - 128))%N.
Proof. unfold Str.scalar3. intros H. cbv zeta in H. open_scalar H; lia. Qed.

Lemma scalar4_spec (b0 b1 b2 b3 cp : N) :
  Str.scalar4 b0 b1 b2 b3 = Some cp ->
  (65536 <= cp <= 1114111)%N
  /\ (240 <= b0 <= 244)%N /\ (128 <= b1 <= 191)%N /\ (128 <= b2 <= 191)%N
  /\ (128 <= b3 <= 191)%N
  /\ cp = (262144 * (b0 - 240) + 4096 * (b1 - 128) + 64 * (b2 - 128)
           + (b3 - 128))%N.
Proof. unfold Str.scalar4. intros H. cbv zeta in H. open_scalar H; lia. Qed.

Lemma surrogates_spec (cp : N) :
  (65536 <= cp <= 1114111)%N ->
  exists hi lo,
    Str.surrogates cp = [hi; lo]
    /\ (55296 <= hi <= 56319)%N /\ (56320 <= lo <= 57343)%N
    /\ cp = (65536 + 1024 * (hi - 55296) + (lo - 56320))%N.
Proof.
  intros H. unfold Str.surrogates.
  exists (55296 + (cp - 65536) / 1024)%N, (56320 + (cp - 65536) mod 1024)%N.
  split; [reflexivity|].
  assert (Hd := N.div_mod (cp - 65536) 1024 ltac:(discriminate)).
  assert (Hm := N.mod_lt (cp - 65536) 1024 ltac:(discriminate)).
  set (q := ((cp - 65536) / 1024)%N) in *.
  set (r := ((cp - 65536) mod 1024)%N) in *.
  lia.
Qed.

Lemma cons_inj {A : Type} (x y : A) (l l' : list A) :
  x :: l = y :: l' -> x = y /\ l = l'.
Proof. intros H. split; congruence. Qed.

Lemma utf16_nil (s : string) : Str.utf16 s = [] -> s = ""%string.
Proof.
  destruct s as [|c0 r0]; [reflexivity|]. intros H. exfalso.
  destruct (utf16_cons c0 r0)
    as [[_ E]|[(c1 & r1 & cp & _ & _ & E)|[(c1 & c2 & r2 & cp & _ & _ & E)
       |[(c1 & c2 & c3 & r3 & cp & _ & Hs & E)|[_ E]]]]];
    rewrite E in H; discriminate.
Qed.

Lemma digits_inj (k x y x' y' : N) :
  (y < k)%N -> (y' < k)%N -> (k * x + y = k * x' + y')%N -> x = x' /\ y = y'.
Proof.
  intros Hy Hy' H.
  assert (x = x') as ->.
  { rewrite (N.div_unique (k * x + y) k x y Hy eq_refl).
    rewrite (N.div_unique (k * x + y) k x' y' Hy' H). reflexivity. }
  split; [reflexivity | lia].
Qed.

Lemma scalar2_inj (b0 b1 d0 d1 cp : N) :
  Str.scalar2 b0 b1 = Some cp -> Str.scalar2 d0 d1 = Some cp ->
  b0 = d0 /\ b1 = d1.
Proof.
  intros Hb Hd.
  apply scalar2_spec in Hb as (_ & Hb0 & Hb1 & Eb).
  apply scalar2_spec in Hd as (_ & Hd0 & Hd1 & Ed).
  destruct (digits_inj 64 (b0 - 192) (b1 - 128) (d0 - 192) (d1 - 128));
    [lia | lia | congruence | lia].
Qed.

Lemma scalar3_inj (b0 b1 b2 d0 d1 d2 cp : N) :
  Str.scalar3 b0 b1 b2 = Some cp -> Str.scalar3 d0 d1 d2 = Some cp ->
  b0 = d0 /\ b1 = d1 /\ b2 = d2.
Proof.
  intros Hb Hd.
  apply scalar3_spec in Hb as (_ & _ & Hb0 & Hb1 & Hb2 & Eb).
  apply scalar3_spec in Hd as (_ & _ & Hd0 & Hd1 & Hd2 & Ed).
  destruct (digits_inj 64 (64 * (b0 - 224) + (b1 - 128)) (b2 - 128)
              (64 * (d0 - 224) + (d1 - 128)) (d2 - 128)) as [H1 H2];
    [lia | lia | lia |].
  destruct (digits_inj 64 (b0 - 224) (b1 - 128) (d0 - 224) (d1 - 128));
    [lia | lia | exact H1 | lia].
Qed.

Lemma scalar4_inj (b0 b1 b2 b3 d0 d1 d2 d3 cp : N) :
  Str.scalar4 b0 b1 b2 b3 = Some cp -> Str.scalar4 d0 d1 d2 d3 = Some cp ->
  b0 = d0 /\ b1 = d1 /\ b2 = d2 /\ b3 = d3.
Proof.
  intros Hb Hd.
  apply scalar4_spec in Hb as (_ & Hb0 & Hb1 & Hb2 & Hb3 & Eb).
  apply scalar4_spec in Hd as (_ & Hd0 & Hd1 & Hd2 & Hd3 & Ed).
  destruct (digits_inj 64
              (64 * (64 * (b0 - 240) + (b1 - 128)) + (b2 - 128)) (b3 - 128)
              (64 * (64 * (d0 - 240) + (d1 - 128)) + (d2 - 128)) (d3 - 128))
    as [H1 H2]; [lia | lia | lia |].
  destruct (digits_inj 64 (64 * (b0 - 240) + (b1 - 128)) (b2 - 128)
              (64 * (d0 - 240) + (d1 - 128)) (d2 - 128)) as [H3 H4];
    [lia | lia | exact H1 |].
  destruct (digits_inj 64 (b0 - 240) (b1 - 128) (d0 - 240) (d1 - 128));
    [lia | lia | exact H3 | lia].
Qed.

Lemma surrogates_inj (cp cq : N) :
  (65536 <= cp <= 1114111)%N -> (65536 <= cq <= 1114111)%N ->
  Str.surrogates cp = Str.surrogates cq -> cp = cq.
Proof.
  intros Hp Hq H.
  destruct (surrogates_spec cp Hp) as (hi & lo & E1 & _ & _ & ->).
  destruct (surrogates_spec cq Hq) as (hi' & lo' & E2 & _ & _ & ->).
  rewrite E1, E2 in H. congruence.
Qed.

(** The class of a character shows in its first code unit. *)
Lemma surrogates_head (cp : N) (l : list N) :
  (65536 <= cp <= 1114111)%N ->
  exists hi lo,
    Str.surrogates cp ++ l = hi :: lo :: l
    /\ Str.surrogates cp = [hi; lo]
    /\ (55296 <= hi <= 56319)%N.
Proof.
  intros H. destruct (surrogates_spec cp H) as (hi & lo & E & Hhi & _).
  exists hi, lo. rewrite E. split; [reflexivity | split; [reflexivity | exact Hhi]].
Qed.

(** Two strings with the same code units are the same. *)
Lemma utf16_inj (a b : string) : Str.utf16 a = Str.utf16 b -> a = b.
Proof.
  assert (H : forall n a b, String.length a <= n ->
                            Str.utf16 a = Str.utf16 b -> a = b).
  { clear a b. induction n as [|n IH]; intros a b Hn H.
    - destruct a; [|simpl in Hn; lia]. symmetry. apply utf16_nil. now rewrite <- H.
    - destruct a as [|c0 r0].
      { symmetry. apply utf16_nil. now rewrite <- H. }
      destruct b as [|d0 s0].
      { now apply utf16_nil. }
      destruct (utf16_cons c0 r0)
        as [[Ha Ea]|[(c1 & r1 & cp & -> & Ha & Ea)
           |[(c1 & c2 & r2 & cp & -> & Ha & Ea)
           |[(c1 & c2 & c3 & r3 & cp & -> & Ha & Ea)|[Ha Ea]]]]];
        rewrite Ea in H; clear Ea;
        destruct (utf16_cons d0 s0)
          as [[Hb Eb]|[(d1 & s1 & cq & -> & Hb & Eb)
             |[(d1 & d2 & s2 & cq & -> & Hb & Eb)
             |[(d1 & d2 & d3 & s3 & cq & -> & Hb & Eb)|[Hb Eb]]]]];
        rewrite Eb in H; clear Eb;
        lazymatch type of Ha with
        | Str.scalar2 _ _ = Some _ => pose proof (scalar2_spec _ _ _ Ha) as (Ra & _)
        | Str.scalar3 _ _ _ = Some _ =>
            pose proof (scalar3_spec _ _ _ _ Ha) as (Ra & Sa & _)
        | Str.scalar4 _ _ _ _ = Some _ =>
            pose proof (scalar4_spec _ _ _ _ _ Ha) as (Ra & _);
            destruct (surrogates_head cp (Str.utf16 r3) Ra)
              as (hi & lo & Ehl & Esur & Rhi);
            rewrite Ehl in H; clear Ehl
        | _ => idtac
        end;
        lazymatch type of Hb with
        | Str.scalar2 _ _ = Some _ => pose proof (scalar2_spec _ _ _ Hb) as (Rb & _)
        | Str.scalar3 _ _ _ = Some _ =>
            pose proof (scalar3_spec _ _ _ _ Hb) as (Rb & Sb & _)
        | Str.scalar4 _ _ _ _ = Some _ =>
            pose proof (scalar4_spec _ _ _ _ _ Hb) as (Rb & _);
            destruct (surrogates_head cq (Str.utf16 s3) Rb)
              as (hi' & lo' & Ehl' & Esur' & Rhi');
            rewrite Ehl' in H; clear Ehl'
        | _ => idtac
        end;
        apply cons_inj in H as [Eh H];
        try (exfalso; clear IH Hn H; pose proof (byte_bound c0); pose proof (byte_bound d0); lia).
      + (* one byte *)
        apply byte_inj in Eh as ->. f_equal.
        apply IH; [simpl in Hn; lia | exact H].
      + (* two bytes *)
        subst cq. destruct (scalar2_inj _ _ _ _ _ Ha Hb) as [E0 E1].
        apply byte_inj in E0 as ->. apply byte_inj in E1 as ->. do 2 f_equal.
        apply IH; [simpl in Hn; lia | exact H].
      + (* three bytes *)
        subst cq. destruct (scalar3_inj _ _ _ _ _ _ _ Ha Hb) as (E0 & E1 & E2).
        apply byte_inj in E0 as ->. apply byte_inj in E1 as ->.
        apply byte_inj in E2 as ->. do 3 f_equal.
        apply IH; [simpl in Hn; lia | exact H].
      + (* four bytes *)
        apply cons_inj in H as [El H]. subst hi' lo'.
        assert (cp = cq) as <-
            by (apply surrogates_inj; [exact Ra | exact Rb | congruence]).
        destruct (scalar4_inj _ _ _ _ _ _ _ _ _ Ha Hb) as (E0 & E1 & E2 & E3).
        apply byte_inj in E0 as ->. apply byte_inj in E1 as ->.
        apply byte_inj in E2 as ->. apply byte_inj in E3 as ->. do 4 f_equal.
        apply IH; [simpl in Hn; lia | exact H].
      + (* a stray byte *)
        assert (Str.byte c0 = Str.byte d0) as E0 by lia.
        apply byte_inj in E0 as ->. f_equal.
        apply IH; [simpl in Hn; lia | exact H]. }
  exact (H (String.length a) a b (le_n _)).
Qed.

Lemma compareUnits_refl (a : list N) : Str.compareUnits a a = Eq.
Proof. induction a as [|x a IH]; simpl; [reflexivity|]. now rewrite N.compare_refl. Qed.

Lemma compareUnits_eq (a b : list N) : Str.compareUnits a b = Eq -> a = b.
Proof.
  revert b; induction a as [|x a IH]; intros [|y b]; simpl; try discriminate;
    [reflexivity|].
  destruct (x ?= y)%N eqn:E; try discriminate.
  apply N.compare_eq in E. subst. intros H. f_equal. now apply IH.
Qed.

Lemma compareUnits_antisym (a b : list N) :
  Str.compareUnits b a = CompOpp (Str.compareUnits a b).
Proof.
  revert b; induction a as [|x a IH]; intros [|y b]; simpl; try reflexivity.
  rewrite (N.compare_antisym x y).
  destruct (x ?= y)%N; simpl; [apply IH | reflexivity | reflexivity].
Qed.

Lemma compareUnits_trans (a b c : list N) :
  Str.compareUnits a b = Lt -> Str.compareUnits b c = Lt -> Str.compareUnits a c = Lt.
Proof.
  revert b c; induction a as [|x a IH]; intros [|y b] [|z c]; simpl;
    try discriminate; try reflexivity.
  destruct (x ?= y)%N eqn:Exy; try discriminate;
    destruct (y ?= z)%N eqn:Eyz; try discriminate.
  - apply N.compare_eq in Exy, Eyz. subst. rewrite N.compare_refl. apply IH.
  - apply N.compare_eq in Exy. subst. now rewrite Eyz.
  - apply N.compare_eq in Eyz. subst. now rewrite Exy.
  - rewrite N.compare_lt_iff in *.
    assert (x < z)%N as H by lia. apply N.compare_lt_iff in H. now rewrite H.
Qed.

Lemma Str_lt_trans (a b c : string) :
  Str.lt a b = true -> Str.lt b c = true -> Str.lt a c = true.
Proof.
  unfold Str.lt.
  destruct (Str.compareUnits (Str.utf16 a) (Str.utf16 b)) eqn:Eab; try discriminate.
  destruct (Str.compareUnits (Str.utf16 b) (Str.utf16 c)) eqn:Ebc; try discriminate.
  now rewrite (compareUnits_trans _ _ _ Eab Ebc).
Qed.

Lemma Str_lt_irrefl (a : string) : Str.lt a a = false.
Proof. unfold Str.lt. now rewrite compareUnits_refl. Qed.

(** Of two strings that differ one is less than the other. *)
Lemma Str_lt_total (a b : string) :
  a <> b -> Str.lt a b = true \/ Str.lt b a = true.
Proof.
  intros Hne. unfold Str.lt.
  rewrite (compareUnits_antisym (Str.utf16 a) (Str.utf16 b)).
  destruct (Str.compareUnits (Str.utf16 a) (Str.utf16 b)) eqn:E; simpl; auto.
  apply compareUnits_eq, utf16_inj in E. contradiction.
Qed.

Lemma Str_lt_asym (a b : string) : Str.lt a b = true -> Str.lt b a = false.
Proof.
  unfold Str.lt. rewrite (compareUnits_antisym (Str.utf16 a) (Str.utf16 b)).
  now destruct (Str.compareUnits (Str.utf16 a) (Str.utf16 b)).
Qed.

Lemma Str_ge_trans (a b c : string) :
  Str.lt a b = false -> Str.lt b c = false -> Str.lt a c = false.
Proof.
  intros Hab Hbc.
  destruct (Str.lt a c) eqn:Eac; [|reflexivity]. exfalso.
  destruct (String.eqb_spec a b) as [->|Hne]; [congruence|].
  destruct (Str_lt_total a b Hne) as [H|H]; [congruence|].
  rewrite (Str_lt_trans _ _ _ H Eac) in Hbc. discriminate.
Qed.

(** On the letters of the samples the order is the alphabetical one, and a
    character above U+FFFF comes before U+FB01, whose bytes come first. *)
Example Str_lt_samples :
  Str.lt "Alpha" "Zeta" = true
  /\ Str.lt "Zeta" "alpha" = true
  /\ Str.lt "Field2d_2024" "Field2d_2025" = true
  /\ Str.utf16 (String "239" (String "172" (String "129" ""))) = [64257%N]
  /\ Str.utf16 (String "240" (String "159" (String "152" (String "128" ""))))
     = [55357%N; 56832%N]
  /\ Str.lt (String "240" (String "159" (String "152" (String "128" ""))))
       (String "239" (String "172" (String "129" ""))) = true
  /\ String.ltb (String "240" (String "159" (String "152" (String "128" ""))))
       (String "239" (String "172" (String "129" ""))) = false.
Proof. repeat split; reflexivity. Qed.
(* ================================================================== *)
(** * Properties of the strings and of percent-encoding *)

Lemma append_assoc (a b c : string) : ((a ++ b) ++ c)%string = (a ++ (b ++ c))%string.
Proof. induction a as [|x a IH]; simpl; [reflexivity | now rewrite IH]. Qed.

Lemma append_nil_r (a : string) : (a ++ "")%string = a.
Proof. induction a as [|x a IH]; simpl; [reflexivity | now rewrite IH]. Qed.

Lemma all_app (p : ascii -> bool) (a b : string) :
  Str.all p (a ++ b) = Str.all p a && Str.all p b.
Proof.
  induction a as [|x a IH]; simpl; [reflexivity|].
  now rewrite IH, andb_assoc.
Qed.

Lemma prefix_app (sub s : string) :
  String.prefix sub s = true <-> exists b, s = (sub ++ b)%string.
Proof.
  revert s; induction sub as [|x sub IH]; intros s.
  - split; [intros _; now exists s | intros _; now destruct s].
  - destruct s as [|y s]; simpl.
    + split; [discriminate | intros [b Hb]; discriminate].
    + destruct (Ascii.ascii_dec x y) as [->|Hne].
      * rewrite IH. split; intros [b Hb]; exists b; [now rewrite Hb | now inversion Hb].
      * split; [discriminate | intros [b Hb]; congruence].
Qed.

Lemma includes_app (s sub : string) :
  Str.includes s sub = true <-> exists a b, s = (a ++ sub ++ b)%string.
Proof.
  induction s as [|x s IH]; cbn [Str.includes].
  - rewrite orb_false_r, prefix_app. split.
    + intros [b Hb]. now exists ""%string, b.
    + intros [a [b Hab]]. destruct a; [now exists b | discriminate].
  - rewrite orb_true_iff, prefix_app, IH. split.
    + intros [[b Hb] | [a [b Hab]]].
      * now exists ""%string, b.
      * exists (String x a), b. simpl. now rewrite Hab.
    + intros [a [b Hab]]. destruct a as [|y a]; simpl in Hab.
      * left. now exists b.
      * right. inversion Hab. now exists a, b.
Qed.

Lemma endsWith_app (s suffix : string) :
  Str.endsWith s suffix = true <-> exists a, s = (a ++ suffix)%string.
Proof.
  induction s as [|x s IH]; cbn [Str.endsWith].
  - rewrite orb_false_r, String.eqb_eq. split.
    + intros <-. now exists ""%string.
    + intros [a Ha]. destruct a; [exact Ha | discriminate].
  - rewrite orb_true_iff, String.eqb_eq, IH. split.
    + intros [<- | [a Ha]]; [now exists ""%string | exists (String x a); simpl; now rewrite Ha].
    + intros [a Ha]. destruct a as [|y a]; simpl in Ha.
      * now left.
      * right. inversion Ha. now exists a.
Qed.

(** A string over an alphabet includes no character outside of it. *)
Lemma all_excludes (p : ascii -> bool) (s : string) (c : ascii) :
  Str.all p s = true -> p c = false ->
  Str.includes s (String c "") = false /\ Str.endsWith s (String c "") = false.
Proof.
  intros Hall Hc. split.
  - destruct (Str.includes s (String c "")) eqn:E; [|reflexivity].
    apply includes_app in E. destruct E as [a [b ->]].
    rewrite all_app in Hall. simpl in Hall. rewrite Hc in Hall.
    now rewrite andb_false_r in Hall.
  - destruct (Str.endsWith s (String c "")) eqn:E; [|reflexivity].
    apply endsWith_app in E. destruct E as [a ->].
    rewrite all_app in Hall. simpl in Hall. rewrite Hc in Hall.
    now rewrite andb_false_r in Hall.
Qed.

(** ** [split] and [join] *)

Lemma split_cons (c : ascii) (s : string) :
  exists h t, Str.split c s = h :: t.
Proof.
  destruct s as [|x s]; simpl; [now eexists _, _|].
  destruct (x =? c)%char; [now eexists _, _|].
  destruct (Str.split c s); now eexists _, _.
Qed.

Lemma join_cons (c : ascii) (h : string) (x : string) (t : list string) :
  Str.join c (h :: x :: t) = (h ++ String c (Str.join c (x :: t)))%string.
Proof. reflexivity. Qed.

Lemma join_split (c : ascii) (s : string) : Str.join c (Str.split c s) = s.
Proof.
  induction s as [|x s IH]; simpl; [reflexivity|].
  destruct (Ascii.eqb_spec x c) as [->|Hne].
  - destruct (split_cons c s) as [h [t E]]. rewrite E in *.
    rewrite join_cons. simpl. now rewrite IH.
  - destruct (split_cons c s) as [h [t E]]. rewrite E in *.
    destruct t as [|y t].
    + unfold Str.join in *. simpl in *. now rewrite IH.
    + rewrite join_cons in *. simpl. now rewrite IH.
Qed.

Lemma split_noSep (c : ascii) (s : string) :
  Forall (fun segment => noSep c segment = true) (Str.split c s).
Proof.
  induction s as [|x s IH]; simpl.
  - now constructor.
  - destruct (x =? c)%char eqn:E.
    + now constructor.
    + destruct (Str.split c s) as [|h t]; constructor.
      * unfold noSep; simpl. now rewrite E.
      * constructor.
      * inversion IH; subst. unfold noSep in *; simpl. now rewrite E.
      * now inversion IH.
Qed.

Lemma split_noSep_app (c : ascii) (a b : string) :
  noSep c a = true ->
  Str.split c (a ++ String c b) = a :: Str.split c b.
Proof.
  induction a as [|x a IH]; simpl; intros H.
  - now rewrite Ascii.eqb_refl.
  - unfold noSep in H; simpl in H. apply andb_true_iff in H as [Hx Ha].
    apply negb_true_iff in Hx. rewrite Hx. now rewrite (IH Ha).
Qed.

Lemma split_noSep_one (c : ascii) (a : string) :
  noSep c a = true -> Str.split c a = [a].
Proof.
  induction a as [|x a IH]; simpl; intros H; [reflexivity|].
  unfold noSep in H; simpl in H. apply andb_true_iff in H as [Hx Ha].
  apply negb_true_iff in Hx. rewrite Hx. now rewrite (IH Ha).
Qed.

Lemma split_join (c : ascii) (h : string) (t : list string) :
  Forall (fun segment => noSep c segment = true) (h :: t) ->
  Str.split c (Str.join c (h :: t)) = h :: t.
Proof.
  revert h; induction t as [|x t IH]; intros h H.
  - inversion H; subst. now apply split_noSep_one.
  - inversion H; subst. rewrite join_cons.
    rewrite split_noSep_app by assumption. now rewrite IH.
Qed.

(** ** [encodeURIComponent] and [decodeURIComponent] *)

Lemma encode_app (a b : string) :
  Uri.encodeURIComponent (a ++ b)
  = (Uri.encodeURIComponent a ++ Uri.encodeURIComponent b)%string.
Proof.
  induction a as [|x a IH]; simpl; [reflexivity|].
  now rewrite IH, append_assoc.
Qed.

Lemma encode_char_alphabet (c : ascii) :
  Str.all encoded (if Uri.unreserved c then String c "" else Uri.escape c) = true.
Proof. destruct c as [[] [] [] [] [] [] [] []]; reflexivity. Qed.

Lemma encode_alphabet (s : string) :
  Str.all encoded (Uri.encodeURIComponent s) = true.
Proof.
  induction s as [|x s IH]; simpl; [reflexivity|].
  now rewrite all_app, encode_char_alphabet, IH.
Qed.

Lemma decode_encode_char (c : ascii) (r : string) :
  Uri.decodeURIComponent
    ((if Uri.unreserved c then String c "" else Uri.escape c) ++ r)
  = (decoded <- Uri.decodeURIComponent r ;; Ok (String c decoded)).
Proof. destruct c as [[] [] [] [] [] [] [] []]; reflexivity. Qed.

Lemma decode_encode (s : string) :
  Uri.decodeURIComponent (Uri.encodeURIComponent s) = Ok s.
Proof.
  induction s as [|x s IH]; simpl; [reflexivity|].
  now rewrite decode_encode_char, IH.
Qed.

Lemma encode_noSep (os : platform) (s : string) :
  noSep (sep os) (Uri.encodeURIComponent s) = true.
Proof.
  pose proof (encode_alphabet s) as H. unfold noSep.
  induction (Uri.encodeURIComponent s) as [|x e IH]; simpl in *; [reflexivity|].
  apply andb_true_iff in H as [Hx He]. rewrite (IH He), andb_true_r.
  destruct (Ascii.eqb_spec x (sep os)) as [->|]; [|reflexivity].
  destruct os; discriminate.
Qed.

(** ** [encodePath] *)

Lemma mapiFrom_ext {A B : Type} (f g : nat -> A -> B) (l : list A) (n : nat) :
  (forall i x, n <= i -> f i x = g i x) -> mapiFrom n f l = mapiFrom n g l.
Proof.
  revert n; induction l as [|x l IH]; intros n H; simpl; [reflexivity|].
  rewrite (H n x (le_n n)). f_equal. apply IH. intros i y Hi. apply H. lia.
Qed.

Lemma mapiFrom_const {A B : Type} (f : A -> B) (l : list A) (n : nat) :
  mapiFrom n (fun _ x => f x) l = map f l.
Proof. revert n; induction l as [|x l IH]; intros n; simpl; [reflexivity | now rewrite IH]. Qed.

Lemma encodeSegment_tail (rest : list string) :
  mapiFrom 1 encodeSegment rest = map Uri.encodeURIComponent rest.
Proof.
  rewrite <- (mapiFrom_const Uri.encodeURIComponent rest 1).
  apply mapiFrom_ext. intros i x Hi. unfold encodeSegment.
  destruct i; [lia | reflexivity].
Qed.

Lemma encodeSegment_noSep (os : platform) (index : nat) (component : string) :
  noSep (sep os) component = true ->
  noSep (sep os) (encodeSegment index component) = true.
Proof.
  intros H. unfold encodeSegment.
  destruct ((index =? 0) && Str.endsWith component ":"); [exact H | apply encode_noSep].
Qed.

Lemma encoded_not_colon (s : string) :
  Str.endsWith (Uri.encodeURIComponent s) ":" = false.
Proof. now apply (all_excludes encoded _ ":"%char (encode_alphabet s)). Qed.

Lemma decode_encodeSegment (index : nat) (component : string) :
  decodeSegment index (encodeSegment index component) = Ok component.
Proof.
  unfold decodeSegment, encodeSegment.
  destruct (index =? 0); simpl; [|apply decode_encode].
  destruct (Str.endsWith component ":") eqn:E.
  - now rewrite E.
  - rewrite encoded_not_colon. apply decode_encode.
Qed.

Lemma sequence_decode (segments : list string) (n : nat) :
  sequence (mapiFrom n decodeSegment (mapiFrom n encodeSegment segments))
  = Ok segments.
Proof.
  revert n; induction segments as [|x l IH]; intros n; simpl; [reflexivity|].
  now rewrite decode_encodeSegment, IH.
Qed.

Lemma split_encodePath (os : platform) (pathStr : string) :
  Str.split (sep os) (encodePath os pathStr)
  = mapi encodeSegment (Str.split (sep os) pathStr).
Proof.
  unfold encodePath. fold encodeSegment.
  pose proof (split_noSep (sep os) pathStr) as H.
  destruct (split_cons (sep os) pathStr) as [h [t E]]. rewrite E in *.
  unfold mapi. simpl. apply split_join.
  inversion H; subst. constructor.
  - now apply encodeSegment_noSep.
  - rewrite encodeSegment_tail. apply Forall_forall. intros s Hs.
    apply in_map_iff in Hs as [x [<- _]]. apply encode_noSep.
Qed.

Lemma encode_includes (segment : string) (c : ascii) :
  Str.includes segment (String c "") = true ->
  Str.includes (Uri.encodeURIComponent segment)
    (Uri.encodeURIComponent (String c "")) = true.
Proof.
  intros H. apply includes_app in H as [a [b ->]].
  apply includes_app.
  exists (Uri.encodeURIComponent a), (Uri.encodeURIComponent b).
  now rewrite !encode_app.
Qed.

(** C9.  [encodePath] splits the path on the separator of the platform,
    percent-encodes every segment on its own except a leading segment that
    ends in a colon, and joins the segments with the same separator.  In
    every segment that is not such a drive letter a space comes out as
    ["%20"] and a hash as ["%23"], and neither character is left in the
    encoded segment.  Percent-decoding every segment of the result but the
    drive letter gives the path back. *)
Theorem encodePath_segments_roundtrip (os : platform) (pathStr : string) :
  encodePath os pathStr = encodePath_spec os pathStr
  /\ (forall index segment,
        nth_error (Str.split (sep os) pathStr) index = Some segment ->
        (index = 0 -> Str.endsWith segment ":" = false) ->
        nth_error (Str.split (sep os) (encodePath os pathStr)) index
        = Some (Uri.encodeURIComponent segment)
        /\ (Str.includes segment " " = true ->
            Str.includes (Uri.encodeURIComponent segment) "%20" = true)
        /\ (Str.includes segment "#" = true ->
            Str.includes (Uri.encodeURIComponent segment) "%23" = true)
        /\ Str.includes (Uri.encodeURIComponent segment) " " = false
        /\ Str.includes (Uri.encodeURIComponent segment) "#" = false)
  /\ decodeSegments os (encodePath os pathStr) = Ok pathStr.
Proof.
  split; [|split].
  - unfold encodePath, encodePath_spec. fold encodeSegment.
    destruct (Str.split (sep os) pathStr) as [|first rest]; [reflexivity|].
    unfold mapi. simpl. now rewrite encodeSegment_tail.
  - intros index segment Hnth Hdrive.
    split; [|split; [|split; [|split]]].
    + rewrite split_encodePath. unfold mapi.
      destruct (Str.split (sep os) pathStr) as [|first rest]; [now destruct index|].
      destruct index as [|index]; simpl in *.
      * inversion Hnth; subst. unfold encodeSegment. simpl.
        now rewrite (Hdrive eq_refl).
      * rewrite encodeSegment_tail. now apply map_nth_error.
    + apply (encode_includes segment " "%char).
    + apply (encode_includes segment "#"%char).
    + now apply (all_excludes encoded _ " "%char (encode_alphabet segment)).
    + now apply (all_excludes encoded _ "#"%char (encode_alphabet segment)).
  - unfold decodeSegments. fold decodeSegment.
    rewrite split_encodePath. unfold mapi.
    rewrite sequence_decode. simpl. now rewrite join_split.
Qed.

Example encodePath_example :
  encodePath posix "/home/a b/x#1/image.png" = "/home/a%20b/x%231/image.png"
  /\ encodePath win32 "C:\my assets\Robot_A" = "C:\my%20assets\Robot_A"
  /\ decodeSegments posix "/home/a%20b/x%231/image.png" = Ok "/home/a b/x#1/image.png".
Proof. repeat split; reflexivity. Qed.

(* ================================================================== *)
(** * Admission of one candidate *)

Lemma ge0_iff (x : Q) : ge0 x = true <-> (0 <= x)%Q.
Proof. apply Qle_bool_iff. Qed.

Lemma gt0_iff (x : Q) : gt0 x = true <-> (0 < x)%Q.
Proof.
  unfold gt0. rewrite negb_true_iff. split.
  - intros H. apply Qnot_le_lt. intros Hle.
    apply Qle_bool_iff in Hle. congruence.
  - intros H. destruct (Qle_bool x 0) eqn:E; [|reflexivity].
    apply Qle_bool_iff in E. exfalso. exact (Qlt_not_le _ _ H E).
Qed.

Lemma nonempty_iff (s : string) : negb (String.eqb s "") = true <-> s <> ""%string.
Proof. rewrite negb_true_iff. apply String.eqb_neq. Qed.

Lemma bind_ok {A B : Type} (c : result A) (k : A -> result B) (b : B) :
  bind c k = Ok b <-> exists a, c = Ok a /\ k a = Ok b.
Proof.
  destruct c as [a|e]; simpl.
  - split; [intros H; now exists a | intros [a' [Ha Hk]]; now inversion Ha].
  - split; [discriminate | intros [a' [Ha _]]; discriminate].
Qed.

(** The last conjunct of the gates of a 2D field and of a joystick. *)
Lemma fileExists_iff (env : Env) (path : string) :
  (file <- Uri.decodeURIComponent path ;; Ok (exists_ env file)) = Ok true
  <-> exists file, Uri.decodeURIComponent path = Ok file
                   /\ existsSync env file = true.
Proof.
  rewrite bind_ok. unfold exists_. split; intros [file [Hd He]]; exists file; split;
    try assumption; [now inversion He | now rewrite He].
Qed.

Section Field2d.

Variable env : Env.

(** The gate of a 2D field answers [true] exactly when the name is not
    empty, the four corner coordinates are not negative, both dimensions are
    positive and the image that the path names exists.  It answers [false]
    on the default [topLeft], which is what the record keeps when
    [config.json] has no [topLeft] or one that is not a pair of numbers. *)
Lemma field2d_gate (config : Config2d.t) :
  (admitField2d env config = Ok true <->
     Config2d.name config <> ""%string
     /\ (0 <= fst (Config2d.topLeft config))%Q
     /\ (0 <= snd (Config2d.topLeft config))%Q
     /\ (0 <= fst (Config2d.bottomRight config))%Q
     /\ (0 <= snd (Config2d.bottomRight config))%Q
     /\ (0 < Config2d.widthInches config)%Q
     /\ (0 < Config2d.heightInches config)%Q
     /\ exists file, Uri.decodeURIComponent (Config2d.path config) = Ok file
                     /\ existsSync env file = true)
  /\ (Config2d.topLeft config = (-1 # 1, -1 # 1)%Q ->
      admitField2d env config = Ok false)
  /\ (forall parentFolder objectName configRaw,
        buildField2d env parentFolder objectName configRaw = Ok config ->
        (forall v, field "topLeft" configRaw = Ok (Some v) -> asPair v = None) ->
        Config2d.topLeft config = (-1 # 1, -1 # 1)%Q).
Proof.
  split; [|split].
  - unfold admitField2d.
    rewrite <- !ge0_iff, <- !gt0_iff, <- nonempty_iff, <- fileExists_iff.
    destruct (negb (Config2d.name config =? "")%string); simpl;
      [|split; [discriminate | intros [H _]; discriminate]].
    repeat match goal with
           | |- context [ge0 ?x] =>
               destruct (ge0 x); simpl;
               [|split; [discriminate | intuition discriminate]]
           | |- context [gt0 ?x] =>
               destruct (gt0 x); simpl;
               [|split; [discriminate | intuition discriminate]]
           end.
    intuition.
  - intros H. unfold admitField2d. rewrite H. simpl.
    now rewrite andb_false_r.
  - intros parentFolder objectName configRaw Hbuild Hraw.
    unfold buildField2d in Hbuild.
    repeat match type of Hbuild with
           | bind _ _ = Ok _ => apply bind_ok in Hbuild as [? [? Hbuild]]
           end.
    inversion Hbuild; subst; simpl.
    match goal with
    | H : pairField "topLeft" _ _ = Ok ?p |- ?p = _ => rename H into Hp
    end.
    unfold pairField in Hp. apply bind_ok in Hp as [f [Hf Hp]].
    inversion Hp; subst.
    destruct f as [v|]; [|reflexivity].
    now rewrite (Hraw v Hf).
Qed.

End Field2d.

Lemma forEachPush_In {A B : Type} (f : A -> result (option B)) (l : list A)
  (out : list B) (x : A) (b : B) :
  forEachPush f l = Ok out -> In x l -> f x = Ok (Some b) -> In b out.
Proof.
  revert out; induction l as [|y l IH]; intros out H Hin Hf; [contradiction|].
  simpl in H. apply bind_ok in H as [o [Ho H]].
  apply bind_ok in H as [rest [Hrest H]]. inversion H; subst.
  destruct Hin as [->|Hin].
  - rewrite Hf in Ho. inversion Ho; subst. now left.
  - specialize (IH rest Hrest Hin Hf). destruct o; [now right | exact IH].
Qed.

Lemma componentOk_iff (component : JoystickComponent) :
  componentOk component = true <-> componentValid component.
Proof.
  destruct component; simpl;
    rewrite !andb_true_iff, !gt0_iff, !ge0_iff; tauto.
Qed.

Section Joystick.

Variable env : Env.

Lemma admitJoystick_iff (config : ConfigJoystick.t) :
  admitJoystick env config = Ok true <->
    ConfigJoystick.name config <> ""%string
    /\ Forall componentValid (ConfigJoystick.components config)
    /\ exists file, Uri.decodeURIComponent (ConfigJoystick.path config) = Ok file
                    /\ existsSync env file = true.
Proof.
  unfold admitJoystick.
  rewrite <- nonempty_iff, <- fileExists_iff.
  rewrite Forall_forall.
  destruct (negb (ConfigJoystick.name config =? "")%string); simpl;
    [|split; [discriminate | intros [H _]; discriminate]].
  destruct (forallb componentOk (ConfigJoystick.components config)) eqn:E.
  - rewrite forallb_forall in E. split.
    + intros H. repeat split; try assumption.
      intros c Hc. now apply componentOk_iff, E.
    + now intros [_ [_ H]].
  - split; [discriminate|]. intros [_ [Hall _]].
    assert (forallb componentOk (ConfigJoystick.components config) = true)
      as Habs by (apply forallb_forall; intros c Hc; now apply componentOk_iff, Hall).
    congruence.
Qed.

(** The gate of a joystick answers [false] when the [components] of the
    descriptor hold a button with [sizePx: [0, 5]]. *)
Lemma joystick_gate (config : ConfigJoystick.t) :
  (admitJoystick env config = Ok true <->
     ConfigJoystick.name config <> ""%string
     /\ Forall componentValid (ConfigJoystick.components config)
     /\ exists file, Uri.decodeURIComponent (ConfigJoystick.path config) = Ok file
                     /\ existsSync env file = true)
  /\ (forall parentFolder objectName configRaw items props,
        buildJoystick env parentFolder objectName configRaw = Ok config ->
        field "components" configRaw = Ok (Some (JArr items)) ->
        In (JObj props) items ->
        assoc "type" props = Some (JStr "button") ->
        assoc "sizePx" props = Some (JArr [JNum 0; JNum 5]) ->
        admitJoystick env config = Ok false).
Proof.
  split; [apply admitJoystick_iff|].
  intros parentFolder objectName configRaw items props Hbuild Hitems Hin Htype Hsize.
  unfold buildJoystick in Hbuild.
  apply bind_ok in Hbuild as [name [_ Hbuild]].
  apply bind_ok in Hbuild as [components [Hcomponents Hbuild]].
  inversion Hbuild; subst; clear Hbuild.
  unfold arrayField in Hcomponents. rewrite Hitems in Hcomponents.
  simpl in Hcomponents.
  assert (exists b, buildJoystickComponent (JObj props) = Ok (Some (button b))
                    /\ ConfigJoystick_Button.sizePx b = (0, 5)%Q) as [b [Hb Hsz]].
  { unfold buildJoystickComponent, buildButton, booleanField, pairField,
      numberField, sourcePovField. simpl. rewrite Htype, Hsize. simpl.
    eexists. split; reflexivity. }
  pose proof (@forEachPush_In _ _ _ _ _ _ _ Hcomponents Hin Hb) as Hmem.
  unfold admitJoystick. simpl.
  replace (forallb componentOk components) with false.
  - now rewrite andb_false_r.
  - symmetry. destruct (forallb componentOk components) eqn:E; [|reflexivity].
    rewrite forallb_forall in E. specialize (E _ Hmem). simpl in E.
    rewrite Hsz in E. discriminate.
Qed.

End Joystick.

(* ================================================================== *)
(** * One directory entry *)

Lemma bind_bind {A B C : Type} (c : result A) (f : A -> result B) (g : B -> result C) :
  bind (bind c f) g = bind c (fun a => bind (f a) g).
Proof. now destruct c. Qed.

Lemma processEntry_outcome (env : Env) (parentFolder : string)
  (assets0 : AdvantageScopeAssets) (object : Dirent.t) :
  processEntry env parentFolder assets0 object
  = if isCandidate object
    then outcome <- candidateOutcome env parentFolder (Dirent.name object) ;;
         Ok (recordOutcome assets0 (Dirent.name object) outcome)
    else Ok assets0.
Proof.
  unfold processEntry, isCandidate, candidateOutcome, exists_.
  destruct (Dirent.isDirectory object); simpl; [|reflexivity].
  destruct (Str.startsWith (Dirent.name object) "."); simpl; [reflexivity|].
  destruct (existsSync env _); simpl; [|reflexivity].
  destruct (readFileSync env _) as [configRaw|]; simpl; [|reflexivity].
  destruct (notAnObject configRaw); simpl; [reflexivity|].
  repeat match goal with
         | |- context [if Str.startsWith ?n ?p then _ else _] =>
             destruct (Str.startsWith n p); simpl
         end;
    try reflexivity;
    rewrite bind_bind;
    match goal with
    | |- bind ?c _ = bind ?c _ => destruct c as [config|e]; simpl; [|reflexivity]
    end;
    rewrite bind_bind;
    match goal with
    | |- bind ?c _ = bind ?c _ => destruct c as [[|]|e]; reflexivity
    end.
Qed.

(* ================================================================== *)
(** * Auxiliary models of 3D fields and robots *)

Section Models.

Variable env : Env.

Lemma everyIndexFrom_exists {A : Type} (path model : string) (parts : list A)
  (n : nat) :
  Uri.decodeURIComponent path = Ok model ->
  everyIndexFrom n
    (fun index =>
       m <- Uri.decodeURIComponent path ;;
       Ok (exists_ env (auxiliaryFile m index)))
    parts
  = Ok (forallb (fun index => existsSync env (auxiliaryFile model index))
          (seq n (List.length parts))).
Proof.
  intros Hd. rewrite Hd. cbn [bind].
  revert n; induction parts as [|x parts IH]; intros n; simpl; [reflexivity|].
  unfold exists_ at 1.
  destruct (existsSync env (auxiliaryFile model n)); simpl; [apply IH | reflexivity].
Qed.

Lemma modelFilesExist_eq {A : Type} (path model : string) (parts : list A) :
  Uri.decodeURIComponent path = Ok model ->
  modelFilesExist env path parts
  = Ok (existsSync env model
        && forallb (fun index => existsSync env (auxiliaryFile model index))
             (seq 0 (List.length parts))).
Proof.
  intros Hd. unfold modelFilesExist.
  rewrite (@everyIndexFrom_exists _ _ _ parts 0 Hd), Hd. simpl. unfold exists_.
  now destruct (existsSync env model).
Qed.

Lemma modelFilesExist_iff {A : Type} (path model : string) (parts : list A) :
  Uri.decodeURIComponent path = Ok model ->
  (modelFilesExist env path parts = Ok true <->
     existsSync env model = true
     /\ forall index, index < List.length parts ->
          existsSync env (auxiliaryFile model index) = true)
  /\ (forall index, index < List.length parts ->
        existsSync env (auxiliaryFile model index) = false ->
        modelFilesExist env path parts = Ok false).
Proof.
  intros Hd. rewrite (@modelFilesExist_eq _ _ _ parts Hd). split.
  - split.
    + intros H. injection H as H'. apply andb_true_iff in H' as [Hm Haux].
      split; [exact Hm|]. intros index Hi.
      rewrite forallb_forall in Haux. apply Haux. apply in_seq. lia.
    + intros [Hm Haux]. rewrite Hm. simpl. f_equal.
      apply forallb_forall. intros index Hi. apply in_seq in Hi. apply Haux. lia.
  - intros index Hi Hmiss. f_equal. apply andb_false_iff. right.
    destruct (forallb _ _) eqn:E; [|reflexivity].
    rewrite forallb_forall in E. rewrite E in Hmiss; [discriminate|].
    apply in_seq. lia.
Qed.

End Models.

Lemma startsWith_Field3d (objectName : string) :
  Str.startsWith objectName "Field3d_" = true ->
  Str.startsWith objectName "." = false
  /\ Str.startsWith objectName "Field2d_" = false.
Proof.
  unfold Str.startsWith. intros H. apply prefix_app in H as [b ->]. now split.
Qed.


Lemma startsWith_Joystick (objectName : string) :
  Str.startsWith objectName "Joystick_" = true ->
  Str.startsWith objectName "." = false
  /\ Str.startsWith objectName "Field2d_" = false
  /\ Str.startsWith objectName "Field3d_" = false
  /\ Str.startsWith objectName "Robot_" = false.
Proof.
  unfold Str.startsWith. intros H. apply prefix_app in H as [b ->]. now repeat split.
Qed.

Lemma startsWith_Field2d (objectName : string) :
  Str.startsWith objectName "Field2d_" = true ->
  Str.startsWith objectName "." = false.
Proof.
  unfold Str.startsWith. intros H. now apply prefix_app in H as [b ->].
Qed.

Lemma length_append (a b : string) :
  String.length (a ++ b) = String.length a + String.length b.
Proof. induction a as [|x a IH]; simpl; [reflexivity | now rewrite IH]. Qed.



Section Rejected.

Variable env : Env.

(** A candidate with a readable [config.json] whose gate answers [false]
    leaves nothing but its name in [loadFailures]. *)
Lemma processEntry_rejected (parentFolder : string) (assets0 : AdvantageScopeAssets)
  (object : Dirent.t) :
  isCandidate object = true ->
  candidateOutcome env parentFolder (Dirent.name object) = Ok Failure ->
  processEntry env parentFolder assets0 object
  = Ok (pushFailure assets0 (Dirent.name object)).
Proof.
  intros Hc Ho. rewrite processEntry_outcome, Hc, Ho. reflexivity.
Qed.

End Rejected.


(* ================================================================== *)
(** * Decoding an encoded path as a whole *)

Lemma bind_ret {A : Type} (c : result A) : (a <- c ;; Ok a) = c.
Proof. now destruct c. Qed.

Lemma decode_app_bounded (n : nat) :
  forall a a' b, String.length a <= n ->
    Uri.decodeURIComponent a = Ok a' ->
    Uri.decodeURIComponent (a ++ b)
    = (b' <- Uri.decodeURIComponent b ;; Ok (a' ++ b')%string).
Proof.
  induction n as [|n IH]; intros a a' b Hlen Ha.
  - destruct a; [|simpl in Hlen; lia]. simpl in *. inversion Ha; subst.
    simpl. now rewrite bind_ret.
  - destruct a as [|c r]; [simpl in *; inversion Ha; subst; simpl; now rewrite bind_ret|].
    simpl in Ha |- *. destruct (c =? "%")%char.
    + destruct r as [|h [|l rest]]; try discriminate. simpl.
      destruct (Uri.hexValue h); [|discriminate].
      destruct (Uri.hexValue l); [|discriminate].
      apply bind_ok in Ha as [d [Hd Ha]]. inversion Ha; subst.
      rewrite (IH rest d b) by (simpl in Hlen; lia || assumption).
      now destruct (Uri.decodeURIComponent b).
    + apply bind_ok in Ha as [d [Hd Ha]]. inversion Ha; subst.
      rewrite (IH r d b) by (simpl in Hlen; lia || assumption).
      now destruct (Uri.decodeURIComponent b).
Qed.

Lemma decode_app (a a' b : string) :
  Uri.decodeURIComponent a = Ok a' ->
  Uri.decodeURIComponent (a ++ b)
  = (b' <- Uri.decodeURIComponent b ;; Ok (a' ++ b')%string).
Proof. apply (decode_app_bounded (String.length a)). apply le_n. Qed.

Lemma decode_join (os : platform) (encodedSegments segments : list string) :
  Forall2 (fun e s => Uri.decodeURIComponent e = Ok s) encodedSegments segments ->
  Uri.decodeURIComponent (Str.join (sep os) encodedSegments)
  = Ok (Str.join (sep os) segments).
Proof.
  induction 1 as [|e s es ss He Hrest IH]; [reflexivity|].
  destruct Hrest as [|e2 s2 es2 ss2 He2 Hrest].
  - exact He.
  - rewrite !join_cons, (decode_app _ _ _ He).
    replace (Uri.decodeURIComponent (String (sep os) (Str.join (sep os) (e2 :: es2))))
      with (d <- Uri.decodeURIComponent (Str.join (sep os) (e2 :: es2)) ;;
            Ok (String (sep os) d)) by (now destruct os).
    now rewrite IH.
Qed.

(** Decoding the whole of an encoded path gives the path back, unless the
    path starts with a segment that ends in a colon and holds a percent
    sign. *)
Lemma decode_encodePath (os : platform) (pathStr : string) :
  plainDrive os pathStr ->
  Uri.decodeURIComponent (encodePath os pathStr) = Ok pathStr.
Proof.
  unfold plainDrive, encodePath. fold encodeSegment. intros Hdrive.
  rewrite <- (join_split (sep os) pathStr) at 2.
  apply decode_join.
  destruct (Str.split (sep os) pathStr) as [|first rest]; [constructor|].
  unfold mapi. simpl. constructor.
  - unfold encodeSegment. simpl.
    destruct (Str.endsWith first ":") eqn:E; [now apply Hdrive | apply decode_encode].
  - rewrite encodeSegment_tail. clear.
    induction rest as [|x rest IH]; simpl; constructor;
      [apply decode_encode | exact IH].
Qed.

(* ================================================================== *)
(** * Empty lists of components *)








(* ================================================================== *)
(** * Arrays: [sort], [indexOf] and [splice] *)

Lemma insertBy_perm {A : Type} (compare : A -> A -> Z) (x : A) (l : list A) :
  Permutation (insertBy compare x l) (x :: l).
Proof.
  induction l as [|y l IH]; simpl; [reflexivity|].
  destruct (compare x y <=? 0)%Z; [reflexivity|].
  rewrite IH. apply perm_swap.
Qed.

Lemma sortBy_perm {A : Type} (compare : A -> A -> Z) (l : list A) :
  Permutation (sortBy compare l) l.
Proof.
  induction l as [|x l IH]; simpl; [reflexivity|].
  rewrite insertBy_perm. now constructor.
Qed.

Lemma indexOf_first (x : string) (l : list string) :
  In x l ->
  exists a b, l = a ++ x :: b /\ ~ In x a /\ indexOf x l = Z.of_nat (List.length a).
Proof.
  induction l as [|y l IH]; intros Hin; [contradiction|]. simpl.
  destruct (String.eqb_spec y x) as [->|Hne].
  - exists [], l. repeat split. intros [].
  - destruct Hin as [Heq|Hin]; [contradiction|].
    destruct (IH Hin) as [a [b [-> [Hna Hidx]]]].
    exists (y :: a), b. rewrite Hidx. repeat split.
    + intros [Heq|Ha]; [contradiction | exact (Hna Ha)].
    + destruct (Z.ltb_spec (Z.of_nat (List.length a)) 0); simpl; lia.
Qed.

Lemma removeAt_middle {A : Type} (a b : list A) (x : A) :
  removeAt (List.length a) (a ++ x :: b) = a ++ b.
Proof.
  unfold removeAt. induction a as [|y a IH]; simpl; [reflexivity|].
  f_equal. exact IH.
Qed.

(** The name pushed last is found, and [splice] takes its first occurrence
    out. *)
Lemma removeFailure_first (failures : list string) (x : string) :
  In x failures ->
  exists a b, failures = a ++ x :: b /\ ~ In x a
              /\ removeFailure failures x = a ++ b.
Proof.
  intros Hin. destruct (indexOf_first x failures Hin) as [a [b [-> [Hna Hidx]]]].
  exists a, b. repeat split; [exact Hna|].
  unfold removeFailure, splice1. rewrite Hidx.
  destruct (Z.ltb_spec (Z.of_nat (List.length a)) 0); [lia|].
  rewrite Z.min_l by (rewrite length_app; simpl; lia).
  rewrite Nat2Z.id. apply removeAt_middle.
Qed.

Lemma removeFailure_pushed (failures : list string) (x : string) :
  Permutation (removeFailure (failures ++ [x]) x) failures.
Proof.
  destruct (removeFailure_first (failures ++ [x]) x) as [a [b [E [_ ->]]]].
  - apply in_or_app. right. now left.
  - apply (Permutation_cons_inv (a := x)).
    rewrite Permutation_middle, <- E.
    symmetry. apply Permutation_cons_append.
Qed.

(* ================================================================== *)
(** * The scan, candidate by candidate *)

Lemma forEach_app {A S : Type} (f : S -> A -> result S) (a b : list A) (s : S) :
  forEach f (a ++ b) s = (s' <- forEach f a s ;; forEach f b s').
Proof.
  revert s; induction a as [|x a IH]; intros s; simpl; [reflexivity|].
  destruct (f s x) as [s'|e]; simpl; [apply IH | reflexivity].
Qed.

Section Scan.

Variable env : Env.

Lemma forEach_processEntry (parentFolder : string) (entries : list Dirent.t)
  (assets : AdvantageScopeAssets) :
  forEach (processEntry env parentFolder) entries assets
  = forEach (candidateStep env)
      (map (pair parentFolder) (filter isCandidate entries)) assets.
Proof.
  revert assets; induction entries as [|object entries IH]; intros assets; simpl;
    [reflexivity|].
  rewrite processEntry_outcome.
  destruct (isCandidate object); simpl; [|apply IH].
  unfold candidateStep at 1. simpl.
  destruct (candidateOutcome env parentFolder (Dirent.name object)); simpl;
    [apply IH | reflexivity].
Qed.

(** The scan of a root that can be listed goes through its candidates. *)
Lemma scanFolder_candidates (assets : AdvantageScopeAssets) (parentFolder : string) :
  readdirThrows env parentFolder = None ->
  scanFolder env assets parentFolder
  = forEach (candidateStep env)
      (map (pair parentFolder) (candidates env parentFolder)) assets.
Proof. intros H. unfold scanFolder. rewrite H. apply forEach_processEntry. Qed.

Lemma scanFolder_listed (assets assets' : AdvantageScopeAssets)
  (parentFolder : string) :
  scanFolder env assets parentFolder = Ok assets' ->
  readdirThrows env parentFolder = None.
Proof.
  unfold scanFolder. now destruct (readdirThrows env parentFolder).
Qed.

Lemma forEach_scanFolder (folders : list string) (assets : AdvantageScopeAssets) :
  Forall (fun folder => readdirThrows env folder = None) folders ->
  forEach (scanFolder env) folders assets
  = forEach (candidateStep env)
      (flat_map (fun parentFolder =>
                   map (pair parentFolder) (candidates env parentFolder)) folders)
      assets.
Proof.
  intros Hall. revert assets; induction Hall as [|folder folders Hf Hall IH];
    intros assets; simpl; [reflexivity|].
  rewrite forEach_app, (scanFolder_candidates _ _ Hf).
  destruct (forEach _ _ assets); simpl; [apply IH | reflexivity].
Qed.

Lemma forEach_scanFolder_listed (folders : list string)
  (assets assets' : AdvantageScopeAssets) :
  forEach (scanFolder env) folders assets = Ok assets' ->
  Forall (fun folder => readdirThrows env folder = None) folders.
Proof.
  revert assets; induction folders as [|folder folders IH]; intros assets H;
    constructor; simpl in H; apply bind_ok in H as [mid [Hmid H]].
  - exact (scanFolder_listed _ _ _ Hmid).
  - exact (IH _ H).
Qed.

(** A scan that returns has read the preferences and listed the three
    roots. *)
Lemma scan_roots (scanned : AdvantageScopeAssets) :
  scan env = Ok scanned ->
  userAssetsPath env = Ok (Some (JStr (getUserAssetsPath env)))
  /\ forEach (scanFolder env) (roots env) emptyAssets = Ok scanned.
Proof.
  unfold scan, getUserAssetsPath.
  destruct (userAssetsPath env) as [[[| | | folder | |]|]|e]; simpl;
    try discriminate.
  intros H. now split.
Qed.

Lemma scan_candidates (scanned : AdvantageScopeAssets) :
  scan env = Ok scanned ->
  forEach (candidateStep env) (allCandidates env) emptyAssets = Ok scanned.
Proof.
  intros H. apply scan_roots in H as [_ H].
  unfold allCandidates.
  now rewrite <- (forEach_scanFolder _ _ (forEach_scanFolder_listed _ _ _ H)).
Qed.

(** When the preferences give a folder and the three roots can be listed,
    the scan goes through the candidates of the three roots. *)
Lemma scan_listed (folder : string) :
  userAssetsPath env = Ok (Some (JStr folder)) ->
  Forall (fun root => readdirThrows env root = None) (roots env) ->
  scan env = forEach (candidateStep env) (allCandidates env) emptyAssets.
Proof.
  intros Hu Hall. unfold scan. rewrite Hu. cbn [bind].
  exact (forEach_scanFolder (roots env) emptyAssets Hall).
Qed.

(** When a candidate raises, so does the scan. *)
Lemma scan_throws (e : exn) :
  forEach (candidateStep env) (allCandidates env) emptyAssets = Throw e ->
  exists e', scan env = Throw e'.
Proof.
  intros H. destruct (scan env) as [scanned|e'] eqn:E; [|eauto].
  apply scan_candidates in E. congruence.
Qed.

End Scan.

Section Accounts.

Variable env : Env.

Lemma recordOutcome_field2ds (assets : AdvantageScopeAssets) (n : string) (o : Outcome) :
  field2ds (recordOutcome assets n o) = field2ds assets ++ field2dOf o.
Proof. destruct o; simpl; now rewrite ?app_nil_r. Qed.

Lemma recordOutcome_field3ds (assets : AdvantageScopeAssets) (n : string) (o : Outcome) :
  field3ds (recordOutcome assets n o) = field3ds assets ++ field3dOf o.
Proof. destruct o; simpl; now rewrite ?app_nil_r. Qed.

Lemma recordOutcome_robots (assets : AdvantageScopeAssets) (n : string) (o : Outcome) :
  robots (recordOutcome assets n o) = robots assets ++ robotOf o.
Proof. destruct o; simpl; now rewrite ?app_nil_r. Qed.

Lemma recordOutcome_joysticks (assets : AdvantageScopeAssets) (n : string) (o : Outcome) :
  joysticks (recordOutcome assets n o) = joysticks assets ++ joystickOf o.
Proof. destruct o; simpl; now rewrite ?app_nil_r. Qed.

Lemma recordOutcome_failures (assets : AdvantageScopeAssets) (n : string) (o : Outcome) :
  Permutation (loadFailures (recordOutcome assets n o))
    (loadFailures assets ++ match o with Failure => [n] | _ => [] end).
Proof.
  destruct o; simpl; rewrite ?app_nil_r;
    [reflexivity | apply removeFailure_pushed ..].
Qed.

Lemma candidateSteps_outcomes (cs : list (string * Dirent.t))
  (assets assets' : AdvantageScopeAssets) :
  forEach (candidateStep env) cs assets = Ok assets' ->
  exists outcomes,
    outcomesOf env cs outcomes
    /\ field2ds assets' = field2ds assets ++ flat_map field2dOf outcomes
    /\ field3ds assets' = field3ds assets ++ flat_map field3dOf outcomes
    /\ robots assets' = robots assets ++ flat_map robotOf outcomes
    /\ joysticks assets' = joysticks assets ++ flat_map joystickOf outcomes
    /\ Permutation (loadFailures assets')
         (loadFailures assets ++ failedNames cs outcomes).
Proof.
  revert assets; induction cs as [|c cs IH]; intros assets H; simpl in H.
  - inversion H; subst. exists []. simpl. rewrite !app_nil_r.
    repeat split; try reflexivity. constructor.
  - apply bind_ok in H as [mid [Hstep H]].
    unfold candidateStep in Hstep. apply bind_ok in Hstep as [o [Ho Hmid]].
    inversion Hmid; subst; clear Hmid.
    destruct (IH _ H) as [outcomes [Hout [H2 [H3 [Hr [Hj Hf]]]]]].
    exists (o :: outcomes). split; [now constructor|].
    rewrite H2, H3, Hr, Hj, recordOutcome_field2ds, recordOutcome_field3ds,
      recordOutcome_robots, recordOutcome_joysticks. simpl.
    rewrite <- !app_assoc. repeat split; try reflexivity.
    rewrite Hf, recordOutcome_failures, <- app_assoc.
    apply Permutation_app_head. now destruct o.
Qed.

Lemma outcomes_candidateSteps (cs : list (string * Dirent.t))
  (outcomes : list Outcome) (assets : AdvantageScopeAssets) :
  outcomesOf env cs outcomes ->
  exists assets', forEach (candidateStep env) cs assets = Ok assets'.
Proof.
  intros H. revert assets; induction H as [|c o cs os Ho Hrest IH]; intros assets;
    simpl; [eauto|].
  unfold candidateStep at 1. rewrite Ho. simpl. apply IH.
Qed.

Lemma outcomesOf_functional (cs : list (string * Dirent.t)) (o1 o2 : list Outcome) :
  outcomesOf env cs o1 -> outcomesOf env cs o2 -> o1 = o2.
Proof.
  intros H1; revert o2; induction H1 as [|c o cs os Ho Hrest IH]; intros o2 H2;
    inversion H2; subst; [reflexivity|].
  f_equal; [congruence | now apply IH].
Qed.

End Accounts.

(* ================================================================== *)
(** * Every candidate is accounted for *)

Lemma allCandidates_spec (env : Env) (parentFolder : string) (object : Dirent.t) :
  In (parentFolder, object) (allCandidates env) <->
    In parentFolder (roots env)
    /\ In object (readdirSync env parentFolder)
    /\ isCandidate object = true.
Proof.
  unfold allCandidates, candidates. rewrite in_flat_map. split.
  - intros [folder [Hroot Hin]]. apply in_map_iff in Hin as [d [Heq Hd]].
    inversion Heq; subst. apply filter_In in Hd as [Hd Hc].
    repeat split; try assumption.
    eapply Permutation_in; [apply sortBy_perm | exact Hd].
  - intros [Hroot [Hd Hc]]. exists parentFolder. split; [exact Hroot|].
    apply in_map. apply filter_In. split; [|exact Hc].
    eapply Permutation_in; [symmetry; apply sortBy_perm | exact Hd].
Qed.

Lemma outcomes_count (env : Env) (cs : list (string * Dirent.t))
  (outcomes : list Outcome) :
  outcomesOf env cs outcomes ->
  List.length cs
  = List.length (failedNames cs outcomes)
    + List.length (flat_map field2dOf outcomes)
    + List.length (flat_map field3dOf outcomes)
    + List.length (flat_map robotOf outcomes)
    + List.length (flat_map joystickOf outcomes).
Proof.
  induction 1 as [|c o cs os Ho Hrest IH]; [reflexivity|].
  destruct o; simpl; rewrite ?length_app; simpl; lia.
Qed.

Lemma failedNames_In (env : Env) (cs : list (string * Dirent.t))
  (outcomes : list Outcome) (c : string * Dirent.t) :
  outcomesOf env cs outcomes ->
  In c cs ->
  candidateOutcome env (fst c) (Dirent.name (snd c)) = Ok Failure ->
  In (Dirent.name (snd c)) (failedNames cs outcomes).
Proof.
  induction 1 as [|c' o cs os Ho Hrest IH]; intros Hin Hfail; [contradiction|].
  destruct Hin as [->|Hin].
  - rewrite Hfail in Ho. inversion Ho; subst. now left.
  - specialize (IH Hin Hfail). destruct o; simpl; auto.
Qed.

Ltac invert_build H :=
  repeat match type of H with
         | bind _ _ = Ok _ => apply bind_ok in H as [? [_ H]]
         end;
  inversion H; subst; clear H.

Lemma candidateOutcome_backedBy (env : Env) (c : string * Dirent.t) (outcome : Outcome) :
  candidateOutcome env (fst c) (Dirent.name (snd c)) = Ok outcome ->
  backedBy env c outcome.
Proof.
  unfold candidateOutcome.
  destruct (negb _); [intros H; inversion H; exact I|].
  destruct (readFileSync env _) as [configRaw|]; [|intros H; inversion H; exact I].
  destruct (notAnObject configRaw); [intros H; inversion H; exact I|].
  repeat match goal with
         | |- context [if Str.startsWith ?n ?p then _ else _] =>
             destruct (Str.startsWith n p)
         end;
    try (intros H; inversion H; exact I);
    intros H; apply bind_ok in H as [config [Hbuild H]];
    apply bind_ok in H as [ok [_ H]]; inversion H; subst; clear H;
    (destruct ok; [|exact I]); simpl.
  - unfold buildField2d in Hbuild. now invert_build Hbuild.
  - unfold buildField3d in Hbuild. now invert_build Hbuild.
  - unfold buildRobot in Hbuild. now invert_build Hbuild.
  - unfold buildJoystick in Hbuild. now invert_build Hbuild.
Qed.

Lemma outcomesOf_backedBy (env : Env) (cs : list (string * Dirent.t))
  (outcomes : list Outcome) :
  outcomesOf env cs outcomes -> Forall2 (backedBy env) cs outcomes.
Proof.
  induction 1 as [|c o cs os Ho Hrest IH]; constructor;
    [now apply candidateOutcome_backedBy | exact IH].
Qed.

Lemma scan_accounts (env : Env) (scanned : AdvantageScopeAssets) :
  scan env = Ok scanned ->
  exists outcomes,
    outcomesOf env (allCandidates env) outcomes
    /\ field2ds scanned = flat_map field2dOf outcomes
    /\ field3ds scanned = flat_map field3dOf outcomes
    /\ robots scanned = flat_map robotOf outcomes
    /\ joysticks scanned = flat_map joystickOf outcomes
    /\ Permutation (loadFailures scanned) (failedNames (allCandidates env) outcomes).
Proof.
  intros H. apply scan_candidates in H.
  destruct (candidateSteps_outcomes env _ _ _ H) as [outcomes Hout].
  exists outcomes. exact Hout.
Qed.

Lemma loadAssets_scan (env : Env) (assets : AdvantageScopeAssets) :
  loadAssets env = Ok assets ->
  exists scanned, scan env = Ok scanned
                  /\ assets = sortAssets env (uniqueAssets scanned).
Proof.
  unfold loadAssets. intros H. apply bind_ok in H as [scanned [Hs H]].
  exists scanned. split; [exact Hs | now inversion H].
Qed.

(** C1, as amended.  In every run of [loadAssets] that returns, each
    candidate has one outcome: a failure, or a record that points into its
    folder.  Before duplicates are removed the four lists hold exactly the
    records of the admitted candidates, in scan order, and [loadFailures]
    holds exactly the names of the others, one entry for each: the
    candidates number as many as the five lists together.  The returned
    [loadFailures] is that list, sorted; the returned records are those
    left once later duplicates of a display name are removed. *)
Theorem candidates_accounted_before_dedup (env : Env) (assets : AdvantageScopeAssets) :
  loadAssets env = Ok assets ->
  exists scanned outcomes,
    scan env = Ok scanned
    /\ outcomesOf env (allCandidates env) outcomes
    /\ Forall2 (backedBy env) (allCandidates env) outcomes
    /\ field2ds scanned = flat_map field2dOf outcomes
    /\ field3ds scanned = flat_map field3dOf outcomes
    /\ robots scanned = flat_map robotOf outcomes
    /\ joysticks scanned = flat_map joystickOf outcomes
    /\ Permutation (loadFailures scanned) (failedNames (allCandidates env) outcomes)
    /\ List.length (allCandidates env)
       = List.length (loadFailures scanned) + List.length (field2ds scanned)
         + List.length (field3ds scanned) + List.length (robots scanned)
         + List.length (joysticks scanned)
    /\ Permutation (loadFailures assets) (loadFailures scanned)
    /\ assets = sortAssets env (uniqueAssets scanned).
Proof.
  intros H. destruct (loadAssets_scan env assets H) as [scanned [Hscan ->]].
  destruct (scan_accounts env scanned Hscan) as [outcomes [Hout [H2 [H3 [Hr [Hj Hf]]]]]].
  exists scanned, outcomes. repeat split; try assumption.
  - now apply outcomesOf_backedBy.
  - rewrite (outcomes_count env _ _ Hout), H2, H3, Hr, Hj.
    now rewrite (Permutation_length Hf).
  - simpl. apply sortBy_perm.
Qed.

(** The invariant as the spec states it fails on [Sample.shadowed]: the
    candidate of the bundled root was admitted, so its name is not in
    [loadFailures], and its record was removed as a duplicate. *)
Lemma shadowed_candidate_in_no_place :
  loadAssets Sample.shadowed = Ok Sample.shadowedAssets
  /\ ~ inExactlyOnePlace Sample.shadowed Sample.shadowedAssets.
Proof.
  split; [reflexivity|].
  intros H.
  specialize (H "/bundled"%string (Sample.dir "Field2d_Stock")).
  destruct H as [[Hb _] | [_ Hin]].
  - simpl. tauto.
  - now left.
  - reflexivity.
  - destruct Hb as [[r [Hr Hp]] | [[r [Hr _]] | [[r [Hr _]] | [r [Hr _]]]]];
      try contradiction.
    destruct Hr as [<-|[]]. discriminate.
  - contradiction.
Qed.

Lemma candidates_accounted_sample :
  loadAssets Sample.shadowed = Ok Sample.shadowedAssets
  /\ exists scanned outcomes,
      scan Sample.shadowed = Ok scanned
      /\ outcomesOf Sample.shadowed (allCandidates Sample.shadowed) outcomes
      /\ Forall2 (backedBy Sample.shadowed) (allCandidates Sample.shadowed) outcomes
      /\ field2ds scanned = flat_map field2dOf outcomes
      /\ field3ds scanned = flat_map field3dOf outcomes
      /\ robots scanned = flat_map robotOf outcomes
      /\ joysticks scanned = flat_map joystickOf outcomes
      /\ Permutation (loadFailures scanned)
           (failedNames (allCandidates Sample.shadowed) outcomes)
      /\ List.length (allCandidates Sample.shadowed)
         = List.length (loadFailures scanned) + List.length (field2ds scanned)
           + List.length (field3ds scanned) + List.length (robots scanned)
           + List.length (joysticks scanned)
      /\ Permutation (loadFailures Sample.shadowedAssets) (loadFailures scanned)
      /\ Sample.shadowedAssets
         = sortAssets Sample.shadowed (uniqueAssets scanned).
Proof.
  split; [reflexivity|].
  apply (candidates_accounted_before_dedup Sample.shadowed Sample.shadowedAssets).
  reflexivity.
Defined.

(* ================================================================== *)
(** * Names with none of the four prefixes *)

Lemma unclassifiable_outcome (env : Env) (parentFolder objectName : string) :
  unclassifiable objectName = true ->
  candidateOutcome env parentFolder objectName = Ok Failure.
Proof.
  unfold unclassifiable. rewrite !andb_true_iff, !negb_true_iff.
  intros [[[H2 H3] Hr] Hj]. unfold candidateOutcome.
  rewrite H2, H3, Hr, Hj.
  destruct (negb _); [reflexivity|].
  destruct (readFileSync env _) as [configRaw|]; [|reflexivity].
  now destruct (notAnObject configRaw).
Qed.

(** C2, as amended.  A directory that is not hidden and whose name has none
    of the four prefixes produces no record, and its name is pushed onto
    [loadFailures] and is in the returned list. *)
Theorem unclassifiable_stays_a_failure (env : Env) (assets : AdvantageScopeAssets)
  (parentFolder : string) (object : Dirent.t) :
  loadAssets env = Ok assets ->
  In parentFolder (roots env) ->
  In object (readdirSync env parentFolder) ->
  isCandidate object = true ->
  unclassifiable (Dirent.name object) = true ->
  In (Dirent.name object) (loadFailures assets)
  /\ candidateOutcome env parentFolder (Dirent.name object) = Ok Failure
  /\ forall assets0,
       processEntry env parentFolder assets0 object
       = Ok (pushFailure assets0 (Dirent.name object)).
Proof.
  intros Hload Hroot Hentry Hcand Hname.
  pose proof (unclassifiable_outcome env parentFolder _ Hname) as Hfail.
  split; [|split; [exact Hfail|]].
  - destruct (loadAssets_scan env assets Hload) as [scanned [Hscan ->]].
    destruct (scan_accounts env scanned Hscan) as [outcomes [Hout [_ [_ [_ [_ Hf]]]]]].
    simpl. eapply Permutation_in; [symmetry; apply sortBy_perm|].
    eapply Permutation_in; [symmetry; exact Hf|].
    apply (failedNames_In env _ _ (parentFolder, object) Hout); [|exact Hfail].
    apply allCandidates_spec. now repeat split.
  - intros assets0. rewrite processEntry_outcome, Hcand, Hfail. reflexivity.
Qed.

(** On [Sample.unclassified] the folder ["Notes"] is in [loadFailures]. *)
Lemma unclassifiable_name_in_loadFailures :
  In (Sample.dir "Notes") (readdirSync Sample.unclassified "/user")
  /\ isCandidate (Sample.dir "Notes") = true
  /\ unclassifiable "Notes" = true
  /\ exists assets,
      loadAssets Sample.unclassified = Ok assets
      /\ In "Notes"%string (loadFailures assets).
Proof.
  repeat split; try (now left).
  eexists. split; [reflexivity | now left].
Qed.

Lemma unclassifiable_stays_a_failure_sample :
  loadAssets Sample.unclassified
  = Ok {| field2ds := []; field3ds := []; robots := []; joysticks := [];
          loadFailures := ["Notes"%string] |}
  /\ In "Notes"%string ["Notes"%string]
  /\ candidateOutcome Sample.unclassified "/user" "Notes" = Ok Failure
  /\ forall assets0,
       processEntry Sample.unclassified "/user" assets0 (Sample.dir "Notes")
       = Ok (pushFailure assets0 "Notes").
Proof.
  split; [reflexivity|].
  apply (unclassifiable_stays_a_failure Sample.unclassified
           {| field2ds := []; field3ds := []; robots := []; joysticks := [];
              loadFailures := ["Notes"%string] |}
           "/user" (Sample.dir "Notes")).
  - reflexivity.
  - now left.
  - now left.
  - reflexivity.
  - reflexivity.
Defined.

(* ================================================================== *)
(** * Duplicate names *)

Section Duplicates.

Context {A : Type}.
Variable name : A -> string.

Lemma firstNamed_app (n : string) (a b : list A) :
  firstNamed name n (a ++ b)
  = match firstNamed name n a with
    | Some r => Some r
    | None => firstNamed name n b
    end.
Proof.
  unfold firstNamed. induction a as [|x a IH]; simpl; [reflexivity|].
  destruct (String.eqb (name x) n); [reflexivity | exact IH].
Qed.

Lemma firstNamed_Some (n : string) (l : list A) (r : A) :
  firstNamed name n l = Some r -> In r l /\ name r = n.
Proof.
  unfold firstNamed. intros H. apply find_some in H as [Hin Hn].
  split; [exact Hin | now apply String.eqb_eq].
Qed.

Lemma firstNamed_None (n : string) (l : list A) :
  firstNamed name n l = None <-> ~ In n (map name l).
Proof.
  unfold firstNamed. induction l as [|x l IH]; simpl; [tauto|].
  destruct (String.eqb_spec (name x) n) as [E|E].
  - split; [discriminate | intros H; exfalso; apply H; now left].
  - rewrite IH. tauto.
Qed.

Lemma firstNamed_cons (n : string) (x : A) (l : list A) :
  firstNamed name n (x :: l)
  = if String.eqb (name x) n then Some x else firstNamed name n l.
Proof. reflexivity. Qed.

Lemma pushUnique_fold (l acc : list A) (r : A) :
  In r (fold_left (pushUnique name) l acc) <->
    In r acc
    \/ (firstNamed name (name r) acc = None
        /\ firstNamed name (name r) l = Some r).
Proof.
  revert acc; induction l as [|x l IH]; intros acc; cbn [fold_left].
  - split; [tauto | intros [H|[_ H]]; [exact H | discriminate]].
  - rewrite IH, firstNamed_cons. unfold pushUnique.
    fold (firstNamed name (name x) acc).
    destruct (firstNamed name (name x) acc) as [y|] eqn:Ex.
    + destruct (String.eqb_spec (name x) (name r)) as [E|E]; [|tauto].
      assert (firstNamed name (name r) acc = None -> False) as Hcontra.
      { rewrite <- E, Ex. discriminate. }
      tauto.
    + rewrite firstNamed_app, in_app_iff, firstNamed_cons.
      destruct (String.eqb_spec (name x) (name r)) as [E|E].
      * rewrite <- E, Ex. split.
        -- intros [[H|[H|[]]]|[Hn _]].
           ++ now left.
           ++ right. subst. now split.
           ++ discriminate.
        -- intros [H|[_ H]].
           ++ left. now left.
           ++ inversion H; subst. left. right. now left.
      * destruct (firstNamed name (name r) acc) as [z|] eqn:Er.
        -- split.
           ++ intros [[H|[H|[]]]|[Hn _]].
              ** now left.
              ** subst. contradiction.
              ** discriminate.
           ++ intros [H|[Hn _]]; [left; now left | discriminate].
        -- split.
           ++ intros [[H|[H|[]]]|[_ H]].
              ** now left.
              ** subst. contradiction.
              ** right. now split.
           ++ intros [H|[_ H]]; [left; now left | right; now split].
Qed.

Lemma pushUnique_NoDup (l acc : list A) :
  NoDup (map name acc) -> NoDup (map name (fold_left (pushUnique name) l acc)).
Proof.
  revert acc; induction l as [|x l IH]; intros acc Hacc; simpl; [exact Hacc|].
  apply IH. unfold pushUnique. fold (firstNamed name (name x) acc).
  destruct (firstNamed name (name x) acc) eqn:Ex; [exact Hacc|].
  apply firstNamed_None in Ex. rewrite map_app. simpl.
  apply NoDup_app; [exact Hacc | constructor; [intros [] | constructor] |].
  intros n Hn [<-|[]]. exact (Ex Hn).
Qed.

(** [removeDuplicates] keeps the first record of each name and no other. *)
Lemma removeDuplicates_first (l : list A) :
  NoDup (map name (removeDuplicates name l))
  /\ forall r, In r (removeDuplicates name l) <->
               firstNamed name (name r) l = Some r.
Proof.
  split.
  - apply pushUnique_NoDup. constructor.
  - intros r. unfold removeDuplicates. rewrite pushUnique_fold. simpl.
    split; [intros [[]|[_ H]]; exact H | intros H; right; now split].
Qed.

Lemma keepsFirstByPriority_sorted (compare : A -> A -> Z) (user auto bundled : list A) :
  keepsFirstByPriority name user auto bundled
    (sortBy compare (removeDuplicates name (user ++ auto ++ bundled))).
Proof.
  destruct (removeDuplicates_first (user ++ auto ++ bundled)) as [Hnd Hin].
  split.
  - eapply Permutation_NoDup; [|exact Hnd].
    apply Permutation_map. symmetry. apply sortBy_perm.
  - intros r.
    assert (In r (sortBy compare (removeDuplicates name (user ++ auto ++ bundled)))
            <-> In r (removeDuplicates name (user ++ auto ++ bundled))) as ->.
    { split; apply Permutation_in;
        [apply sortBy_perm | symmetry; apply sortBy_perm]. }
    rewrite Hin, !firstNamed_app.
    destruct (firstNamed name (name r) user);
      destruct (firstNamed name (name r) auto);
      intuition congruence.
Qed.

End Duplicates.

Section Priority.

Variable env : Env.

(** What a root adds to the four lists is what its scan gives on its own. *)
Lemma scanFolder_alone (assets assets' : AdvantageScopeAssets) (parentFolder : string) :
  scanFolder env assets parentFolder = Ok assets' ->
  exists alone,
    scanFolder env emptyAssets parentFolder = Ok alone
    /\ field2ds assets' = field2ds assets ++ field2ds alone
    /\ field3ds assets' = field3ds assets ++ field3ds alone
    /\ robots assets' = robots assets ++ robots alone
    /\ joysticks assets' = joysticks assets ++ joysticks alone.
Proof.
  intros H. assert (Hl := scanFolder_listed env _ _ _ H).
  rewrite (scanFolder_candidates env _ _ Hl) in H.
  destruct (candidateSteps_outcomes env _ _ _ H)
    as [outcomes [Hout [H2 [H3 [Hr [Hj _]]]]]].
  destruct (outcomes_candidateSteps env _ _ emptyAssets Hout) as [alone Halone].
  destruct (candidateSteps_outcomes env _ _ _ Halone)
    as [outcomes' [Hout' [H2' [H3' [Hr' [Hj' _]]]]]].
  rewrite (outcomesOf_functional env _ _ _ Hout' Hout) in *.
  exists alone. rewrite (scanFolder_candidates env _ _ Hl).
  split; [exact Halone|].
  rewrite H2, H3, Hr, Hj, H2', H3', Hr', Hj'. simpl. now repeat split.
Qed.

Lemma scan_by_root (scanned : AdvantageScopeAssets) :
  scan env = Ok scanned ->
  exists user auto bundled,
    scanFolder env emptyAssets (getUserAssetsPath env) = Ok user
    /\ scanFolder env emptyAssets (AUTO_ASSETS env) = Ok auto
    /\ scanFolder env emptyAssets (BUNDLED_ASSETS env) = Ok bundled
    /\ field2ds scanned = field2ds user ++ field2ds auto ++ field2ds bundled
    /\ field3ds scanned = field3ds user ++ field3ds auto ++ field3ds bundled
    /\ robots scanned = robots user ++ robots auto ++ robots bundled
    /\ joysticks scanned = joysticks user ++ joysticks auto ++ joysticks bundled.
Proof.
  intros H. apply scan_roots in H as [_ H]. unfold roots in H. simpl in H.
  apply bind_ok in H as [s1 [H1 H]].
  apply bind_ok in H as [s2 [H2 H]].
  apply bind_ok in H as [s3 [H3 H]].
  inversion H; subst; clear H.
  destruct (scanFolder_alone _ _ _ H2) as [auto [Ha [A2 [A3 [Ar Aj]]]]].
  destruct (scanFolder_alone _ _ _ H3) as [bundled [Hb [B2 [B3 [Br Bj]]]]].
  exists s1, auto, bundled.
  rewrite B2, B3, Br, Bj, A2, A3, Ar, Aj, <- !app_assoc. now repeat split.
Qed.

End Priority.

(** C6.  Removing duplicates keeps, of the records that share a display
    name, the first one in scan order and no other.  The three roots are
    scanned user, auto, bundled, so the record kept for a name is the first
    one of that name admitted from the user root if there is one, else from
    the auto root, else from the bundled root; this holds of the four
    returned lists. *)
Theorem first_of_a_name_by_priority (env : Env) :
  (forall (A : Type) (name : A -> string) (scanOrder : list A),
      NoDup (map name (removeDuplicates name scanOrder))
      /\ forall r, In r (removeDuplicates name scanOrder) <->
                   firstNamed name (name r) scanOrder = Some r)
  /\ roots env = [getUserAssetsPath env; AUTO_ASSETS env; BUNDLED_ASSETS env]
  /\ forall assets,
      loadAssets env = Ok assets ->
      exists user auto bundled,
        scanFolder env emptyAssets (getUserAssetsPath env) = Ok user
        /\ scanFolder env emptyAssets (AUTO_ASSETS env) = Ok auto
        /\ scanFolder env emptyAssets (BUNDLED_ASSETS env) = Ok bundled
        /\ keepsFirstByPriority Config2d.name
             (field2ds user) (field2ds auto) (field2ds bundled) (field2ds assets)
        /\ keepsFirstByPriority Config3dField.name
             (field3ds user) (field3ds auto) (field3ds bundled) (field3ds assets)
        /\ keepsFirstByPriority Config3dRobot.name
             (robots user) (robots auto) (robots bundled) (robots assets)
        /\ keepsFirstByPriority ConfigJoystick.name
             (joysticks user) (joysticks auto) (joysticks bundled)
             (joysticks assets).
Proof.
  split; [|split; [reflexivity|]].
  - intros A name scanOrder. apply removeDuplicates_first.
  - intros assets Hload.
    destruct (loadAssets_scan env assets Hload) as [scanned [Hscan ->]].
    destruct (scan_by_root env scanned Hscan)
      as [user [auto [bundled [Hu [Ha [Hb [H2 [H3 [Hr Hj]]]]]]]]].
    exists user, auto, bundled. simpl. rewrite H2, H3, Hr, Hj.
    repeat split; try assumption; apply keepsFirstByPriority_sorted.
Qed.

Lemma first_of_a_name_by_priority_sample :
  loadAssets Sample.shadowed = Ok Sample.shadowedAssets
  /\ exists user auto bundled,
      scanFolder Sample.shadowed emptyAssets "/user" = Ok user
      /\ scanFolder Sample.shadowed emptyAssets "/auto" = Ok auto
      /\ scanFolder Sample.shadowed emptyAssets "/bundled" = Ok bundled
      /\ keepsFirstByPriority Config2d.name
           (field2ds user) (field2ds auto) (field2ds bundled)
           (field2ds Sample.shadowedAssets)
      /\ keepsFirstByPriority Config3dField.name
           (field3ds user) (field3ds auto) (field3ds bundled)
           (field3ds Sample.shadowedAssets)
      /\ keepsFirstByPriority Config3dRobot.name
           (robots user) (robots auto) (robots bundled)
           (robots Sample.shadowedAssets)
      /\ keepsFirstByPriority ConfigJoystick.name
           (joysticks user) (joysticks auto) (joysticks bundled)
           (joysticks Sample.shadowedAssets).
Proof.
  split; [reflexivity|].
  apply (proj2 (proj2 (first_of_a_name_by_priority Sample.shadowed))).
  reflexivity.
Defined.

(* ================================================================== *)
(** * The order of the returned lists *)

Lemma compare_lt_trans (a b c : string) :
  String.compare a b = Lt -> String.compare b c = Lt -> String.compare a c = Lt.
Proof.
  revert b c; induction a as [|x a IH]; intros [|y b] [|z c]; simpl;
    try discriminate; try reflexivity.
  unfold Ascii.compare.
  destruct (N.compare_spec (N_of_ascii x) (N_of_ascii y)) as [Exy|Exy|Exy];
    try discriminate;
    destruct (N.compare_spec (N_of_ascii y) (N_of_ascii z)) as [Eyz|Eyz|Eyz];
    try discriminate; intros H1 H2.
  - rewrite Exy, Eyz, N.compare_refl. now apply (IH b c).
  - rewrite Exy. now apply N.compare_lt_iff in Eyz as ->.
  - rewrite <- Eyz. now apply N.compare_lt_iff in Exy as ->.
  - assert (N_of_ascii x < N_of_ascii z)%N as Hxz by lia.
    now apply N.compare_lt_iff in Hxz as ->.
Qed.

Lemma compare_refl (a : string) : String.compare a a = Eq.
Proof.
  induction a as [|x a IH]; simpl; [reflexivity|].
  unfold Ascii.compare. now rewrite N.compare_refl.
Qed.

Section Sorting.

Context {A : Type}.
Variable name : A -> string.
Variable compare : A -> A -> Z.
Variable before : A -> A -> Prop.

Hypothesis before_trans : forall a b c, before a b -> before b c -> before a c.
Hypothesis compare_before : forall a b,
    name a <> name b ->
    ((compare a b <= 0)%Z -> before a b) /\ ((compare a b > 0)%Z -> before b a).

Lemma insertBy_sorted (x : A) (l : list A) :
  StronglySorted before l ->
  (forall y, In y l -> name x <> name y) ->
  StronglySorted before (insertBy compare x l).
Proof.
  induction 1 as [|y l Hl IH Hy]; intros Hx; simpl.
  - constructor; constructor.
  - destruct (compare_before x y (Hx y (or_introl eq_refl))) as [Hle Hgt].
    destruct (Z.leb_spec (compare x y) 0) as [Hc|Hc].
    + constructor; [now constructor|].
      constructor; [now apply Hle|].
      rewrite Forall_forall in *. intros z Hz.
      apply (before_trans x y z); [now apply Hle | now apply Hy].
    + constructor.
      * apply IH. intros z Hz. apply Hx. now right.
      * rewrite Forall_forall in *. intros z Hz.
        apply (Permutation_in _ (insertBy_perm compare x l)) in Hz.
        destruct Hz as [<-|Hz]; [apply Hgt; lia | now apply Hy].
Qed.

Lemma sortBy_sorted (l : list A) :
  NoDup (map name l) -> StronglySorted before (sortBy compare l).
Proof.
  induction l as [|x l IH]; simpl; intros Hnd; [constructor|].
  inversion Hnd as [|n ns Hx Hrest]; subst.
  apply insertBy_sorted; [now apply IH|].
  intros y Hy Heq. apply Hx. rewrite Heq. apply in_map.
  eapply Permutation_in; [apply sortBy_perm | exact Hy].
Qed.

(** A list has one sorted arrangement: the result of [sort] does not depend
    on how the sort proceeds. *)
Lemma sorted_unique (l1 l2 : list A) :
  (forall a, ~ before a a) ->
  StronglySorted before l1 -> StronglySorted before l2 ->
  Permutation l1 l2 -> l1 = l2.
Proof.
  intros Hirr H1; revert l2; induction H1 as [|x l1 Hl1 IH Hx]; intros l2 H2 Hp.
  - now apply Permutation_nil in Hp.
  - destruct H2 as [|y l2 Hl2 Hy].
    + symmetry in Hp. now apply Permutation_nil in Hp.
    + assert (x = y) as ->.
      { assert (In x (y :: l2)) as Hxin
            by (eapply Permutation_in; [exact Hp | now left]).
        assert (In y (x :: l1)) as Hyin
            by (eapply Permutation_in; [symmetry; exact Hp | now left]).
        destruct Hxin as [->|Hxin]; [reflexivity|].
        destruct Hyin as [->|Hyin]; [reflexivity|].
        rewrite Forall_forall in Hx, Hy. exfalso.
        apply (Hirr x). apply (before_trans x y x); auto. }
      f_equal. apply IH; [exact Hl2|]. now apply Permutation_cons_inv in Hp.
Qed.

End Sorting.

Lemma evergreenLast_trans (a b c : Config2d.t) :
  evergreenLast a b -> evergreenLast b c -> evergreenLast a c.
Proof.
  intros [Ha [Hb|Hab]] [Hb' Hc]; [contradiction|].
  split; [exact Ha|]. destruct Hc as [Hc|Hbc]; [now left|].
  right. exact (Str_lt_trans _ _ _ Hbc Hab).
Qed.

Lemma compareField2d_evergreenLast (a b : Config2d.t) :
  Config2d.name a <> Config2d.name b ->
  ((compareField2d a b <= 0)%Z -> evergreenLast a b)
  /\ ((compareField2d a b > 0)%Z -> evergreenLast b a).
Proof.
  intros Hne. unfold compareField2d, compareNamesDescending, evergreenLast.
  destruct (String.eqb_spec (Config2d.name a) "Evergreen") as [Ea|Ea].
  - split; [lia|]. intros _. split; [congruence | now left].
  - destruct (String.eqb_spec (Config2d.name b) "Evergreen") as [Eb|Eb].
    + split; [intros _; split; [exact Ea | now left] | lia].
    + destruct (Str.lt (Config2d.name b) (Config2d.name a)) eqn:Eba.
      * split; [intros _; split; [exact Ea | now right] | lia].
      * destruct (Str_lt_total _ _ Hne) as [Hab|Hba]; [|congruence].
        rewrite Hab. split; [lia|]. intros _. split; [exact Eb | now right].
Qed.

(** C3, as amended.  The returned list of 2D fields is in descending order
    of name, in the order of [>] on strings (by UTF-16 code units), except
    that a record named "Evergreen" comes last; for the names Alpha,
    Evergreen, Zeta the order is Zeta, Alpha, Evergreen. *)
Theorem field2ds_descending_evergreen_last (env : Env) :
  (forall assets,
      loadAssets env = Ok assets ->
      StronglySorted evergreenLast (field2ds assets))
  /\ (forall alpha evergreen zeta : Config2d.t,
        Config2d.name alpha = "Alpha"%string ->
        Config2d.name evergreen = "Evergreen"%string ->
        Config2d.name zeta = "Zeta"%string ->
        map Config2d.name (sortBy compareField2d [alpha; evergreen; zeta])
        = ["Zeta"; "Alpha"; "Evergreen"]%string).
Proof.
  split.
  - intros assets Hload.
    destruct (loadAssets_scan env assets Hload) as [scanned [_ ->]]. simpl.
    apply (sortBy_sorted Config2d.name compareField2d evergreenLast
             evergreenLast_trans compareField2d_evergreenLast).
    apply removeDuplicates_first.
  - intros alpha evergreen zeta Ha He Hz.
    destruct alpha, evergreen, zeta. simpl in Ha, He, Hz. subst. reflexivity.
Qed.

(** On [Sample.threeFields] the names come out as Zeta, Alpha, Evergreen, not
    as Alpha, Zeta, Evergreen. *)
Lemma field2ds_not_ascending :
  loadAssets Sample.threeFields = Ok Sample.threeFieldsAssets
  /\ map Config2d.name (field2ds Sample.threeFieldsAssets)
     = ["Zeta"; "Alpha"; "Evergreen"]%string
  /\ map Config2d.name (field2ds Sample.threeFieldsAssets)
     <> ["Alpha"; "Zeta"; "Evergreen"]%string.
Proof. split; [reflexivity | split; [reflexivity | discriminate]]. Qed.

Lemma field2ds_descending_sample :
  loadAssets Sample.threeFields = Ok Sample.threeFieldsAssets
  /\ StronglySorted evergreenLast (field2ds Sample.threeFieldsAssets).
Proof.
  split; [reflexivity|].
  apply (proj1 (field2ds_descending_evergreen_last Sample.threeFields)).
  reflexivity.
Defined.

(* ================================================================== *)
(** * Exceptions *)

Lemma field_primitive (key : string) (v : json) :
  primitive v = true -> field key v = Throw TypeError.
Proof. destruct v; try discriminate; reflexivity. Qed.

Lemma buildGamePiece_primitive (gamePieceRaw : json) :
  primitive gamePieceRaw = true -> buildGamePiece gamePieceRaw = Throw TypeError.
Proof.
  intros H. unfold buildGamePiece, stringField.
  now rewrite (field_primitive _ _ H).
Qed.

Lemma forEachPush_throws {A B : Type} (f : A -> result (option B)) (l : list A)
  (x : A) (e : exn) :
  In x l -> f x = Throw e -> exists e', forEachPush f l = Throw e'.
Proof.
  intros Hin Hx. induction l as [|y l IH]; [contradiction|]. simpl.
  destruct Hin as [->|Hin].
  - rewrite Hx. simpl. eauto.
  - destruct (f y) as [o|e'']; simpl; [|eauto].
    destruct (IH Hin) as [e' ->]. simpl. eauto.
Qed.

Lemma bind_throws {A B : Type} (c : result A) (k : A -> result B) :
  (forall a, exists e, k a = Throw e) -> exists e, bind c k = Throw e.
Proof. intros H. destruct c as [a|e]; simpl; [apply H | eauto]. Qed.

Lemma forEach_throws (env : Env) (cs : list (string * Dirent.t))
  (c : string * Dirent.t) (e : exn) (assets : AdvantageScopeAssets) :
  In c cs ->
  candidateOutcome env (fst c) (Dirent.name (snd c)) = Throw e ->
  exists e', forEach (candidateStep env) cs assets = Throw e'.
Proof.
  intros Hin Hthrow. revert assets; induction cs as [|c' cs IH]; intros assets;
    [contradiction|]. simpl.
  destruct Hin as [->|Hin].
  - unfold candidateStep at 1. rewrite Hthrow. simpl. eauto.
  - destruct (candidateStep env assets c') as [mid|e'']; simpl; [now apply IH | eauto].
Qed.

(** C4 fails on the code.  A 3D field whose [gamePieces] holds a value that
    is no object makes [processEntry], and with it the whole of
    [loadAssets], raise an exception: on [Sample.numberAsGamePiece] the load
    ends in [TypeError] and returns nothing, although the 2D field beside
    the faulty folder is valid. *)
Theorem primitive_game_piece_throws :
  loadAssets Sample.numberAsGamePiece = Throw TypeError
  /\ (exists config,
        candidateOutcome Sample.numberAsGamePiece "/user" "Field2d_Good"
        = Ok (Field2d config))
  /\ forall (env : Env) parentFolder object configRaw items item,
      In parentFolder (roots env) ->
      In object (readdirSync env parentFolder) ->
      Dirent.isDirectory object = true ->
      Str.startsWith (Dirent.name object) "Field3d_" = true ->
      existsSync env (pathJoin env parentFolder (Dirent.name object) "config.json")
      = true ->
      readFileSync env (pathJoin env parentFolder (Dirent.name object) "config.json")
      = Some configRaw ->
      notAnObject configRaw = false ->
      field "gamePieces" configRaw = Ok (Some (JArr items)) ->
      In item items ->
      primitive item = true ->
      (forall assets0,
          exists e, processEntry env parentFolder assets0 object = Throw e)
      /\ exists e, loadAssets env = Throw e.
Proof.
  split; [reflexivity | split; [eexists; reflexivity|]].
  intros env parentFolder object configRaw items item
    Hroot Hentry Hdir Hkind Hex Hread Hobj Hpieces Hin Hprim.
  destruct (startsWith_Field3d _ Hkind) as [Hdot H2d].
  assert (isCandidate object = true) as Hcand
      by (unfold isCandidate; now rewrite Hdir, Hdot).
  assert (exists e, candidateOutcome env parentFolder (Dirent.name object) = Throw e)
    as [e Hthrow].
  { unfold candidateOutcome. rewrite Hex. cbn [negb].
    rewrite Hread, Hobj, H2d, Hkind.
    unfold buildField3d.
    do 7 (rewrite bind_bind; apply bind_throws; intros ?).
    unfold arrayField. rewrite Hpieces. cbn [bind].
    destruct (forEachPush_throws buildGamePiece items item TypeError Hin
                (buildGamePiece_primitive _ Hprim)) as [e' ->].
    simpl. eauto. }
  split.
  - intros assets0. exists e. now rewrite processEntry_outcome, Hcand, Hthrow.
  - unfold loadAssets.
    destruct (forEach_throws env (allCandidates env) (parentFolder, object)
                e emptyAssets) as [e' He].
    + apply allCandidates_spec. now repeat split.
    + exact Hthrow.
    + destruct (scan_throws env e' He) as [e'' ->]. simpl. eauto.
Qed.

(* ================================================================== *)
(** * Further properties of the loader *)

Lemma compareNamesDescending_descending {A : Type} (name : A -> string) (a b : A) :
  name a <> name b ->
  ((compareNamesDescending (name a) (name b) <= 0)%Z -> descending (name a) (name b))
  /\ ((compareNamesDescending (name a) (name b) > 0)%Z
      -> descending (name b) (name a)).
Proof.
  intros Hne. unfold compareNamesDescending, descending.
  destruct (Str.lt (name b) (name a)) eqn:Eba.
  - split; [reflexivity | lia].
  - destruct (Str_lt_total _ _ Hne) as [Hab|Hba]; [|congruence].
    rewrite Hab. split; [lia | reflexivity].
Qed.

(** X1.  The returned 3D fields and joysticks are in strictly descending
    order of name, in the order of [>] on strings (by UTF-16 code units). *)
Theorem field3ds_and_joysticks_descending (env : Env) (assets : AdvantageScopeAssets) :
  loadAssets env = Ok assets ->
  StronglySorted (fun a b => descending (Config3dField.name a) (Config3dField.name b))
    (field3ds assets)
  /\ StronglySorted
       (fun a b => descending (ConfigJoystick.name a) (ConfigJoystick.name b))
       (joysticks assets).
Proof.
  intros Hload.
  destruct (loadAssets_scan env assets Hload) as [scanned [_ ->]]. simpl.
  split.
  - apply (sortBy_sorted Config3dField.name).
    + intros a b c Hab Hbc. unfold descending in *. exact (Str_lt_trans _ _ _ Hbc Hab).
    + intros a b. apply (compareNamesDescending_descending Config3dField.name).
    + apply removeDuplicates_first.
  - apply (sortBy_sorted ConfigJoystick.name).
    + intros a b c Hab Hbc. unfold descending in *. exact (Str_lt_trans _ _ _ Hbc Hab).
    + intros a b. apply (compareNamesDescending_descending ConfigJoystick.name).
    + apply removeDuplicates_first.
Qed.

Lemma joysticks_descending_sample :
  loadAssets Sample.twoJoysticks = Ok Sample.twoJoysticksAssets
  /\ StronglySorted
       (fun a b => descending (Config3dField.name a) (Config3dField.name b))
       (field3ds Sample.twoJoysticksAssets)
  /\ StronglySorted
       (fun a b => descending (ConfigJoystick.name a) (ConfigJoystick.name b))
       (joysticks Sample.twoJoysticksAssets).
Proof.
  split; [reflexivity|].
  apply (field3ds_and_joysticks_descending Sample.twoJoysticks). reflexivity.
Defined.

(** X2.  A candidate without [config.json], with one that cannot be read or
    parsed, or with one that does not hold an object stays a failure and
    raises nothing, whatever its name. *)
Theorem unreadable_descriptor_is_a_failure (env : Env) (parentFolder : string)
  (assets0 : AdvantageScopeAssets) (object : Dirent.t) :
  isCandidate object = true ->
  existsSync env (pathJoin env parentFolder (Dirent.name object) "config.json") = false
  \/ readFileSync env (pathJoin env parentFolder (Dirent.name object) "config.json")
     = None
  \/ (exists configRaw,
        readFileSync env (pathJoin env parentFolder (Dirent.name object) "config.json")
        = Some configRaw
        /\ notAnObject configRaw = true) ->
  candidateOutcome env parentFolder (Dirent.name object) = Ok Failure
  /\ processEntry env parentFolder assets0 object
     = Ok (pushFailure assets0 (Dirent.name object)).
Proof.
  intros Hcand Hcase.
  assert (candidateOutcome env parentFolder (Dirent.name object) = Ok Failure) as Ho.
  { unfold candidateOutcome.
    destruct (existsSync env _) eqn:Hex; [|reflexivity]. cbn [negb].
    destruct Hcase as [Hno | [Hnone | [configRaw [Hsome Hobj]]]].
    - discriminate.
    - now rewrite Hnone.
    - now rewrite Hsome, Hobj. }
  split; [exact Ho | now apply processEntry_rejected].
Qed.

Lemma missing_descriptor_sample :
  loadAssets Sample.noDescriptor
  = Ok {| field2ds := []; field3ds := []; robots := []; joysticks := [];
          loadFailures := ["Robot_Ghost"%string] |}
  /\ candidateOutcome Sample.noDescriptor "/user" "Robot_Ghost" = Ok Failure
  /\ processEntry Sample.noDescriptor "/user" emptyAssets (Sample.dir "Robot_Ghost")
     = Ok (pushFailure emptyAssets "Robot_Ghost").
Proof.
  split; [reflexivity|].
  apply (unreadable_descriptor_is_a_failure Sample.noDescriptor "/user" emptyAssets
           (Sample.dir "Robot_Ghost")).
  - reflexivity.
  - left. reflexivity.
Defined.

(** ** Descriptors on which nothing is raised *)

Lemma asRotations_noNull (items : list json) :
  noNull items = true -> exists r, asRotations items = Ok r.
Proof.
  induction items as [|x items IH]; simpl; intros H; [eauto|].
  apply andb_true_iff in H as [Hx Hrest].
  destruct (IH Hrest) as [r Hr]. unfold asRotation.
  destruct x as [| | | |elems|props]; try discriminate; simpl; eauto.
  destruct (assoc "axis" props) as [[| | |s| |]|]; simpl; eauto.
  destruct (if String.eqb s "x" then _ else _); simpl; eauto.
  destruct (assoc "degrees" props) as [[| |n| | |]|]; simpl; eauto.
  rewrite Hr. simpl. eauto.
Qed.

Lemma rotationsField_tame (key : string) (raw : json) :
  primitive raw = false -> rotationsTame key raw = true ->
  exists r, rotationsField key raw = Ok r.
Proof.
  unfold rotationsField, rotationsTame.
  destruct raw as [| | | |elems|props]; try discriminate; simpl; intros _ H; eauto.
  destruct (assoc key props) as [[| | | |items|]|]; eauto.
  destruct (asRotations_noNull items H) as [r ->]. simpl. eauto.
Qed.

Lemma forEachPush_total {A B : Type} (f : A -> result (option B)) (l : list A) :
  Forall (fun x => exists o, f x = Ok o) l -> exists out, forEachPush f l = Ok out.
Proof.
  induction 1 as [|x l [o Hx] Hl [out IH]]; simpl; [eauto|].
  rewrite Hx, IH. simpl. eauto.
Qed.

Lemma arrayField_tame {B : Type} (key : string) (ok : json -> bool) (raw : json)
  (build : json -> result (option B)) :
  primitive raw = false ->
  elementsTame key ok raw = true ->
  (forall item, primitive item = false -> ok item = true ->
                exists o, build item = Ok o) ->
  exists l, arrayField key raw build = Ok l.
Proof.
  unfold arrayField, elementsTame.
  destruct raw as [| | | |elems|props]; try discriminate; simpl;
    intros _ H Hbuild; eauto.
  destruct (assoc key props) as [[| | | |items|]|]; eauto.
  apply forEachPush_total. rewrite forallb_forall in H.
  apply Forall_forall. intros item Hin.
  specialize (H item Hin). apply andb_true_iff in H as [Hp Hok].
  apply negb_true_iff in Hp. now apply Hbuild.
Qed.

Ltac simple_fields :=
  unfold stringField, optionalStringField, numberField, optionalNumberField,
    booleanField, pairField, tripleField, originField, stagedObjectsField,
    sourcePovField;
  simpl.

Lemma buildGamePiece_tame (item : json) :
  primitive item = false -> rotationsTame "rotations" item = true ->
  exists o, buildGamePiece item = Ok o.
Proof.
  intros Hp Ht. destruct (rotationsField_tame "rotations" item Hp Ht) as [r Hr].
  unfold buildGamePiece. rewrite Hr.
  destruct item; try discriminate; simple_fields; eauto.
Qed.

Lemma buildCamera_tame (item : json) :
  primitive item = false -> rotationsTame "rotations" item = true ->
  exists o, buildCamera item = Ok o.
Proof.
  intros Hp Ht. destruct (rotationsField_tame "rotations" item Hp Ht) as [r Hr].
  unfold buildCamera. rewrite Hr.
  destruct item; try discriminate; simple_fields; eauto.
Qed.

Lemma buildComponent_tame (item : json) :
  primitive item = false -> rotationsTame "zeroedRotations" item = true ->
  exists o, buildComponent item = Ok o.
Proof.
  intros Hp Ht.
  destruct (rotationsField_tame "zeroedRotations" item Hp Ht) as [r Hr].
  unfold buildComponent. rewrite Hr.
  destruct item; try discriminate; simple_fields; eauto.
Qed.

Lemma buildJoystickComponent_tame (item : json) :
  primitive item = false -> exists o, buildJoystickComponent item = Ok o.
Proof.
  intros Hp. unfold buildJoystickComponent.
  destruct item as [| | | |elems|props]; try discriminate; simple_fields; eauto.
  destruct (assoc "type" props) as [[| | |type| |]|]; eauto.
  unfold buildButton, buildStick, buildAxis.
  destruct (String.eqb type "button"); [simple_fields; eauto|].
  destruct (String.eqb type "joystick"); [simple_fields; eauto|].
  destruct (String.eqb type "axis"); simple_fields; eauto.
Qed.

Lemma notAnObject_primitive (configRaw : json) :
  notAnObject configRaw = false -> primitive configRaw = false.
Proof. now destruct configRaw. Qed.

Section Tame.

Variable env : Env.

Hypothesis plain : forall parentFolder object file,
    In parentFolder (roots env) ->
    plainDrive (os env) (pathJoin env parentFolder (Dirent.name object) file).

Lemma exists_total (parentFolder : string) (object : Dirent.t) (file : string) :
  In parentFolder (roots env) ->
  Uri.decodeURIComponent
    (encodePath (os env) (pathJoin env parentFolder (Dirent.name object) file))
  = Ok (pathJoin env parentFolder (Dirent.name object) file).
Proof. intros H. apply decode_encodePath. now apply plain. Qed.

Lemma admitField2d_total (config : Config2d.t) :
  (exists file, Uri.decodeURIComponent (Config2d.path config) = Ok file) ->
  exists ok, admitField2d env config = Ok ok.
Proof.
  intros [file Hd]. unfold admitField2d. rewrite Hd.
  match goal with |- context [if ?c then _ else _] => destruct c end; simpl; eauto.
Qed.

Lemma admitJoystick_total (config : ConfigJoystick.t) :
  (exists file, Uri.decodeURIComponent (ConfigJoystick.path config) = Ok file) ->
  exists ok, admitJoystick env config = Ok ok.
Proof.
  intros [file Hd]. unfold admitJoystick. rewrite Hd.
  match goal with |- context [if ?c then _ else _] => destruct c end; simpl; eauto.
Qed.

Lemma admitField3d_total (config : Config3dField.t) :
  (exists file, Uri.decodeURIComponent (Config3dField.path config) = Ok file) ->
  exists ok, admitField3d env config = Ok ok.
Proof.
  intros [file Hd]. unfold admitField3d.
  rewrite (modelFilesExist_eq env _ _ (Config3dField.gamePieces config) Hd).
  match goal with |- context [if ?c then _ else _] => destruct c end; eauto.
Qed.

Lemma admitRobot_total (config : Config3dRobot.t) :
  (exists file, Uri.decodeURIComponent (Config3dRobot.path config) = Ok file) ->
  exists ok, admitRobot env config = Ok ok.
Proof.
  intros [file Hd]. unfold admitRobot.
  rewrite (modelFilesExist_eq env _ _ (Config3dRobot.components config) Hd).
  match goal with |- context [if ?c then _ else _] => destruct c end; eauto.
Qed.

Lemma buildField2d_total (parentFolder objectName : string) (configRaw : json) :
  primitive configRaw = false ->
  exists config,
    buildField2d env parentFolder objectName configRaw = Ok config
    /\ Config2d.path config
       = encodePath (os env) (pathJoin env parentFolder objectName "image.png").
Proof.
  intros Hp. unfold buildField2d.
  destruct configRaw; try discriminate; simple_fields; eauto.
Qed.

Lemma buildField3d_total (parentFolder objectName : string) (configRaw : json) :
  primitive configRaw = false ->
  rotationsTame "rotations" configRaw = true ->
  elementsTame "gamePieces" (rotationsTame "rotations") configRaw = true ->
  exists config,
    buildField3d env parentFolder objectName configRaw = Ok config
    /\ Config3dField.path config
       = encodePath (os env) (pathJoin env parentFolder objectName "model.glb").
Proof.
  intros Hp Hrot Hpieces.
  destruct (rotationsField_tame "rotations" configRaw Hp Hrot) as [rs Hrs].
  destruct (arrayField_tame "gamePieces" _ configRaw buildGamePiece Hp Hpieces
              buildGamePiece_tame) as [pieces Hps].
  unfold buildField3d. rewrite Hrs, Hps.
  destruct configRaw; try discriminate;
    unfold driverStationsField; simple_fields; eauto.
Qed.

Lemma buildRobot_total (parentFolder objectName : string) (configRaw : json) :
  primitive configRaw = false ->
  rotationsTame "rotations" configRaw = true ->
  elementsTame "cameras" (rotationsTame "rotations") configRaw = true ->
  elementsTame "components" (rotationsTame "zeroedRotations") configRaw = true ->
  exists config,
    buildRobot env parentFolder objectName configRaw = Ok config
    /\ Config3dRobot.path config
       = encodePath (os env) (pathJoin env parentFolder objectName "model.glb").
Proof.
  intros Hp Hrot Hcameras Hcomponents.
  destruct (rotationsField_tame "rotations" configRaw Hp Hrot) as [rs Hrs].
  destruct (arrayField_tame "cameras" _ configRaw buildCamera Hp Hcameras
              buildCamera_tame) as [cameras Hcs].
  destruct (arrayField_tame "components" _ configRaw buildComponent Hp Hcomponents
              buildComponent_tame) as [components Hcomps].
  unfold buildRobot. rewrite Hrs, Hcs, Hcomps.
  destruct configRaw; try discriminate; simple_fields; eauto.
Qed.

Lemma buildJoystick_total (parentFolder objectName : string) (configRaw : json) :
  primitive configRaw = false ->
  elementsTame "components" (rotationsTame "zeroedRotations") configRaw = true ->
  exists config,
    buildJoystick env parentFolder objectName configRaw = Ok config
    /\ ConfigJoystick.path config
       = encodePath (os env) (pathJoin env parentFolder objectName "image.png").
Proof.
  intros Hp Hcomponents.
  assert (exists l, arrayField "components" configRaw buildJoystickComponent = Ok l)
    as [components Hcomps].
  { apply (arrayField_tame "components" (rotationsTame "zeroedRotations"));
      try assumption.
    intros item Hi _. now apply buildJoystickComponent_tame. }
  unfold buildJoystick. rewrite Hcomps.
  destruct configRaw; try discriminate; simple_fields; eauto.
Qed.

Lemma candidateOutcome_tame (parentFolder : string) (object : Dirent.t) :
  In parentFolder (roots env) ->
  (forall file configRaw, readFileSync env file = Some configRaw ->
                          tame configRaw = true) ->
  exists outcome, candidateOutcome env parentFolder (Dirent.name object) = Ok outcome.
Proof.
  intros Hroot Htame. unfold candidateOutcome.
  destruct (negb _); [eauto|].
  destruct (readFileSync env _) as [configRaw|] eqn:Hread; [|eauto].
  destruct (notAnObject configRaw) eqn:Hobj; [eauto|].
  pose proof (notAnObject_primitive _ Hobj) as Hp.
  specialize (Htame _ _ Hread). unfold tame in Htame.
  apply andb_true_iff in Htame as [Htame Hcomponents].
  apply andb_true_iff in Htame as [Htame Hcameras].
  apply andb_true_iff in Htame as [Hrot Hpieces].
  destruct (Str.startsWith (Dirent.name object) "Field2d_").
  { destruct (buildField2d_total parentFolder (Dirent.name object) configRaw Hp)
      as [config [Hb Hpath]]. rewrite Hb. cbn [bind].
    destruct (admitField2d_total config) as [ok ->];
      [rewrite Hpath; eexists; now apply exists_total|].
    simpl. eauto. }
  destruct (Str.startsWith (Dirent.name object) "Field3d_").
  { destruct (buildField3d_total parentFolder (Dirent.name object) configRaw
                Hp Hrot Hpieces) as [config [Hb Hpath]]. rewrite Hb. cbn [bind].
    destruct (admitField3d_total config) as [ok ->];
      [rewrite Hpath; eexists; now apply exists_total|].
    simpl. eauto. }
  destruct (Str.startsWith (Dirent.name object) "Robot_").
  { destruct (buildRobot_total parentFolder (Dirent.name object) configRaw
                Hp Hrot Hcameras Hcomponents) as [config [Hb Hpath]]. rewrite Hb. cbn [bind].
    destruct (admitRobot_total config) as [ok ->];
      [rewrite Hpath; eexists; now apply exists_total|].
    simpl. eauto. }
  destruct (Str.startsWith (Dirent.name object) "Joystick_"); [|eauto].
  destruct (buildJoystick_total parentFolder (Dirent.name object) configRaw
              Hp Hcomponents) as [config [Hb Hpath]]. rewrite Hb. cbn [bind].
  destruct (admitJoystick_total config) as [ok ->];
    [rewrite Hpath; eexists; now apply exists_total|].
  simpl. eauto.
Qed.

End Tame.

(** X3.  [loadAssets] returns a collection, raising nothing, when the
    preferences are read and give a string or [null] for the user folder,
    the three roots can be listed, no rotation list of a readable
    [config.json] holds [null], the elements of its [gamePieces], [cameras]
    and [components] are objects (or arrays), and no root path starts with a
    segment that ends in a colon and holds a percent sign. *)
Theorem tame_descriptors_raise_nothing (env : Env) :
  userAssetsPath env = Ok (Some (JStr (getUserAssetsPath env))) ->
  (forall root, In root (roots env) -> readdirThrows env root = None) ->
  (forall parentFolder object file,
      In parentFolder (roots env) ->
      plainDrive (os env) (pathJoin env parentFolder (Dirent.name object) file)) ->
  (forall file configRaw,
      readFileSync env file = Some configRaw -> tame configRaw = true) ->
  exists assets, loadAssets env = Ok assets.
Proof.
  intros Hprefs Hlisted Hplain Htame. unfold loadAssets.
  rewrite (scan_listed env _ Hprefs) by (now apply Forall_forall).
  assert (forall cs assets,
             (forall c, In c cs -> In (fst c) (roots env)) ->
             exists assets', forEach (candidateStep env) cs assets = Ok assets')
    as Hsteps.
  { induction cs as [|c cs IH]; intros assets Hcs; simpl; [eauto|].
    destruct (candidateOutcome_tame env Hplain (fst c) (snd c)
                (Hcs c (or_introl eq_refl)) Htame) as [o Ho].
    unfold candidateStep at 1. rewrite Ho. simpl.
    apply IH. intros c' Hc'. apply Hcs. now right. }
  destruct (Hsteps (allCandidates env) emptyAssets) as [scanned Hs].
  - intros [parentFolder object] Hc. apply allCandidates_spec in Hc. apply Hc.
  - rewrite Hs. simpl. eauto.
Qed.

Lemma tame_descriptors_sample :
  userAssetsPath Sample.completeRobot
  = Ok (Some (JStr (getUserAssetsPath Sample.completeRobot)))
  /\ (forall root, In root (roots Sample.completeRobot) ->
                   readdirThrows Sample.completeRobot root = None)
  /\ (forall parentFolder object file,
      In parentFolder (roots Sample.completeRobot) ->
      plainDrive (os Sample.completeRobot)
        (pathJoin Sample.completeRobot parentFolder (Dirent.name object) file))
  /\ (forall file configRaw,
        readFileSync Sample.completeRobot file = Some configRaw ->
        tame configRaw = true)
  /\ exists assets, loadAssets Sample.completeRobot = Ok assets.
Proof.
  assert (forall parentFolder object file,
             In parentFolder (roots Sample.completeRobot) ->
             plainDrive (os Sample.completeRobot)
               (pathJoin Sample.completeRobot parentFolder (Dirent.name object) file))
    as Hplain.
  { intros parentFolder object file [<-|[<-|[<-|[]]]];
      unfold plainDrive; simpl; discriminate. }
  assert (forall file configRaw,
             readFileSync Sample.completeRobot file = Some configRaw ->
             tame configRaw = true) as Htame.
  { intros file configRaw.
    unfold readFileSync, Sample.completeRobot, Sample.mkEnv, assoc.
    destruct (String.eqb "/user/Robot_Arm/config.json" file); [|discriminate].
    intros H. inversion H. reflexivity. }
  split; [reflexivity | split; [reflexivity|]].
  split; [exact Hplain | split; [exact Htame|]].
  exact (tame_descriptors_raise_nothing Sample.completeRobot eq_refl
           (fun root _ => eq_refl) Hplain Htame).
Defined.

(** ** The returned order does not depend on how [sort] proceeds *)

Lemma evergreenLast_irrefl (a : Config2d.t) : ~ evergreenLast a a.
Proof.
  intros [Ha [Hb|Hlt]]; [contradiction|]. rewrite Str_lt_irrefl in Hlt. discriminate.
Qed.

(** X4.  The returned 2D fields are the one arrangement of the de-duplicated
    records that puts Evergreen last and the other names in descending
    order of their code units: any sort that arranges them so returns the
    same list. *)
Theorem field2ds_order_is_determined (env : Env) (assets : AdvantageScopeAssets)
  (arranged : list Config2d.t) :
  loadAssets env = Ok assets ->
  Permutation arranged (field2ds assets) ->
  StronglySorted evergreenLast arranged ->
  arranged = field2ds assets.
Proof.
  intros Hload Hperm Hsorted.
  apply (sorted_unique evergreenLast evergreenLast_trans); try assumption.
  - exact evergreenLast_irrefl.
  - destruct (loadAssets_scan env assets Hload) as [scanned [_ ->]]. simpl.
    apply (sortBy_sorted Config2d.name compareField2d evergreenLast
             evergreenLast_trans compareField2d_evergreenLast).
    apply removeDuplicates_first.
Qed.

Lemma field2ds_order_sample :
  loadAssets Sample.threeFields = Ok Sample.threeFieldsAssets
  /\ Permutation (field2ds Sample.threeFieldsAssets)
       (field2ds Sample.threeFieldsAssets)
  /\ StronglySorted evergreenLast (field2ds Sample.threeFieldsAssets)
  /\ field2ds Sample.threeFieldsAssets = field2ds Sample.threeFieldsAssets.
Proof.
  assert (StronglySorted evergreenLast (field2ds Sample.threeFieldsAssets))
    as Hsorted.
  { simpl. repeat apply SSorted_cons; try apply SSorted_nil;
      repeat apply Forall_cons; try apply Forall_nil;
      (split; [discriminate | (left; reflexivity) || (right; reflexivity)]). }
  split; [reflexivity | split; [reflexivity | split; [exact Hsorted|]]].
  exact (field2ds_order_is_determined Sample.threeFields Sample.threeFieldsAssets
           (field2ds Sample.threeFieldsAssets) eq_refl (Permutation_refl _) Hsorted).
Defined.

(* ================================================================== *)
(** * The records of the returned collection *)

Lemma Forall2_In_r {A B : Type} (P : A -> B -> Prop) (l : list A) (l' : list B)
  (y : B) :
  Forall2 P l l' -> In y l' -> exists x, In x l /\ P x y.
Proof.
  induction 1 as [|a b l l' Hab Hrest IH]; intros Hin; [contradiction|].
  destruct Hin as [->|Hin]; [exists a; split; [now left | exact Hab]|].
  destruct (IH Hin) as [x [Hx Hp]]. exists x. split; [now right | exact Hp].
Qed.

Lemma admitField2d_valid (env : Env) (r : Config2d.t) :
  admitField2d env r = Ok true -> validField2d env r.
Proof.
  unfold admitField2d, validField2d, imageExists.
  destruct (negb _ && _ && _ && _ && _ && _ && _) eqn:E; [|discriminate].
  repeat (apply andb_true_iff in E as [E ?]).
  rewrite fileExists_iff.
  rewrite <- !ge0_iff, <- !gt0_iff, <- nonempty_iff. intuition.
Qed.

Lemma modelFilesExist_valid (env : Env) {A : Type} (path : string) (parts : list A) :
  modelFilesExist env path parts = Ok true ->
  modelsExist env path (List.length parts).
Proof.
  intros H. assert (H' := H). unfold modelFilesExist in H'.
  apply bind_ok in H' as [model [Hd _]].
  exists model. split; [exact Hd|].
  now apply (proj1 (modelFilesExist_iff env path model parts Hd)).
Qed.

Lemma admitField3d_valid (env : Env) (r : Config3dField.t) :
  admitField3d env r = Ok true -> validField3d env r.
Proof.
  unfold admitField3d, validField3d.
  destruct (negb _ && _ && _) eqn:E; [|discriminate].
  repeat (apply andb_true_iff in E as [E ?]).
  intros Hm. apply modelFilesExist_valid in Hm.
  rewrite <- !gt0_iff, <- nonempty_iff. intuition.
Qed.

Lemma admitRobot_valid (env : Env) (r : Config3dRobot.t) :
  admitRobot env r = Ok true -> validRobot env r.
Proof.
  unfold admitRobot, validRobot.
  destruct (negb _ && _) eqn:E; [|discriminate].
  apply andb_true_iff in E as [E Hcameras].
  intros Hm. apply modelFilesExist_valid in Hm.
  rewrite <- nonempty_iff. repeat split; try assumption.
  rewrite forallb_forall in Hcameras. apply Forall_forall.
  intros camera Hin. apply nonempty_iff. now apply Hcameras.
Qed.

Lemma candidateOutcome_passed (env : Env) (parentFolder objectName : string)
  (outcome : Outcome) :
  candidateOutcome env parentFolder objectName = Ok outcome -> passed env outcome.
Proof.
  unfold candidateOutcome.
  destruct (negb _); [intros H; inversion H; exact I|].
  destruct (readFileSync env _) as [configRaw|]; [|intros H; inversion H; exact I].
  destruct (notAnObject configRaw); [intros H; inversion H; exact I|].
  repeat match goal with
         | |- context [if Str.startsWith ?n ?p then _ else _] =>
             destruct (Str.startsWith n p)
         end;
    try (intros H; inversion H; exact I);
    intros H; apply bind_ok in H as [config [_ H]];
    apply bind_ok in H as [ok [Hok H]]; inversion H; subst; clear H;
    (destruct ok; [|exact I]); simpl.
  - now apply admitField2d_valid.
  - now apply admitField3d_valid.
  - now apply admitRobot_valid.
  - apply admitJoystick_iff in Hok. exact Hok.
Qed.

Lemma In_removeDuplicates {A : Type} (name : A -> string) (l : list A) (r : A) :
  In r (removeDuplicates name l) -> In r l.
Proof.
  intros H. apply (removeDuplicates_first name) in H.
  unfold firstNamed in H. now apply find_some in H as [H _].
Qed.

Lemma In_sorted_unique {A : Type} (name : A -> string) (compare : A -> A -> Z)
  (l : list A) (r : A) :
  In r (sortBy compare (removeDuplicates name l)) -> In r l.
Proof.
  intros H. apply (In_removeDuplicates name).
  eapply Permutation_in; [apply sortBy_perm | exact H].
Qed.

Lemma In_outcomes (env : Env) (outcomes : list Outcome) (o : Outcome) :
  outcomesOf env (allCandidates env) outcomes ->
  In o outcomes ->
  exists parentFolder object,
    In parentFolder (roots env)
    /\ In object (readdirSync env parentFolder)
    /\ isCandidate object = true
    /\ candidateOutcome env parentFolder (Dirent.name object) = Ok o.
Proof.
  intros Hout Hin.
  destruct (Forall2_In_r _ _ _ _ Hout Hin) as [[parentFolder object] [Hc Ho]].
  apply allCandidates_spec in Hc as [Hroot [Hdir Hcand]].
  exists parentFolder, object. repeat split; assumption.
Qed.

(** X5.  Every record of the returned collection satisfies the acceptance
    invariant of its kind, files included. *)
Theorem returned_records_are_valid (env : Env) (assets : AdvantageScopeAssets) :
  loadAssets env = Ok assets ->
  Forall (validField2d env) (field2ds assets)
  /\ Forall (validField3d env) (field3ds assets)
  /\ Forall (validRobot env) (robots assets)
  /\ Forall (validJoystick env) (joysticks assets).
Proof.
  intros Hload.
  destruct (loadAssets_scan env assets Hload) as [scanned [Hscan ->]].
  destruct (scan_accounts env scanned Hscan) as [outcomes [Hout [H2 [H3 [Hr [Hj _]]]]]].
  assert (Hpassed : forall o, In o outcomes -> passed env o).
  { intros o Hin.
    destruct (In_outcomes env outcomes o Hout Hin) as [p [object [_ [_ [_ Ho]]]]].
    exact (candidateOutcome_passed env _ _ _ Ho). }
  simpl. repeat split; apply Forall_forall; intros r Hin;
    apply In_sorted_unique in Hin.
  - rewrite H2 in Hin. apply in_flat_map in Hin as [o [Ho Hin]].
    destruct o; try contradiction. destruct Hin as [->|[]]. exact (Hpassed _ Ho).
  - rewrite H3 in Hin. apply in_flat_map in Hin as [o [Ho Hin]].
    destruct o; try contradiction. destruct Hin as [->|[]]. exact (Hpassed _ Ho).
  - rewrite Hr in Hin. apply in_flat_map in Hin as [o [Ho Hin]].
    destruct o; try contradiction. destruct Hin as [->|[]]. exact (Hpassed _ Ho).
  - rewrite Hj in Hin. apply in_flat_map in Hin as [o [Ho Hin]].
    destruct o; try contradiction. destruct Hin as [->|[]]. exact (Hpassed _ Ho).
Qed.

Lemma returned_records_sample :
  loadAssets Sample.completeRobot
  = Ok {| field2ds := []; field3ds := []; robots := [Sample.armRobot];
          joysticks := []; loadFailures := [] |}
  /\ Forall (validRobot Sample.completeRobot) [Sample.armRobot].
Proof.
  split; [reflexivity|].
  apply (returned_records_are_valid Sample.completeRobot
           {| field2ds := []; field3ds := []; robots := [Sample.armRobot];
              joysticks := []; loadFailures := [] |}).
  reflexivity.
Defined.

(* ================================================================== *)
(** * Orders that the comparison functions give *)

Section Ordered.

Context {A : Type}.
Variable compare : A -> A -> Z.

Hypothesis compare_trans : forall a b c,
    (compare a b <= 0)%Z -> (compare b c <= 0)%Z -> (compare a c <= 0)%Z.
Hypothesis compare_total : forall a b, (compare a b > 0)%Z -> (compare b a <= 0)%Z.

Lemma insertBy_ordered (x : A) (l : list A) :
  StronglySorted (fun a b => (compare a b <= 0)%Z) l ->
  StronglySorted (fun a b => (compare a b <= 0)%Z) (insertBy compare x l).
Proof.
  induction l as [|y l IH]; intros Hs; simpl; [repeat constructor|].
  apply StronglySorted_inv in Hs as [Hl Hy].
  destruct (compare x y <=? 0)%Z eqn:E.
  - apply Z.leb_le in E. constructor; [now constructor|].
    constructor; [exact E|].
    eapply Forall_impl; [|exact Hy]. intros z Hz. exact (compare_trans _ _ _ E Hz).
  - apply Z.leb_gt in E. constructor; [now apply IH|].
    eapply Permutation_Forall; [symmetry; apply insertBy_perm|].
    constructor; [apply compare_total; lia | exact Hy].
Qed.

Lemma sortBy_ordered (l : list A) :
  StronglySorted (fun a b => (compare a b <= 0)%Z) (sortBy compare l).
Proof.
  induction l as [|x l IH]; simpl; [constructor | now apply insertBy_ordered].
Qed.

End Ordered.

Lemma StronglySorted_filter {A : Type} (R : A -> A -> Prop) (p : A -> bool)
  (l : list A) :
  StronglySorted R l -> StronglySorted R (filter p l).
Proof.
  induction 1 as [|x l Hl IH Hx]; simpl; [constructor|].
  destruct (p x); [|exact IH].
  constructor; [exact IH|].
  apply Forall_forall. intros y Hy. apply filter_In in Hy as [Hy _].
  rewrite Forall_forall in Hx. now apply Hx.
Qed.

Lemma compareEntries_le (a b : Dirent.t) :
  (compareEntries a b <= 0)%Z <-> Str.lt (Dirent.name a) (Dirent.name b) = false.
Proof.
  unfold compareEntries.
  destruct (Str.lt (Dirent.name a) (Dirent.name b)); [split; [lia | discriminate]|].
  destruct (Str.lt (Dirent.name b) (Dirent.name a)); split; reflexivity || lia.
Qed.

Lemma candidates_descending (env : Env) (parentFolder : string) :
  StronglySorted
    (fun a b => Str.lt (Dirent.name a) (Dirent.name b) = false)
    (candidates env parentFolder).
Proof.
  unfold candidates. apply StronglySorted_filter.
  assert (H : StronglySorted (fun a b => (compareEntries a b <= 0)%Z)
                (sortBy compareEntries (readdirSync env parentFolder))).
  { apply sortBy_ordered.
    - intros a b c. rewrite !compareEntries_le. apply Str_ge_trans.
    - intros a b Hab. apply compareEntries_le.
      destruct (Str.lt (Dirent.name b) (Dirent.name a)) eqn:E; [|reflexivity].
      exfalso. assert (Str.lt (Dirent.name a) (Dirent.name b) = false) as Hn.
      { now apply Str_lt_asym. }
      apply compareEntries_le in Hn. lia. }
  induction H as [|x l Hl IH Hx]; constructor; [exact IH|].
  eapply Forall_impl; [|exact Hx]. intros y. apply compareEntries_le.
Qed.

Lemma compareOrdinal_consistent : consistent Sample.compareOrdinal.
Proof.
  unfold consistent, Sample.compareOrdinal. split.
  - intros a b c Hab Hbc.
    destruct (String.compare a b) eqn:Eab; try lia.
    + apply String.compare_eq_iff in Eab. now subst.
    + destruct (String.compare b c) eqn:Ebc; try lia.
      * apply String.compare_eq_iff in Ebc. subst. now rewrite Eab.
      * now rewrite (compare_lt_trans _ _ _ Eab Ebc).
  - intros a b Hab. rewrite (String.compare_antisym b a).
    destruct (String.compare a b); simpl in *; lia.
Qed.

(** X6.  When the locale comparison orders the strings, the returned robots
    are in ascending order of name under it and so are the returned load
    failures. *)
Theorem robots_and_failures_ascending (env : Env) (assets : AdvantageScopeAssets) :
  consistent (localeCompareNumeric env) ->
  loadAssets env = Ok assets ->
  StronglySorted
    (fun a b => (localeCompareNumeric env (Config3dRobot.name a) (Config3dRobot.name b)
                 <= 0)%Z)
    (robots assets)
  /\ StronglySorted (fun a b => (localeCompareNumeric env a b <= 0)%Z)
       (loadFailures assets).
Proof.
  intros [Htrans Htotal] Hload.
  destruct (loadAssets_scan env assets Hload) as [scanned [_ ->]]. simpl.
  split.
  - apply (sortBy_ordered
             (fun a b => localeCompareNumeric env (Config3dRobot.name a)
                           (Config3dRobot.name b))).
    + intros a b c. apply Htrans.
    + intros a b. apply Htotal.
  - apply sortBy_ordered; assumption.
Qed.

Lemma failures_ascending_sample :
  consistent (localeCompareNumeric Sample.twoFailures)
  /\ loadAssets Sample.twoFailures
     = Ok {| field2ds := []; field3ds := []; robots := []; joysticks := [];
             loadFailures := ["Robot_A"; "Robot_B"]%string |}
  /\ StronglySorted (fun a b => (Sample.compareOrdinal a b <= 0)%Z)
       ["Robot_A"; "Robot_B"]%string.
Proof.
  split; [exact compareOrdinal_consistent|].
  split; [reflexivity|].
  apply (robots_and_failures_ascending Sample.twoFailures
           {| field2ds := []; field3ds := []; robots := []; joysticks := [];
              loadFailures := ["Robot_A"; "Robot_B"]%string |}).
  - exact compareOrdinal_consistent.
  - reflexivity.
Defined.

(* ================================================================== *)
(** * The load failures *)

Lemma failedNames_inv (env : Env) (cs : list (string * Dirent.t))
  (outcomes : list Outcome) (n : string) :
  outcomesOf env cs outcomes ->
  In n (failedNames cs outcomes) ->
  exists c, In c cs /\ Dirent.name (snd c) = n
            /\ candidateOutcome env (fst c) n = Ok Failure.
Proof.
  induction 1 as [|c o cs os Ho Hrest IH]; simpl; [contradiction|].
  destruct o; simpl; intros Hin;
    try (destruct (IH Hin) as [c' [Hc' H']]; exists c'; split; [now right | exact H']).
  destruct Hin as [Hn|Hin].
  - exists c. subst n. split; [now left | split; [reflexivity | exact Ho]].
  - destruct (IH Hin) as [c' [Hc' H']]. exists c'. split; [now right | exact H'].
Qed.

(** X7.  Every name among the returned load failures is the name of a
    directory of one of the three roots that is not hidden and that was not
    admitted: no file and no hidden entry is ever reported. *)
Theorem failures_are_rejected_candidates (env : Env) (assets : AdvantageScopeAssets)
  (name : string) :
  loadAssets env = Ok assets ->
  In name (loadFailures assets) ->
  Str.startsWith name "." = false
  /\ exists parentFolder object,
       In parentFolder (roots env)
       /\ In object (readdirSync env parentFolder)
       /\ Dirent.isDirectory object = true
       /\ Dirent.name object = name
       /\ candidateOutcome env parentFolder name = Ok Failure.
Proof.
  intros Hload Hin.
  destruct (loadAssets_scan env assets Hload) as [scanned [Hscan ->]].
  destruct (scan_accounts env scanned Hscan) as [outcomes [Hout [_ [_ [_ [_ Hf]]]]]].
  simpl in Hin.
  assert (In name (failedNames (allCandidates env) outcomes)) as Hn.
  { eapply Permutation_in; [exact Hf|].
    eapply Permutation_in; [apply sortBy_perm | exact Hin]. }
  destruct (failedNames_inv env _ _ _ Hout Hn) as [[parentFolder object] [Hc [Hname Ho]]].
  apply allCandidates_spec in Hc as [Hroot [Hdir Hcand]].
  simpl in Hname, Ho. unfold isCandidate in Hcand.
  apply andb_true_iff in Hcand as [Hd Hh]. apply negb_true_iff in Hh.
  rewrite Hname in Hh. split; [exact Hh|].
  exists parentFolder, object. repeat split; assumption.
Qed.

Lemma failures_are_rejected_candidates_sample :
  In "Notes"%string
    (loadFailures {| field2ds := []; field3ds := []; robots := []; joysticks := [];
                     loadFailures := ["Notes"%string] |})
  /\ Str.startsWith "Notes" "." = false
  /\ exists parentFolder object,
       In parentFolder (roots Sample.unclassified)
       /\ In object (readdirSync Sample.unclassified parentFolder)
       /\ Dirent.isDirectory object = true
       /\ Dirent.name object = "Notes"%string
       /\ candidateOutcome Sample.unclassified parentFolder "Notes" = Ok Failure.
Proof.
  split; [now left|].
  apply (failures_are_rejected_candidates Sample.unclassified
           {| field2ds := []; field3ds := []; robots := []; joysticks := [];
              loadFailures := ["Notes"%string] |}).
  - reflexivity.
  - now left.
Defined.

(* ================================================================== *)
(** * Two folders of one root under one display name *)

Section Greatest.

Context {A : Type}.
Variable wrap : A -> Outcome.
Variable proj : Outcome -> list A.
Variable name : A -> string.
Variable env : Env.
Variable parentFolder : string.

Hypothesis proj_wrap : forall r, proj (wrap r) = [r].
Hypothesis proj_In : forall o r, In r (proj o) -> o = wrap r.

Lemma first_from_greatest (cs : list Dirent.t) (outcomes : list Outcome)
  (n : string) (r : A) :
  StronglySorted (fun a b => Str.lt (Dirent.name a) (Dirent.name b) = false) cs ->
  Forall2 (fun c o => candidateOutcome env parentFolder (Dirent.name c) = Ok o)
    cs outcomes ->
  firstNamed name n (flat_map proj outcomes) = Some r ->
  exists winner,
    In winner cs
    /\ admittedAs wrap env parentFolder winner r
    /\ forall other r',
         In other cs ->
         admittedAs wrap env parentFolder other r' ->
         name r' = name r ->
         Str.lt (Dirent.name winner) (Dirent.name other) = false.
Proof.
  intros Hs Hout. revert Hs.
  induction Hout as [|c o cs os Ho Hrest IH]; intros Hs Hfirst; [discriminate|].
  apply StronglySorted_inv in Hs as [Hs Hc].
  assert (Hn : name r = n).
  { unfold firstNamed in Hfirst. apply find_some in Hfirst as [_ Hfirst].
    now apply String.eqb_eq in Hfirst. }
  simpl in Hfirst.
  destruct (proj o) as [|r0 rest] eqn:Ep.
  - simpl in Hfirst. destruct (IH Hs Hfirst) as [winner [Hw [Hr Hothers]]].
    exists winner. split; [now right|]. split; [exact Hr|].
    intros other r' [<-|Hin] Hadm Hname; [|now apply (Hothers other r')].
    unfold admittedAs in Hadm. rewrite Ho in Hadm. inversion Hadm; subst.
    now rewrite proj_wrap in Ep.
  - assert (o = wrap r0) as -> by (apply proj_In; rewrite Ep; now left).
    rewrite proj_wrap in Ep. inversion Ep; subst rest. clear Ep.
    unfold firstNamed in Hfirst. simpl in Hfirst.
    destruct (String.eqb (name r0) n) eqn:E.
    + inversion Hfirst; subst r0. exists c. split; [now left|].
      split; [exact Ho|].
      intros other r' [<-|Hin] _ _; [apply Str_lt_irrefl|].
      rewrite Forall_forall in Hc. now apply Hc.
    + destruct (IH Hs Hfirst) as [winner [Hw [Hr Hothers]]].
      exists winner. split; [now right|]. split; [exact Hr|].
      intros other r' [<-|Hin] Hadm Hname; [|now apply (Hothers other r')].
      unfold admittedAs in Hadm. rewrite Ho in Hadm. inversion Hadm as [Hw'].
      apply (f_equal proj) in Hw'. rewrite !proj_wrap in Hw'. inversion Hw'; subst r'.
      rewrite Hname, Hn in E. now rewrite String.eqb_refl in E.
Qed.

End Greatest.

Lemma scanFolder_outcomes (env : Env) (parentFolder : string)
  (alone : AdvantageScopeAssets) :
  scanFolder env emptyAssets parentFolder = Ok alone ->
  exists outcomes,
    Forall2 (fun c o => candidateOutcome env parentFolder (Dirent.name c) = Ok o)
      (candidates env parentFolder) outcomes
    /\ field2ds alone = flat_map field2dOf outcomes
    /\ field3ds alone = flat_map field3dOf outcomes
    /\ robots alone = flat_map robotOf outcomes
    /\ joysticks alone = flat_map joystickOf outcomes.
Proof.
  intros H. rewrite (scanFolder_candidates env _ _ (scanFolder_listed env _ _ _ H)) in H.
  destruct (candidateSteps_outcomes env _ _ _ H)
    as [outcomes [Hout [H2 [H3 [Hr [Hj _]]]]]].
  exists outcomes. simpl in *. repeat split; try assumption.
  clear - Hout. unfold outcomesOf in Hout.
  remember (map (pair parentFolder) (candidates env parentFolder)) as cs eqn:Ecs.
  revert Ecs. generalize (candidates env parentFolder) as l.
  induction Hout as [|c o cs os Ho Hrest IH]; intros l Ecs;
    destruct l as [|d l]; try discriminate; [constructor|].
  inversion Ecs; subst. constructor; [exact Ho | now apply IH].
Qed.

(** X8.  Within one root the folders are visited from the greatest name to
    the least, in the order of [<] on strings (by UTF-16 code units).  The
    record a root offers under a display name (the first of
    that name in its list, which the removal of duplicates keeps when no
    root of higher priority has one) comes from the folder of the greatest
    name among the folders of the root admitted under that display name. *)
Theorem greatest_folder_wins_within_a_root (env : Env) (parentFolder : string)
  (alone : AdvantageScopeAssets) :
  scanFolder env emptyAssets parentFolder = Ok alone ->
  StronglySorted (fun a b => Str.lt (Dirent.name a) (Dirent.name b) = false)
    (candidates env parentFolder)
  /\ (forall n r, firstNamed Config2d.name n (field2ds alone) = Some r ->
        fromGreatestFolder Field2d Config2d.name env parentFolder r)
  /\ (forall n r, firstNamed Config3dField.name n (field3ds alone) = Some r ->
        fromGreatestFolder Field3d Config3dField.name env parentFolder r)
  /\ (forall n r, firstNamed Config3dRobot.name n (robots alone) = Some r ->
        fromGreatestFolder Robot Config3dRobot.name env parentFolder r)
  /\ (forall n r, firstNamed ConfigJoystick.name n (joysticks alone) = Some r ->
        fromGreatestFolder Joystick ConfigJoystick.name env parentFolder r).
Proof.
  intros Hscan.
  destruct (scanFolder_outcomes env parentFolder alone Hscan)
    as [outcomes [Hout [H2 [H3 [Hr Hj]]]]].
  assert (Hs := candidates_descending env parentFolder).
  split; [exact Hs|].
  repeat split; intros n r Hfirst; unfold fromGreatestFolder.
  - rewrite H2 in Hfirst.
    apply (first_from_greatest Field2d field2dOf Config2d.name env parentFolder)
      with (outcomes := outcomes) (n := n); try assumption.
    + reflexivity.
    + intros o r0 Hin. destruct o; try contradiction. now destruct Hin as [->|[]].
  - rewrite H3 in Hfirst.
    apply (first_from_greatest Field3d field3dOf Config3dField.name env parentFolder)
      with (outcomes := outcomes) (n := n); try assumption.
    + reflexivity.
    + intros o r0 Hin. destruct o; try contradiction. now destruct Hin as [->|[]].
  - rewrite Hr in Hfirst.
    apply (first_from_greatest Robot robotOf Config3dRobot.name env parentFolder)
      with (outcomes := outcomes) (n := n); try assumption.
    + reflexivity.
    + intros o r0 Hin. destruct o; try contradiction. now destruct Hin as [->|[]].
  - rewrite Hj in Hfirst.
    apply (first_from_greatest Joystick joystickOf ConfigJoystick.name env parentFolder)
      with (outcomes := outcomes) (n := n); try assumption.
    + reflexivity.
    + intros o r0 Hin. destruct o; try contradiction. now destruct Hin as [->|[]].
Qed.

Lemma greatest_folder_wins_sample :
  scanFolder Sample.twoVersions emptyAssets "/user"
  = Ok {| field2ds := [Sample.userField2d "Crescendo" "Field2d_2025";
                       Sample.userField2d "Crescendo" "Field2d_2024"];
          field3ds := []; robots := []; joysticks := []; loadFailures := [] |}
  /\ fromGreatestFolder Field2d Config2d.name Sample.twoVersions "/user"
       (Sample.userField2d "Crescendo" "Field2d_2025").
Proof.
  split; [reflexivity|].
  apply (proj1 (proj2 (greatest_folder_wins_within_a_root Sample.twoVersions "/user"
           {| field2ds := [Sample.userField2d "Crescendo" "Field2d_2025";
                           Sample.userField2d "Crescendo" "Field2d_2024"];
              field3ds := []; robots := []; joysticks := []; loadFailures := [] |}
           eq_refl)) "Crescendo"%string).
  reflexivity.
Defined.

(* ================================================================== *)
(** * The parts of a 3D record and the elements of its descriptor *)

Lemma forEachPush_Forall2 {A B : Type} (f : A -> result (option B)) (l : list A)
  (out : list B) :
  (forall x o, f x = Ok o -> o <> None) ->
  forEachPush f l = Ok out ->
  Forall2 (fun x b => f x = Ok (Some b)) l out.
Proof.
  intros Hsome. revert out; induction l as [|x l IH]; intros out H; simpl in H.
  - inversion H. constructor.
  - apply bind_ok in H as [o [Ho H]]. apply bind_ok in H as [rest [Hrest H]].
    inversion H; subst; clear H.
    destruct o as [b|]; [|now destruct (Hsome x None Ho)].
    constructor; [exact Ho | now apply IH].
Qed.

Lemma forEachPush_length {A B : Type} (f : A -> result (option B)) (l : list A)
  (out : list B) :
  forEachPush f l = Ok out -> List.length out <= List.length l.
Proof.
  revert out; induction l as [|x l IH]; intros out H; simpl in H.
  - inversion H. reflexivity.
  - apply bind_ok in H as [o [Ho H]]. apply bind_ok in H as [rest [Hrest H]].
    inversion H; subst; clear H. specialize (IH rest Hrest).
    destruct o; simpl; lia.
Qed.

Lemma buildGamePiece_some (item : json) (o : option Config3dField_GamePiece.t) :
  buildGamePiece item = Ok o -> o <> None.
Proof. unfold buildGamePiece. intros H. now invert_build H. Qed.

Lemma buildCamera_some (item : json) (o : option Config3dRobot_Camera.t) :
  buildCamera item = Ok o -> o <> None.
Proof. unfold buildCamera. intros H. now invert_build H. Qed.

Lemma buildComponent_some (item : json) (o : option Config3dRobot_Component.t) :
  buildComponent item = Ok o -> o <> None.
Proof. unfold buildComponent. intros H. now invert_build H. Qed.

Lemma arrayField_items {B : Type} (key : string) (configRaw : json)
  (build : json -> result (option B)) (items : list json) (out : list B) :
  field key configRaw = Ok (Some (JArr items)) ->
  arrayField key configRaw build = Ok out ->
  forEachPush build items = Ok out.
Proof. unfold arrayField. intros ->. simpl. auto. Qed.

Ltac open_build H :=
  repeat match type of H with
         | bind _ _ = Ok _ => apply bind_ok in H as [? [? H]]
         end;
  inversion H; subst; clear H; simpl.

(** X9.  The game pieces of a 3D field, the components of a robot and its
    cameras are built one for one, in order, from the elements of the
    arrays of the descriptor: part [i], which goes with the auxiliary model
    of index [i], comes from element [i], and none is dropped.  Of the
    components of a joystick some may be dropped. *)
Theorem parts_follow_the_descriptor (env : Env) (parentFolder objectName : string)
  (configRaw : json) (items : list json) :
  (forall config,
      buildField3d env parentFolder objectName configRaw = Ok config ->
      field "gamePieces" configRaw = Ok (Some (JArr items)) ->
      Forall2 (fun item piece => buildGamePiece item = Ok (Some piece))
        items (Config3dField.gamePieces config))
  /\ (forall config,
        buildRobot env parentFolder objectName configRaw = Ok config ->
        field "components" configRaw = Ok (Some (JArr items)) ->
        Forall2 (fun item component => buildComponent item = Ok (Some component))
          items (Config3dRobot.components config))
  /\ (forall config,
        buildRobot env parentFolder objectName configRaw = Ok config ->
        field "cameras" configRaw = Ok (Some (JArr items)) ->
        Forall2 (fun item camera => buildCamera item = Ok (Some camera))
          items (Config3dRobot.cameras config))
  /\ (forall config,
        buildJoystick env parentFolder objectName configRaw = Ok config ->
        field "components" configRaw = Ok (Some (JArr items)) ->
        List.length (ConfigJoystick.components config) <= List.length items)
  /\ (forall config model,
        buildRobot env parentFolder objectName configRaw = Ok config ->
        field "components" configRaw = Ok (Some (JArr items)) ->
        Uri.decodeURIComponent (Config3dRobot.path config) = Ok model ->
        (modelFilesExist env (Config3dRobot.path config) (Config3dRobot.components config)
         = Ok true
         <-> existsSync env model = true
             /\ forall index, index < List.length items ->
                  existsSync env (auxiliaryFile model index) = true)).
Proof.
  assert (Hrobot : forall config,
             buildRobot env parentFolder objectName configRaw = Ok config ->
             field "components" configRaw = Ok (Some (JArr items)) ->
             Forall2 (fun item component => buildComponent item = Ok (Some component))
               items (Config3dRobot.components config)).
  { intros config H Hf. unfold buildRobot in H. open_build H.
    apply forEachPush_Forall2; [exact buildComponent_some|].
    eapply arrayField_items; eassumption. }
  split; [|split; [exact Hrobot | split; [|split]]].
  - intros config H Hf. unfold buildField3d in H. open_build H.
    apply forEachPush_Forall2; [exact buildGamePiece_some|].
    eapply arrayField_items; eassumption.
  - intros config H Hf. unfold buildRobot in H. open_build H.
    apply forEachPush_Forall2; [exact buildCamera_some|].
    eapply arrayField_items; eassumption.
  - intros config H Hf. unfold buildJoystick in H. open_build H.
    eapply forEachPush_length. eapply arrayField_items; eassumption.
  - intros config model H Hf Hd.
    rewrite (Forall2_length (Hrobot config H Hf)).
    exact (proj1 (modelFilesExist_iff env _ model _ Hd)).
Qed.

Lemma parts_follow_the_descriptor_sample :
  buildRobot Sample.completeRobot "/user" "Robot_Arm" Sample.robotJson
  = Ok Sample.armRobot
  /\ Forall2 (fun item component => buildComponent item = Ok (Some component))
       [JObj []; JObj []] (Config3dRobot.components Sample.armRobot).
Proof.
  split; [reflexivity|].
  apply (proj1 (proj2 (parts_follow_the_descriptor Sample.completeRobot
                         "/user" "Robot_Arm" Sample.robotJson [JObj []; JObj []]))
           Sample.armRobot); reflexivity.
Defined.

(* ================================================================== *)
(** * The file that the existence check looks at *)

Lemma plainDrive_absolute (pathStr : string) :
  Str.startsWith pathStr "/" = true -> plainDrive posix pathStr.
Proof.
  unfold Str.startsWith. intros H. apply prefix_app in H as [b ->].
  unfold plainDrive. simpl. discriminate.
Qed.

(** X10.  [loadAssets] decodes the whole encoded path at once before it
    asks whether the file exists.  This gives back the path that was
    encoded, so that the file looked for is the one of the candidate's
    folder, unless the path starts with a segment that ends in a colon and
    holds a percent sign: such a segment is left as it is by [encodePath]
    and the decoding changes it or raises [URIError].  A POSIX path that
    starts at the root is always given back. *)
Theorem whole_path_decodes_back (env : Env) (pathStr : string) :
  plainDrive (os env) pathStr ->
  Uri.decodeURIComponent (encodePath (os env) pathStr) = Ok pathStr
  /\ (imageExists env (encodePath (os env) pathStr) <-> existsSync env pathStr = true)
  /\ (forall parts,
        modelsExist env (encodePath (os env) pathStr) parts
        <-> existsSync env pathStr = true
            /\ forall index, index < parts ->
                 existsSync env (auxiliaryFile pathStr index) = true)
  /\ (forall absolute, Str.startsWith absolute "/" = true -> plainDrive posix absolute)
  /\ Uri.decodeURIComponent (encodePath posix "50%:/image.png") = Throw URIError
  /\ Uri.decodeURIComponent (encodePath posix "%41:/image.png") = Ok "A:/image.png"%string.
Proof.
  intros Hplain. assert (Hd := decode_encodePath _ _ Hplain).
  split; [exact Hd|]. split; [|split; [|split; [|split]]].
  - unfold imageExists. rewrite Hd. split.
    + intros [file [Heq He]]. now inversion Heq; subst.
    + intros He. now exists pathStr.
  - intros parts. unfold modelsExist. rewrite Hd. split.
    + intros [model [Heq He]]. now inversion Heq; subst.
    + intros He. now exists pathStr.
  - exact plainDrive_absolute.
  - reflexivity.
  - reflexivity.
Qed.

Lemma whole_path_decodes_back_sample :
  plainDrive (os Sample.completeRobot) "/user/Robot Arm #1/model.glb"
  /\ Uri.decodeURIComponent
       (encodePath (os Sample.completeRobot) "/user/Robot Arm #1/model.glb")
     = Ok "/user/Robot Arm #1/model.glb"%string.
Proof.
  split; [discriminate|].
  apply (whole_path_decodes_back Sample.completeRobot "/user/Robot Arm #1/model.glb").
  discriminate.
Defined.

(* ================================================================== *)
(** * The file system model *)

Lemma getEntry_setEntry {A : Type} (k name : string) (v : A)
  (es : list (string * A)) :
  Fs.getEntry k (Fs.setEntry name v es)
  = if String.eqb name k then Some v else Fs.getEntry k es.
Proof.
  induction es as [|[k0 v0] es IH]; simpl; [reflexivity|].
  destruct (String.eqb k0 name) eqn:E1; simpl.
  - apply String.eqb_eq in E1. subst k0. now destruct (String.eqb name k).
  - rewrite IH. destruct (String.eqb k0 k) eqn:E2; [|reflexivity].
    apply String.eqb_eq in E2. subst k0. now rewrite String.eqb_sym, E1.
Qed.

Lemma getEntry_removeEntry {A : Type} (k name : string) (es : list (string * A)) :
  Fs.getEntry k (Fs.removeEntry name es)
  = if String.eqb name k then None else Fs.getEntry k es.
Proof.
  induction es as [|[k0 v0] es IH]; simpl; [now destruct (String.eqb name k)|].
  destruct (String.eqb k0 name) eqn:E1; simpl.
  - apply String.eqb_eq in E1. subst k0. rewrite IH.
    now destruct (String.eqb name k).
  - rewrite IH. destruct (String.eqb k0 k) eqn:E2; [|reflexivity].
    apply String.eqb_eq in E2. subst k0. now rewrite String.eqb_sym, E1.
Qed.

Lemma setEntry_same {A : Type} (name : string) (v : A) (es : list (string * A)) :
  Fs.getEntry name es = Some v -> Fs.setEntry name v es = es.
Proof.
  induction es as [|[k0 v0] es IH]; simpl; [discriminate|].
  destruct (String.eqb k0 name); intros H; [now inversion H | now rewrite IH].
Qed.

Lemma lookup_app (p q : list string) (disk : Fs.node) :
  Fs.lookup (p ++ q) disk
  = match Fs.lookup p disk with
    | Some n => Fs.lookup q n
    | None => None
    end.
Proof.
  revert disk; induction p as [|name p IH]; intros disk; simpl; [reflexivity|].
  destruct disk as [data|es]; [reflexivity|].
  destruct (Fs.getEntry name es); [apply IH | reflexivity].
Qed.

Lemma lookup_below_file (p : list string) (disk : Fs.node) :
  p <> [] ->
  leaf disk -> Fs.lookup p disk = None.
Proof.
  destruct p as [|name p]; [congruence|]. intros _.
  destruct disk as [data|[|e es]]; simpl; intros H; try reflexivity. contradiction.
Qed.

Lemma stat_root_dir (es : list (string * Fs.node)) :
  Fs.stat [] (Fs.Dir es) = Some Fs.IsDir.
Proof. reflexivity. Qed.

Lemma stat_set_other (p q : list string) (v : Fs.node) (disk : Fs.node) :
  q <> p -> leaf v -> vacant p disk ->
  Fs.stat q (Fs.set p v disk) = Fs.stat q disk.
Proof.
  intros Hne Hleaf. revert q disk Hne.
  induction p as [|name rest IH]; intros q disk Hne Hv.
  - simpl. unfold vacant in Hv. simpl in Hv.
    destruct disk as [data|es]; [|contradiction].
    unfold Fs.stat. rewrite (lookup_below_file q v Hne Hleaf).
    now rewrite (lookup_below_file q (Fs.File data) Hne I).
  - destruct disk as [data|es]; [reflexivity|].
    destruct q as [|k q'].
    + simpl. destruct rest; [reflexivity|].
      now destruct (Fs.getEntry name es).
    + unfold vacant in Hv. simpl in Hv. simpl.
      destruct rest as [|r0 r'].
      * unfold Fs.stat. simpl. rewrite getEntry_setEntry.
        destruct (String.eqb name k) eqn:E; [|reflexivity].
        apply String.eqb_eq in E. subst k.
        assert (q' <> []) as Hq by (intros ->; now apply Hne).
        rewrite (lookup_below_file q' v Hq Hleaf).
        destruct (Fs.getEntry name es) as [child|]; [|reflexivity].
        simpl in Hv. destruct child as [data|]; [|contradiction].
        now rewrite (lookup_below_file q' (Fs.File data) Hq I).
      * destruct (Fs.getEntry name es) as [child|] eqn:Eg; [|reflexivity].
        unfold Fs.stat. simpl. rewrite getEntry_setEntry.
        destruct (String.eqb name k) eqn:E; [|reflexivity].
        apply String.eqb_eq in E. subst k. rewrite Eg.
        apply (IH q' child).
        -- intros ->. now apply Hne.
        -- exact Hv.
Qed.

Lemma lookup_set_same (p : list string) (v : Fs.node) (disk : Fs.node) :
  p <> [] ->
  (exists es, Fs.lookup (removelast p) disk = Some (Fs.Dir es)) ->
  Fs.lookup p (Fs.set p v disk) = Some v.
Proof.
  revert disk; induction p as [|name rest IH]; intros disk Hne [es0 Hparent];
    [congruence|].
  destruct rest as [|r0 r'].
  - simpl in Hparent. inversion Hparent; subst. simpl.
    now rewrite getEntry_setEntry, String.eqb_refl.
  - change (removelast (name :: r0 :: r')) with (name :: removelast (r0 :: r'))
      in Hparent.
    simpl in Hparent. destruct disk as [data|es]; [discriminate|].
    destruct (Fs.getEntry name es) as [child|] eqn:Eg; [|discriminate].
    simpl. rewrite Eg. simpl. rewrite getEntry_setEntry, String.eqb_refl.
    apply IH; [discriminate | now exists es0].
Qed.

Lemma set_same (p : list string) (v : Fs.node) (disk : Fs.node) :
  Fs.lookup p disk = Some v -> Fs.set p v disk = disk.
Proof.
  revert disk; induction p as [|name rest IH]; intros disk H; simpl in *.
  - now inversion H.
  - destruct disk as [data|es]; [reflexivity|].
    destruct (Fs.getEntry name es) as [child|] eqn:Eg; [|discriminate].
    destruct rest as [|r0 r'].
    + simpl in H. inversion H; subst. now rewrite (setEntry_same _ _ _ Eg).
    + rewrite (IH child H). now rewrite (setEntry_same _ _ _ Eg).
Qed.

Lemma within_refl (p : list string) : Fs.within p p = true.
Proof. induction p as [|a p IH]; simpl; [reflexivity | now rewrite String.eqb_refl]. Qed.

Lemma within_app (p r : list string) : Fs.within p (p ++ r) = true.
Proof. induction p as [|a p IH]; simpl; [reflexivity | now rewrite String.eqb_refl]. Qed.

Lemma within_inv (p q : list string) :
  Fs.within p q = true -> exists r, q = p ++ r.
Proof.
  revert q; induction p as [|a p IH]; intros q H; simpl in H; [now exists q|].
  destruct q as [|b q]; [discriminate|].
  apply andb_true_iff in H as [E H]. apply String.eqb_eq in E. subst b.
  destruct (IH q H) as [r ->]. now exists r.
Qed.

Lemma within_trans (p q r : list string) :
  Fs.within p q = true -> Fs.within q r = true -> Fs.within p r = true.
Proof.
  intros H1 H2. apply within_inv in H1 as [a ->]. apply within_inv in H2 as [b ->].
  rewrite <- app_assoc. apply within_app.
Qed.

Lemma stat_remove_outside (p q : list string) (disk : Fs.node) :
  Fs.within p q = false -> Fs.stat q (Fs.remove p disk) = Fs.stat q disk.
Proof.
  revert q disk; induction p as [|name rest IH]; intros q disk H; [discriminate|].
  destruct disk as [data|es]; [reflexivity|].
  destruct q as [|k q'].
  - simpl. destruct rest; [reflexivity|]. now destruct (Fs.getEntry name es).
  - simpl in H. simpl. destruct rest as [|r0 r'].
    + unfold Fs.stat. simpl. rewrite getEntry_removeEntry.
      destruct (String.eqb name k); [discriminate | reflexivity].
    + destruct (Fs.getEntry name es) as [child|] eqn:Eg; [|reflexivity].
      unfold Fs.stat. simpl. rewrite getEntry_setEntry.
      destruct (String.eqb name k) eqn:E; [|reflexivity].
      apply String.eqb_eq in E. subst k. rewrite Eg.
      apply (IH q' child). exact H.
Qed.

Lemma lookup_remove_within (p q : list string) (disk : Fs.node) :
  p <> [] -> Fs.within p q = true -> Fs.lookup q (Fs.remove p disk) = None.
Proof.
  revert q disk; induction p as [|name rest IH]; intros q disk Hne H; [congruence|].
  destruct q as [|k q']; [discriminate|].
  simpl in H. apply andb_true_iff in H as [E H]. apply String.eqb_eq in E. subst k.
  destruct disk as [data|es]; [reflexivity|].
  simpl. destruct rest as [|r0 r'].
  - simpl. now rewrite getEntry_removeEntry, String.eqb_refl.
  - destruct (Fs.getEntry name es) as [child|] eqn:Eg.
    + simpl. rewrite getEntry_setEntry, String.eqb_refl.
      apply IH; [discriminate | exact H].
    + simpl. now rewrite Eg.
Qed.

Lemma split_app_sep (c : ascii) (a b : string) :
  Str.split c (a ++ String c b) = Str.split c a ++ Str.split c b.
Proof.
  induction a as [|x a IH]; simpl.
  - now rewrite Ascii.eqb_refl.
  - destruct (x =? c)%char; [now rewrite IH|].
    rewrite IH. destruct (split_cons c a) as [h [t ->]]. reflexivity.
Qed.

Lemma resolve_join (os : platform) (a b : string) :
  Fs.resolve os (Fs.join os a b) = Fs.resolve os a ++ Fs.resolve os b.
Proof. unfold Fs.resolve, Fs.join. now rewrite split_app_sep, filter_app. Qed.

Lemma resolve_name (os : platform) (name : string) :
  noSep (sep os) name = true -> name <> ""%string -> Fs.resolve os name = [name].
Proof.
  intros Hn Hne. unfold Fs.resolve. rewrite (split_noSep_one _ _ Hn). simpl.
  destruct (String.eqb name "") eqn:E; [|reflexivity].
  now apply String.eqb_eq in E.
Qed.

Lemma stat_None (p : list string) (disk : Fs.node) :
  Fs.stat p disk = None <-> Fs.lookup p disk = None.
Proof.
  unfold Fs.stat. destruct (Fs.lookup p disk) as [[data|es]|]; split; congruence.
Qed.

Lemma stat_IsDir (p : list string) (disk : Fs.node) :
  Fs.stat p disk = Some Fs.IsDir <-> exists es, Fs.lookup p disk = Some (Fs.Dir es).
Proof.
  unfold Fs.stat. destruct (Fs.lookup p disk) as [[data|es]|]; split;
    try congruence; try (intros [es' H]; congruence). intros _. now exists es.
Qed.

Lemma stat_IsFile (p : list string) (disk : Fs.node) (data : Fs.content) :
  Fs.stat p disk = Some (Fs.IsFile data) <-> Fs.lookup p disk = Some (Fs.File data).
Proof.
  unfold Fs.stat. destruct (Fs.lookup p disk) as [[data'|es]|]; split; congruence.
Qed.

Lemma stat_below_None (p r : list string) (disk : Fs.node) :
  Fs.stat p disk = None -> Fs.stat (p ++ r) disk = None.
Proof. rewrite !stat_None, lookup_app. now intros ->. Qed.

Lemma stat_within_None (p q : list string) (disk : Fs.node) :
  Fs.stat p disk = None -> Fs.within p q = true -> Fs.stat q disk = None.
Proof. intros H Hw. apply within_inv in Hw as [r ->]. now apply stat_below_None. Qed.

(** ** The calls one by one *)

Section Calls.

Variable os : platform.

Lemma existsSync_eq (file : string) (disk : Fs.node) :
  Fs.existsSync os file disk
  = (disk, Fs.Normal (match Fs.stat (Fs.resolve os file) disk with
                      | Some _ => true
                      | None => false
                      end)).
Proof.
  unfold Fs.existsSync, Fs.stat.
  now destruct (Fs.lookup (Fs.resolve os file) disk) as [[data|es]|].
Qed.

Lemma parentOf_Normal (p : list string) (disk : Fs.node) :
  Fs.parentOf p disk = Fs.Normal tt <-> Fs.stat (removelast p) disk = Some Fs.IsDir.
Proof.
  unfold Fs.parentOf, Fs.stat.
  destruct (Fs.lookup (removelast p) disk) as [[data|es]|]; split; congruence.
Qed.

Lemma parentOf_cases (p : list string) (disk : Fs.node) :
  Fs.parentOf p disk = Fs.Normal tt
  \/ exists code, Fs.parentOf p disk = Fs.Abrupt (Fs.SystemError code).
Proof.
  unfold Fs.parentOf.
  destruct (Fs.lookup (removelast p) disk) as [[data|es]|]; eauto.
Qed.

Lemma root_not_vacant (disk : Fs.node) :
  Fs.stat [] disk = Some Fs.IsDir -> Fs.stat [] disk <> None.
Proof. congruence. Qed.

(** The effect of a call that creates or replaces the leaf [v] at [p]. *)
Lemma set_effect (p : list string) (v : Fs.node) (disk : Fs.node) :
  leaf v -> vacant p disk ->
  Fs.stat (removelast p) disk = Some Fs.IsDir ->
  Fs.lookup p (Fs.set p v disk) = Some v
  /\ forall q, q <> p -> Fs.stat q (Fs.set p v disk) = Fs.stat q disk.
Proof.
  intros Hleaf Hv Hparent. split; [|intros q Hq; now apply stat_set_other].
  apply lookup_set_same; [|now apply stat_IsDir].
  intros ->. unfold vacant in Hv. simpl in *. unfold Fs.stat in Hparent. simpl in Hparent.
  destruct disk; [discriminate | contradiction].
Qed.

Lemma mkdirSync_cases (folder : string) (disk : Fs.node) :
  (Fs.stat (Fs.resolve os folder) disk = None
   /\ Fs.stat (removelast (Fs.resolve os folder)) disk = Some Fs.IsDir
   /\ Fs.mkdirSync os folder disk
      = (Fs.set (Fs.resolve os folder) (Fs.Dir []) disk, Fs.Normal tt))
  \/ exists code, Fs.mkdirSync os folder disk = (disk, Fs.Abrupt (Fs.SystemError code)).
Proof.
  unfold Fs.mkdirSync.
  destruct (Fs.lookup (Fs.resolve os folder) disk) as [n|] eqn:El; [right; eauto|].
  destruct (parentOf_cases (Fs.resolve os folder) disk) as [Hp|[code Hp]]; rewrite Hp.
  - left. split; [now apply stat_None|]. split; [now apply parentOf_Normal | reflexivity].
  - right. eauto.
Qed.

Lemma write_cases (file : string) (data : Fs.content) (disk : Fs.node) :
  (vacant (Fs.resolve os file) disk
   /\ Fs.stat (removelast (Fs.resolve os file)) disk = Some Fs.IsDir
   /\ Fs.write os file data disk
      = (Fs.set (Fs.resolve os file) (Fs.File data) disk, Fs.Normal tt))
  \/ exists code, Fs.write os file data disk = (disk, Fs.Abrupt (Fs.SystemError code)).
Proof.
  unfold Fs.write, vacant.
  destruct (parentOf_cases (Fs.resolve os file) disk) as [Hp|[code Hp]]; rewrite Hp.
  - destruct (Fs.lookup (Fs.resolve os file) disk) as [[d|es]|] eqn:El;
      try (left; split; [exact I|]; split; [now apply parentOf_Normal | reflexivity]).
    right. eauto.
  - right. destruct (Fs.lookup (Fs.resolve os file) disk) as [[d|es]|]; eauto.
Qed.

Lemma copyFileSync_cases (source target : string) (disk : Fs.node) :
  (exists data,
      Fs.stat (Fs.resolve os source) disk = Some (Fs.IsFile data)
      /\ Fs.copyFileSync os source target disk = Fs.write os target data disk)
  \/ exists code,
       Fs.copyFileSync os source target disk = (disk, Fs.Abrupt (Fs.SystemError code)).
Proof.
  unfold Fs.copyFileSync, Fs.stat.
  destruct (Fs.lookup (Fs.resolve os source) disk) as [[d|es]|]; eauto.
Qed.

(** A call that creates or writes at [file] leaves every other path as it
    was, however it ends. *)
Lemma mkdirSync_frame (folder : string) (disk : Fs.node) (q : list string) :
  q <> Fs.resolve os folder ->
  Fs.stat q (fst (Fs.mkdirSync os folder disk)) = Fs.stat q disk.
Proof.
  intros Hq. destruct (mkdirSync_cases folder disk) as [[Hn [Hp ->]]|[code ->]];
    [|reflexivity].
  simpl. apply stat_set_other; [exact Hq | exact I|].
  unfold vacant. apply stat_None in Hn. now rewrite Hn.
Qed.

Lemma write_frame (file : string) (data : Fs.content) (disk : Fs.node)
  (q : list string) :
  q <> Fs.resolve os file ->
  Fs.stat q (fst (Fs.write os file data disk)) = Fs.stat q disk.
Proof.
  intros Hq. destruct (write_cases file data disk) as [[Hv [Hp ->]]|[code ->]];
    [|reflexivity].
  simpl. now apply stat_set_other.
Qed.

Lemma copyFileSync_frame (source target : string) (disk : Fs.node)
  (q : list string) :
  q <> Fs.resolve os target ->
  Fs.stat q (fst (Fs.copyFileSync os source target disk)) = Fs.stat q disk.
Proof.
  intros Hq. destruct (copyFileSync_cases source target disk) as [[data [_ ->]]|[code ->]];
    [now apply write_frame | reflexivity].
Qed.

End Calls.

(** ** Specifications *)

Lemma triple_ret {A : Type} (a : A) (Q : A -> Fs.node -> Prop) (E : Fs.node -> Prop) :
  triple (Q a) (Fs.ret a) Q E.
Proof. intros disk H. exact H. Qed.

Lemma triple_bind {A B : Type} (P : Fs.node -> Prop) (c : Fs.io A)
  (k : A -> Fs.io B) (Q : A -> Fs.node -> Prop) (R : B -> Fs.node -> Prop)
  (E : Fs.node -> Prop) :
  triple P c Q E -> (forall a, triple (Q a) (k a) R E) -> triple P (Fs.bind c k) R E.
Proof.
  intros Hc Hk disk HP. unfold Fs.bind. specialize (Hc disk HP).
  destruct (c disk) as [disk' [a| |]]; try exact Hc. now apply Hk.
Qed.

Lemma triple_weaken {A : Type} (P P' : Fs.node -> Prop) (m : Fs.io A)
  (Q Q' : A -> Fs.node -> Prop) (E E' : Fs.node -> Prop) :
  (forall disk, P' disk -> P disk) ->
  (forall a disk, Q a disk -> Q' a disk) ->
  (forall disk, E disk -> E' disk) ->
  triple P m Q E -> triple P' m Q' E'.
Proof.
  intros HP HQ HE H disk HP'. specialize (H disk (HP disk HP')).
  destruct (m disk) as [disk' [a| |]]; auto.
Qed.

Lemma triple_ret_if {A : Type} (a : A) (P : Fs.node -> Prop)
  (Q : A -> Fs.node -> Prop) (E : Fs.node -> Prop) :
  (forall disk, P disk -> Q a disk) -> triple P (Fs.ret a) Q E.
Proof. intros H disk HP. now apply H. Qed.

(** A computation that keeps [I] however it ends. *)
Lemma triple_keeps {A : Type} (I : Fs.node -> Prop) (m : Fs.io A) :
  (forall disk, I disk -> I (fst (m disk))) -> triple I m (fun _ => I) I.
Proof.
  intros Hm disk HI. specialize (Hm disk HI).
  now destruct (m disk) as [disk' [a| |]].
Qed.

(** A call that leaves the disk as it is. *)
Lemma triple_pure {A : Type} (I : Fs.node -> Prop) (m : Fs.io A) :
  (forall disk, fst (m disk) = disk) -> triple I m (fun _ => I) I.
Proof.
  intros Hm disk HI. specialize (Hm disk).
  destruct (m disk) as [disk' [a| |]]; simpl in Hm; now subst.
Qed.

Lemma triple_pure_to {A : Type} (I E : Fs.node -> Prop) (m : Fs.io A) :
  (forall disk, fst (m disk) = disk) ->
  (forall disk, I disk -> E disk) ->
  triple I m (fun _ => I) E.
Proof.
  intros Hm HE disk HI. specialize (Hm disk).
  destruct (m disk) as [disk' [a| |]]; simpl in Hm; subst; auto.
Qed.

Lemma triple_lift {A : Type} (I : Fs.node -> Prop) (c : result A) :
  triple I (Fs.lift c) (fun _ => I) I.
Proof. apply triple_pure. intros disk. now destruct c. Qed.

Lemma triple_forEach {A : Type} (I : Fs.node -> Prop) (f : A -> Fs.io unit)
  (l : list A) :
  (forall x, triple I (f x) (fun _ => I) I) ->
  triple I (Fs.forEach f l) (fun _ => I) I.
Proof.
  intros Hf. induction l as [|x l IH]; simpl.
  - apply (triple_ret tt (fun _ => I)).
  - apply (triple_bind I _ _ (fun _ => I)); [apply Hf | intros u; exact IH].
Qed.

Lemma readJsonSync_fst (os : platform) (file : string) (disk : Fs.node) :
  fst (Fs.readJsonSync os file disk) = disk.
Proof.
  unfold Fs.readJsonSync.
  now destruct (Fs.lookup (Fs.resolve os file) disk) as [[[v|b]|es]|].
Qed.

Lemma readdirSync_fst (os : platform) (folder : string) (disk : Fs.node) :
  fst (Fs.readdirSync os folder disk) = disk.
Proof.
  unfold Fs.readdirSync.
  now destruct (Fs.lookup (Fs.resolve os folder) disk) as [[d|es]|].
Qed.

(* ================================================================== *)
(** * [convertLegacyAssets]: what is left alone *)

Section Adds.

Variable c : Constants.t.
Variable before : Fs.node.

Local Abbreviation os := (Constants.os c).
Local Abbreviation user :=
  (Fs.resolve (Constants.os c) (Constants.DEFAULT_USER_ASSETS c)).
Local Abbreviation legacy :=
  (Fs.resolve (Constants.os c) (Constants.LEGACY_ASSETS c)).
Local Abbreviation J :=
  (onlyAddsWithin (Fs.resolve (Constants.os c) (Constants.DEFAULT_USER_ASSETS c))
     before).

Lemma onlyAddsWithin_refl : J before.
Proof. intros q. split; [reflexivity | congruence]. Qed.

Lemma onlyAddsWithin_step (p : list string) (disk disk' : Fs.node) :
  J disk ->
  Fs.stat p before = None ->
  Fs.within user p = true ->
  (forall q, q <> p -> Fs.stat q disk' = Fs.stat q disk) ->
  J disk'.
Proof.
  intros HJ Hnew Hin Hframe q.
  destruct (list_eq_dec string_dec q p) as [->|Hne].
  - split; [congruence | auto].
  - rewrite (Hframe q Hne). apply HJ.
Qed.

Lemma mkdirSync_adds (folder : string) :
  Fs.stat (Fs.resolve os folder) before = None ->
  Fs.within user (Fs.resolve os folder) = true ->
  triple J (Fs.mkdirSync os folder) (fun _ => J) J.
Proof.
  intros Hnew Hin. apply triple_keeps. intros disk HJ.
  apply (onlyAddsWithin_step (Fs.resolve os folder) disk); try assumption.
  intros q Hq. now apply mkdirSync_frame.
Qed.

Lemma write_adds (file : string) (data : Fs.content) :
  Fs.stat (Fs.resolve os file) before = None ->
  Fs.within user (Fs.resolve os file) = true ->
  triple J (Fs.write os file data) (fun _ => J) J.
Proof.
  intros Hnew Hin. apply triple_keeps. intros disk HJ.
  apply (onlyAddsWithin_step (Fs.resolve os file) disk); try assumption.
  intros q Hq. now apply write_frame.
Qed.

Lemma copyFileSync_adds (source target : string) :
  Fs.stat (Fs.resolve os target) before = None ->
  Fs.within user (Fs.resolve os target) = true ->
  triple J (Fs.copyFileSync os source target) (fun _ => J) J.
Proof.
  intros Hnew Hin. apply triple_keeps. intros disk HJ.
  apply (onlyAddsWithin_step (Fs.resolve os target) disk); try assumption.
  intros q Hq. now apply copyFileSync_frame.
Qed.

Lemma existsSync_keeps (I : Fs.node -> Prop) (file : string) :
  triple I (Fs.existsSync os file)
    (fun found disk =>
       I disk /\ (found = false -> Fs.stat (Fs.resolve os file) disk = None))
    I.
Proof.
  intros disk HI. rewrite existsSync_eq. split; [exact HI|].
  now destruct (Fs.stat (Fs.resolve os file) disk).
Qed.

Section Target.

Variable targetPath : string.

Hypothesis target_new : Fs.stat (Fs.resolve os targetPath) before = None.
Hypothesis target_in : Fs.within user (Fs.resolve os targetPath) = true.

Lemma below_target_new (name : string) :
  Fs.stat (Fs.resolve os (Fs.join os targetPath name)) before = None.
Proof. rewrite resolve_join. now apply stat_below_None. Qed.

Lemma below_target_in (name : string) :
  Fs.within user (Fs.resolve os (Fs.join os targetPath name)) = true.
Proof.
  rewrite resolve_join. eapply within_trans; [exact target_in | apply within_app].
Qed.

Lemma copyParts_adds (fuel index : nat) (title : string) :
  triple J (copyParts c fuel index title targetPath) (fun _ => J) J.
Proof.
  revert index; induction fuel as [|fuel IH]; intros index; simpl.
  - intros disk HJ. exact HJ.
  - apply (triple_bind J _ _ (fun _ => J)).
    + apply triple_keeps. intros disk HJ. now rewrite existsSync_eq.
    + intros sourceExists. destruct (negb sourceExists).
      * apply (triple_ret tt (fun _ => J)).
      * apply (triple_bind J _ _ (fun _ => J)); [|intros u; apply IH].
        apply copyFileSync_adds; [apply below_target_new | apply below_target_in].
Qed.

Lemma copyAssets_adds (fuel : nat) (file title : string) :
  triple J (copyAssets c fuel file title targetPath) (fun _ => J) J.
Proof.
  unfold copyAssets.
  repeat match goal with
         | |- context [if Str.startsWith ?n ?p then _ else _] =>
             destruct (Str.startsWith n p)
         end;
    try (apply copyFileSync_adds; [apply below_target_new | apply below_target_in]);
    try apply (triple_ret tt (fun _ => J)).
  apply (triple_bind J _ _ (fun _ => J)); [|intros u; apply copyParts_adds].
  apply copyFileSync_adds; [apply below_target_new | apply below_target_in].
Qed.

Lemma convert_into_target_adds (fuel : nat) (file title : string)
  (isJoystick : bool) (config : json) :
  triple J
    (_ <~ Fs.mkdirSync os targetPath ;;
     _ <~ copyAssets c fuel file title targetPath ;;
     config <~ Fs.lift (updateConfig isJoystick title config) ;;
     Fs.writeJsonSync os (Fs.join os targetPath "config.json") config)
    (fun _ => J) J.
Proof.
  apply (triple_bind J _ _ (fun _ => J)); [now apply mkdirSync_adds|]. intros u.
  apply (triple_bind J _ _ (fun _ => J)); [apply copyAssets_adds|]. intros u'.
  apply (triple_bind J _ _ (fun _ => J)); [apply triple_lift|]. intros written.
  apply write_adds; [apply below_target_new | apply below_target_in].
Qed.

End Target.

Lemma convertFile_adds (fuel : nat) (file : string) :
  triple J (convertFile c fuel file) (fun _ => J) J.
Proof.
  unfold convertFile. destruct (negb (Str.endsWith file ".json"));
    [apply (triple_ret tt (fun _ => J))|].
  cbv zeta.
  apply (triple_bind J _ _ (fun _ => J)).
  { apply triple_pure. intros disk. apply readJsonSync_fst. }
  intros config.
  eapply triple_bind; [apply existsSync_keeps|].
  intros [|]; [apply triple_ret_if; tauto|].
  intros disk [HJ Hnone]. specialize (Hnone eq_refl).
  assert (Hnew : Fs.stat
                   (Fs.resolve os
                      (Fs.join os (Constants.DEFAULT_USER_ASSETS c) (targetName file)))
                   before = None).
  { destruct (Fs.stat _ before) eqn:E; [|reflexivity].
    destruct (HJ (Fs.resolve os
                    (Fs.join os (Constants.DEFAULT_USER_ASSETS c) (targetName file))))
      as [Hkeep _].
    rewrite Hkeep in Hnone; congruence. }
  apply (convert_into_target_adds _ Hnew); [|exact HJ].
  rewrite resolve_join. apply within_app.
Qed.

Lemma outside_legacy_kept (disk : Fs.node) :
  J disk -> keptOutside legacy user before disk.
Proof. intros HJ q _. apply HJ. Qed.

Lemma rmSync_legacy_keeps :
  triple J (Fs.rmSync os (Constants.LEGACY_ASSETS c))
    (fun _ => keptOutside legacy user before) (keptOutside legacy user before).
Proof.
  intros disk HJ. unfold Fs.rmSync.
  destruct (Fs.lookup legacy disk); [|now apply outside_legacy_kept].
  intros q Hout. rewrite (stat_remove_outside _ _ _ Hout). apply HJ.
Qed.

Lemma convertLegacyAssets_keeps (fuel answer : nat) :
  triple J (convertLegacyAssets c fuel answer)
    (fun _ => keptOutside legacy user before) (keptOutside legacy user before).
Proof.
  unfold convertLegacyAssets. cbv zeta.
  apply (triple_bind J _ _ (fun _ => J)).
  { apply triple_pure_to; [|apply outside_legacy_kept].
    intros disk. now rewrite existsSync_eq. }
  intros legacyExists. destruct (negb legacyExists).
  { apply triple_ret_if. apply outside_legacy_kept. }
  apply (triple_bind J _ _ (fun _ => J)).
  { apply triple_pure_to; [|apply outside_legacy_kept].
    intros disk. apply readdirSync_fst. }
  intros files. destruct (_ <=? 1); [apply rmSync_legacy_keeps|].
  destruct (negb (answer =? 0)).
  { apply triple_ret_if. apply outside_legacy_kept. }
  apply (triple_bind J _ _ (fun _ => J)).
  { apply triple_pure_to; [|apply outside_legacy_kept].
    intros disk. apply readdirSync_fst. }
  intros files'.
  apply (triple_bind J _ _ (fun _ => J)); [|intros u; apply rmSync_legacy_keeps].
  apply (triple_weaken J J _ (fun _ => J) (fun _ => J) J); auto;
    [apply outside_legacy_kept|].
  apply triple_forEach. intros file. apply convertFile_adds.
Qed.

End Adds.

Lemma triple_fst {A : Type} (P Q : Fs.node -> Prop) (m : Fs.io A) (disk : Fs.node) :
  triple P m (fun _ => Q) Q -> P disk -> Q (fst (m disk)).
Proof.
  intros H HP. specialize (H disk HP). now destruct (m disk) as [disk' [a| |]].
Qed.

(** X11.  However [convertLegacyAssets] ends (it returns, it throws half
    way, the user declines), outside the legacy folder it has only added:
    what there was before is still there, every file with its content, and
    whatever is new is in the default user folder or below it.  No asset of
    the user is overwritten or removed. *)
Theorem conversion_only_adds_below_the_user_folder (c : Constants.t)
  (fuel answer : nat) (disk : Fs.node) (q : list string) :
  Fs.within (Fs.resolve (Constants.os c) (Constants.LEGACY_ASSETS c)) q = false ->
  (Fs.stat q disk <> None ->
   Fs.stat q (fst (convertLegacyAssets c fuel answer disk)) = Fs.stat q disk)
  /\ (Fs.stat q disk = None ->
      Fs.stat q (fst (convertLegacyAssets c fuel answer disk)) <> None ->
      Fs.within (Fs.resolve (Constants.os c) (Constants.DEFAULT_USER_ASSETS c)) q
      = true).
Proof.
  intros Hout.
  apply (triple_fst _ _ _ disk (convertLegacyAssets_keeps c disk fuel answer)
           (onlyAddsWithin_refl c disk)).
  exact Hout.
Qed.

(* ================================================================== *)
(** * Legacy assets: the names *)

Lemma title_after_underscore (kind rest : string) :
  noSep "_" kind = true ->
  title (kind ++ String "_" rest)
  = Str.join "." (removelast (Str.split "." rest)).
Proof.
  intros Hk. unfold title. rewrite (split_noSep_app _ _ _ Hk). simpl tl.
  now rewrite join_split.
Qed.

(** X12.  The title of a legacy file is what stands between its first
    underscore and its last dot, and the target folder is named by what
    stands before the first underscore, an underscore and the allowed
    characters of the title.  A name without a dot after the first
    underscore, and a name without an underscore, have the empty title. *)
Theorem title_of_a_legacy_file (kind rest ext : string) :
  noSep "_" kind = true ->
  noSep "." ext = true ->
  title (kind ++ "_" ++ rest ++ "." ++ ext) = rest
  /\ targetName (kind ++ "_" ++ rest ++ "." ++ ext)
     = (kind ++ "_" ++ allowedChars rest)%string
  /\ title (kind ++ "_" ++ ext) = ""%string
  /\ title kind = ""%string.
Proof.
  intros Hk He.
  assert (Ht : title (kind ++ String "_" (rest ++ String "." ext)) = rest).
  { rewrite (title_after_underscore _ _ Hk), split_app_sep, (split_noSep_one _ _ He).
    now rewrite removelast_last, join_split. }
  split; [exact Ht|]. split; [|split].
  - unfold targetName. simpl append in *. rewrite Ht.
    now rewrite (split_noSep_app _ _ _ Hk).
  - simpl append. rewrite (title_after_underscore _ _ Hk), (split_noSep_one _ _ He).
    reflexivity.
  - unfold title. now rewrite (split_noSep_one _ _ Hk).
Qed.

Lemma title_of_a_legacy_file_sample :
  title "Field2d_2024 Field.v2.json" = "2024 Field.v2"%string
  /\ targetName "Field2d_2024 Field.v2.json" = "Field2d_2024Fieldv2"%string.
Proof.
  destruct (title_of_a_legacy_file "Field2d" "2024 Field.v2" "json" eq_refl eq_refl)
    as [Ht [Hn _]].
  split; [exact Ht | exact Hn].
Defined.

Lemma allowed_is_kept (x : ascii) :
  existsb (Ascii.eqb x) CONVERT_LEGACY_ALLOWED_CHARS = keptByConversion x.
Proof.
  destruct x as [b0 b1 b2 b3 b4 b5 b6 b7].
  destruct b0, b1, b2, b3, b4, b5, b6, b7; reflexivity.
Qed.

Lemma all_filter (p : ascii -> bool) (l : list ascii) :
  Str.all p (string_of_list_ascii (filter p l)) = true.
Proof.
  induction l as [|x l IH]; simpl; [reflexivity|].
  destruct (p x) eqn:E; simpl; [now rewrite E|exact IH].
Qed.

Lemma all_impl (p q : ascii -> bool) (s : string) :
  (forall x, p x = true -> q x = true) -> Str.all p s = true -> Str.all q s = true.
Proof.
  intros Hpq. induction s as [|x s IH]; simpl; [reflexivity|].
  intros H. apply andb_true_iff in H as [Hx Hs]. now rewrite (Hpq x Hx), IH.
Qed.

Lemma allowedChars_fixed (s : string) :
  Str.all keptByConversion s = true -> allowedChars s = s.
Proof.
  unfold allowedChars. induction s as [|x s IH]; [reflexivity|].
  cbn [list_ascii_of_string filter Str.all]. intros H.
  apply andb_true_iff in H as [Hx Hs].
  rewrite allowed_is_kept, Hx. cbn [string_of_list_ascii]. now rewrite IH.
Qed.

(** X13.  The name of a target folder keeps, in their order, the letters
    and digits of the title other than the upper-case X and the lower-case
    m, which the list of allowed characters lacks, and nothing else: no
    space, no dot, no underscore and no path separator. *)
Theorem conversion_keeps_letters_and_digits_but_X_and_m (t : string) :
  allowedChars t
  = string_of_list_ascii (filter keptByConversion (list_ascii_of_string t))
  /\ Str.all keptByConversion (allowedChars t) = true
  /\ noSep "_" (allowedChars t) = true
  /\ noSep "." (allowedChars t) = true
  /\ (forall os, noSep (sep os) (allowedChars t) = true)
  /\ allowedChars (allowedChars t) = allowedChars t.
Proof.
  assert (Heq : allowedChars t
                = string_of_list_ascii
                    (filter keptByConversion (list_ascii_of_string t))).
  { unfold allowedChars. f_equal. apply filter_ext. exact allowed_is_kept. }
  assert (Hall : Str.all keptByConversion (allowedChars t) = true).
  { rewrite Heq. apply all_filter. }
  assert (Hno : forall c, keptByConversion c = false ->
                          noSep c (allowedChars t) = true).
  { intros c Hc. unfold noSep. eapply all_impl; [|exact Hall].
    intros x Hx. apply negb_true_iff. apply Ascii.eqb_neq. intros ->. congruence. }
  split; [exact Heq|]. split; [exact Hall|].
  split; [now apply Hno|]. split; [now apply Hno|].
  split; [intros []; now apply Hno|].
  now apply allowedChars_fixed.
Qed.

Example allowedChars_drops_X_and_m :
  allowedChars "2023 Xmas Mix (v1.0)" = "2023asMixv10"%string.
Proof. reflexivity. Qed.

Lemma sep_unique (c : ascii) (a a' x x' : string) :
  noSep c a = true -> noSep c a' = true ->
  (a ++ String c x)%string = (a' ++ String c x')%string -> a = a'.
Proof.
  unfold noSep. revert a'; induction a as [|y a IH]; intros [|y' a'] Ha Ha' H;
    simpl in *; try reflexivity.
  - inversion H; subst. now rewrite Ascii.eqb_refl in Ha'.
  - inversion H; subst. now rewrite Ascii.eqb_refl in Ha.
  - apply andb_true_iff in Ha as [_ Ha]. apply andb_true_iff in Ha' as [_ Ha'].
    inversion H; subst. f_equal. now apply IH.
Qed.

Lemma split_head (c : ascii) (s : string) :
  exists h t, Str.split c s = h :: t /\ noSep c h = true
              /\ (t = [] -> s = h)
              /\ (t <> [] -> exists x, s = (h ++ String c x)%string).
Proof.
  destruct (split_cons c s) as [h [t Hs]]. exists h, t.
  assert (Hn := split_noSep c s). rewrite Hs in Hn.
  split; [exact Hs|]. split; [now inversion Hn|].
  assert (Hj := join_split c s). rewrite Hs in Hj. split.
  - intros ->. now rewrite <- Hj.
  - intros Ht. destruct t as [|x t]; [congruence|].
    exists (Str.join c (x :: t)). now rewrite <- Hj.
Qed.

Lemma targetName_kind (k file : string) :
  noSep "_" k = true ->
  Str.endsWith k ".json" = false ->
  Str.endsWith file ".json" = true ->
  Str.startsWith (targetName file) (k ++ "_") = Str.startsWith file (k ++ "_").
Proof.
  intros Hk Hjson Hfile. unfold Str.startsWith, targetName.
  destruct (split_head "_" file) as [h [t [Hs [Hh [Hnil Hcons]]]]]. rewrite Hs. simpl hd.
  apply eq_true_iff_eq. rewrite !prefix_app. split.
  - intros [b Hb]. rewrite append_assoc in Hb. simpl in Hb.
    apply sep_unique in Hb; try assumption. subst h.
    destruct t as [|x t].
    + rewrite (Hnil eq_refl) in Hfile. congruence.
    + destruct Hcons as [y Hy]; [discriminate|]. exists y.
      rewrite append_assoc. exact Hy.
  - intros [b Hb]. rewrite append_assoc in Hb. simpl in Hb.
    rewrite Hb in Hs. rewrite (split_noSep_app _ _ _ Hk) in Hs. inversion Hs; subst.
    eexists. rewrite append_assoc. reflexivity.
Qed.

(** X14.  The folder a legacy descriptor is converted into starts with the
    same kind prefix as the descriptor, so that [loadAssets] reads the
    folder as the kind that the conversion copied the assets of; a
    descriptor with none of the four prefixes gives a folder with none. *)
Theorem converted_folder_keeps_the_kind (file : string) :
  Str.endsWith file ".json" = true ->
  Str.startsWith (targetName file) "Field2d_" = Str.startsWith file "Field2d_"
  /\ Str.startsWith (targetName file) "Field3d_" = Str.startsWith file "Field3d_"
  /\ Str.startsWith (targetName file) "Robot_" = Str.startsWith file "Robot_"
  /\ Str.startsWith (targetName file) "Joystick_" = Str.startsWith file "Joystick_"
  /\ unclassifiable (targetName file) = unclassifiable file.
Proof.
  intros Hfile.
  assert (H2 := targetName_kind "Field2d" file eq_refl eq_refl Hfile).
  assert (H3 := targetName_kind "Field3d" file eq_refl eq_refl Hfile).
  assert (Hr := targetName_kind "Robot" file eq_refl eq_refl Hfile).
  assert (Hj := targetName_kind "Joystick" file eq_refl eq_refl Hfile).
  simpl append in *. unfold unclassifiable. rewrite H2, H3, Hr, Hj. tauto.
Qed.

Lemma converted_folder_keeps_the_kind_sample :
  Str.startsWith (targetName "Robot_Arm.json") "Robot_" = true
  /\ unclassifiable (targetName "notes.json") = true.
Proof.
  destruct (converted_folder_keeps_the_kind "Robot_Arm.json" eq_refl)
    as [_ [_ [Hr _]]].
  split; [exact Hr | reflexivity].
Defined.

(* ================================================================== *)
(** * Legacy assets: the descriptor that is written *)

Lemma assoc_setProperty (key : string) (value : json) (props : list (string * json)) :
  assoc key (setProperty key value props) = Some value.
Proof.
  induction props as [|[k v] props IH]; simpl; [now rewrite String.eqb_refl|].
  destruct (String.eqb k key) eqn:E; simpl; now rewrite E.
Qed.

Lemma assoc_setProperty_other (key other : string) (value : json)
  (props : list (string * json)) :
  other <> key ->
  assoc other (setProperty key value props) = assoc other props.
Proof.
  intros Hne. induction props as [|[k v] props IH]; simpl.
  - destruct (String.eqb key other) eqn:E; [|reflexivity].
    apply String.eqb_eq in E. congruence.
  - destruct (String.eqb k key) eqn:E; simpl; [|now rewrite IH].
    apply String.eqb_eq in E. subst k.
    destruct (String.eqb key other) eqn:E'; [|reflexivity].
    apply String.eqb_eq in E'. congruence.
Qed.

(** X15.  The descriptor that the conversion writes is named by the title,
    which comes from the name of the legacy file, whatever name the legacy
    descriptor declares; its other properties are those of the legacy
    descriptor.  A legacy joystick descriptor becomes the [components] of
    the new one.  A legacy descriptor that is an array, of a kind other than
    joystick, is written as it is, without a name; one that is [null] or a
    primitive raises [TypeError]. *)
Theorem converted_descriptor_is_named_by_the_title (title : string) (config : json) :
  (forall props,
      config = JObj props ->
      exists written,
        updateConfig false title config = Ok (JObj written)
        /\ assoc "name" written = Some (JStr title)
        /\ forall key, key <> "name"%string -> assoc key written = assoc key props)
  /\ updateConfig true title config
     = Ok (JObj [("name", JStr title); ("components", config)])
  /\ (forall items, config = JArr items -> updateConfig false title config = Ok config)
  /\ (updateConfig false title config = Throw TypeError <-> primitive config = true)
  /\ (forall env parentFolder objectName items,
        config = JArr items ->
        buildJoystick env parentFolder objectName
          (JObj [("name", JStr title); ("components", config)])
        = (components <- forEachPush buildJoystickComponent items ;;
           Ok {| ConfigJoystick.name := title;
                 ConfigJoystick.path :=
                   encodePath (os env)
                     (pathJoin env parentFolder objectName "image.png");
                 ConfigJoystick.components := components |})).
Proof.
  split; [|split; [|split; [|split]]].
  - intros props ->. exists (setProperty "name" (JStr title) props).
    split; [reflexivity|]. split; [apply assoc_setProperty|].
    intros key Hkey. now apply assoc_setProperty_other.
  - reflexivity.
  - now intros items ->.
  - unfold updateConfig, assignName.
    destruct config; simpl; split; intros H; try discriminate; reflexivity.
  - intros env parentFolder objectName items ->. reflexivity.
Qed.

(* ================================================================== *)
(** * [createAssetFolders] *)

Lemma bind_Normal {A B : Type} (m : Fs.io A) (k : A -> Fs.io B)
  (disk disk' : Fs.node) (b : B) :
  Fs.bind m k disk = (disk', Fs.Normal b) ->
  exists a mid, m disk = (mid, Fs.Normal a) /\ k a mid = (disk', Fs.Normal b).
Proof.
  unfold Fs.bind. destruct (m disk) as [mid [a| |]]; try discriminate.
  intros H. now exists a, mid.
Qed.

Lemma bind_existsSync {B : Type} (os : platform) (file : string)
  (k : bool -> Fs.io B) (disk : Fs.node) :
  Fs.bind (Fs.existsSync os file) k disk
  = k (match Fs.stat (Fs.resolve os file) disk with
       | Some _ => true
       | None => false
       end) disk.
Proof. unfold Fs.bind. now rewrite existsSync_eq. Qed.

Lemma io_bind_ret {A B : Type} (a : A) (k : A -> Fs.io B) (disk : Fs.node) :
  Fs.bind (Fs.ret a) k disk = k a disk.
Proof. reflexivity. Qed.

Section Ensure.

Variable os : platform.

(** [if (!fs.existsSync(folder)) fs.mkdirSync(folder)] *)
Lemma ensure_folder (folder : string) (found : bool) (disk mid disk' : Fs.node) :
  Fs.existsSync os folder disk = (mid, Fs.Normal found) ->
  (if negb found then Fs.mkdirSync os folder else Fs.ret tt) mid
  = (disk', Fs.Normal tt) ->
  Fs.stat (Fs.resolve os folder) disk' <> None
  /\ forall q, q <> Fs.resolve os folder \/ Fs.stat q disk <> None ->
               Fs.stat q disk' = Fs.stat q disk.
Proof.
  intros He H.
  rewrite existsSync_eq in He. injection He as Hmid Hfound. subst mid found.
  destruct (Fs.stat (Fs.resolve os folder) disk) as [k|] eqn:Es; simpl in H.
  - inversion H; subst. split; [congruence | reflexivity].
  - destruct (mkdirSync_cases os folder disk) as [[Hn [Hp Hm]]|[code Hm]];
      rewrite Hm in H; [|discriminate].
    inversion H; subst; clear H.
    assert (Hv : vacant (Fs.resolve os folder) disk).
    { unfold vacant. apply stat_None in Hn. now rewrite Hn. }
    destruct (set_effect (Fs.resolve os folder) (Fs.Dir []) disk I Hv Hp)
      as [Hl Hframe].
    split.
    + unfold Fs.stat. now rewrite Hl.
    + intros q [Hq|Hq]; [now apply Hframe|].
      apply Hframe. intros ->. congruence.
Qed.

Lemma write_effect (file : string) (data : Fs.content) (disk disk' : Fs.node) :
  Fs.write os file data disk = (disk', Fs.Normal tt) ->
  Fs.stat (Fs.resolve os file) disk' = Some (Fs.IsFile data)
  /\ Fs.stat (removelast (Fs.resolve os file)) disk = Some Fs.IsDir
  /\ disk' = Fs.set (Fs.resolve os file) (Fs.File data) disk
  /\ forall q, q <> Fs.resolve os file -> Fs.stat q disk' = Fs.stat q disk.
Proof.
  intros H. destruct (write_cases os file data disk) as [[Hv [Hp Hw]]|[code Hw]];
    rewrite Hw in H; [|discriminate].
  inversion H; subst; clear H.
  destruct (set_effect (Fs.resolve os file) (Fs.File data) disk I Hv Hp)
    as [Hl Hframe].
  split; [unfold Fs.stat; now rewrite Hl|]. repeat split; assumption.
Qed.

End Ensure.

Lemma removelast_app_one {A : Type} (l : list A) (x : A) : removelast (l ++ [x]) = l.
Proof. apply removelast_last. Qed.

Lemma resolve_readme (c : Constants.t) :
  Fs.resolve (Constants.os c)
    (Fs.join (Constants.os c) (Constants.DEFAULT_USER_ASSETS c) "README.txt")
  = Fs.resolve (Constants.os c) (Constants.DEFAULT_USER_ASSETS c) ++ ["README.txt"%string].
Proof. rewrite resolve_join. f_equal. now destruct (Constants.os c). Qed.

Lemma app_one_neq {A : Type} (l : list A) (x : A) : l <> l ++ [x].
Proof.
  intros H. apply (f_equal (@List.length A)) in H. rewrite length_app in H.
  simpl in H. lia.
Qed.

Lemma createAssetFolders_spec (c : Constants.t) (disk disk' : Fs.node) :
  createAssetFolders c disk = (disk', Fs.Normal tt) ->
  Fs.stat (Fs.resolve (Constants.os c) (Constants.AUTO_ASSETS c)) disk' <> None
  /\ Fs.stat (Fs.resolve (Constants.os c) (Constants.DEFAULT_USER_ASSETS c)) disk'
     = Some Fs.IsDir
  /\ Fs.stat (Fs.resolve (Constants.os c) (Constants.DEFAULT_USER_ASSETS c)
              ++ ["README.txt"%string]) disk'
     = Some (Fs.IsFile (Fs.Bytes USER_ASSETS_README))
  /\ forall q,
       q <> Fs.resolve (Constants.os c) (Constants.DEFAULT_USER_ASSETS c)
            ++ ["README.txt"%string] ->
       Fs.stat q disk <> None
       \/ (q <> Fs.resolve (Constants.os c) (Constants.AUTO_ASSETS c)
           /\ q <> Fs.resolve (Constants.os c) (Constants.DEFAULT_USER_ASSETS c)) ->
       Fs.stat q disk' = Fs.stat q disk.
Proof.
  unfold createAssetFolders. cbv zeta. intros H.
  set (auto := Fs.resolve (Constants.os c) (Constants.AUTO_ASSETS c)).
  set (user := Fs.resolve (Constants.os c) (Constants.DEFAULT_USER_ASSETS c)).
  apply bind_Normal in H as [found1 [e1 [He1 H]]].
  apply bind_Normal in H as [[] [d1 [H1 H]]].
  apply bind_Normal in H as [found2 [e2 [He2 H]]].
  apply bind_Normal in H as [[] [d2 [H2 H3]]].
  unfold Fs.writeFileSync in H3.
  apply (ensure_folder _ _ _ _ _ _ He1) in H1 as [Hauto Hframe1].
  apply (ensure_folder _ _ _ _ _ _ He2) in H2 as [Huser Hframe2].
  apply write_effect in H3 as [Hreadme [Hparent [_ Hframe3]]].
  rewrite resolve_readme in *. fold user in Hreadme, Hparent, Hframe3, Huser, Hframe2.
  fold auto in Hauto, Hframe1.
  rewrite removelast_last in Hparent.
  assert (Hkeep : forall q, q <> user ++ ["README.txt"%string] ->
                            Fs.stat q disk <> None \/ (q <> auto /\ q <> user) ->
                            Fs.stat q disk' = Fs.stat q disk).
  { intros q Hq Hcase. rewrite (Hframe3 q Hq).
    destruct Hcase as [Hthere|[Ha Hu]].
    - assert (H1 := Hframe1 q (or_intror Hthere)).
      rewrite <- H1 in Hthere. now rewrite (Hframe2 q (or_intror Hthere)).
    - rewrite (Hframe2 q (or_introl Hu)). apply Hframe1. now left. }
  split; [|split; [|split; [exact Hreadme | exact Hkeep]]].
  - destruct (list_eq_dec string_dec auto (user ++ ["README.txt"%string])) as [E|E].
    + rewrite E, Hreadme. discriminate.
    + rewrite (Hframe3 auto E), (Hframe2 auto (or_intror Hauto)). exact Hauto.
  - rewrite (Hframe3 user (app_one_neq user _)). exact Hparent.
Qed.

(** X16.  When [createAssetFolders] returns, the folder of the automatic
    assets is there, the default user folder is a directory and its
    [README.txt] holds the text of the source, whatever it held before.
    Nothing that was there before is changed but that file, and nothing
    else is new but the two folders. *)
Theorem createAssetFolders_makes_the_folders (c : Constants.t) (disk disk' : Fs.node) :
  createAssetFolders c disk = (disk', Fs.Normal tt) ->
  Fs.stat (Fs.resolve (Constants.os c) (Constants.AUTO_ASSETS c)) disk' <> None
  /\ Fs.stat (Fs.resolve (Constants.os c) (Constants.DEFAULT_USER_ASSETS c)) disk'
     = Some Fs.IsDir
  /\ Fs.stat (Fs.resolve (Constants.os c) (Constants.DEFAULT_USER_ASSETS c)
              ++ ["README.txt"%string]) disk'
     = Some (Fs.IsFile (Fs.Bytes USER_ASSETS_README))
  /\ forall q,
       q <> Fs.resolve (Constants.os c) (Constants.DEFAULT_USER_ASSETS c)
            ++ ["README.txt"%string] ->
       Fs.stat q disk <> None
       \/ (q <> Fs.resolve (Constants.os c) (Constants.AUTO_ASSETS c)
           /\ q <> Fs.resolve (Constants.os c) (Constants.DEFAULT_USER_ASSETS c)) ->
       Fs.stat q disk' = Fs.stat q disk.
Proof. apply createAssetFolders_spec. Qed.

(** X17.  A second call of [createAssetFolders] right after one that
    returned changes nothing and returns: the guards keep [fs.mkdirSync]
    from a folder that exists, and the README is written over itself. *)
Theorem createAssetFolders_twice (c : Constants.t) (disk disk' : Fs.node) :
  createAssetFolders c disk = (disk', Fs.Normal tt) ->
  createAssetFolders c disk' = (disk', Fs.Normal tt).
Proof.
  intros H. destruct (createAssetFolders_spec c disk disk' H)
    as [Hauto [Huser [Hreadme _]]].
  unfold createAssetFolders. cbv zeta.
  rewrite bind_existsSync.
  destruct (Fs.stat _ disk') as [k|] eqn:Ea; [|congruence].
  cbn [negb]. rewrite io_bind_ret, bind_existsSync, Huser. cbn [negb]. rewrite io_bind_ret.
  unfold Fs.writeFileSync.
  destruct (write_cases (Constants.os c)
              (Fs.join (Constants.os c) (Constants.DEFAULT_USER_ASSETS c) "README.txt")
              (Fs.Bytes USER_ASSETS_README) disk') as [[_ [_ Hw]]|[code Hw]].
  - rewrite Hw. f_equal. apply set_same. rewrite resolve_readme.
    now apply stat_IsFile.
  - exfalso. unfold Fs.write in Hw. rewrite resolve_readme in Hw.
    apply stat_IsFile in Hreadme. rewrite Hreadme in Hw.
    unfold Fs.parentOf in Hw. rewrite removelast_last in Hw.
    apply stat_IsDir in Huser as [es Hu]. rewrite Hu in Hw. discriminate.
Qed.

Lemma createAssetFolders_sample :
  createAssetFolders Disk.constants Disk.fresh = (Disk.prepared, Fs.Normal tt)
  /\ Fs.stat ["data"; "userAssets"; "README.txt"]%string Disk.prepared
     = Some (Fs.IsFile (Fs.Bytes USER_ASSETS_README)).
Proof.
  split; [reflexivity|].
  exact (proj1 (proj2 (proj2
           (createAssetFolders_makes_the_folders Disk.constants Disk.fresh
              Disk.prepared eq_refl)))).
Defined.

Lemma createAssetFolders_twice_sample :
  createAssetFolders Disk.constants Disk.fresh = (Disk.prepared, Fs.Normal tt)
  /\ createAssetFolders Disk.constants Disk.prepared = (Disk.prepared, Fs.Normal tt).
Proof.
  split; [reflexivity|].
  exact (createAssetFolders_twice Disk.constants Disk.fresh Disk.prepared eq_refl).
Defined.

Lemma conversion_only_adds_sample :
  convertLegacyAssets Disk.constants 3 0 Disk.legacy = (Disk.converted, Fs.Normal tt)
  /\ Fs.within ["data"; "frcData"]%string
       ["data"; "userAssets"; "Field2d_Mine"; "image.png"]%string = false
  /\ Fs.stat ["data"; "userAssets"; "Field2d_Mine"; "image.png"]%string Disk.converted
     = Some (Fs.IsFile (Fs.Bytes "PNG mine")).
Proof.
  split; [reflexivity|]. split; [reflexivity|].
  apply (proj1 (conversion_only_adds_below_the_user_folder Disk.constants 3 0 Disk.legacy
                  ["data"; "userAssets"; "Field2d_Mine"; "image.png"]%string eq_refl)).
  discriminate.
Defined.

(* ================================================================== *)
(** * [convertLegacyAssets]: the legacy folder *)

Lemma readdirSync_Dir (os : platform) (folder : string) (disk : Fs.node)
  (entries : list (string * Fs.node)) :
  Fs.lookup (Fs.resolve os folder) disk = Some (Fs.Dir entries) ->
  Fs.readdirSync os folder disk = (disk, Fs.Normal (map fst entries)).
Proof. unfold Fs.readdirSync. now intros ->. Qed.

Lemma bind_readdirSync {B : Type} (os : platform) (folder : string)
  (k : list string -> Fs.io B) (disk : Fs.node) (entries : list (string * Fs.node)) :
  Fs.lookup (Fs.resolve os folder) disk = Some (Fs.Dir entries) ->
  Fs.bind (Fs.readdirSync os folder) k disk = k (map fst entries) disk.
Proof. intros H. unfold Fs.bind. now rewrite (readdirSync_Dir _ _ _ _ H). Qed.

Lemma rmSync_Normal (os : platform) (folder : string) (disk disk' : Fs.node) :
  Fs.rmSync os folder disk = (disk', Fs.Normal tt) ->
  disk' = Fs.remove (Fs.resolve os folder) disk.
Proof.
  unfold Fs.rmSync. destruct (Fs.lookup (Fs.resolve os folder) disk); intros H;
    now inversion H.
Qed.

(** X18.  What becomes of the legacy folder.  When there is none, and when
    the user does not click Continue, [convertLegacyAssets] returns and the
    disk is as it was.  A legacy folder with at most one entry that is not
    hidden is deleted with all it holds, and the user is not asked.  Whenever
    [convertLegacyAssets] returns after it has found a legacy folder that
    the user did not keep, nothing is left at the path of the folder or
    below it. *)
Theorem legacy_folder_is_deleted_or_kept_whole (c : Constants.t) (fuel answer : nat)
  (disk : Fs.node) :
  Fs.resolve (Constants.os c) (Constants.LEGACY_ASSETS c) <> [] ->
  (Fs.stat (Fs.resolve (Constants.os c) (Constants.LEGACY_ASSETS c)) disk = None ->
   convertLegacyAssets c fuel answer disk = (disk, Fs.Normal tt))
  /\ (Fs.stat (Fs.resolve (Constants.os c) (Constants.LEGACY_ASSETS c)) disk
      = Some Fs.IsDir ->
      1 < List.length (visibleLegacy c disk) ->
      answer <> 0 ->
      convertLegacyAssets c fuel answer disk = (disk, Fs.Normal tt))
  /\ (Fs.stat (Fs.resolve (Constants.os c) (Constants.LEGACY_ASSETS c)) disk
      = Some Fs.IsDir ->
      List.length (visibleLegacy c disk) <= 1 ->
      convertLegacyAssets c fuel answer disk
      = (Fs.remove (Fs.resolve (Constants.os c) (Constants.LEGACY_ASSETS c)) disk,
         Fs.Normal tt))
  /\ (forall disk',
        convertLegacyAssets c fuel answer disk = (disk', Fs.Normal tt) ->
        Fs.stat (Fs.resolve (Constants.os c) (Constants.LEGACY_ASSETS c)) disk <> None ->
        answer = 0 \/ List.length (visibleLegacy c disk) <= 1 ->
        forall q,
          Fs.within (Fs.resolve (Constants.os c) (Constants.LEGACY_ASSETS c)) q = true ->
          Fs.stat q disk' = None).
Proof.
  intros Hroot. unfold convertLegacyAssets, visibleLegacy. cbv zeta.
  split; [|split; [|split]].
  - intros Hnone. now rewrite bind_existsSync, Hnone.
  - intros Hdir Hmany Hanswer. rewrite bind_existsSync, Hdir. cbn [negb].
    apply stat_IsDir in Hdir as [es Hes]. rewrite Hes in Hmany.
    rewrite (bind_readdirSync _ _ _ _ _ Hes).
    destruct (_ <=? 1) eqn:E; [apply Nat.leb_le in E; lia|].
    destruct (answer =? 0) eqn:Ea; [apply Nat.eqb_eq in Ea; lia | reflexivity].
  - intros Hdir Hfew. rewrite bind_existsSync, Hdir. cbn [negb].
    apply stat_IsDir in Hdir as [es Hes]. rewrite Hes in Hfew.
    rewrite (bind_readdirSync _ _ _ _ _ Hes).
    destruct (_ <=? 1) eqn:E; [|apply Nat.leb_gt in E; lia].
    unfold Fs.rmSync. now rewrite Hes.
  - intros disk' Hrun Hthere Hcase q Hq.
    rewrite bind_existsSync in Hrun.
    destruct (Fs.stat _ disk) as [k|] eqn:Es; [|congruence]. cbn [negb] in Hrun.
    apply bind_Normal in Hrun as [files [mid [Hdir Hrun]]].
    assert (mid = disk) as -> by (rewrite <- (readdirSync_fst (Constants.os c)
                                               (Constants.LEGACY_ASSETS c) disk);
                                  now rewrite Hdir).
    assert (exists es, Fs.lookup (Fs.resolve (Constants.os c)
                                    (Constants.LEGACY_ASSETS c)) disk
                       = Some (Fs.Dir es) /\ files = map fst es) as [es [Hes ->]].
    { unfold Fs.readdirSync in Hdir.
      destruct (Fs.lookup _ disk) as [[d|es]|]; try discriminate.
      exists es. split; [reflexivity | now inversion Hdir]. }
    rewrite Hes in Hcase.
    assert (Hgone : forall d d', Fs.rmSync (Constants.os c) (Constants.LEGACY_ASSETS c) d
                                 = (d', Fs.Normal tt) -> Fs.stat q d' = None).
    { intros d d' Hrm. apply rmSync_Normal in Hrm. subst d'.
      apply stat_None. now apply lookup_remove_within. }
    destruct (_ <=? 1) eqn:E; [now apply (Hgone disk)|].
    apply Nat.leb_gt in E. destruct Hcase as [->|Hfew]; [|lia].
    cbn [Nat.eqb negb] in Hrun.
    apply bind_Normal in Hrun as [files' [mid' [_ Hrun]]].
    apply bind_Normal in Hrun as [u [mid'' [_ Hrun]]].
    now apply (Hgone mid'').
Qed.

Lemma legacy_folder_sample :
  Fs.resolve (Constants.os Disk.constants) (Constants.LEGACY_ASSETS Disk.constants)
  <> []
  /\ convertLegacyAssets Disk.constants 0 1 Disk.unused
     = (Fs.Dir [("data", Fs.Dir [("userAssets", Fs.Dir [])])]%string, Fs.Normal tt)
  /\ convertLegacyAssets Disk.constants 3 1 Disk.legacy = (Disk.legacy, Fs.Normal tt).
Proof.
  split; [discriminate|].
  assert (H := legacy_folder_is_deleted_or_kept_whole Disk.constants).
  split.
  - apply (proj1 (proj2 (proj2 (H 0 1 Disk.unused ltac:(discriminate))))).
    + reflexivity.
    + apply Nat.leb_le. reflexivity.
  - apply (proj1 (proj2 (H 3 1 Disk.legacy ltac:(discriminate)))).
    + reflexivity.
    + apply Nat.ltb_lt. reflexivity.
    + discriminate.
Defined.

(* ================================================================== *)
(** * [convertLegacyAssets]: what is converted *)

Section Ok.

Variable os : platform.

Lemma mkdirSync_ok (folder : string) (disk : Fs.node) :
  Fs.stat (Fs.resolve os folder) disk = None ->
  Fs.stat (removelast (Fs.resolve os folder)) disk = Some Fs.IsDir ->
  exists disk',
    Fs.mkdirSync os folder disk = (disk', Fs.Normal tt)
    /\ Fs.stat (Fs.resolve os folder) disk' = Some Fs.IsDir
    /\ forall q, q <> Fs.resolve os folder -> Fs.stat q disk' = Fs.stat q disk.
Proof.
  intros Hn Hp.
  destruct (mkdirSync_cases os folder disk) as [[_ [_ Hm]]|[code Hm]].
  - eexists. split; [exact Hm|].
    assert (Hv : vacant (Fs.resolve os folder) disk).
    { unfold vacant. apply stat_None in Hn. now rewrite Hn. }
    destruct (set_effect _ (Fs.Dir []) disk I Hv Hp) as [Hl Hframe].
    split; [unfold Fs.stat; now rewrite Hl | exact Hframe].
  - exfalso. unfold Fs.mkdirSync in Hm. apply stat_None in Hn. rewrite Hn in Hm.
    apply parentOf_Normal in Hp. rewrite Hp in Hm. discriminate.
Qed.

Lemma write_ok (file : string) (data : Fs.content) (disk : Fs.node) :
  Fs.stat (Fs.resolve os file) disk <> Some Fs.IsDir ->
  Fs.stat (removelast (Fs.resolve os file)) disk = Some Fs.IsDir ->
  exists disk',
    Fs.write os file data disk = (disk', Fs.Normal tt)
    /\ Fs.stat (Fs.resolve os file) disk' = Some (Fs.IsFile data)
    /\ forall q, q <> Fs.resolve os file -> Fs.stat q disk' = Fs.stat q disk.
Proof.
  intros Hn Hp.
  destruct (write_cases os file data disk) as [[Hv [_ Hw]]|[code Hw]].
  - eexists. split; [exact Hw|].
    destruct (set_effect _ (Fs.File data) disk I Hv Hp) as [Hl Hframe].
    split; [unfold Fs.stat; now rewrite Hl | exact Hframe].
  - exfalso. unfold Fs.write in Hw. apply parentOf_Normal in Hp. rewrite Hp in Hw.
    unfold Fs.stat in Hn.
    destruct (Fs.lookup (Fs.resolve os file) disk) as [[d|es]|];
      try discriminate. now apply Hn.
Qed.

Lemma copyFileSync_ok (source target : string) (data : Fs.content) (disk : Fs.node) :
  Fs.stat (Fs.resolve os source) disk = Some (Fs.IsFile data) ->
  Fs.stat (Fs.resolve os target) disk <> Some Fs.IsDir ->
  Fs.stat (removelast (Fs.resolve os target)) disk = Some Fs.IsDir ->
  exists disk',
    Fs.copyFileSync os source target disk = (disk', Fs.Normal tt)
    /\ Fs.stat (Fs.resolve os target) disk' = Some (Fs.IsFile data)
    /\ forall q, q <> Fs.resolve os target -> Fs.stat q disk' = Fs.stat q disk.
Proof.
  intros Hs Hn Hp. unfold Fs.copyFileSync. apply stat_IsFile in Hs. rewrite Hs.
  now apply write_ok.
Qed.

Lemma readJsonSync_ok (file : string) (value : json) (disk : Fs.node) :
  Fs.stat (Fs.resolve os file) disk = Some (Fs.IsFile (Fs.Json value)) ->
  Fs.readJsonSync os file disk = (disk, Fs.Normal value).
Proof. intros H. unfold Fs.readJsonSync. apply stat_IsFile in H. now rewrite H. Qed.

Lemma resolve_child (folder name : string) :
  noSep (sep os) name = true -> name <> ""%string ->
  Fs.resolve os (Fs.join os folder name) = Fs.resolve os folder ++ [name].
Proof. intros Hn Hne. now rewrite resolve_join, (resolve_name _ _ Hn Hne). Qed.

End Ok.

Lemma bind_eq {A B : Type} (m : Fs.io A) (k : A -> Fs.io B) (disk mid : Fs.node)
  (a : A) :
  m disk = (mid, Fs.Normal a) -> Fs.bind m k disk = k a mid.
Proof. intros H. unfold Fs.bind. now rewrite H. Qed.

Lemma io_bind_assoc {A B C : Type} (m : Fs.io A) (k : A -> Fs.io B)
  (k' : B -> Fs.io C) (disk : Fs.node) :
  Fs.bind (Fs.bind m k) k' disk = Fs.bind m (fun a => Fs.bind (k a) k') disk.
Proof. unfold Fs.bind. now destruct (m disk) as [mid [a| |]]. Qed.

Lemma app_two {A : Type} (l : list A) (a b : A) : l ++ [a; b] = (l ++ [a]) ++ [b].
Proof. now rewrite <- app_assoc. Qed.

Lemma append_inv_head (a b b' : string) : (a ++ b)%string = (a ++ b')%string -> b = b'.
Proof. induction a as [|x a IH]; simpl; intros H; [exact H | inversion H; auto]. Qed.

Lemma noSep_app (c : ascii) (a b : string) :
  noSep c (a ++ b) = noSep c a && noSep c b.
Proof. apply all_app. Qed.

Lemma title_canonical (kind rest ext : string) :
  noSep "_" kind = true ->
  noSep "." ext = true ->
  title (kind ++ "_" ++ rest ++ "." ++ ext) = rest
  /\ targetName (kind ++ "_" ++ rest ++ "." ++ ext)
     = (kind ++ "_" ++ allowedChars rest)%string.
Proof.
  intros Hk He.
  assert (Ht : title (kind ++ String "_" (rest ++ String "." ext)) = rest).
  { rewrite (title_after_underscore _ _ Hk), split_app_sep, (split_noSep_one _ _ He).
    now rewrite removelast_last, join_split. }
  split; [exact Ht|].
  unfold targetName. simpl append in *. rewrite Ht.
  now rewrite (split_noSep_app _ _ _ Hk).
Qed.

Lemma allowedChars_noSep (c : ascii) (t : string) :
  keptByConversion c = false -> noSep c (allowedChars t) = true.
Proof.
  intros Hc. unfold noSep. apply (all_impl keptByConversion).
  - intros x Hx. apply negb_true_iff. apply Ascii.eqb_neq. intros ->. congruence.
  - unfold allowedChars.
    rewrite (filter_ext _ _ allowed_is_kept). apply all_filter.
Qed.

Lemma startsWith_app (p s : string) : Str.startsWith (p ++ s) p = true.
Proof. unfold Str.startsWith. apply prefix_app. now exists s. Qed.

Section Single.

Variable c : Constants.t.
Variable kind : SingleAsset.
Variable t : string.

Local Abbreviation os := (Constants.os c).
Local Abbreviation user :=
  (Fs.resolve (Constants.os c) (Constants.DEFAULT_USER_ASSETS c)).
Local Abbreviation legacy :=
  (Fs.resolve (Constants.os c) (Constants.LEGACY_ASSETS c)).
Local Abbreviation file := (kindOf kind ++ "_" ++ t ++ ".json")%string.
Local Abbreviation source := (kindOf kind ++ "_" ++ t ++ legacyExtension kind)%string.
Local Abbreviation folder := (kindOf kind ++ "_" ++ allowedChars t)%string.

Hypothesis plain : noSep (sep (Constants.os c)) t = true.

Lemma single_title : title file = t /\ targetName file = folder.
Proof. destruct kind; apply (title_canonical _ t "json"); reflexivity. Qed.

Lemma single_file_name :
  noSep (sep os) file = true /\ file <> ""%string.
Proof.
  split; [|destruct kind; discriminate].
  rewrite !noSep_app, plain. destruct kind, os; reflexivity.
Qed.

Lemma single_source_name :
  noSep (sep os) source = true /\ source <> ""%string.
Proof.
  split; [|destruct kind; discriminate].
  rewrite !noSep_app, plain. destruct kind, os; reflexivity.
Qed.

Lemma single_folder_name :
  noSep (sep os) folder = true /\ folder <> ""%string.
Proof.
  split; [|destruct kind; discriminate].
  rewrite !noSep_app, allowedChars_noSep; [|now destruct os].
  destruct kind, os; reflexivity.
Qed.

Lemma single_source_is_no_folder : source <> folder.
Proof.
  intros H.
  assert (Hdot : noSep "." folder = true).
  { rewrite !noSep_app, allowedChars_noSep; [|reflexivity]. now destruct kind. }
  rewrite <- H in Hdot. rewrite !noSep_app in Hdot.
  destruct kind; simpl in Hdot; rewrite !andb_false_r in Hdot; discriminate.
Qed.

Lemma single_copyAssets (fuel : nat) (targetPath : string) :
  copyAssets c fuel file t targetPath
  = Fs.copyFileSync os (Fs.join os (Constants.LEGACY_ASSETS c) source)
      (Fs.join os targetPath (assetName kind)).
Proof.
  unfold copyAssets. cbv zeta. destruct kind.
  - change (kindOf Legacy2d ++ "_" ++ t ++ ".json")%string
      with ("Field2d_" ++ (t ++ ".json"))%string.
    now rewrite startsWith_app.
  - change (Str.startsWith (kindOf Legacy3d ++ "_" ++ t ++ ".json") "Field2d_")
      with false.
    change (kindOf Legacy3d ++ "_" ++ t ++ ".json")%string
      with ("Field3d_" ++ (t ++ ".json"))%string.
    now rewrite startsWith_app.
  - change (Str.startsWith (kindOf LegacyJoystick ++ "_" ++ t ++ ".json") "Field2d_")
      with false.
    change (Str.startsWith (kindOf LegacyJoystick ++ "_" ++ t ++ ".json") "Field3d_")
      with false.
    change (Str.startsWith (kindOf LegacyJoystick ++ "_" ++ t ++ ".json") "Robot_")
      with false.
    change (kindOf LegacyJoystick ++ "_" ++ t ++ ".json")%string
      with ("Joystick_" ++ (t ++ ".json"))%string.
    now rewrite startsWith_app.
Qed.

Lemma single_isJoystick : Str.startsWith file "Joystick_" = isLegacyJoystick kind.
Proof.
  destruct kind; try reflexivity.
  apply (startsWith_app "Joystick_" (t ++ ".json")).
Qed.

Lemma single_endsWith : Str.endsWith file ".json" = true.
Proof.
  apply endsWith_app. exists (kindOf kind ++ "_" ++ t)%string.
  now rewrite !append_assoc.
Qed.

Lemma assetName_name :
  noSep (sep os) (assetName kind) = true /\ assetName kind <> ""%string
  /\ assetName kind <> "config.json"%string.
Proof. destruct kind, os; repeat split; discriminate || reflexivity. Qed.

Lemma single_converted (fuel : nat) (config written : json) (asset : Fs.content)
  (disk : Fs.node) :
  updateConfig (isLegacyJoystick kind) t config = Ok written ->
  Fs.stat user disk = Some Fs.IsDir ->
  Fs.stat (user ++ [folder]) disk = None ->
  Fs.stat (legacy ++ [file]) disk = Some (Fs.IsFile (Fs.Json config)) ->
  Fs.stat (legacy ++ [source]) disk = Some (Fs.IsFile asset) ->
  exists disk',
    convertFile c fuel file disk = (disk', Fs.Normal tt)
    /\ Fs.stat (user ++ [folder]) disk' = Some Fs.IsDir
    /\ Fs.stat (user ++ [folder; assetName kind]) disk' = Some (Fs.IsFile asset)
    /\ Fs.stat (user ++ [folder; "config.json"%string]) disk'
       = Some (Fs.IsFile (Fs.Json written))
    /\ forall q,
         q <> user ++ [folder] ->
         q <> user ++ [folder; assetName kind] ->
         q <> user ++ [folder; "config.json"%string] ->
         Fs.stat q disk' = Fs.stat q disk.
Proof.
  intros Hwritten Huser Hnew Hconfig Hasset.
  destruct single_title as [Htitle Htarget].
  destruct single_file_name as [Hf1 Hf2].
  destruct single_source_name as [Hs1 Hs2].
  destruct single_folder_name as [Hd1 Hd2].
  destruct assetName_name as [Ha1 [Ha2 Ha3]].
  unfold convertFile. rewrite single_endsWith. cbn [negb]. cbv zeta.
  rewrite Htitle, Htarget, single_isJoystick.
  rewrite (bind_eq _ _ disk disk config);
    [|apply readJsonSync_ok; now rewrite (resolve_child _ _ _ Hf1 Hf2)].
  rewrite bind_existsSync, (resolve_child _ _ _ Hd1 Hd2), Hnew.
  (* the target folder *)
  destruct (mkdirSync_ok os
              (Fs.join os (Constants.DEFAULT_USER_ASSETS c) folder) disk)
    as [d1 [Hmk [Hdir1 Hframe1]]];
    rewrite ?(resolve_child _ _ _ Hd1 Hd2), ?removelast_last; try assumption.
  rewrite (resolve_child _ _ _ Hd1 Hd2) in Hdir1, Hframe1.
  rewrite (bind_eq _ _ _ _ _ Hmk).
  (* the asset *)
  rewrite single_copyAssets.
  assert (Hasset1 : Fs.stat (legacy ++ [source]) d1 = Some (Fs.IsFile asset)).
  { rewrite Hframe1; [exact Hasset|]. intros H. apply app_inj_tail in H as [_ H].
    now apply single_source_is_no_folder. }
  assert (Hbelow1 : forall name, Fs.stat ((user ++ [folder]) ++ [name]) d1 = None).
  { intros name. rewrite Hframe1; [now apply stat_below_None|].
    intros H. symmetry in H. now apply app_one_neq in H. }
  destruct (copyFileSync_ok os
              (Fs.join os (Constants.LEGACY_ASSETS c) source)
              (Fs.join os (Fs.join os (Constants.DEFAULT_USER_ASSETS c) folder)
                 (assetName kind)) asset d1)
    as [d2 [Hcopy [Hfile2 Hframe2]]];
    rewrite ?(resolve_child _ _ _ Ha1 Ha2), ?(resolve_child _ _ _ Hd1 Hd2),
      ?(resolve_child _ _ _ Hs1 Hs2), ?removelast_last;
    try assumption; [now rewrite Hbelow1|].
  rewrite (resolve_child _ _ _ Ha1 Ha2), (resolve_child _ _ _ Hd1 Hd2)
    in Hfile2, Hframe2.
  rewrite (bind_eq _ _ _ _ _ Hcopy).
  (* the descriptor *)
  rewrite Hwritten. cbn [Fs.lift]. rewrite io_bind_ret.
  assert (Hconfig_name : noSep (sep os) "config.json" = true) by now destruct os.
  assert (Hne : (user ++ [folder]) ++ ["config.json"%string]
                <> (user ++ [folder]) ++ [assetName kind]).
  { intros H. apply app_inj_tail in H as [_ H]. now apply Ha3. }
  destruct (write_ok os
              (Fs.join os (Fs.join os (Constants.DEFAULT_USER_ASSETS c) folder)
                 "config.json") (Fs.Json written) d2)
    as [d3 [Hwrite [Hfile3 Hframe3]]];
    rewrite ?(resolve_child _ _ _ Hconfig_name), ?(resolve_child _ _ _ Hd1 Hd2),
      ?removelast_last; try discriminate.
  { rewrite (Hframe2 _ Hne), Hbelow1. discriminate. }
  { rewrite Hframe2; [exact Hdir1 | apply app_one_neq]. }
  rewrite (resolve_child _ _ _ Hconfig_name), (resolve_child _ _ _ Hd1 Hd2)
    in Hfile3, Hframe3; try discriminate.
  exists d3. unfold Fs.writeJsonSync. split; [exact Hwrite|].
  rewrite <- !app_assoc in *. simpl app in *.
  split; [|split; [|split; [exact Hfile3|]]].
  - rewrite Hframe3, Hframe2; [exact Hdir1| |].
    + intros H. apply (f_equal (@List.length string)) in H.
      rewrite !length_app in H. simpl in H. lia.
    + intros H. apply (f_equal (@List.length string)) in H.
      rewrite !length_app in H. simpl in H. lia.
  - rewrite Hframe3; [exact Hfile2|].
    intros H. now apply Hne.
  - intros q Hq1 Hq2 Hq3. now rewrite Hframe3, Hframe2, Hframe1.
Qed.

Lemma single_file_is_no_folder : legacy ++ [file] <> user ++ [folder].
Proof.
  intros H. apply app_inj_tail in H as [_ H].
  assert (Hdot : noSep "." folder = true).
  { rewrite !noSep_app, allowedChars_noSep; [|reflexivity]. now destruct kind. }
  rewrite <- H in Hdot. rewrite !noSep_app in Hdot.
  destruct kind; simpl in Hdot; rewrite !andb_false_r in Hdot; discriminate.
Qed.

(** The callback up to the copy of the asset. *)
Lemma single_started (fuel : nat) (config : json) (disk : Fs.node) :
  Fs.stat user disk = Some Fs.IsDir ->
  Fs.stat (user ++ [folder]) disk = None ->
  Fs.stat (legacy ++ [file]) disk = Some (Fs.IsFile (Fs.Json config)) ->
  exists d1,
    Fs.stat (user ++ [folder]) d1 = Some Fs.IsDir
    /\ (forall q, q <> user ++ [folder] -> Fs.stat q d1 = Fs.stat q disk)
    /\ convertFile c fuel file d1 = (d1, Fs.Normal tt)
    /\ convertFile c fuel file disk
       = (_ <~ Fs.copyFileSync os (Fs.join os (Constants.LEGACY_ASSETS c) source)
                 (Fs.join os
                    (Fs.join os (Constants.DEFAULT_USER_ASSETS c) folder)
                    (assetName kind)) ;;
          config <~ Fs.lift (updateConfig (isLegacyJoystick kind) t config) ;;
          Fs.writeJsonSync os
            (Fs.join os (Fs.join os (Constants.DEFAULT_USER_ASSETS c) folder)
               "config.json") config) d1.
Proof.
  intros Huser Hnew Hconfig.
  destruct single_title as [Htitle Htarget].
  destruct single_file_name as [Hf1 Hf2].
  destruct single_folder_name as [Hd1 Hd2].
  destruct (mkdirSync_ok os
              (Fs.join os (Constants.DEFAULT_USER_ASSETS c) folder) disk)
    as [d1 [Hmk [Hdir1 Hframe1]]];
    rewrite ?(resolve_child _ _ _ Hd1 Hd2), ?removelast_last; try assumption.
  rewrite (resolve_child _ _ _ Hd1 Hd2) in Hdir1, Hframe1.
  exists d1. split; [exact Hdir1|]. split; [exact Hframe1|].
  unfold convertFile. rewrite single_endsWith. cbn [negb]. cbv zeta.
  rewrite Htitle, Htarget, single_isJoystick. split.
  - rewrite (bind_eq _ _ d1 d1 config).
    + now rewrite bind_existsSync, (resolve_child _ _ _ Hd1 Hd2), Hdir1.
    + apply readJsonSync_ok. rewrite (resolve_child _ _ _ Hf1 Hf2), Hframe1;
        [exact Hconfig | apply single_file_is_no_folder].
  - rewrite (bind_eq _ _ disk disk config);
      [|apply readJsonSync_ok; now rewrite (resolve_child _ _ _ Hf1 Hf2)].
    rewrite bind_existsSync, (resolve_child _ _ _ Hd1 Hd2), Hnew.
    cbn [negb]. rewrite (bind_eq _ _ _ _ _ Hmk). now rewrite single_copyAssets.
Qed.

Lemma single_without_asset (fuel : nat) (config : json) (disk : Fs.node) :
  Fs.stat user disk = Some Fs.IsDir ->
  Fs.stat (user ++ [folder]) disk = None ->
  Fs.stat (legacy ++ [file]) disk = Some (Fs.IsFile (Fs.Json config)) ->
  Fs.stat (legacy ++ [source]) disk = None ->
  exists disk',
    convertFile c fuel file disk = (disk', Fs.Abrupt (Fs.SystemError Fs.ENOENT))
    /\ Fs.stat (user ++ [folder]) disk' = Some Fs.IsDir
    /\ (forall q, q <> user ++ [folder] -> Fs.stat q disk' = Fs.stat q disk)
    /\ convertFile c fuel file disk' = (disk', Fs.Normal tt).
Proof.
  intros Huser Hnew Hconfig Hasset.
  destruct (single_started fuel config disk Huser Hnew Hconfig)
    as [d1 [Hdir1 [Hframe1 [Hagain Hrun]]]].
  destruct single_source_name as [Hs1 Hs2].
  exists d1. split; [|repeat split; assumption].
  rewrite Hrun. unfold Fs.bind at 1. unfold Fs.copyFileSync.
  rewrite (resolve_child _ _ _ Hs1 Hs2).
  assert (Hnone : Fs.lookup (legacy ++ [source]) d1 = None).
  { apply stat_None. rewrite Hframe1; [exact Hasset|].
    intros H. apply app_inj_tail in H as [_ H]. now apply single_source_is_no_folder. }
  now rewrite Hnone.
Qed.

Lemma single_with_primitive (fuel : nat) (config : json) (asset : Fs.content)
  (disk : Fs.node) :
  isLegacyJoystick kind = false ->
  primitive config = true ->
  Fs.stat user disk = Some Fs.IsDir ->
  Fs.stat (user ++ [folder]) disk = None ->
  Fs.stat (legacy ++ [file]) disk = Some (Fs.IsFile (Fs.Json config)) ->
  Fs.stat (legacy ++ [source]) disk = Some (Fs.IsFile asset) ->
  exists disk',
    convertFile c fuel file disk = (disk', Fs.Abrupt (Fs.Exception TypeError))
    /\ Fs.stat (user ++ [folder; assetName kind]) disk' = Some (Fs.IsFile asset)
    /\ Fs.stat (user ++ [folder; "config.json"%string]) disk' = None
    /\ convertFile c fuel file disk' = (disk', Fs.Normal tt).
Proof.
  intros Hkind Hprimitive Huser Hnew Hconfig Hasset.
  destruct (single_started fuel config disk Huser Hnew Hconfig)
    as [d1 [Hdir1 [Hframe1 [_ Hrun]]]].
  destruct single_title as [Htitle Htarget].
  destruct single_file_name as [Hf1 Hf2].
  destruct single_source_name as [Hs1 Hs2].
  destruct single_folder_name as [Hd1 Hd2].
  destruct assetName_name as [Ha1 [Ha2 Ha3]].
  assert (Hbelow1 : forall name, Fs.stat ((user ++ [folder]) ++ [name]) d1 = None).
  { intros name. rewrite Hframe1; [now apply stat_below_None|].
    intros H. symmetry in H. now apply app_one_neq in H. }
  destruct (copyFileSync_ok os
              (Fs.join os (Constants.LEGACY_ASSETS c) source)
              (Fs.join os (Fs.join os (Constants.DEFAULT_USER_ASSETS c) folder)
                 (assetName kind)) asset d1)
    as [d2 [Hcopy [Hfile2 Hframe2]]];
    rewrite ?(resolve_child _ _ _ Ha1 Ha2), ?(resolve_child _ _ _ Hd1 Hd2),
      ?(resolve_child _ _ _ Hs1 Hs2), ?removelast_last;
    try assumption.
  { rewrite Hframe1; [exact Hasset|]. intros H. apply app_inj_tail in H as [_ H].
    now apply single_source_is_no_folder. }
  { now rewrite Hbelow1. }
  rewrite (resolve_child _ _ _ Ha1 Ha2), (resolve_child _ _ _ Hd1 Hd2)
    in Hfile2, Hframe2.
  exists d2. split; [|split; [now rewrite app_two|split]].
  - rewrite Hrun, (bind_eq _ _ _ _ _ Hcopy), Hkind.
    unfold updateConfig, assignName. now destruct config.
  - rewrite app_two, Hframe2, Hbelow1; [reflexivity|].
    intros H. apply app_inj_tail in H as [_ H]. now apply Ha3.
  - unfold convertFile. rewrite single_endsWith. cbn [negb]. cbv zeta.
    rewrite Htarget. rewrite (bind_eq _ _ d2 d2 config).
    + rewrite bind_existsSync, (resolve_child _ _ _ Hd1 Hd2), Hframe2, Hdir1;
        [reflexivity | apply app_one_neq].
    + apply readJsonSync_ok. rewrite (resolve_child _ _ _ Hf1 Hf2), Hframe2, Hframe1;
        [exact Hconfig | apply single_file_is_no_folder|].
      intros E. apply app_inj_tail in E as [_ E]. destruct kind; discriminate.
Qed.

End Single.

Lemma updateConfig_total (isJoystick : bool) (title : string) (config : json) :
  isJoystick = true \/ primitive config = false ->
  exists written, updateConfig isJoystick title config = Ok written.
Proof.
  unfold updateConfig. intros [->|Hc]; [eexists; reflexivity|].
  destruct isJoystick; [eexists; reflexivity|].
  destruct config; try discriminate; eexists; reflexivity.
Qed.

(** X19.  The callback of the conversion on the descriptor of a 2D field,
    of a 3D field or of a joystick whose title holds no path separator.
    When the default user folder is there, the target folder is not, and
    the legacy folder holds the descriptor and, under the same name with
    the extension .png or .glb, the asset, the callback returns: the target
    folder then holds the asset under the name image.png or model.glb, with
    the content it had, and [config.json] with the updated descriptor, and
    nothing else on the disk has changed.  The descriptor is updated
    whenever it is no [null] and no primitive, and always for a joystick. *)
Theorem single_asset_is_converted (c : Constants.t) (kind : SingleAsset) (t : string)
  (fuel : nat) (config : json) (asset : Fs.content) (disk : Fs.node) :
  noSep (sep (Constants.os c)) t = true ->
  isLegacyJoystick kind = true \/ primitive config = false ->
  Fs.stat (Fs.resolve (Constants.os c) (Constants.DEFAULT_USER_ASSETS c)) disk
  = Some Fs.IsDir ->
  Fs.stat (Fs.resolve (Constants.os c) (Constants.DEFAULT_USER_ASSETS c)
           ++ [kindOf kind ++ "_" ++ allowedChars t]%string) disk = None ->
  Fs.stat (Fs.resolve (Constants.os c) (Constants.LEGACY_ASSETS c)
           ++ [kindOf kind ++ "_" ++ t ++ ".json"]%string) disk
  = Some (Fs.IsFile (Fs.Json config)) ->
  Fs.stat (Fs.resolve (Constants.os c) (Constants.LEGACY_ASSETS c)
           ++ [kindOf kind ++ "_" ++ t ++ legacyExtension kind]%string) disk
  = Some (Fs.IsFile asset) ->
  exists written disk',
    updateConfig (isLegacyJoystick kind) t config = Ok written
    /\ convertFile c fuel (kindOf kind ++ "_" ++ t ++ ".json") disk
       = (disk', Fs.Normal tt)
    /\ Fs.stat (Fs.resolve (Constants.os c) (Constants.DEFAULT_USER_ASSETS c)
                ++ [kindOf kind ++ "_" ++ allowedChars t]%string) disk'
       = Some Fs.IsDir
    /\ Fs.stat (Fs.resolve (Constants.os c) (Constants.DEFAULT_USER_ASSETS c)
                ++ [kindOf kind ++ "_" ++ allowedChars t; assetName kind]%string) disk'
       = Some (Fs.IsFile asset)
    /\ Fs.stat (Fs.resolve (Constants.os c) (Constants.DEFAULT_USER_ASSETS c)
                ++ [kindOf kind ++ "_" ++ allowedChars t; "config.json"]%string) disk'
       = Some (Fs.IsFile (Fs.Json written))
    /\ forall q,
         q <> Fs.resolve (Constants.os c) (Constants.DEFAULT_USER_ASSETS c)
              ++ [kindOf kind ++ "_" ++ allowedChars t]%string ->
         q <> Fs.resolve (Constants.os c) (Constants.DEFAULT_USER_ASSETS c)
              ++ [kindOf kind ++ "_" ++ allowedChars t; assetName kind]%string ->
         q <> Fs.resolve (Constants.os c) (Constants.DEFAULT_USER_ASSETS c)
              ++ [kindOf kind ++ "_" ++ allowedChars t; "config.json"]%string ->
         Fs.stat q disk' = Fs.stat q disk.
Proof.
  intros Hplain Hconfig Huser Hnew Hfile Hasset.
  destruct (updateConfig_total _ t config Hconfig) as [written Hw].
  destruct (single_converted c kind t Hplain fuel config written asset disk
              Hw Huser Hnew Hfile Hasset) as [disk' H].
  exists written, disk'. split; [exact Hw | exact H].
Qed.

Lemma single_asset_sample :
  exists written disk',
    updateConfig false "2024 Field" (Sample.field2dJson "Old name") = Ok written
    /\ convertFile Disk.constants 0 "Field2d_2024 Field.json" Disk.legacy
       = (disk', Fs.Normal tt)
    /\ Fs.stat ["data"; "userAssets"; "Field2d_2024Field"; "image.png"]%string disk'
       = Some (Fs.IsFile (Fs.Bytes "PNG field")).
Proof.
  destruct (single_asset_is_converted Disk.constants Legacy2d "2024 Field" 0
              (Sample.field2dJson "Old name") (Fs.Bytes "PNG field") Disk.legacy
              eq_refl (or_intror eq_refl) eq_refl eq_refl eq_refl eq_refl)
    as [written [disk' [Hw [Hrun [_ [Hasset _]]]]]].
  exists written, disk'. repeat split; assumption.
Defined.

(* ================================================================== *)
(** * [convertLegacyAssets]: the parts of a robot *)

Lemma to_uint_nonnil (n : nat) : Nat.to_uint n <> Decimal.Nil.
Proof.
  intros H. assert (n = 0) as -> by (rewrite <- (Unsigned.of_to n), H; reflexivity).
  discriminate.
Qed.

Lemma ofIndex_inj (i j : nat) : Str.ofIndex i = Str.ofIndex j -> i = j.
Proof.
  unfold Str.ofIndex. intros H. apply Unsigned.to_uint_inj.
  assert (Hi := NilZero.usu _ (to_uint_nonnil i)).
  assert (Hj := NilZero.usu _ (to_uint_nonnil j)).
  rewrite H in Hi. congruence.
Qed.

Lemma ofIndex_digits (i : nat) : Str.all Uri.isDigit (Str.ofIndex i) = true.
Proof.
  unfold Str.ofIndex, NilZero.string_of_uint.
  assert (H : forall d, Str.all Uri.isDigit (NilEmpty.string_of_uint d) = true).
  { induction d; simpl; auto. }
  destruct (Nat.to_uint i); try apply H. reflexivity.
Qed.

Lemma ofIndex_noSep (c : ascii) (i : nat) :
  Uri.isDigit c = false -> noSep c (Str.ofIndex i) = true.
Proof.
  intros Hc. unfold noSep. apply (all_impl Uri.isDigit); [|apply ofIndex_digits].
  intros x Hx. apply negb_true_iff. apply Ascii.eqb_neq. intros ->. congruence.
Qed.

Lemma append_inv_tail (a b s : string) : (a ++ s)%string = (b ++ s)%string -> a = b.
Proof.
  revert b; induction a as [|x a IH]; intros [|y b] H; simpl in H.
  - reflexivity.
  - apply (f_equal String.length) in H. simpl in H. rewrite length_append in H. lia.
  - apply (f_equal String.length) in H. simpl in H. rewrite length_append in H. lia.
  - inversion H. f_equal. now apply IH.
Qed.

Section Robot.

Variable c : Constants.t.
Variable t : string.

Local Abbreviation os := (Constants.os c).
Local Abbreviation user :=
  (Fs.resolve (Constants.os c) (Constants.DEFAULT_USER_ASSETS c)).
Local Abbreviation legacy :=
  (Fs.resolve (Constants.os c) (Constants.LEGACY_ASSETS c)).
Local Abbreviation file := ("Robot_" ++ t ++ ".json")%string.
Local Abbreviation folder := ("Robot_" ++ allowedChars t)%string.
Local Abbreviation targetPath :=
  (Fs.join (Constants.os c) (Constants.DEFAULT_USER_ASSETS c)
     ("Robot_" ++ allowedChars t)).

Hypothesis plain : noSep (sep (Constants.os c)) t = true.

Lemma partSource_name (i : nat) :
  noSep (sep os) (partSource t i) = true /\ partSource t i <> ""%string.
Proof.
  split; [|discriminate]. unfold partSource.
  rewrite !noSep_app, plain, ofIndex_noSep; destruct os; reflexivity.
Qed.

Lemma partTarget_name (i : nat) :
  noSep (sep os) (partTarget i) = true /\ partTarget i <> ""%string.
Proof.
  split; [|discriminate]. unfold partTarget.
  rewrite !noSep_app, ofIndex_noSep; destruct os; reflexivity.
Qed.

Lemma partTarget_inj (i j : nat) : partTarget i = partTarget j -> i = j.
Proof.
  unfold partTarget. intros H. apply append_inv_head in H.
  apply append_inv_tail in H. now apply ofIndex_inj.
Qed.

Lemma robot_folder_name :
  noSep (sep os) folder = true /\ folder <> ""%string.
Proof.
  split; [|discriminate].
  rewrite !noSep_app, allowedChars_noSep; destruct os; reflexivity.
Qed.

Lemma resolve_partTarget (i : nat) :
  Fs.resolve os (Fs.join os targetPath (partTarget i))
  = (user ++ [folder]) ++ [partTarget i].
Proof.
  destruct (partTarget_name i) as [H1 H2]. destruct robot_folder_name as [H3 H4].
  now rewrite (resolve_child _ _ _ H1 H2), (resolve_child _ _ _ H3 H4).
Qed.

Lemma resolve_partSource (i : nat) :
  Fs.resolve os (Fs.join os (Constants.LEGACY_ASSETS c) (partSource t i))
  = legacy ++ [partSource t i].
Proof. destruct (partSource_name i) as [H1 H2]. now apply resolve_child. Qed.

Lemma source_is_no_target (i j : nat) :
  legacy ++ [partSource t i] <> (user ++ [folder]) ++ [partTarget j].
Proof. intros H. apply app_inj_tail in H as [_ H]. discriminate. Qed.

Section Loop.

Variable parts : list Fs.content.
Variable entry : Fs.node.

Hypothesis folder_there : Fs.stat (user ++ [folder]) entry = Some Fs.IsDir.
Hypothesis targets_free :
  forall i, Fs.stat ((user ++ [folder]) ++ [partTarget i]) entry = None.
Hypothesis sources_there :
  forall i, i < List.length parts ->
            Fs.stat (legacy ++ [partSource t i]) entry
            = Some (Fs.IsFile (nth i parts (Fs.Bytes ""))).
Hypothesis sources_end :
  Fs.stat (legacy ++ [partSource t (List.length parts)]) entry = None.

Lemma copyParts_ok (k fuel index : nat) (disk : Fs.node) :
  index + k = List.length parts ->
  k < fuel ->
  partsCopied c t parts entry index disk ->
  exists disk',
    copyParts c fuel index t targetPath disk = (disk', Fs.Normal tt)
    /\ partsCopied c t parts entry (List.length parts) disk'.
Proof.
  revert fuel index disk. induction k as [|k IH]; intros fuel index disk Hk Hfuel [I1 I2].
  - destruct fuel as [|fuel]; [lia|]. assert (index = List.length parts) as -> by lia.
    exists disk. split; [|now split].
    cbn [copyParts]. cbv zeta. fold (partSource t (List.length parts)).
    rewrite bind_existsSync, resolve_partSource, I1, sources_end; [reflexivity|].
    intros j _. apply source_is_no_target.
  - destruct fuel as [|fuel]; [lia|].
    assert (Hi : index < List.length parts) by lia.
    cbn [copyParts]. cbv zeta. fold (partSource t index). fold (partTarget index).
    assert (Hsource : Fs.stat (legacy ++ [partSource t index]) disk
                      = Some (Fs.IsFile (nth index parts (Fs.Bytes "")))).
    { rewrite I1; [now apply sources_there|]. intros j _. apply source_is_no_target. }
    rewrite bind_existsSync, resolve_partSource, Hsource. cbn [negb].
    destruct (copyFileSync_ok os
                (Fs.join os (Constants.LEGACY_ASSETS c) (partSource t index))
                (Fs.join os targetPath (partTarget index))
                (nth index parts (Fs.Bytes "")) disk)
      as [d1 [Hcopy [Hfile Hframe]]];
      rewrite ?resolve_partSource, ?resolve_partTarget, ?removelast_last;
      try assumption.
    { rewrite I1, targets_free; [discriminate|].
      intros j Hj H. apply app_inj_tail in H as [_ H]. apply partTarget_inj in H. lia. }
    { rewrite I1; [exact folder_there|]. intros j _. apply app_one_neq. }
    rewrite resolve_partTarget in Hfile, Hframe.
    rewrite (bind_eq _ _ _ _ _ Hcopy).
    apply (IH fuel (S index) d1); [lia | lia |]. split.
    + intros q Hq. rewrite Hframe; [|apply Hq; lia]. apply I1.
      intros j Hj. apply Hq. lia.
    + intros j Hj. destruct (Nat.eq_dec j index) as [->|Hne]; [exact Hfile|].
      rewrite Hframe; [apply I2; lia|].
      intros H. apply app_inj_tail in H as [_ H]. apply partTarget_inj in H. lia.
Qed.

End Loop.

Lemma robot_title : title file = t /\ targetName file = folder.
Proof. apply (title_canonical "Robot" t "json"); reflexivity. Qed.

Lemma robot_file_name : noSep (sep os) file = true /\ file <> ""%string.
Proof.
  split; [|discriminate]. rewrite !noSep_app, plain. destruct os; reflexivity.
Qed.

Lemma robot_model_name :
  noSep (sep os) ("Robot_" ++ t ++ ".glb") = true
  /\ ("Robot_" ++ t ++ ".glb")%string <> ""%string.
Proof.
  split; [|discriminate]. rewrite !noSep_app, plain. destruct os; reflexivity.
Qed.

Lemma robot_copyAssets (fuel : nat) (path : string) :
  copyAssets c fuel file t path
  = (_ <~ Fs.copyFileSync os
            (Fs.join os (Constants.LEGACY_ASSETS c) ("Robot_" ++ t ++ ".glb"))
            (Fs.join os path "model.glb") ;;
     copyParts c fuel 0 t path).
Proof.
  unfold copyAssets. cbv zeta.
  change (Str.startsWith ("Robot_" ++ t ++ ".json") "Field2d_") with false.
  change (Str.startsWith ("Robot_" ++ t ++ ".json") "Field3d_") with false.
  now rewrite (startsWith_app "Robot_" (t ++ ".json")).
Qed.

Lemma dotted_is_no_folder (name : string) :
  noSep "." name = false -> legacy ++ [name] <> user ++ [folder].
Proof.
  intros Hdot H. apply app_inj_tail in H as [_ H]. subst name.
  rewrite !noSep_app, allowedChars_noSep in Hdot; [discriminate | reflexivity].
Qed.

Lemma partSource_dotted (i : nat) : noSep "." (partSource t i) = false.
Proof. unfold partSource. rewrite !noSep_app. simpl. now rewrite !andb_false_r. Qed.

Lemma robot_converted (fuel : nat) (config written : json) (model : Fs.content)
  (parts : list Fs.content) (disk : Fs.node) :
  updateConfig false t config = Ok written ->
  List.length parts < fuel ->
  Fs.stat user disk = Some Fs.IsDir ->
  Fs.stat (user ++ [folder]) disk = None ->
  Fs.stat (legacy ++ [file]) disk = Some (Fs.IsFile (Fs.Json config)) ->
  Fs.stat (legacy ++ ["Robot_" ++ t ++ ".glb"]%string) disk = Some (Fs.IsFile model) ->
  (forall i, i < List.length parts ->
             Fs.stat (legacy ++ [partSource t i]) disk
             = Some (Fs.IsFile (nth i parts (Fs.Bytes "")))) ->
  Fs.stat (legacy ++ [partSource t (List.length parts)]) disk = None ->
  exists disk',
    convertFile c fuel file disk = (disk', Fs.Normal tt)
    /\ Fs.stat (user ++ [folder; "model.glb"%string]) disk'
       = Some (Fs.IsFile model)
    /\ (forall i, i < List.length parts ->
                  Fs.stat (user ++ [folder; partTarget i]) disk'
                  = Some (Fs.IsFile (nth i parts (Fs.Bytes ""))))
    /\ Fs.stat (user ++ [folder; partTarget (List.length parts)]) disk' = None
    /\ Fs.stat (user ++ [folder; "config.json"%string]) disk'
       = Some (Fs.IsFile (Fs.Json written))
    /\ forall q, Fs.within (user ++ [folder]) q = false ->
                 Fs.stat q disk' = Fs.stat q disk.
Proof.
  intros Hwritten Hfuel Huser Hnew Hconfig Hmodel Hparts Hend.
  destruct robot_title as [Htitle Htarget].
  destruct robot_file_name as [Hf1 Hf2].
  destruct robot_model_name as [Hm1 Hm2].
  destruct robot_folder_name as [Hd1 Hd2].
  assert (Hdir_name : forall name, name = "model.glb"%string \/ name = "config.json"%string ->
                                   noSep (sep os) name = true /\ name <> ""%string).
  { intros name [->| ->]; split; try discriminate; now destruct os. }
  destruct (Hdir_name "model.glb"%string (or_introl eq_refl)) as [Hg1 Hg2].
  destruct (Hdir_name "config.json"%string (or_intror eq_refl)) as [Hc1 Hc2].
  unfold convertFile.
  replace (Str.endsWith file ".json") with true
    by (symmetry; apply endsWith_app; exists ("Robot_" ++ t)%string;
        now rewrite !append_assoc).
  cbn [negb]. cbv zeta. rewrite Htitle, Htarget.
  change (Str.startsWith ("Robot_" ++ t ++ ".json") "Joystick_") with false.
  rewrite (bind_eq _ _ disk disk config);
    [|apply readJsonSync_ok; now rewrite (resolve_child _ _ _ Hf1 Hf2)].
  rewrite bind_existsSync, (resolve_child _ _ _ Hd1 Hd2), Hnew.
  (* the target folder *)
  destruct (mkdirSync_ok os targetPath disk) as [d1 [Hmk [Hdir1 Hframe1]]];
    rewrite ?(resolve_child _ _ _ Hd1 Hd2), ?removelast_last; try assumption.
  rewrite (resolve_child _ _ _ Hd1 Hd2) in Hdir1, Hframe1.
  rewrite (bind_eq _ _ _ _ _ Hmk).
  assert (Hbelow1 : forall name, Fs.stat ((user ++ [folder]) ++ [name]) d1 = None).
  { intros name. rewrite Hframe1; [now apply stat_below_None|].
    intros H. symmetry in H. now apply app_one_neq in H. }
  (* the model *)
  rewrite robot_copyAssets.
  destruct (copyFileSync_ok os
              (Fs.join os (Constants.LEGACY_ASSETS c) ("Robot_" ++ t ++ ".glb"))
              (Fs.join os targetPath "model.glb") model d1)
    as [d2 [Hcopy [Hfile2 Hframe2]]];
    rewrite ?(resolve_child _ _ _ Hg1 Hg2), ?(resolve_child _ _ _ Hd1 Hd2),
      ?(resolve_child _ _ _ Hm1 Hm2), ?removelast_last; try assumption.
  { rewrite Hframe1; [exact Hmodel|]. apply dotted_is_no_folder.
    rewrite !noSep_app. simpl. now rewrite !andb_false_r. }
  { now rewrite Hbelow1. }
  rewrite (resolve_child _ _ _ Hg1 Hg2), (resolve_child _ _ _ Hd1 Hd2)
    in Hfile2, Hframe2.
  rewrite io_bind_assoc, (bind_eq _ _ _ _ _ Hcopy).
  (* the parts *)
  assert (Hkeep : forall name,
             noSep "." name = false -> name <> "model.glb"%string ->
             Fs.stat (legacy ++ [name]) d2 = Fs.stat (legacy ++ [name]) disk).
  { intros name Hdot Hne. rewrite Hframe2, Hframe1; [reflexivity| |].
    - now apply dotted_is_no_folder.
    - intros H. apply app_inj_tail in H as [_ H]. now apply Hne. }
  destruct (copyParts_ok parts d2) with (k := List.length parts) (fuel := fuel)
                                        (index := 0) (disk := d2)
    as [d3 [Hloop [I1 I2]]]; try lia.
  { rewrite Hframe2; [exact Hdir1 | apply app_one_neq]. }
  { intros i. rewrite Hframe2, Hbelow1; [reflexivity|].
    intros H. apply app_inj_tail in H as [_ H]. discriminate. }
  { intros i Hi. rewrite Hkeep; [now apply Hparts | apply partSource_dotted|].
    discriminate. }
  { rewrite Hkeep; [exact Hend | apply partSource_dotted | discriminate]. }
  { split; [reflexivity | intros j Hj; lia]. }
  rewrite (bind_eq _ _ _ _ _ Hloop).
  (* the descriptor *)
  rewrite Hwritten. cbn [Fs.lift]. rewrite io_bind_ret.
  assert (Hnot_part : forall name j,
             name = "model.glb"%string \/ name = "config.json"%string ->
             (user ++ [folder]) ++ [name] <> (user ++ [folder]) ++ [partTarget j]).
  { intros name j [->| ->] H; apply app_inj_tail in H as [_ H]; discriminate. }
  destruct (write_ok os (Fs.join os targetPath "config.json") (Fs.Json written) d3)
    as [d4 [Hwrite [Hfile4 Hframe4]]];
    rewrite ?(resolve_child _ _ _ Hc1 Hc2), ?(resolve_child _ _ _ Hd1 Hd2),
      ?removelast_last.
  { rewrite I1, Hframe2, Hbelow1; [discriminate| |].
    - intros H. apply app_inj_tail in H as [_ H]. discriminate.
    - intros j _. apply Hnot_part. now right. }
  { rewrite I1, Hframe2; [exact Hdir1 | apply app_one_neq|].
    intros j _. apply app_one_neq. }
  rewrite (resolve_child _ _ _ Hc1 Hc2), (resolve_child _ _ _ Hd1 Hd2)
    in Hfile4, Hframe4.
  exists d4. unfold Fs.writeJsonSync. split; [exact Hwrite|].
  split; [|split; [|split; [|split; [now rewrite app_two|]]]].
  - rewrite app_two, Hframe4, I1; [exact Hfile2| |].
    + intros j _. apply Hnot_part. now left.
    + intros H. apply app_inj_tail in H as [_ H]. discriminate.
  - intros i Hi. rewrite app_two, Hframe4; [now apply I2|].
    intros H. symmetry in H. revert H. apply Hnot_part. now right.
  - rewrite app_two, Hframe4, I1, Hframe2, Hbelow1; [reflexivity| | |].
    + intros H. apply app_inj_tail in H as [_ H]. discriminate.
    + intros j Hj H. apply app_inj_tail in H as [_ H]. apply partTarget_inj in H. lia.
    + intros H. symmetry in H. revert H. apply Hnot_part. now right.
  - intros q Hq.
    assert (Hout : forall name, q <> (user ++ [folder]) ++ [name]).
    { intros name ->. now rewrite within_app in Hq. }
    rewrite Hframe4, I1, Hframe2, Hframe1; auto.
    intros ->. now rewrite within_refl in Hq.
Qed.

End Robot.

(** X20.  The callback of the conversion on the descriptor of a robot.
    Besides the model, the parts of the robot are copied for as long as the
    legacy folder holds the next one: when it holds the parts of index 0 to
    [n - 1] and none of index [n], the loop ends after [n + 1] tests, and
    the target folder holds the model, the [n] parts under the names
    [model_0.glb] to [model_<n-1>.glb], each with its content, no part of
    index [n], and the updated descriptor.  Nothing outside the target
    folder has changed. *)
Theorem robot_parts_are_converted (c : Constants.t) (t : string) (fuel : nat)
  (config : json) (model : Fs.content) (parts : list Fs.content) (disk : Fs.node) :
  noSep (sep (Constants.os c)) t = true ->
  primitive config = false ->
  List.length parts < fuel ->
  Fs.stat (Fs.resolve (Constants.os c) (Constants.DEFAULT_USER_ASSETS c)) disk
  = Some Fs.IsDir ->
  Fs.stat (Fs.resolve (Constants.os c) (Constants.DEFAULT_USER_ASSETS c)
           ++ ["Robot_" ++ allowedChars t]%string) disk = None ->
  Fs.stat (Fs.resolve (Constants.os c) (Constants.LEGACY_ASSETS c)
           ++ ["Robot_" ++ t ++ ".json"]%string) disk
  = Some (Fs.IsFile (Fs.Json config)) ->
  Fs.stat (Fs.resolve (Constants.os c) (Constants.LEGACY_ASSETS c)
           ++ ["Robot_" ++ t ++ ".glb"]%string) disk
  = Some (Fs.IsFile model) ->
  (forall i, i < List.length parts ->
             Fs.stat (Fs.resolve (Constants.os c) (Constants.LEGACY_ASSETS c)
                      ++ [partSource t i]) disk
             = Some (Fs.IsFile (nth i parts (Fs.Bytes "")))) ->
  Fs.stat (Fs.resolve (Constants.os c) (Constants.LEGACY_ASSETS c)
           ++ [partSource t (List.length parts)]) disk = None ->
  exists written disk',
    updateConfig false t config = Ok written
    /\ convertFile c fuel ("Robot_" ++ t ++ ".json") disk = (disk', Fs.Normal tt)
    /\ Fs.stat (Fs.resolve (Constants.os c) (Constants.DEFAULT_USER_ASSETS c)
                ++ ["Robot_" ++ allowedChars t; "model.glb"]%string) disk'
       = Some (Fs.IsFile model)
    /\ (forall i, i < List.length parts ->
                  Fs.stat (Fs.resolve (Constants.os c) (Constants.DEFAULT_USER_ASSETS c)
                           ++ [("Robot_" ++ allowedChars t)%string; partTarget i])
                    disk'
                  = Some (Fs.IsFile (nth i parts (Fs.Bytes ""))))
    /\ Fs.stat (Fs.resolve (Constants.os c) (Constants.DEFAULT_USER_ASSETS c)
                ++ [("Robot_" ++ allowedChars t)%string;
                    partTarget (List.length parts)]) disk' = None
    /\ Fs.stat (Fs.resolve (Constants.os c) (Constants.DEFAULT_USER_ASSETS c)
                ++ ["Robot_" ++ allowedChars t; "config.json"]%string) disk'
       = Some (Fs.IsFile (Fs.Json written))
    /\ forall q,
         Fs.within (Fs.resolve (Constants.os c) (Constants.DEFAULT_USER_ASSETS c)
                    ++ ["Robot_" ++ allowedChars t]%string) q = false ->
         Fs.stat q disk' = Fs.stat q disk.
Proof.
  intros Hplain Hconfig Hfuel Huser Hnew Hfile Hmodel Hparts Hend.
  destruct (updateConfig_total false t config (or_intror Hconfig)) as [written Hw].
  destruct (robot_converted c t Hplain fuel config written model parts disk
              Hw Hfuel Huser Hnew Hfile Hmodel Hparts Hend) as [disk' H].
  exists written, disk'. split; [exact Hw | exact H].
Qed.

Lemma robot_parts_sample :
  exists written disk',
    updateConfig false "Arm" Sample.robotJson = Ok written
    /\ convertFile Disk.constants 3 "Robot_Arm.json" Disk.legacy
       = (disk', Fs.Normal tt)
    /\ Fs.stat ["data"; "userAssets"; "Robot_Ar"; "model_1.glb"]%string disk'
       = Some (Fs.IsFile (Fs.Bytes "glTF arm 1"))
    /\ Fs.stat ["data"; "userAssets"; "Robot_Ar"; "model_2.glb"]%string disk' = None.
Proof.
  destruct (robot_parts_are_converted Disk.constants "Arm" 3 Sample.robotJson
              (Fs.Bytes "glTF arm")
              [Fs.Bytes "glTF arm 0"; Fs.Bytes "glTF arm 1"] Disk.legacy)
    as [written [disk' [Hw [Hrun [_ [Hparts [Hend _]]]]]]];
    try reflexivity.
  - simpl. lia.
  - intros [|[|i]] Hi; try reflexivity. simpl in Hi. lia.
  - exists written, disk'. split; [exact Hw|]. split; [exact Hrun|].
    split; [|exact Hend]. apply (Hparts 1). simpl. lia.
Defined.

(* ================================================================== *)
(** * The loader on the converted folder *)

Lemma getEntry_In {A : Type} (name : string) (v : A) (entries : list (string * A)) :
  Fs.getEntry name entries = Some v -> In (name, v) entries.
Proof.
  induction entries as [|[k x] entries IH]; simpl; [discriminate|].
  destruct (String.eqb k name) eqn:E.
  - apply String.eqb_eq in E. subst k. intros H. inversion H. now left.
  - intros H. right. now apply IH.
Qed.

Lemma listed_as_directory (c : Constants.t) (bundled : string)
  (stations : list (Q * Q)) (compare : string -> string -> Z) (disk : Fs.node)
  (folder name : string) :
  Fs.stat (Fs.resolve (Constants.os c) folder ++ [name]) disk = Some Fs.IsDir ->
  In {| Dirent.name := name; Dirent.isDirectory := true |}
    (readdirSync (diskEnv c bundled stations compare disk) folder).
Proof.
  intros H. apply stat_IsDir in H as [es H]. rewrite lookup_app in H. simpl.
  destruct (Fs.lookup (Fs.resolve (Constants.os c) folder) disk) as [[d|entries]|];
    try discriminate.
  simpl in H. destruct (Fs.getEntry name entries) as [child|] eqn:Eg; [|discriminate].
  inversion H; subst child. apply getEntry_In in Eg.
  apply (in_map (fun entry =>
                   {| Dirent.name := fst entry;
                      Dirent.isDirectory :=
                        match snd entry with
                        | Fs.Dir _ => true
                        | Fs.File _ => false
                        end |})) in Eg.
  exact Eg.
Qed.

Lemma folder_is_of_kind (kind : SingleAsset) (t : string) :
  Str.startsWith (kindOf kind ++ "_" ++ allowedChars t) "." = false
  /\ Str.startsWith (kindOf kind ++ "_" ++ allowedChars t) "Field2d_"
     = match kind with Legacy2d => true | _ => false end
  /\ Str.startsWith (kindOf kind ++ "_" ++ allowedChars t) "Field3d_"
     = match kind with Legacy3d => true | _ => false end
  /\ Str.startsWith (kindOf kind ++ "_" ++ allowedChars t) "Robot_" = false
  /\ Str.startsWith (kindOf kind ++ "_" ++ allowedChars t) "Joystick_"
     = match kind with LegacyJoystick => true | _ => false end.
Proof.
  destruct kind; repeat split; try reflexivity.
  - apply (startsWith_app "Field2d_").
  - apply (startsWith_app "Field3d_").
  - apply (startsWith_app "Joystick_").
Qed.

Lemma updateConfig_object (isJoystick : bool) (t : string) (config written : json) :
  updateConfig isJoystick t config = Ok written -> notAnObject written = false.
Proof.
  unfold updateConfig. destruct isJoystick; [intros H; now inversion H|].
  destruct config; simpl; intros H; inversion H; reflexivity.
Qed.

(** X21.  The conversion and the loader together.  Once the callback of
    the conversion has run on the descriptor of a 2D field, of a 3D field
    or of a joystick as in X19, [loadAssets] finds the target folder among
    the directories of the default user folder, as a candidate of the kind
    of the legacy descriptor; it reads back from [config.json] the
    descriptor that was written, finds the asset where it looks for it, and
    so gives the candidate the outcome of that descriptor.  The display
    name it reads is the title, unless a legacy descriptor other than a
    joystick is an array. *)
Theorem converted_asset_is_loaded (c : Constants.t) (kind : SingleAsset) (t : string)
  (fuel : nat) (config : json) (asset : Fs.content) (disk : Fs.node)
  (bundled : string) (stations : list (Q * Q)) (compare : string -> string -> Z) :
  noSep (sep (Constants.os c)) t = true ->
  isLegacyJoystick kind = true \/ primitive config = false ->
  Fs.stat (Fs.resolve (Constants.os c) (Constants.DEFAULT_USER_ASSETS c)) disk
  = Some Fs.IsDir ->
  Fs.stat (Fs.resolve (Constants.os c) (Constants.DEFAULT_USER_ASSETS c)
           ++ [kindOf kind ++ "_" ++ allowedChars t]%string) disk = None ->
  Fs.stat (Fs.resolve (Constants.os c) (Constants.LEGACY_ASSETS c)
           ++ [kindOf kind ++ "_" ++ t ++ ".json"]%string) disk
  = Some (Fs.IsFile (Fs.Json config)) ->
  Fs.stat (Fs.resolve (Constants.os c) (Constants.LEGACY_ASSETS c)
           ++ [kindOf kind ++ "_" ++ t ++ legacyExtension kind]%string) disk
  = Some (Fs.IsFile asset) ->
  exists written disk',
    updateConfig (isLegacyJoystick kind) t config = Ok written
    /\ convertFile c fuel (kindOf kind ++ "_" ++ t ++ ".json") disk
       = (disk', Fs.Normal tt)
    /\ (let env := diskEnv c bundled stations compare disk' in
        let folder := (kindOf kind ++ "_" ++ allowedChars t)%string in
        let object := {| Dirent.name := folder; Dirent.isDirectory := true |} in
        In (DEFAULT_USER_ASSETS env) (roots env)
        /\ In object (readdirSync env (DEFAULT_USER_ASSETS env))
        /\ isCandidate object = true
        /\ readFileSync env (pathJoin env (DEFAULT_USER_ASSETS env) folder "config.json")
           = Some written
        /\ existsSync env
             (pathJoin env (DEFAULT_USER_ASSETS env) folder (assetName kind)) = true
        /\ candidateOutcome env (DEFAULT_USER_ASSETS env) folder
           = loadAs kind env (DEFAULT_USER_ASSETS env) folder written
        /\ ((exists items, isLegacyJoystick kind = false /\ config = JArr items)
            \/ stringField "name" written "" = Ok t)).
Proof.
  intros Hplain Hconfig Huser Hnew Hfile Hasset.
  destruct (updateConfig_total _ t config Hconfig) as [written Hw].
  destruct (single_converted c kind t Hplain fuel config written asset disk
              Hw Huser Hnew Hfile Hasset)
    as [disk' [Hrun [Hdir [Hcopied [Hdescriptor _]]]]].
  exists written, disk'. split; [exact Hw|]. split; [exact Hrun|].
  cbv zeta.
  destruct (single_folder_name c kind t Hplain) as [Hd1 Hd2].
  destruct (assetName_name c kind t Hplain) as [Ha1 [Ha2 _]].
  assert (Hc1 : noSep (sep (Constants.os c)) "config.json" = true)
    by now destruct (Constants.os c).
  destruct (folder_is_of_kind kind t) as [Hhidden [H2 [H3 [Hr Hj]]]].
  assert (Hread : readFileSync (diskEnv c bundled stations compare disk')
                    (pathJoin (diskEnv c bundled stations compare disk')
                       (Constants.DEFAULT_USER_ASSETS c)
                       (kindOf kind ++ "_" ++ allowedChars t) "config.json")
                  = Some written).
  { cbn [readFileSync pathJoin diskEnv].
    rewrite (resolve_child _ _ _ Hc1), (resolve_child _ _ _ Hd1 Hd2); try discriminate.
    now rewrite <- app_two, Hdescriptor. }
  assert (Hexists : existsSync (diskEnv c bundled stations compare disk')
                      (pathJoin (diskEnv c bundled stations compare disk')
                         (Constants.DEFAULT_USER_ASSETS c)
                         (kindOf kind ++ "_" ++ allowedChars t) "config.json")
                    = true).
  { cbn [existsSync pathJoin diskEnv].
    rewrite (resolve_child _ _ _ Hc1), (resolve_child _ _ _ Hd1 Hd2); try discriminate.
    now rewrite <- app_two, Hdescriptor. }
  split; [now left|]. split; [now apply listed_as_directory|].
  split; [unfold isCandidate; cbn [Dirent.isDirectory Dirent.name]; now rewrite Hhidden|].
  split; [exact Hread|]. split; [|split].
  - cbn [existsSync pathJoin DEFAULT_USER_ASSETS diskEnv].
    rewrite (resolve_child _ _ _ Ha1 Ha2), (resolve_child _ _ _ Hd1 Hd2).
    now rewrite <- app_two, Hcopied.
  - unfold candidateOutcome. cbn [DEFAULT_USER_ASSETS diskEnv] in *.
    rewrite Hexists, Hread, (updateConfig_object _ _ _ _ Hw), H2, H3, Hr, Hj.
    cbn [negb]. now destruct kind.
  - unfold updateConfig in Hw. destruct (isLegacyJoystick kind) eqn:Ek.
    + right. inversion Hw. reflexivity.
    + destruct config; try discriminate.
      * left. eauto.
      * right. cbn [assignName] in Hw. inversion Hw. unfold stringField. cbn [field bind].
        now rewrite assoc_setProperty.
Qed.

Lemma converted_asset_is_loaded_sample :
  exists written disk',
    updateConfig false "2024 Field" (Sample.field2dJson "Old name") = Ok written
    /\ convertFile Disk.constants 0 "Field2d_2024 Field.json" Disk.legacy
       = (disk', Fs.Normal tt)
    /\ candidateOutcome (Disk.env disk') "/data/userAssets" "Field2d_2024Field"
       = loadAs Legacy2d (Disk.env disk') "/data/userAssets" "Field2d_2024Field" written
    /\ stringField "name" written "" = Ok "2024 Field"%string.
Proof.
  destruct (converted_asset_is_loaded Disk.constants Legacy2d "2024 Field" 0
              (Sample.field2dJson "Old name") (Fs.Bytes "PNG field") Disk.legacy
              "/bundled" (repeat (0, 0)%Q 6) Sample.compareOrdinal
              eq_refl (or_intror eq_refl) eq_refl eq_refl eq_refl eq_refl)
    as [written [disk' [Hw [Hrun [_ [_ [_ [_ [_ [Hload Hname]]]]]]]]]].
  exists written, disk'. split; [exact Hw|]. split; [exact Hrun|].
  split; [exact Hload|].
  destruct Hname as [[items [_ Hitems]]|Hname]; [discriminate | exact Hname].
Defined.

Example converted_disk_is_loaded :
  convertLegacyAssets Disk.constants 3 0 Disk.legacy = (Disk.converted, Fs.Normal tt)
  /\ option_map
       (fun assets =>
          (map Config2d.name (field2ds assets), map Config3dRobot.name (robots assets),
           loadFailures assets))
       (match loadAssets (Disk.env Disk.converted) with
        | Ok assets => Some assets
        | Throw _ => None
        end)
     = Some (["Mine"; "2024 Field"], ["Arm"], [])%string.
Proof. split; reflexivity. Qed.

(* ================================================================== *)
(** * [convertLegacyAssets]: a conversion that stops half way *)

(** X22.  The callback of the conversion creates the target folder before
    it copies the asset and updates the descriptor.  When the asset of a 2D
    field, of a 3D field or of a joystick is not in the legacy folder,
    [fs.copyFileSync] throws ENOENT and leaves the target folder empty;
    when the descriptor of a 2D or 3D field is [null] or a primitive, the
    assignment of the name throws [TypeError] and leaves the target folder
    with the asset and without [config.json].  Nothing catches either: the
    conversion stops there and the legacy folder stays.  In both cases the
    callback, run again on the same descriptor, finds the target folder,
    skips the descriptor and returns. *)
Theorem conversion_stops_half_way (c : Constants.t) (kind : SingleAsset) (t : string)
  (fuel : nat) (config : json) (disk : Fs.node) :
  noSep (sep (Constants.os c)) t = true ->
  Fs.stat (Fs.resolve (Constants.os c) (Constants.DEFAULT_USER_ASSETS c)) disk
  = Some Fs.IsDir ->
  Fs.stat (Fs.resolve (Constants.os c) (Constants.DEFAULT_USER_ASSETS c)
           ++ [kindOf kind ++ "_" ++ allowedChars t]%string) disk = None ->
  Fs.stat (Fs.resolve (Constants.os c) (Constants.LEGACY_ASSETS c)
           ++ [kindOf kind ++ "_" ++ t ++ ".json"]%string) disk
  = Some (Fs.IsFile (Fs.Json config)) ->
  (Fs.stat (Fs.resolve (Constants.os c) (Constants.LEGACY_ASSETS c)
            ++ [kindOf kind ++ "_" ++ t ++ legacyExtension kind]%string) disk = None ->
   exists disk',
     convertFile c fuel (kindOf kind ++ "_" ++ t ++ ".json") disk
     = (disk', Fs.Abrupt (Fs.SystemError Fs.ENOENT))
     /\ Fs.stat (Fs.resolve (Constants.os c) (Constants.DEFAULT_USER_ASSETS c)
                 ++ [kindOf kind ++ "_" ++ allowedChars t]%string) disk'
        = Some Fs.IsDir
     /\ (forall q,
           q <> Fs.resolve (Constants.os c) (Constants.DEFAULT_USER_ASSETS c)
                ++ [kindOf kind ++ "_" ++ allowedChars t]%string ->
           Fs.stat q disk' = Fs.stat q disk)
     /\ convertFile c fuel (kindOf kind ++ "_" ++ t ++ ".json") disk'
        = (disk', Fs.Normal tt))
  /\ (forall asset,
        Fs.stat (Fs.resolve (Constants.os c) (Constants.LEGACY_ASSETS c)
                 ++ [kindOf kind ++ "_" ++ t ++ legacyExtension kind]%string) disk
        = Some (Fs.IsFile asset) ->
        isLegacyJoystick kind = false ->
        primitive config = true ->
        exists disk',
          convertFile c fuel (kindOf kind ++ "_" ++ t ++ ".json") disk
          = (disk', Fs.Abrupt (Fs.Exception TypeError))
          /\ Fs.stat (Fs.resolve (Constants.os c) (Constants.DEFAULT_USER_ASSETS c)
                      ++ [kindOf kind ++ "_" ++ allowedChars t; assetName kind]%string)
               disk'
             = Some (Fs.IsFile asset)
          /\ Fs.stat (Fs.resolve (Constants.os c) (Constants.DEFAULT_USER_ASSETS c)
                      ++ [kindOf kind ++ "_" ++ allowedChars t; "config.json"]%string)
               disk' = None
          /\ convertFile c fuel (kindOf kind ++ "_" ++ t ++ ".json") disk'
             = (disk', Fs.Normal tt)).
Proof.
  intros Hplain Huser Hnew Hfile. split.
  - intros Hasset.
    exact (single_without_asset c kind t Hplain fuel config disk Huser Hnew Hfile Hasset).
  - intros asset Hasset Hkind Hprimitive.
    exact (single_with_primitive c kind t Hplain fuel config asset disk
             Hkind Hprimitive Huser Hnew Hfile Hasset).
Qed.

Lemma conversion_stops_half_way_sample :
  exists disk',
    convertFile Disk.constants 0 "Joystick_Pad.json" Disk.orphan
    = (disk', Fs.Abrupt (Fs.SystemError Fs.ENOENT))
    /\ Fs.stat ["data"; "userAssets"; "Joystick_Pad"]%string disk' = Some Fs.IsDir
    /\ convertFile Disk.constants 0 "Joystick_Pad.json" disk' = (disk', Fs.Normal tt).
Proof.
  destruct (proj1 (conversion_stops_half_way Disk.constants LegacyJoystick "Pad" 0
                     (JArr []) Disk.orphan eq_refl eq_refl eq_refl eq_refl) eq_refl)
    as [disk' [Hrun [Hdir [_ Hagain]]]].
  exists disk'. repeat split; assumption.
Defined.

(** The first run stops at the joystick; the second skips the joystick,
    whose folder is there, and stops at the robot, whose model is missing. *)
Example orphans_stop_the_conversion :
  snd (convertLegacyAssets Disk.constants 3 0 Disk.orphan)
  = Fs.Abrupt (Fs.SystemError Fs.ENOENT)
  /\ snd (convertLegacyAssets Disk.constants 3 0
            (fst (convertLegacyAssets Disk.constants 3 0 Disk.orphan)))
     = Fs.Abrupt (Fs.SystemError Fs.ENOENT).
Proof. split; reflexivity. Qed.

(* ================================================================== *)
(** * Paths without special characters *)

Lemma split_all (q : ascii -> bool) (c : ascii) (s : string) :
  Str.all q s = true ->
  Forall (fun segment => Str.all q segment = true) (Str.split c s).
Proof.
  induction s as [|x s IH]; simpl; intros H; [repeat constructor|].
  apply andb_true_iff in H as [Hx Hs]. specialize (IH Hs).
  destruct (x =? c)%char; [constructor; [reflexivity | exact IH]|].
  destruct (Str.split c s) as [|h t]; [repeat constructor; simpl; now rewrite Hx|].
  inversion IH; subst. constructor; [simpl; now rewrite Hx | assumption].
Qed.

Lemma encode_plain (s : string) :
  Str.all Uri.unreserved s = true -> Uri.encodeURIComponent s = s.
Proof.
  induction s as [|x s IH]; simpl; [reflexivity|]. intros H.
  apply andb_true_iff in H as [Hx Hs]. now rewrite Hx, IH.
Qed.

Lemma mapiFrom_id {A : Type} (f : nat -> A -> A) (l : list A) (n : nat) :
  Forall (fun x => forall i, f i x = x) l -> mapiFrom n f l = l.
Proof.
  intros H. revert n; induction H as [|x l Hx Hl IH]; intros n; simpl;
    [reflexivity | now rewrite Hx, IH].
Qed.

Lemma mapiFrom_length {A B : Type} (f : nat -> A -> B) (l : list A) (n : nat) :
  List.length (mapiFrom n f l) = List.length l.
Proof. revert n; induction l as [|x l IH]; intros n; simpl; [reflexivity | now rewrite IH]. Qed.

(** X23.  [encodePath] keeps the number of segments of a path, and it
    leaves a path as it is when the path holds nothing but letters, digits,
    the marks [- _ . ! ~ * ' ( )] and the separator. *)
Theorem plain_paths_are_unchanged (os : platform) (pathStr : string) :
  List.length (Str.split (sep os) (encodePath os pathStr))
  = List.length (Str.split (sep os) pathStr)
  /\ (Str.all (plainChar os) pathStr = true -> encodePath os pathStr = pathStr).
Proof.
  split.
  - rewrite split_encodePath. apply mapiFrom_length.
  - intros Hplain. unfold encodePath, mapi.
    rewrite mapiFrom_id; [apply join_split|].
    assert (Hall := split_all _ (sep os) _ Hplain).
    assert (Hsep := split_noSep (sep os) pathStr).
    rewrite Forall_forall in *. intros segment Hin index.
    destruct (_ && _); [reflexivity|]. apply encode_plain.
    specialize (Hall segment Hin). specialize (Hsep segment Hin).
    unfold noSep in Hsep. clear Hin. induction segment as [|x s IH]; [reflexivity|].
    simpl in *. apply andb_true_iff in Hall as [Hx Hs].
    apply andb_true_iff in Hsep as [Hx' Hs']. rewrite (IH Hs Hs'), andb_true_r.
    unfold plainChar in Hx. apply negb_true_iff in Hx'. rewrite Hx' in Hx.
    now rewrite orb_false_r in Hx.
Qed.

Lemma plain_paths_sample :
  encodePath posix "/opt/AdvantageScope/Robot_KitBot_(2024)/model.glb"
  = "/opt/AdvantageScope/Robot_KitBot_(2024)/model.glb"%string.
Proof.
  apply (proj2 (plain_paths_are_unchanged posix
                  "/opt/AdvantageScope/Robot_KitBot_(2024)/model.glb")).
  reflexivity.
Defined.

(* ================================================================== *)
(** * The order of the listing of a folder *)

Lemma compareEntries_before (a b : Dirent.t) :
  Dirent.name a <> Dirent.name b ->
  ((compareEntries a b <= 0)%Z -> Str.lt (Dirent.name b) (Dirent.name a) = true)
  /\ ((compareEntries a b > 0)%Z -> Str.lt (Dirent.name a) (Dirent.name b) = true).
Proof.
  intros Hne. unfold compareEntries.
  destruct (Str.lt (Dirent.name a) (Dirent.name b)) eqn:Eab.
  - split; [lia | reflexivity].
  - destruct (Str_lt_total _ _ Hne) as [Hab|Hba]; [congruence|].
    rewrite Hba. split; [reflexivity | lia].
Qed.

Lemma sorted_listing (l1 l2 : list Dirent.t) :
  Permutation l1 l2 ->
  NoDup (map Dirent.name l1) ->
  sortBy compareEntries l1 = sortBy compareEntries l2.
Proof.
  intros Hperm Hnodup.
  assert (Hnodup2 : NoDup (map Dirent.name l2)).
  { eapply Permutation_NoDup; [apply Permutation_map; exact Hperm | exact Hnodup]. }
  apply (sorted_unique
           (fun a b => Str.lt (Dirent.name b) (Dirent.name a) = true)).
  - intros a b c Hab Hbc. exact (Str_lt_trans _ _ _ Hbc Hab).
  - intros a. now rewrite Str_lt_irrefl.
  - apply (sortBy_sorted Dirent.name); try assumption.
    + intros a b c Hab Hbc. exact (Str_lt_trans _ _ _ Hbc Hab).
    + exact compareEntries_before.
  - apply (sortBy_sorted Dirent.name); try assumption.
    + intros a b c Hab Hbc. exact (Str_lt_trans _ _ _ Hbc Hab).
    + exact compareEntries_before.
  - etransitivity; [apply sortBy_perm|].
    etransitivity; [exact Hperm|]. symmetry. apply sortBy_perm.
Qed.

(** X24.  The collection that [loadAssets] returns does not depend on the
    order in which [fs.readdirSync] lists the entries of a folder: the
    entries, whose names are distinct, are sorted by name before they are
    visited. *)
Theorem listing_order_is_immaterial (env : Env) (listing : string -> list Dirent.t) :
  (forall folder, Permutation (readdirSync env folder) (listing folder)) ->
  (forall folder, NoDup (map Dirent.name (readdirSync env folder))) ->
  loadAssets (withListing env listing) = loadAssets env.
Proof.
  intros Hperm Hnodup.
  assert (Hfolder : forall assets folder,
             scanFolder (withListing env listing) assets folder
             = scanFolder env assets folder).
  { intros assets folder. unfold scanFolder. cbn [readdirThrows readdirSync withListing].
    rewrite <- (sorted_listing _ _ (Hperm folder) (Hnodup folder)).
    destruct (readdirThrows env folder); [reflexivity|].
    generalize (sortBy compareEntries (readdirSync env folder)). intros l.
    revert assets. induction l as [|object l IH]; intros assets; [reflexivity|].
    simpl. change (processEntry (withListing env listing) folder assets object)
             with (processEntry env folder assets object).
    destruct (processEntry env folder assets object); simpl;
      [apply IH | reflexivity]. }
  assert (Hscan : scan (withListing env listing) = scan env).
  { unfold scan.
    change (userAssetsPath (withListing env listing)) with (userAssetsPath env).
    change (roots (withListing env listing)) with (roots env).
    destruct (userAssetsPath env) as [[[| | | folder | |]|]|e]; try reflexivity.
    cbn [bind]. generalize (roots env) emptyAssets.
    induction l as [|root l IH]; intros assets; [reflexivity|].
    simpl. rewrite Hfolder.
    destruct (scanFolder env assets root); simpl; [apply IH | reflexivity]. }
  unfold loadAssets. rewrite Hscan. reflexivity.
Qed.

Lemma twoJoysticks_listing (folder : string) :
  readdirSync Sample.twoJoysticks folder
  = if String.eqb "/user" folder
    then [Sample.dir "Joystick_A"; Sample.dir "Joystick_B"]
    else [].
Proof.
  cbv [readdirSync Sample.twoJoysticks Sample.mkEnv find fst snd].
  now destruct (String.eqb "/user" folder).
Qed.

Lemma listing_order_sample :
  loadAssets
    (withListing Sample.twoJoysticks
       (fun folder => rev (readdirSync Sample.twoJoysticks folder)))
  = loadAssets Sample.twoJoysticks.
Proof.
  apply listing_order_is_immaterial.
  - intros folder. apply Permutation_rev.
  - intros folder. rewrite twoJoysticks_listing.
    destruct (String.eqb "/user" folder); [|constructor].
    repeat constructor; simpl; intuition discriminate.
Defined.

(* ================================================================== *)
(** * The loop of the conversion ends *)

Lemma partSource_inj (t : string) (i j : nat) :
  partSource t i = partSource t j -> i = j.
Proof.
  unfold partSource. intros H.
  apply (append_inv_head "Robot_") in H. apply append_inv_head in H.
  apply (append_inv_head "_") in H. apply append_inv_tail in H.
  now apply ofIndex_inj.
Qed.

Lemma listed_when_there (p : list string) (name : string) (disk : Fs.node) :
  Fs.stat (p ++ [name]) disk <> None ->
  exists entries,
    Fs.lookup p disk = Some (Fs.Dir entries) /\ In name (map fst entries).
Proof.
  rewrite stat_None, lookup_app. intros H.
  destruct (Fs.lookup p disk) as [[d|entries]|]; try (now destruct H).
  exists entries. split; [reflexivity|]. simpl in H.
  destruct (Fs.getEntry name entries) as [child|] eqn:Eg; [|now destruct H].
  apply getEntry_In in Eg. apply (in_map fst) in Eg. exact Eg.
Qed.

Section Ends.

Variable c : Constants.t.
Variable t : string.
Variable targetPath : string.
Variable entry : Fs.node.

Local Abbreviation os := (Constants.os c).
Local Abbreviation legacy :=
  (Fs.resolve (Constants.os c) (Constants.LEGACY_ASSETS c)).

Hypothesis plain : noSep (sep (Constants.os c)) t = true.

Lemma sources_are_listed (index : nat) :
  (forall j, j < index -> Fs.stat (legacy ++ [partSource t j]) entry <> None) ->
  index <= legacyEntries c entry.
Proof.
  intros Hthere. destruct index as [|index]; [lia|].
  destruct (listed_when_there _ _ _ (Hthere 0 ltac:(lia))) as [entries [Hdir _]].
  unfold legacyEntries. rewrite Hdir.
  assert (Hlen : List.length (map (partSource t) (seq 0 (S index)))
                 <= List.length (map fst entries));
    [|now rewrite !length_map, length_seq in Hlen].
  apply NoDup_incl_length.
  - apply Finite.Injective_map_NoDup; [|apply seq_NoDup].
    intros i j. apply partSource_inj.
  - intros name Hin. apply in_map_iff in Hin as [j [<- Hj]]. apply in_seq in Hj.
    destruct (listed_when_there _ _ _ (Hthere j ltac:(lia))) as [entries' [Hdir' Hin]].
    rewrite Hdir in Hdir'. now inversion Hdir'; subst.
Qed.

Lemma copyParts_ends (fuel index : nat) (disk : Fs.node) :
  (forall q, (forall j, j < index ->
                        q <> Fs.resolve os targetPath ++ [partTarget j]) ->
             Fs.stat q disk = Fs.stat q entry) ->
  (forall j, j < index -> Fs.stat (legacy ++ [partSource t j]) entry <> None) ->
  legacyEntries c entry < index + fuel ->
  snd (copyParts c fuel index t targetPath disk) <> Fs.Unfinished.
Proof.
  revert index disk; induction fuel as [|fuel IH]; intros index disk Hframe Hthere Hfuel.
  - assert (H := sources_are_listed index Hthere). lia.
  - cbn [copyParts]. cbv zeta. fold (partSource t index). fold (partTarget index).
    rewrite bind_existsSync, (resolve_partSource c t plain), Hframe;
      [|intros j _ H; apply app_inj_tail in H as [_ H]; discriminate].
    destruct (Fs.stat (legacy ++ [partSource t index]) entry) as [k|] eqn:Es;
      [|discriminate]. cbn [negb].
    destruct (partTarget_name c t plain index) as [Hn1 Hn2].
    assert (Hstep :
              forall q, q <> Fs.resolve os targetPath ++ [partTarget index] ->
                        Fs.stat q
                          (fst (Fs.copyFileSync os
                                  (Fs.join os (Constants.LEGACY_ASSETS c)
                                     (partSource t index))
                                  (Fs.join os targetPath (partTarget index)) disk))
                        = Fs.stat q disk).
    { intros q Hq. apply copyFileSync_frame. now rewrite (resolve_child _ _ _ Hn1 Hn2). }
    unfold Fs.bind.
    destruct (Fs.copyFileSync os _ _ disk) as [disk' [[]|thrown|]] eqn:Ecopy.
    + apply IH; [| |lia].
      * intros q Hq. simpl in Hstep. rewrite Hstep; [|apply Hq; lia].
        apply Hframe. intros j Hj. apply Hq. lia.
      * intros j Hj. destruct (Nat.eq_dec j index) as [->|Hne]; [congruence|].
        apply Hthere. lia.
    + discriminate.
    + exfalso.
      destruct (copyFileSync_cases os
                  (Fs.join os (Constants.LEGACY_ASSETS c) (partSource t index))
                  (Fs.join os targetPath (partTarget index)) disk)
        as [[data [_ Hw]]|[code Hw]]; rewrite Hw in Ecopy; [|discriminate].
      destruct (write_cases os (Fs.join os targetPath (partTarget index)) data disk)
        as [[_ [_ Hw']]|[code Hw']]; rewrite Hw' in Ecopy; discriminate.
Qed.

End Ends.

(** X25.  The [while (true)] that copies the parts of a robot ends: when
    the title holds no path separator, it makes at most one test of
    [fs.existsSync] more than the legacy folder has entries, whatever the
    folders hold, and then it has found a part that is not there or a copy
    has thrown. *)
Theorem parts_loop_ends (c : Constants.t) (t targetPath : string) (fuel : nat)
  (disk : Fs.node) :
  noSep (sep (Constants.os c)) t = true ->
  legacyEntries c disk < fuel ->
  snd (copyParts c fuel 0 t targetPath disk) <> Fs.Unfinished.
Proof.
  intros Hplain Hfuel.
  apply (copyParts_ends c t targetPath disk Hplain); [reflexivity | lia | lia].
Qed.

Lemma parts_loop_ends_sample :
  legacyEntries Disk.constants Disk.legacy = 6
  /\ snd (copyParts Disk.constants 7 0 "Arm" "/data/userAssets/Robot_Ar" Disk.legacy)
     <> Fs.Unfinished.
Proof.
  split; [reflexivity|].
  apply (parts_loop_ends Disk.constants "Arm" "/data/userAssets/Robot_Ar" 7 Disk.legacy).
  - reflexivity.
  - apply Nat.ltb_lt. reflexivity.
Defined.
(* ================================================================== *)
(** * Admission: what the gates do to the collection *)

Lemma Forall2_In_l {A B : Type} (P : A -> B -> Prop) (l : list A) (l' : list B)
  (x : A) :
  Forall2 P l l' -> In x l -> exists y, In y l' /\ P x y.
Proof.
  induction 1 as [|a b l l' Hab Hrest IH]; intros Hin; [contradiction|].
  destruct Hin as [->|Hin]; [exists b; split; [now left | exact Hab]|].
  destruct (IH Hin) as [y [Hy Hp]]. exists y. split; [now right | exact Hp].
Qed.

(** Removing duplicates and sorting keep a record of every display name. *)
Lemma name_is_kept {A : Type} (name : A -> string) (compare : A -> A -> Z)
  (l : list A) (x : A) :
  In x l ->
  exists r, In r (sortBy compare (removeDuplicates name l)) /\ name r = name x.
Proof.
  intros Hin.
  destruct (find (fun other => String.eqb (name other) (name x)) l) as [r|] eqn:E.
  - destruct (find_some _ _ E) as [_ Hr]. apply String.eqb_eq in Hr.
    exists r. split; [|exact Hr].
    eapply Permutation_in; [symmetry; apply sortBy_perm|].
    apply (removeDuplicates_first name). unfold firstNamed. now rewrite Hr.
  - pose proof (find_none _ _ E x Hin) as H. cbv beta in H.
    now rewrite String.eqb_refl in H.
Qed.

Section Admission.

Variable env : Env.

Lemma failure_leaves (parentFolder : string) (object : Dirent.t) :
  isCandidate object = true ->
  candidateOutcome env parentFolder (Dirent.name object) = Ok Failure ->
  leavesFailure env parentFolder object.
Proof. intros Hc Ho assets0. now rewrite processEntry_outcome, Hc, Ho. Qed.

Ltac outcome_of H :=
  rewrite processEntry_outcome in H;
  match type of H with
  | context [isCandidate ?o] =>
      match goal with Hc : isCandidate o = true |- _ => rewrite Hc in H end
  end;
  match type of H with
  | context [candidateOutcome ?e ?p ?n] =>
      destruct (candidateOutcome e p n) as [[| | | |]|]; simpl in H;
      try discriminate; inversion H; subst; try reflexivity
  end.

Lemma field2d_admits (parentFolder : string) (object : Dirent.t)
  (config : Config2d.t) :
  isCandidate object = true ->
  (admitsField2d env parentFolder object config <->
     candidateOutcome env parentFolder (Dirent.name object) = Ok (Field2d config)).
Proof.
  intros Hc. split.
  - intros H. destruct (H emptyAssets) as [failures [Hp _]]. outcome_of Hp.
  - intros Ho assets0. eexists.
    split; [now rewrite processEntry_outcome, Hc, Ho | apply removeFailure_pushed].
Qed.



Lemma joystick_admits (parentFolder : string) (object : Dirent.t)
  (config : ConfigJoystick.t) :
  isCandidate object = true ->
  (admitsJoystick env parentFolder object config <->
     candidateOutcome env parentFolder (Dirent.name object) = Ok (Joystick config)).
Proof.
  intros Hc. split.
  - intros H. destruct (H emptyAssets) as [failures [Hp _]]. outcome_of Hp.
  - intros Ho assets0. eexists.
    split; [now rewrite processEntry_outcome, Hc, Ho | apply removeFailure_pushed].
Qed.

(** The outcome of a candidate of each kind is the answer of its gate. *)
Lemma outcome_field2d (parentFolder : string) (object : Dirent.t)
  (configRaw : json) (config : Config2d.t) :
  describedBy env "Field2d_" parentFolder object configRaw ->
  buildField2d env parentFolder (Dirent.name object) configRaw = Ok config ->
  isCandidate object = true
  /\ candidateOutcome env parentFolder (Dirent.name object)
     = (ok <- admitField2d env config ;; Ok (if ok then Field2d config else Failure)).
Proof.
  intros (Hdir & Hkind & Hex & Hread & Hobj) Hbuild.
  pose proof (startsWith_Field2d _ Hkind) as Hdot.
  split; [unfold isCandidate; now rewrite Hdir, Hdot|].
  unfold candidateOutcome. rewrite Hex. cbn [negb].
  now rewrite Hread, Hobj, Hkind, Hbuild.
Qed.



Lemma outcome_joystick (parentFolder : string) (object : Dirent.t)
  (configRaw : json) (config : ConfigJoystick.t) :
  describedBy env "Joystick_" parentFolder object configRaw ->
  buildJoystick env parentFolder (Dirent.name object) configRaw = Ok config ->
  isCandidate object = true
  /\ candidateOutcome env parentFolder (Dirent.name object)
     = (ok <- admitJoystick env config ;; Ok (if ok then Joystick config else Failure)).
Proof.
  intros (Hdir & Hkind & Hex & Hread & Hobj) Hbuild.
  destruct (startsWith_Joystick _ Hkind) as [Hdot [H2d [H3d Hrobot]]].
  split; [unfold isCandidate; now rewrite Hdir, Hdot|].
  unfold candidateOutcome. rewrite Hex. cbn [negb].
  now rewrite Hread, Hobj, H2d, H3d, Hrobot, Hkind, Hbuild.
Qed.

(** What the returned collection holds of a candidate, by its outcome. *)
Lemma returned_outcome (assets : AdvantageScopeAssets) (parentFolder : string)
  (object : Dirent.t) :
  loadAssets env = Ok assets ->
  In parentFolder (roots env) ->
  In object (readdirSync env parentFolder) ->
  isCandidate object = true ->
  exists outcome,
    candidateOutcome env parentFolder (Dirent.name object) = Ok outcome
    /\ match outcome with
       | Failure => In (Dirent.name object) (loadFailures assets)
       | Field2d config =>
           exists r, In r (field2ds assets) /\ Config2d.name r = Config2d.name config
       | Field3d config =>
           exists r, In r (field3ds assets)
                     /\ Config3dField.name r = Config3dField.name config
       | Robot config =>
           exists r, In r (robots assets)
                     /\ Config3dRobot.name r = Config3dRobot.name config
       | Joystick config =>
           exists r, In r (joysticks assets)
                     /\ ConfigJoystick.name r = ConfigJoystick.name config
       end.
Proof.
  intros Hload Hroot Hentry Hcand.
  destruct (loadAssets_scan env assets Hload) as [scanned [Hscan ->]].
  destruct (scan_accounts env scanned Hscan)
    as [outcomes [Hout [H2 [H3 [Hr [Hj Hf]]]]]].
  assert (In (parentFolder, object) (allCandidates env)) as Hc
      by (apply allCandidates_spec; now repeat split).
  destruct (Forall2_In_l _ _ _ _ Hout Hc) as [outcome [Hin Ho]]. simpl in Ho.
  exists outcome. split; [exact Ho|].
  destruct outcome as [|config|config|config|config]; simpl.
  - eapply Permutation_in; [symmetry; apply sortBy_perm|].
    eapply Permutation_in; [symmetry; exact Hf|].
    now apply (failedNames_In env _ _ (parentFolder, object) Hout).
  - apply name_is_kept. rewrite H2. apply in_flat_map.
    exists (Field2d config). split; [exact Hin | now left].
  - apply name_is_kept. rewrite H3. apply in_flat_map.
    exists (Field3d config). split; [exact Hin | now left].
  - apply name_is_kept. rewrite Hr. apply in_flat_map.
    exists (Robot config). split; [exact Hin | now left].
  - apply name_is_kept. rewrite Hj. apply in_flat_map.
    exists (Joystick config). split; [exact Hin | now left].
Qed.

End Admission.

(** ** 2D fields *)

Lemma admitField2d_decides (env : Env) (config : Config2d.t) :
  (exists file, Uri.decodeURIComponent (Config2d.path config) = Ok file) ->
  ~ validField2d env config ->
  admitField2d env config = Ok false.
Proof.
  intros [file Hd] Hnot.
  assert (exists b, admitField2d env config = Ok b) as [[|] Hb].
  { unfold admitField2d. rewrite Hd. destruct (_ && _); simpl; eauto. }
  - exfalso. apply Hnot. now apply (proj1 (field2d_gate env config)).
  - exact Hb.
Qed.

(** C7.  A 2D field candidate is admitted (its record is pushed onto
    [field2ds] and its name is taken out of [loadFailures] again) exactly
    when the record built for it has a name that is not empty, corner
    coordinates that are not negative, positive dimensions, and an image
    that exists; otherwise nothing is pushed and its name stays in
    [loadFailures].  A candidate whose [topLeft] is the default [[-1, -1]],
    as it is when [config.json] has no [topLeft] or one that is no pair of
    numbers, stays a failure whatever its other fields hold.  When
    [loadAssets] returns, a record of the display name of an admitted
    candidate is among the returned 2D fields, and the name of a rejected
    candidate is among the returned load failures. *)
Theorem field2d_admission (env : Env) (parentFolder : string) (object : Dirent.t)
  (configRaw : json) (config : Config2d.t) :
  describedBy env "Field2d_" parentFolder object configRaw ->
  buildField2d env parentFolder (Dirent.name object) configRaw = Ok config ->
  (admitsField2d env parentFolder object config <->
     Config2d.name config <> ""%string
     /\ (0 <= fst (Config2d.topLeft config))%Q
     /\ (0 <= snd (Config2d.topLeft config))%Q
     /\ (0 <= fst (Config2d.bottomRight config))%Q
     /\ (0 <= snd (Config2d.bottomRight config))%Q
     /\ (0 < Config2d.widthInches config)%Q
     /\ (0 < Config2d.heightInches config)%Q
     /\ exists file, Uri.decodeURIComponent (Config2d.path config) = Ok file
                     /\ existsSync env file = true)
  /\ ((exists file, Uri.decodeURIComponent (Config2d.path config) = Ok file) ->
      ~ admitsField2d env parentFolder object config ->
      leavesFailure env parentFolder object)
  /\ (Config2d.topLeft config = (-1 # 1, -1 # 1)%Q ->
      leavesFailure env parentFolder object)
  /\ ((forall v, field "topLeft" configRaw = Ok (Some v) -> asPair v = None) ->
      Config2d.topLeft config = (-1 # 1, -1 # 1)%Q)
  /\ (forall assets,
        In parentFolder (roots env) ->
        In object (readdirSync env parentFolder) ->
        loadAssets env = Ok assets ->
        (admitsField2d env parentFolder object config ->
         exists r, In r (field2ds assets) /\ Config2d.name r = Config2d.name config)
        /\ (~ admitsField2d env parentFolder object config ->
            In (Dirent.name object) (loadFailures assets))).
Proof.
  intros Hdesc Hbuild.
  destruct (outcome_field2d env _ _ _ _ Hdesc Hbuild) as [Hcand Hout].
  destruct (field2d_gate env config) as [Hgate [Hdefault Hraw]].
  assert (Hadmits : admitsField2d env parentFolder object config
                    <-> admitField2d env config = Ok true).
  { rewrite (field2d_admits env _ _ _ Hcand), Hout.
    destruct (admitField2d env config) as [[|]|e]; simpl;
      split; congruence. }
  assert (Hfalse : admitField2d env config = Ok false ->
                   leavesFailure env parentFolder object).
  { intros Hno. apply failure_leaves; [exact Hcand|]. now rewrite Hout, Hno. }
  split; [now rewrite Hadmits|].
  split.
  { intros Hd Hnot. apply Hfalse, (admitField2d_decides env config Hd).
    intros Hvalid. apply Hnot, Hadmits, Hgate. exact Hvalid. }
  split; [intros Htop; exact (Hfalse (Hdefault Htop))|].
  split; [exact (Hraw parentFolder (Dirent.name object) configRaw Hbuild)|].
  intros assets Hroot Hentry Hload.
  destruct (returned_outcome env assets _ _ Hload Hroot Hentry Hcand)
    as [outcome [Ho Hin]].
  rewrite (field2d_admits env _ _ _ Hcand), Ho.
  rewrite Hout in Ho.
  destruct (admitField2d env config) as [[|]|e]; simpl in Ho; inversion Ho; subst.
  - split; [intros _; exact Hin | intros Hn; now contradiction Hn].
  - split; [discriminate | intros _; exact Hin].
Qed.

(** ** Joysticks *)

Lemma admitJoystick_decides (env : Env) (config : ConfigJoystick.t) :
  (exists file, Uri.decodeURIComponent (ConfigJoystick.path config) = Ok file) ->
  ~ validJoystick env config ->
  admitJoystick env config = Ok false.
Proof.
  intros [file Hd] Hnot.
  assert (exists b, admitJoystick env config = Ok b) as [[|] Hb].
  { unfold admitJoystick. rewrite Hd. destruct (_ && _); simpl; eauto. }
  - exfalso. apply Hnot. now apply (admitJoystick_iff env config).
  - exact Hb.
Qed.

(** C8.  A joystick candidate is admitted (its record is pushed onto
    [joysticks] and its name is taken out of [loadFailures] again) exactly
    when the record built for it has a name that is not empty, components
    that all pass the check of their variant, and an image that exists;
    otherwise nothing is pushed and its name stays in [loadFailures].  A
    candidate whose descriptor holds a button with [sizePx: [0, 5]] stays a
    failure whatever its other fields hold.  When [loadAssets] returns, a
    record of the display name of an admitted candidate is among the
    returned joysticks, and the name of a rejected candidate is among the
    returned load failures. *)
Theorem joystick_admission (env : Env) (parentFolder : string) (object : Dirent.t)
  (configRaw : json) (config : ConfigJoystick.t) :
  describedBy env "Joystick_" parentFolder object configRaw ->
  buildJoystick env parentFolder (Dirent.name object) configRaw = Ok config ->
  (admitsJoystick env parentFolder object config <->
     ConfigJoystick.name config <> ""%string
     /\ Forall componentValid (ConfigJoystick.components config)
     /\ exists file, Uri.decodeURIComponent (ConfigJoystick.path config) = Ok file
                     /\ existsSync env file = true)
  /\ ((exists file, Uri.decodeURIComponent (ConfigJoystick.path config) = Ok file) ->
      ~ admitsJoystick env parentFolder object config ->
      leavesFailure env parentFolder object)
  /\ (forall items props,
        field "components" configRaw = Ok (Some (JArr items)) ->
        In (JObj props) items ->
        assoc "type" props = Some (JStr "button") ->
        assoc "sizePx" props = Some (JArr [JNum 0; JNum 5]) ->
        leavesFailure env parentFolder object)
  /\ (forall assets,
        In parentFolder (roots env) ->
        In object (readdirSync env parentFolder) ->
        loadAssets env = Ok assets ->
        (admitsJoystick env parentFolder object config ->
         exists r, In r (joysticks assets)
                   /\ ConfigJoystick.name r = ConfigJoystick.name config)
        /\ (~ admitsJoystick env parentFolder object config ->
            In (Dirent.name object) (loadFailures assets))).
Proof.
  intros Hdesc Hbuild.
  destruct (outcome_joystick env _ _ _ _ Hdesc Hbuild) as [Hcand Hout].
  destruct (joystick_gate env config) as [Hgate Hbutton].
  assert (Hadmits : admitsJoystick env parentFolder object config
                    <-> admitJoystick env config = Ok true).
  { rewrite (joystick_admits env _ _ _ Hcand), Hout.
    destruct (admitJoystick env config) as [[|]|e]; simpl;
      split; congruence. }
  assert (Hfalse : admitJoystick env config = Ok false ->
                   leavesFailure env parentFolder object).
  { intros Hno. apply failure_leaves; [exact Hcand|]. now rewrite Hout, Hno. }
  split; [now rewrite Hadmits|].
  split.
  { intros Hd Hnot. apply Hfalse, (admitJoystick_decides env config Hd).
    intros Hvalid. apply Hnot, Hadmits, Hgate. exact Hvalid. }
  split.
  { intros items props Hitems Hin Htype Hsize. apply Hfalse.
    exact (Hbutton parentFolder (Dirent.name object) configRaw items props
             Hbuild Hitems Hin Htype Hsize). }
  intros assets Hroot Hentry Hload.
  destruct (returned_outcome env assets _ _ Hload Hroot Hentry Hcand)
    as [outcome [Ho Hin]].
  rewrite (joystick_admits env _ _ _ Hcand), Ho.
  rewrite Hout in Ho.
  destruct (admitJoystick env config) as [[|]|e]; simpl in Ho; inversion Ho; subst.
  - split; [intros _; exact Hin | intros Hn; now contradiction Hn].
  - split; [discriminate | intros _; exact Hin].
Qed.

(** ** 3D fields and robots *)

Lemma buildField2d_path (env : Env) (parentFolder objectName : string)
  (configRaw : json) (config : Config2d.t) :
  buildField2d env parentFolder objectName configRaw = Ok config ->
  Config2d.path config
  = encodePath (os env) (pathJoin env parentFolder objectName "image.png").
Proof. unfold buildField2d. intros H. now invert_build H. Qed.



Lemma buildJoystick_path (env : Env) (parentFolder objectName : string)
  (configRaw : json) (config : ConfigJoystick.t) :
  buildJoystick env parentFolder objectName configRaw = Ok config ->
  ConfigJoystick.path config
  = encodePath (os env) (pathJoin env parentFolder objectName "image.png").
Proof. unfold buildJoystick. intros H. now invert_build H. Qed.


Section Models3d.

Variable env : Env.



End Models3d.


(** ** Candidates without parts *)

Section Gates.

Variable env : Env.




End Gates.



(* ================================================================== *)
(** * The theorems on the sample folders *)

Example ofIndex_decimal :
  Str.ofIndex 0 = "0"%string /\ Str.ofIndex 7 = "7"%string
  /\ Str.ofIndex 10 = "10"%string
  /\ auxiliaryFile "/user/Robot_Arm/model.glb" 1
     = "/user/Robot_Arm/model_1.glb"%string.
Proof. repeat split. Qed.

Example complete_robot_loads :
  loadAssets Sample.completeRobot
  = Ok {| field2ds := []; field3ds := []; robots := [Sample.armRobot];
          joysticks := []; loadFailures := [] |}.
Proof. reflexivity. Qed.

Example incomplete_robot_fails :
  loadAssets Sample.incompleteRobot
  = Ok {| field2ds := []; field3ds := []; robots := []; joysticks := [];
          loadFailures := ["Robot_Arm"%string] |}.
Proof. reflexivity. Qed.


Example field2d_without_topLeft_fails :
  loadAssets Sample.noTopLeft
  = Ok {| field2ds := []; field3ds := []; robots := []; joysticks := [];
          loadFailures := ["Field2d_Plain"%string] |}.
Proof. reflexivity. Qed.

Lemma field2d_admission_sample :
  admitsField2d Sample.threeFields "/bundled" (Sample.dir "Field2d_A")
    (Sample.field2dRecord "Alpha" "Field2d_A")
  /\ leavesFailure Sample.noTopLeft "/user" (Sample.dir "Field2d_Plain").
Proof.
  split.
  - apply (field2d_admission Sample.threeFields "/bundled"%string
             (Sample.dir "Field2d_A") (Sample.field2dJson "Alpha")
             (Sample.field2dRecord "Alpha" "Field2d_A")
             ltac:(repeat split) eq_refl).
    repeat split; try discriminate.
    exists "/bundled/Field2d_A/image.png"%string. split; reflexivity.
  - apply (field2d_admission Sample.noTopLeft "/user"%string
             (Sample.dir "Field2d_Plain") Sample.noTopLeftJson
             Sample.noTopLeftRecord ltac:(repeat split) eq_refl).
    reflexivity.
Defined.

Example flat_button_fails :
  loadAssets Sample.flatButton
  = Ok {| field2ds := []; field3ds := []; robots := []; joysticks := [];
          loadFailures := ["Joystick_Pad"%string] |}
  /\ loadAssets Sample.squareButton
     = Ok {| field2ds := []; field3ds := []; robots := [];
             joysticks := [Sample.squareButtonRecord]; loadFailures := [] |}.
Proof. split; reflexivity. Qed.

Lemma joystick_admission_sample :
  admitsJoystick Sample.squareButton "/user" (Sample.dir "Joystick_Pad")
    Sample.squareButtonRecord
  /\ leavesFailure Sample.flatButton "/user" (Sample.dir "Joystick_Pad").
Proof.
  split.
  - apply (joystick_admission Sample.squareButton "/user"%string
             (Sample.dir "Joystick_Pad") Sample.squareButtonJson
             Sample.squareButtonRecord ltac:(repeat split) eq_refl).
    split; [discriminate|]. split.
    + constructor; [|constructor]. simpl.
      split; [reflexivity | split; [reflexivity | discriminate]].
    + exists "/user/Joystick_Pad/image.png"%string. split; reflexivity.
  - eapply (proj1 (proj2 (proj2
              (joystick_admission Sample.flatButton "/user"%string
                 (Sample.dir "Joystick_Pad") Sample.flatButtonJson
                 Sample.flatButtonRecord ltac:(repeat split) eq_refl)))).
    + reflexivity.
    + now left.
    + reflexivity.
    + reflexivity.
Defined.

Example bare_joystick_loads :
  loadAssets Sample.noComponents
  = Ok {| field2ds := []; field3ds := []; robots := [];
          joysticks := [Sample.bareJoystick]; loadFailures := [] |}.
Proof. reflexivity. Qed.


(** Folder names that hold U+FB01 and U+1F600: the code units of the first
    are the greater, so its folder is visited first, although its bytes are
    the lesser. *)
Example folders_by_code_units :
  sortBy compareEntries
    [Sample.dir ("Field2d_" ++ Sample.grin);
     Sample.dir ("Field2d_" ++ Sample.ligature)]
  = [Sample.dir ("Field2d_" ++ Sample.ligature);
     Sample.dir ("Field2d_" ++ Sample.grin)]
  /\ String.ltb ("Field2d_" ++ Sample.ligature) ("Field2d_" ++ Sample.grin) = true
  /\ sortBy compareNamesDescending [Sample.grin; "Zeta"%string; Sample.ligature]
     = [Sample.ligature; Sample.grin; "Zeta"%string].
Proof. repeat split; reflexivity. Qed.

Lemma encodePath_roundtrip_sample :
  nth_error (Str.split (sep posix) "/home/a b/x#1/image.png") 2 = Some "a b"%string
  /\ nth_error (Str.split (sep posix) (encodePath posix "/home/a b/x#1/image.png")) 2
     = Some "a%20b"%string
  /\ decodeSegments posix (encodePath posix "/home/a b/x#1/image.png")
     = Ok "/home/a b/x#1/image.png"%string.
Proof.
  split; [reflexivity|].
  destruct (encodePath_segments_roundtrip posix "/home/a b/x#1/image.png")
    as [_ [Hsegment Hround]].
  split; [|exact Hround].
  apply (Hsegment 2 "a b"%string eq_refl). discriminate.
Defined.
